(* ===== verification/_CoqProject ===== *)
-Q . S2P
Prelude.v
JsPrims.v
Decoder.v
DecoderMachine.v
Utf8.v
Utf8Strict.v
Encoder.v
Base64.v
Nacl.v
Md5.v
NaclModel.v
SaltShaker.v
Protocols.v
Loader.v
Exports.v
Session.v
Typing.v
ApiSpec.v
Refinement.v
Letters.v
Wire.v
Client.v
