(* ===== verification/Prelude.v ===== *)
(** * SaltShaker: a verification development

    ** The program

    [src/saltshaker.js] (167 lines, one module) wraps three libraries,
    tweetnacl ([nacl.*], [nacl.util.*]), ed2curve and an MD5 library, into
    seven functions that speak base64 text: [create] makes or rebuilds a
    signing key pair, [sign] and [verify] make and open signed messages,
    [encrypt] and [decrypt] box a message between two key pairs,
    [encryptPSK] and [decryptPSK] box it under a passphrase.  The module's
    own logic is two hand-written codecs, [_decoder] (bytes to text, lines
    45-78) and [_encoder] (text to bytes, lines 83-93), and the way the seven
    functions compose the libraries: which conversions are applied, in which
    order the arguments are evaluated, and what happens when a library
    returns [null] or throws.  There is no state between calls except the
    random source that [nacl.randomBytes] and [nacl.sign.keyPair] read.
    The file is one immediately invoked function: when it is evaluated it
    chooses the object that receives the seven functions ([module.exports]
    or [self.SaltShaker], line 167), reads [md5.md5] once (line 39) and
    assigns the functions; [nacl] and [ed2curve] are global variables the
    functions look up each time they run.

    ** The files, in the order they are compiled

    - [Prelude] (this file): bytes ([Init.Byte.byte] with [byte_to_Z] and
      [byte_of_Z]), exceptions ([exn], [result] and its monad instances),
      the monad [ST] of computations on a state that may throw (the random
      source in [Nacl], the heap in [Loader]) with its laws and the tactic
      [returned] that inverts a computation that returned, the arithmetic
      reading of
      masks and shifts, list lemmas for arrays read through an index, the
      tactics [divmod] and [decide_by_computation], the hint databases
      [salt].
    - [JsPrims]: the JavaScript semantics the source relies on.  Strings are
      lists of 16-bit code units ([jsstring], [wf_string]); [&], [|], [<<]
      and [>>] act on 32-bit integers ([js_and], [js_or], [js_shl],
      [js_sar], with [wrap32]); reading a [Uint8Array] past its end gives
      [undefined] ([Uint8Array_get] returns [None]) which the bitwise
      operators read as 0 ([ToInt32]); [new Uint8Array(typedArray)] converts
      element by element ([Uint8Array_from]).
    - [Decoder]: [_decoder].  [decoder_body] is one iteration of the [while]
      loop, [decoder_loop] the loop with its index, [_decoder] the function,
      [_decoder_nullable] the function applied to a value that may be [null].
      [decode_ref] is the reference decoder by recursion on the byte list.
    - [DecoderMachine]: the same loop as a transition system: the state
      [config] holds the variables [out] and [i], [step] is one iteration
      taken when [i < len], [inv] is the loop invariant, [exec] runs the
      steps as a function.  The file also holds the decoder the
      specification recommends, a machine fed one byte at a time ([mstate],
      [feed], [flush], [machine]); it is a specification, not a translation
      of any line of the source, and [_decoder] is proved to implement it.
    - [Utf8]: [nacl.util.decodeUTF8], the encoder of the messages, modelled
      from its contract, and its composition with [_decoder].
    - [Utf8Strict]: a validating UTF-8 decoder of the Basic Multilingual
      Plane ([utf8_strict]), the decoder the specification allows in place
      of the best-effort one.  It is a specification; [_decoder] is
      compared with it.
    - [Encoder]: [_encoder], with the loop [encoder_loop] over the
      [Uint16Array] view.
    - [Base64]: [nacl.util.encodeBase64] and [decodeBase64], modelled from
      their contract, with the round trip, induction over the groups of
      three bytes and of four characters, the alteration [tamper] of the
      bits of a text that the decoder does not read, and the equivalence
      [same_bytes] of the texts that decode alike.
    - [Nacl]: the interface of the primitive libraries: the random source
      [rng] and the monad [M] of computations that draw from it and may
      throw, the class [Primitives] of cryptographic operations with their
      laws (what opens what, the sizes of keys, signed messages and boxes,
      the range of the conversions of ed2curve), and the argument checks of
      the tweetnacl API as definitions over the class.
    - [Md5]: the digest [md5.md5] computes, written from RFC 1321 on
      32-bit words kept at their width ([word], [rotl]): padding, the 64
      operations of a block, the hexadecimal text.  It is checked on the
      test suite of the RFC and discharges the two laws the interface asks
      of [md5] ([md5_hexdigest_length], [md5_hexdigest_digits]);
      [md5_round_words] and [md5_pad_length] show that the state stays made
      of 32-bit words and that padding gives whole blocks.
    - [NaclModel]: an executable instance of [Primitives], a test double
      that satisfies the laws; it shows that the laws are consistent and
      runs the witnesses.  Its digest is the one of [Md5], so the keys the
      examples derive from a passphrase are those of the program
      ([psk_key_correct_horse]).
    - [SaltShaker]: the seven exported functions, composed as in the source,
      and the theorems about them, proved for every instance of
      [Primitives].  Four lemmas say how the functions run on keys that
      [create()] made ([sign_verify_run], [box_exchange_run], [psk_run],
      [create_created]); the round trips and the files below use them.
    - [Protocols]: two compositions of the functions by their callers,
      written as programs on the random source: a signed letter
      ([seal_letter], [open_letter], [correspondence]) and a private key
      kept under a passphrase ([backup], [restore], [escrow]).  They model
      no line of the source.
    - [Loader]: the evaluation of the file (lines 35, 39, 167 and the seven
      assignments).  The state is a heap of objects ([heap], a finite map
      from locations to [object]s with named properties, some callable);
      the global variables are a record [globals] in which a variable may
      be undeclared.  [module_test] and [target] are the argument on line
      167, [assign] one assignment of a function expression, [body] the
      function called, [load] the whole.  The specification predicates
      [installed] and [frame] say what an object has received and what has
      not changed.
    - [Exports]: a call [T.name(arguments)] on the heap [load] produced
      ([invoke]), and the function called as it runs in its environment
      ([run_export]).  The functions are written there a second time
      with their free variables ([create_in] to [decryptPSK_in]): a use of
      [nacl] or [ed2curve] is a lookup that throws when the library is
      missing ([need]), a use of [_md5] is a call of what the variable
      holds ([call_md5]), each at its place in the order of evaluation.
      With the libraries there these functions are the operations of
      [SaltShaker] ([run_export_loaded]).
    - [Session]: sequences of calls threaded through the random source
      ([session]), the number of bytes each kind of call takes ([draws]),
      and the equivalence [same_future] of two states of the source that
      deliver the same bytes, with the [Proper] instances that say that
      every call respects it.
    - [Typing]: the types of the values the functions return ([wf_keys],
      [wf_envelope], [wf_retval]) as decidable predicates.
    - [ApiSpec]: the contract of the design document, written without
      reference to the code: the four failures of its error taxonomy
      ([spec_error]), the base64 arguments of each operation ([inputs]) with
      what makes one well formed ([holds]) or rejected ([rejected]), and the
      relation [allowed g c o] between a call, the state of the random
      source and an outcome, with its executable form [outcomes].  It is a
      specification.
    - [Refinement]: the program against the contract.  [spec_error_of] reads
      an exception as a failure of the contract, [implements] says that a
      result is one the contract allows, [in_contract] is the set of calls
      on which the program implements the contract.
    - [Letters]: a client of the contract: what any implementation that
      conforms to it ([conforms]) returns at the four calls of a signed
      letter, proved from [allowed] without reference to the code.
    - [Wire]: the texts that cross the boundary: their lengths, the texts
      the reading operations accept beside the ones the writing operations
      produce, and the operations as morphisms of [same_bytes] ([Proper]
      instances, [alike]).
    - [Client]: a program that evaluates the file and then makes a
      sequence of calls through the object ([calls_through]); the
      composition of [Loader], [Exports], [Session] and [Refinement].

    ** What the theorems show

    - Codecs.  The loop of [_decoder] computes [decode_ref] and ends within
      [len] iterations ([decoder_refines_decode_ref], [decoder_loop_fuel]);
      its output is no longer than its input ([decoder_length]); it is the
      identity on ASCII.  In the body of the loop nothing wraps around and
      nothing is truncated: an iteration computes what its expressions
      compute on unbounded integers, without [ToInt32], the reduction of
      the 32-bit operators or the [ToUint16] of [String.fromCharCode]
      ([decoder_body_no_overflow]).
      As a transition system the loop keeps its invariant in every state
      it reaches ([reachable_inv]) and goes on from there to one state
      ([reachable_finishes], [final_unique]) that holds the result, the
      index then being at most two places past the end
      ([final_is_decoder]).  From every state, reached or not, no run is
      infinite, and a run from index [i] that ends has between a third of
      [len - i] and [len - i] iterations ([step_terminates]).  [_decoder] implements the byte-at-a-time
      machine ([decoder_refines_machine]); it can be applied piecewise to
      an input cut at the end of a form ([decoder_app_complete]); an input
      cut inside a form is decoded as if the missing bytes were zero
      ([decoder_truncation_zero_fill]).
      Composed with the UTF-8 encoder it returns the string without its
      surrogate code units ([decoder_decodeUTF8]): the round trip holds on
      the Basic Multilingual Plane ([decoder_decodeUTF8_roundtrip]) and
      every character beyond it is lost ([decoder_drops_astral]).
      [_encoder] returns the low byte of each code unit
      ([encoder_low_bytes]), not the bytes of its 16-bit buffer
      ([encoder_not_buffer_bytes]).
      From every state it reaches the loop goes on to its final state
      within [len - i] iterations ([reachable_finishes]).  The validating
      decoder accepts exactly the UTF-8 encodings of strings without
      surrogates ([strict_iff_encoding]) and on those [_decoder] returns
      the same string ([decoder_agrees_with_strict]); [strict_rejects]
      lists input on which the two differ.
    - Envelope round trips, for keys made by [create()]:
      [sign_verify_roundtrip], [encrypt_decrypt_roundtrip],
      [encryptPSK_decryptPSK_roundtrip], [create_roundtrip]; and what
      [verify] returns for a message with characters beyond the Basic
      Multilingual Plane ([sign_verify_loses_astral]).  The envelope
      between two parties is the same whichever of them makes it
      ([envelope_has_no_direction]).
    - Failure.  [verify] returns [null] when the signature is rejected and
      does not throw ([verify_returns_null_on_rejection]); [decrypt] and
      [decryptPSK] throw a [TypeError] when the box does not open
      ([decrypt_failure_throws], [decryptPSK_failure_throws]); which
      exception a bad message, key or key size produces and which comes
      first ([sign_message_error_first], [sign_bad_key],
      [create_bad_key_size], [verify_bad_key_size],
      [decrypt_bad_nonce_size], [encrypt_unconvertible_key],
      [encrypt_error_order], [decrypt_error_order]); [create("")]
      generates a key pair ([create_empty_string_generates]).
    - Randomness.  [encrypt] and [encryptPSK] draw exactly 24 bytes, also
      when they throw; successive calls read disjoint windows of the source
      ([encrypt_draws_nonce], [encrypt_twice_fresh_nonce],
      [encryptPSK_total]); [create] with a key draws nothing and
      returns the second half of the key as the public key
      ([create_from_key_deterministic], [create_mismatched_halves]).  In a session of any calls, each
      call runs at the position fixed by the kinds of the calls before it,
      whatever they returned or threw ([session_offsets]), two envelopes
      never have nonces from overlapping windows
      ([session_nonces_disjoint]), and the outcome depends on the source
      only through the bytes not yet delivered ([session_proper]).  The
      calls that take nothing from the source do not read it: they return
      the same in every session and in any order ([run_export_pure],
      [session_independent], [session_pure_Permutation]); the calls that
      take random bytes do not commute ([session_order_matters]).
    - The passphrase key has the 32 bytes the secret box requires, each
      the code of a hexadecimal digit ([psk_key_length]).
    - Contract.  A call that the contract allows to return has one result
      and may not fail ([allowed_Returns_unique],
      [allowed_Returns_not_Fails]); a failure names a rejected input or a
      failure of the cryptography ([allowed_Fails_reason]); the contract
      allows some outcome for every call whose text can be encoded
      ([allowed_total]); the outcomes it allows are the ones the function
      [outcomes] lists ([allowed_iff_outcomes]), so the contract is
      decidable ([allowed_dec]) and runs on the results of the model
      ([errand_verdicts], [verdicts_session]).  On the calls of
      [in_contract] the program does what the contract allows, its
      exceptions read as the failures they stand for
      ([operation_implements_contract], from one lemma per operation:
      [create_implements], [sign_implements], ...), and on every other
      call it does not ([contract_broken_outside]): the three conditions of
      [in_contract] are the calls on which the results differ from the
      design document.  Two more departures do not show in [in_contract]
      because the comparison takes the side of the program.  The program
      has no typed failures: a box that does not open is the [TypeError]
      of reading [null.length] and a nonce of the wrong size is an
      [Error], and [spec_error_of] reads both as [AuthenticationError].
      The key of a passphrase in the contract ([derived_key]) is the one
      the program derives, one byte for each digit of the digest, where
      section 4.1 of the document describes an encoder of two bytes for
      each code unit.  The contract's decoder ([decodeToText]) is
      [decode_ref], which fixes what the document leaves open (other lead
      bytes are skipped, a form cut short is completed with zeros) as the
      program does.  [psk_scenario_contract] is the scenario of
      the document.  When every input of a call is well formed the
      contract allows one outcome only ([allowed_accepted]), which is
      enough for a caller: any implementation that conforms to the
      contract carries a signed letter between two parties
      ([letter_by_contract]), and the program is one
      ([operation_conforms]).
    - Composition.  A letter that is signed, then encrypted, then
      decrypted and verified arrives as [verify] alone would return it,
      and the random source has given two seeds and one nonce; a message
      that cannot be encoded stops the sender before any nonce is drawn
      ([correspondence_delivers], from [seal_letter_run] and
      [seal_letter_throws]).  A private key kept under a passphrase
      rebuilds the same pair of keys ([escrow_restores]).  Both hold
      because base64 text survives the codecs of messages
      ([base64_text_roundtrips]).
    - The whole.  A program that evaluates the file in a complete
      environment and makes any calls through the object gets, for each
      call, the result of the operation at the position of the random
      source the calls before it left, and that result is one the contract
      allows exactly when the call is in [in_contract]
      ([client_conforms] through [module.exports],
      [client_conforms_self] through [self.SaltShaker]; [errand_runs] is
      such a program).
    - Wire format.  The text of an envelope and of a signed message has
      the length the sizes of the primitives and of the UTF-8 encoding give
      ([envelope_sizes], [sign_size], [decodeUTF8_length]).  A signed
      message encloses its message for any reader, and [verify] returns
      that text or nothing ([signed_message_format], [verify_enclosed]).  The decoder of
      base64 ignores the bits of the last character that belong to no byte
      ([tamper_decodeBase64]), so the operations that read text accept
      text that no operation writes
      ([decrypt_accepts_tampered_text], [tamper_read_alike],
      [tamper_not_canonical]).  More generally every operation reads a
      key, a nonce, a signed message or a ciphertext through its decoding
      only, [create] included, since only the empty text decodes to no
      bytes: two calls whose base64 arguments are different texts of the
      same bytes do the same ([operations_read_bytes], from the [Proper]
      instances of the seven functions).
    - Loading.  With a [module] whose [exports] is an object, that object
      receives the seven functions and [self] is not consulted
      ([load_module_exports]); otherwise an existing [self.SaltShaker]
      receives them and keeps its other properties ([load_self_existing]),
      or a new object is created and stored ([load_self_fresh]); in each
      case nothing else in the heap changes.  Without [self] the
      evaluation throws and changes nothing ([load_self_undeclared]);
      without [md5] it throws after [self.SaltShaker] has been created
      ([load_md5_undeclared]).
    - Calls through the object.  After loading, a call of any of the seven
      properties is the operation of that name, through [module.exports]
      ([invoke_after_load]) and through [self.SaltShaker]
      ([invoke_after_load_self]); evaluating the file a second time keeps
      the object and replaces its functions ([load_twice]).  A
      missing [nacl] or [ed2curve] and an [md5.md5] that is not a function
      are noticed only when a function that mentions them runs, after the
      work that precedes the mention; the other functions are the
      operations ([run_export_library_missing], [invoke_without_md5],
      from [run_export_needs] and [run_export_cases]).
    - Types.  Every value a function returns has the type of its kind
      ([operation_well_typed]); [create] is the identity on well-formed
      keys ([create_well_formed_id]).

    A theorem that carries a claim id in its comment is a leaf: no other
    proof uses it.  What several proofs need is a lemma stated before them.

    ** Bounds and fuel

    The two loops are structural recursions on a fuel argument.
    [_decoder] gives its loop [len] units: every iteration advances the
    index by at least one, and [decoder_loop_ref] proves the result for any
    fuel of at least [len - i]; on the step relation the same measure
    bounds the length of every run ([exec_stops]).  [_encoder] gives its loop [strLen] units,
    one per iteration ([encoder_loop_spec]).  The 32-bit operators are
    modelled with their wrap-around; [two_byte_expr] and [three_byte_expr]
    show that on values read from a byte array no wrap-around occurs.

    ** Assumptions and what is not modelled

    - The cryptography itself (Ed25519, Curve25519, XSalsa20-Poly1305) is
      not modelled: the theorems assume the laws of [Nacl.Primitives].
      MD5 is written out in [Md5] for the model instance only; the theorems
      on [encryptPSK] and [decryptPSK] hold for every digest of 32
      hexadecimal digits.  How the MD5 library turns a passphrase outside
      ASCII into bytes is not in the repository: [md5_text] encodes UTF-8
      ([passphrase_bytes_ascii] covers the passphrases on which the
      libraries agree).
      Statements about secrecy, unforgeability or the effect of flipping a
      bit of the bytes of a ciphertext are outside the development; what is
      proved about failure is what the program does when a primitive
      reports it, and what is proved about altered text ([Wire]) concerns
      text that decodes to the same bytes.  No law says that a box that
      was not sealed does not open: the instance of [NaclModel] satisfies
      the laws and opens a box whose bytes were changed
      ([model_opens_altered_box]).
    - [nacl.util.decodeBase64] is taken to ignore the bits of the last
      character that belong to no byte, as the [atob] and [Buffer.from] it
      calls after its check of the alphabet do.
    - [ed2curve.convertSecretKey] is a total function that returns 32
      bytes for any input ([convertSecretKey_length]), and
      [ed2curve.convertPublicKey] returns 32 bytes when it returns a key
      ([convertPublicKey_length]).
    - [nacl.box.open], [nacl.secretbox.open] and [nacl.sign.open] are taken
      to return [null] on failure, as tweetnacl 1.0 does, and
      [ed2curve.convertPublicKey] to return [null] for a key it rejects.
    - A signed message is taken to be the 64 bytes of the signature
      followed by the message, and a box the 16 bytes of the authenticator
      followed by as many bytes as the message has ([sign_attached],
      [sign_length], [secretbox_length]), as in tweetnacl.
    - Arguments are taken to be strings ([create]'s may be [undefined]);
      calls with values of other types are not modelled.
    - The random source is a stream of bytes read in order; nothing is
      assumed about its distribution.
    - In [Loader] an object is its own properties, all of them writable:
      prototype chains, accessors, frozen objects and proxies are not
      modelled, nor is the [prototype] object a function expression
      creates.  A call of a function that is not one of the module's is
      outside the model ([invoke] returns [None]).
    - Nothing else of the source is left: every statement of
      [src/saltshaker.js] is translated by a definition of one of the
      files above.  The libraries it calls are not part of the repository
      and are modelled from their contracts. *)

From Stdlib Require Import ZArith Lia List String Ascii.
From Stdlib Require Init.Byte Strings.Byte.
From coqutil Require Import Z.bitblast.
From stdpp Require Import base tactics option list numbers strings.

Local Open Scope Z_scope.

Create HintDb salt discriminated.
Create Rewrite HintDb salt.

(** ** Tactics *)

(** Close a decidable goal on concrete data by evaluating its decision
    procedure. *)
Ltac decide_by_computation :=
  match goal with
  | |- ?P =>
      let d := constr:(_ : Decision P) in
      apply (@bool_decide_eq_true_1 P d); vm_compute; reflexivity
  end.

(** Linear arithmetic with quotients and remainders by constants. *)
Ltac divmod := Z.div_mod_to_equations; lia.

(** ** Bytes: the elements of a [Uint8Array] *)

Abbreviation byte := Init.Byte.byte.

Definition byte_to_Z (b : byte) : Z := Z.of_N (Byte.to_N b).

Definition byte_of_Z (z : Z) : byte :=
  match Byte.of_N (Z.to_N (z mod 256)) with
  | Some b => b
  | None => Byte.x00
  end.

Lemma byte_to_Z_range (b : byte) : 0 <= byte_to_Z b < 256.
Proof.
  unfold byte_to_Z. pose proof (Byte.to_N_bounded b). lia.
Qed.

Lemma byte_to_of_Z (z : Z) : byte_to_Z (byte_of_Z z) = z mod 256.
Proof.
  unfold byte_to_Z, byte_of_Z.
  assert (Hr : 0 <= z mod 256 < 256) by (apply Z.mod_pos_bound; lia).
  destruct (Byte.of_N (Z.to_N (z mod 256))) as [b|] eqn:E.
  - apply Byte.to_of_N in E. rewrite E. lia.
  - apply Byte.of_N_None_iff in E. lia.
Qed.

Lemma byte_to_of_Z_small (z : Z) : 0 <= z < 256 -> byte_to_Z (byte_of_Z z) = z.
Proof. intros. rewrite byte_to_of_Z. apply Z.mod_small; lia. Qed.

Lemma byte_of_to_Z (b : byte) : byte_of_Z (byte_to_Z b) = b.
Proof.
  unfold byte_of_Z, byte_to_Z. pose proof (Byte.to_N_bounded b).
  rewrite Z.mod_small by lia. rewrite N2Z.id, Byte.of_to_N. reflexivity.
Qed.

Lemma byte_of_Z_eq (z : Z) (b : byte) : z = byte_to_Z b -> byte_of_Z z = b.
Proof. intros ->. apply byte_of_to_Z. Qed.

Lemma byte_to_Z_inj (a b : byte) : byte_to_Z a = byte_to_Z b -> a = b.
Proof.
  intros H. rewrite <- (byte_of_to_Z a), <- (byte_of_to_Z b). congruence.
Qed.

#[export] Instance byte_eq_dec : EqDecision byte.
Proof.
  intros a b. destruct (decide (byte_to_Z a = byte_to_Z b)) as [H|H].
  - left. exact (byte_to_Z_inj a b H).
  - right. intros ->. apply H. reflexivity.
Defined.

(** ** Exceptions: what a JavaScript call may throw

    [result A] is the outcome of an expression: a value, or the exception it
    threw.  The constructors of [exn] are the error classes the program and
    its libraries use; the message is the one the library passes. *)

Inductive exn : Type :=
| TypeError (msg : string)
| URIError (msg : string)
| ReferenceError (msg : string)
| Error (msg : string).

Inductive result (A : Type) : Type :=
| Ok (a : A)
| Throw (e : exn).

Arguments Ok {A} a.
Arguments Throw {A} e.

#[export] Instance exn_eq_dec : EqDecision exn.
Proof. solve_decision. Defined.

#[export] Instance result_eq_dec {A} `{EqDecision A} : EqDecision (result A).
Proof. solve_decision. Defined.

#[export] Instance result_ret : MRet result := @Ok.

#[export] Instance result_bind : MBind result := fun A B f r =>
  match r with
  | Ok a => f a
  | Throw e => Throw e
  end.

#[export] Instance result_fmap : FMap result := fun A B f r =>
  match r with
  | Ok a => Ok (f a)
  | Throw e => Throw e
  end.

Definition is_Ok {A} (r : result A) : bool :=
  match r with Ok _ => true | Throw _ => false end.

(** The value of a result, [d] when it is an exception. *)
Definition from_Ok {A} (d : A) (r : result A) : A :=
  match r with Ok a => a | Throw _ => d end.

Section result_lemmas.
Context {A B : Type}.
Implicit Types (r : result A) (f : A -> result B).

Lemma bind_Ok a f : (Ok a ≫= f) = f a.
Proof. reflexivity. Qed.

Lemma bind_Throw e f : (Throw e ≫= f) = Throw e.
Proof. reflexivity. Qed.

Lemma bind_Ok_inv r f b :
  (r ≫= f) = Ok b -> exists a, r = Ok a /\ f a = Ok b.
Proof. destruct r as [a|e]; [eauto | discriminate]. Qed.

Lemma bind_Throw_inv r f e :
  (r ≫= f) = Throw e -> r = Throw e \/ exists a, r = Ok a /\ f a = Throw e.
Proof. destruct r as [a|e']; simpl; intros H; [right; eauto | left; congruence]. Qed.

Lemma fmap_Ok (g : A -> B) a : g <$> Ok a = Ok (g a).
Proof. reflexivity. Qed.

Lemma fmap_Ok_inv (g : A -> B) r b :
  g <$> r = Ok b -> exists a, r = Ok a /\ b = g a.
Proof. destruct r as [a|e]; [intros [= <-]; eauto | discriminate]. Qed.

Lemma fmap_Throw (g : A -> B) e : g <$> (Throw e : result A) = Throw e.
Proof. reflexivity. Qed.

End result_lemmas.

#[export] Hint Rewrite @bind_Ok @bind_Throw @fmap_Ok @fmap_Throw : salt.

(** ** Computations on a state that may throw

    [ST S A] is a computation that reads and changes a state of type [S]
    and returns a value of type [A] or throws.  An exception keeps the
    state reached when it was thrown: what was done before stays done. *)

Definition ST (S A : Type) : Type := S -> result A * S.

#[export] Instance ST_ret {S} : MRet (ST S) := fun A a s => (Ok a, s).

#[export] Instance ST_bind {S} : MBind (ST S) := fun A B f m s =>
  match m s with
  | (Ok a, s') => f a s'
  | (Throw e, s') => (Throw e, s')
  end.

#[export] Instance ST_fmap {S} : FMap (ST S) := fun A B f m s =>
  match m s with
  | (Ok a, s') => (Ok (f a), s')
  | (Throw e, s') => (Throw e, s')
  end.

(** A computation that does not touch the state. *)
Definition lift {S A} (r : result A) : ST S A := fun s => (r, s).

Section ST_lemmas.
Context {S A B : Type}.
Implicit Types (m : ST S A) (f : A -> ST S B) (s : S).

Lemma ST_bind_Ok m f s a s' : m s = (Ok a, s') -> (m ≫= f) s = f a s'.
Proof. unfold mbind, ST_bind. intros ->. reflexivity. Qed.

Lemma ST_bind_Throw m f s e s' :
  m s = (Throw e, s') -> (m ≫= f) s = (Throw e, s').
Proof. unfold mbind, ST_bind. intros ->. reflexivity. Qed.

Lemma ST_bind_ret (a : A) f s : (mret a ≫= f) s = f a s.
Proof. reflexivity. Qed.

Lemma ST_bind_ext m f (f' : A -> ST S B) s :
  (forall a s', f a s' = f' a s') -> (m ≫= f) s = (m ≫= f') s.
Proof.
  intros Hf. unfold mbind, ST_bind. destruct (m s) as [[a|e] s']; [apply Hf | reflexivity].
Qed.

Lemma ST_bind_skip (m : ST S unit) s : (m ;; mret tt) s = m s.
Proof. unfold mbind, ST_bind. destruct (m s) as [[[]|e] s']; reflexivity. Qed.

Lemma ST_bind_mret m s : (m ≫= mret) s = m s.
Proof. unfold mbind, ST_bind. destruct (m s) as [[a|e] s']; reflexivity. Qed.

Lemma ST_bind_assoc {C} m f (h : B -> ST S C) s :
  ((m ≫= f) ≫= h) s = (m ≫= fun a => f a ≫= h) s.
Proof. unfold mbind, ST_bind. destruct (m s) as [[a|e] s']; reflexivity. Qed.

Lemma ST_bind_lift (r : result A) f s :
  (lift r ≫= f) s = match r with Ok a => f a s | Throw e => (Throw e, s) end.
Proof. unfold mbind, ST_bind, lift. destruct r; reflexivity. Qed.

Lemma ST_fmap_Ok m (h : A -> B) s a s' :
  m s = (Ok a, s') -> (h <$> m) s = (Ok (h a), s').
Proof. unfold fmap, ST_fmap. intros ->. reflexivity. Qed.

Lemma ST_fmap_Throw m (h : A -> B) s e s' :
  m s = (Throw e, s') -> (h <$> m) s = (Throw e, s').
Proof. unfold fmap, ST_fmap. intros ->. reflexivity. Qed.

Lemma ST_fmap_snd m (h : A -> B) s : ((h <$> m) s).2 = (m s).2.
Proof. unfold fmap, ST_fmap. destruct (m s) as [[a|e] s']; reflexivity. Qed.

Lemma ST_fmap_fst m (h : A -> B) s : ((h <$> m) s).1 = h <$> (m s).1.
Proof. unfold fmap, ST_fmap. destruct (m s) as [[a|e] s']; reflexivity. Qed.

(** What a computation that returned has done. *)
Lemma ST_bind_Ok_inv m f s b s2 :
  (m ≫= f) s = (Ok b, s2) ->
  exists a s1, m s = (Ok a, s1) /\ f a s1 = (Ok b, s2).
Proof.
  unfold mbind, ST_bind. destruct (m s) as [[a|e] s1]; [eauto | discriminate].
Qed.

Lemma ST_fmap_Ok_inv m (h : A -> B) s b s' :
  (h <$> m) s = (Ok b, s') -> exists a, m s = (Ok a, s') /\ b = h a.
Proof.
  unfold fmap, ST_fmap. destruct (m s) as [[a|e] s1]; [|discriminate].
  intros [= <- <-]. eauto.
Qed.

Lemma lift_Ok_inv (r : result A) s a s' :
  lift r s = (Ok a, s') -> r = Ok a /\ s' = s.
Proof. unfold lift. intros [= -> ->]. done. Qed.

End ST_lemmas.

(** Invert the hypotheses that say that a computation returned a value:
    every step of it returned one. *)
Ltac returned :=
  repeat match goal with
    | H : (_ <$> _) _ = (Ok _, _) |- _ =>
        apply ST_fmap_Ok_inv in H as (? & H & ?); simplify_eq
    | H : (_ ≫= _) _ = (Ok _, _) |- _ =>
        apply ST_bind_Ok_inv in H as (? & ? & ? & H)
    | H : lift _ _ = (Ok _, _) |- _ => apply lift_Ok_inv in H as [H ->]
    | H : _ <$> _ = Ok _ |- _ =>
        apply fmap_Ok_inv in H as (? & H & ?); simplify_eq
    | H : _ ≫= _ = Ok _ |- _ => apply bind_Ok_inv in H as (? & ? & H)
    | H : mret _ = Ok _ |- _ => injection H as <-
    | H : Ok _ = Ok _ |- _ => injection H as <-
    end.

(** ** Masks and shifts as arithmetic

    The program uses [&], [|], [<<] and [>>] on small non-negative numbers.
    On such numbers a mask is a remainder, a shift is a product or a
    quotient, and an [or] of disjoint bit ranges is a sum; after that
    rewriting [Z.div_mod_to_equations; lia] decides the goals. *)

Lemma land_ones_mod (x k : Z) : 0 <= k -> Z.land x (Z.ones k) = x mod 2 ^ k.
Proof. apply Z.land_ones. Qed.

Lemma land_low_high_0 (a b k : Z) :
  0 <= k -> a mod 2 ^ k = 0 -> 0 <= b < 2 ^ k -> Z.land a b = 0.
Proof.
  intros Hk Ha Hb.
  rewrite <- (Z.mod_small b (2 ^ k)) by lia.
  rewrite <- !Z.land_ones by lia.
  rewrite (Z.land_comm b), Z.land_assoc, Z.land_ones, Ha by lia.
  apply Z.land_0_l.
Qed.

Lemma lor_add (a b k : Z) :
  0 <= k -> a mod 2 ^ k = 0 -> 0 <= b < 2 ^ k -> Z.lor a b = a + b.
Proof. intros. apply Z.or_to_plus. eapply land_low_high_0; eauto. Qed.

(** ** Lists read through an index *)

Section drop_lemmas.
Context {A : Type}.
Implicit Types (l r : list A) (i k : nat).

Lemma drop_cons_lookup l i x r : drop i l = x :: r -> l !! i = Some x.
Proof.
  intros H. rewrite <- (Nat.add_0_r i). rewrite <- lookup_drop. rewrite H. reflexivity.
Qed.

Lemma drop_cons_drop l i k x r : drop i l = x :: r -> drop (i + S k) l = drop k r.
Proof.
  intros H. rewrite <- drop_drop, H. reflexivity.
Qed.

Lemma drop_cons_tail l i x r : drop i l = x :: r -> drop (S i) l = r.
Proof.
  intros H. replace (S i) with (i + 1)%nat by lia.
  rewrite <- drop_drop, H. reflexivity.
Qed.

Lemma drop_cons_peek l i k x r :
  drop i l = x :: r -> l !! (i + S k)%nat = r !! k.
Proof.
  intros H. rewrite <- lookup_drop, H. reflexivity.
Qed.

Lemma drop_lt_cons l i : (i < length l)%nat -> exists x r, drop i l = x :: r.
Proof.
  intros H. destruct (drop i l) as [|x r] eqn:E; [|eauto].
  apply (f_equal length) in E. rewrite length_drop in E. simpl in E. lia.
Qed.

End drop_lemmas.
