(* ===== verification/JsPrims.v ===== *)
(** * JsPrims: the JavaScript value semantics the program relies on

    [src/saltshaker.js] is written against JavaScript's built-in types.  This
    file gives the fragment it uses a meaning: strings as sequences of 16-bit
    code units, the 32-bit reading of [&], [|], [<<] and [>>], typed arrays
    whose reads past the end give [undefined], and the element conversion of
    the typed-array constructors.  Each definition is named after the
    built-in it stands for; the lemmas say when the 32-bit operators agree
    with exact arithmetic. *)

From Stdlib Require Import ZArith Lia List String Ascii.
From stdpp Require Import base tactics option list numbers.
From S2P Require Import Prelude.

Local Open Scope Z_scope.

Declare Scope js_scope.
Delimit Scope js_scope with js.

(** ** Strings *)

(** A JavaScript string is a sequence of UTF-16 code units. *)
Abbreviation jsstring := (list Z).

Definition is_u16 (c : Z) : Prop := 0 <= c < 65536.

Definition wf_string (s : jsstring) : Prop := Forall is_u16 s.

#[export] Instance is_u16_dec c : Decision (is_u16 c).
Proof. unfold is_u16. apply _. Defined.

#[export] Instance wf_string_dec s : Decision (wf_string s).
Proof. unfold wf_string. apply _. Defined.

(** A string literal of the source, as a JavaScript string (ASCII only). *)
Definition js (s : string) : jsstring :=
  (fun a => Z.of_N (N_of_ascii a)) <$> list_ascii_of_string s.

(** [s.charCodeAt(i)]: the code unit at [i], [None] standing for [NaN]. *)
Definition charCodeAt (s : jsstring) (i : nat) : option Z := s !! i.

(** The truth value of an optional string argument in a condition:
    [undefined] and the empty string are false. *)
Definition truthy (v : option jsstring) : bool :=
  match v with
  | Some (_ :: _) => true
  | _ => false
  end.

(** ** Numbers: the conversions of the bitwise operators *)

(** [ToInt32] on an integer: reduction modulo 2^32 into [-2^31, 2^31). *)
Definition wrap32 (z : Z) : Z := (z + 2 ^ 31) mod 2 ^ 32 - 2 ^ 31.

(** [ToInt32] on a value read from an array: [undefined] converts to [NaN]
    and then to [0]. *)
Definition ToInt32 (v : option Z) : Z :=
  match v with
  | Some z => wrap32 z
  | None => 0
  end.

(** [ToUint16], the conversion [String.fromCharCode] and stores into a
    [Uint16Array] apply. *)
Definition ToUint16 (v : option Z) : Z :=
  match v with
  | Some z => z mod 65536
  | None => 0
  end.

Definition js_and (a b : Z) : Z := Z.land (wrap32 a) (wrap32 b).
Definition js_or (a b : Z) : Z := Z.lor (wrap32 a) (wrap32 b).
Definition js_shl (a n : Z) : Z := wrap32 (Z.shiftl (wrap32 a) (Z.land n 31)).
Definition js_sar (a n : Z) : Z := Z.shiftr (wrap32 a) (Z.land n 31).

Notation "a .& b" := (js_and a b) (at level 40, left associativity) : js_scope.
Notation "a .| b" := (js_or a b) (at level 50, left associativity) : js_scope.
Notation "a .<< n" := (js_shl a n) (at level 33, left associativity) : js_scope.
Notation "a .>> n" := (js_sar a n) (at level 33, left associativity) : js_scope.

(** [String.fromCharCode(v)]: the one-unit string of [ToUint16 v]. *)
Definition fromCharCode (v : option Z) : jsstring := [ToUint16 v].

(** ** Typed arrays *)

(** [array[i]] on a [Uint8Array]: the element as a number, [None] (that is
    [undefined]) at or past the length. *)
Definition Uint8Array_get (array : list byte) (i : nat) : option Z :=
  byte_to_Z <$> array !! i.

(** [new Uint16Array(new ArrayBuffer(byteLength))]: a view of
    [byteLength / 2] elements, all zero. *)
Definition Uint16Array_new (byteLength : nat) : list Z :=
  replicate (byteLength / 2) 0.

(** [view[i] = v] on a [Uint16Array]: the value is converted by [ToUint16];
    a store at or past the length is ignored. *)
Definition Uint16Array_set (view : list Z) (i : nat) (v : option Z) : list Z :=
  <[i := ToUint16 v]> view.

(** [new Uint8Array(view)] for a typed array [view]: a new array of the same
    number of elements, each converted by [ToUint8]. *)
Definition Uint8Array_from (view : list Z) : list byte := byte_of_Z <$> view.

(** ** When the 32-bit operators are exact *)

Lemma wrap32_small (z : Z) : - 2 ^ 31 <= z < 2 ^ 31 -> wrap32 z = z.
Proof. intros. unfold wrap32. rewrite Z.mod_small; lia. Qed.

Lemma js_sar_small (a n : Z) :
  0 <= a < 2 ^ 31 -> 0 <= n < 32 -> js_sar a n = a / 2 ^ n.
Proof.
  intros Ha Hn. unfold js_sar. rewrite wrap32_small by lia.
  change 31 with (Z.ones 5). rewrite Z.land_ones, Z.mod_small by lia.
  apply Z.shiftr_div_pow2. lia.
Qed.

Lemma js_and_mask (a k : Z) :
  0 <= a < 2 ^ 31 -> 0 <= k < 32 -> js_and a (Z.ones k) = a mod 2 ^ k.
Proof.
  intros Ha Hk. unfold js_and.
  assert (0 < 2 ^ k <= 2 ^ 31).
  { split; [apply Z.pow_pos_nonneg; lia | apply Z.pow_le_mono_r; lia]. }
  rewrite !wrap32_small; [apply Z.land_ones; lia | rewrite Z.ones_equiv; lia | lia].
Qed.

Lemma js_shl_small (a n : Z) :
  0 <= a -> 0 <= n < 32 -> a * 2 ^ n < 2 ^ 31 -> js_shl a n = a * 2 ^ n.
Proof.
  intros Ha Hn Hb. unfold js_shl.
  assert (0 < 2 ^ n) by (apply Z.pow_pos_nonneg; lia).
  change 31 with (Z.ones 5) at 1. rewrite Z.land_ones, (Z.mod_small n) by lia.
  rewrite (wrap32_small a) by nia.
  rewrite Z.shiftl_mul_pow2 by lia. apply wrap32_small. nia.
Qed.

Lemma js_or_add (a b k : Z) :
  0 <= k -> 0 <= a < 2 ^ 31 -> a mod 2 ^ k = 0 -> 0 <= b < 2 ^ k -> b < 2 ^ 31 ->
  js_or a b = a + b.
Proof.
  intros Hk Ha Hm Hb Hb'. unfold js_or. rewrite !wrap32_small by lia.
  eapply lor_add; eauto.
Qed.

(** ** Values read from a [Uint8Array]

    An element read from a [Uint8Array] is [undefined] or a number in
    [0, 256).  [num v] is the number [ToInt32] makes of it. *)

Definition byte_val (v : option Z) : Prop :=
  match v with
  | Some z => 0 <= z < 256
  | None => True
  end.

Definition num (v : option Z) : Z := default 0 v.

Lemma Uint8Array_get_byte_val (array : list byte) (i : nat) :
  byte_val (Uint8Array_get array i).
Proof.
  unfold Uint8Array_get. destruct (array !! i) as [b|]; simpl; [|exact I].
  apply byte_to_Z_range.
Qed.

Lemma num_range (v : option Z) : byte_val v -> 0 <= num v < 256.
Proof. destruct v; simpl; lia. Qed.

Lemma ToInt32_byte_val (v : option Z) : byte_val v -> ToInt32 v = num v.
Proof. destruct v; simpl; [intros; apply wrap32_small; lia | reflexivity]. Qed.

Lemma ToUint16_small (z : Z) : is_u16 z -> ToUint16 (Some z) = z.
Proof. unfold is_u16. intros. simpl. apply Z.mod_small. lia. Qed.

Lemma Uint8Array_get_lookup (array : list byte) (i : nat) (b : byte) :
  array !! i = Some b -> Uint8Array_get array i = Some (byte_to_Z b).
Proof. unfold Uint8Array_get. intros ->. reflexivity. Qed.

Lemma Uint8Array_get_ge (array : list byte) (i : nat) :
  (length array <= i)%nat -> Uint8Array_get array i = None.
Proof. unfold Uint8Array_get. intros. rewrite lookup_ge_None_2; [reflexivity | lia]. Qed.

#[export] Hint Resolve Uint8Array_get_byte_val num_range : salt.
