(* ===== verification/Decoder.v ===== *)
(** * Decoder: the byte-to-text decoder [_decoder]

    [_decoder] ([src/saltshaker.js], lines 45-78) turns the bytes returned by
    [nacl.sign.open], [nacl.box.open] and [nacl.secretbox.open] into a
    JavaScript string.  It walks the array with an index, reads one lead byte,
    switches on its high four bits and reads one or two more bytes for the
    two- and three-byte forms.  This file models the loop as written (an index
    into the array, reads past the end giving [undefined], the 32-bit
    operators), gives a reference decoder by recursion on the list of bytes,
    and proves that the loop computes the reference decoder with the fuel
    [_decoder] gives it. *)

From Stdlib Require Import ZArith Lia List String.
From stdpp Require Import base tactics option list numbers.
From S2P Require Import Prelude JsPrims.

Local Open Scope Z_scope.
Local Open Scope js_scope.

(** ** The loop of the source *)

(** One iteration of the [while] body (lines 54-74), entered with [i < len]:
    the new [out] and the new [i]. *)
Definition decoder_body (array : list byte) (out : jsstring) (i : nat)
  : jsstring * nat :=
  let c := Uint8Array_get array i in
  let i := S i in
  match ToInt32 c .>> 4 with
  | 0 | 1 | 2 | 3 | 4 | 5 | 6 | 7 =>
      (out ++ fromCharCode c, i)
  | 12 | 13 =>
      let char2 := Uint8Array_get array i in
      let i := S i in
      (out ++ fromCharCode
         (Some (((ToInt32 c .& 0x1F) .<< 6) .| (ToInt32 char2 .& 0x3F))), i)
  | 14 =>
      let char2 := Uint8Array_get array i in
      let i := S i in
      let char3 := Uint8Array_get array i in
      let i := S i in
      (out ++ fromCharCode
         (Some (((ToInt32 c .& 0x0F) .<< 12) .|
                ((ToInt32 char2 .& 0x3F) .<< 6) .|
                ((ToInt32 char3 .& 0x3F) .<< 0))), i)
  | _ => (out, i)
  end.

(** The [while (i < len)] loop (lines 53-75).  [fuel] bounds the number of
    iterations; [decoder_loop_fuel] below shows that [len - i] is enough. *)
Fixpoint decoder_loop (fuel : nat) (array : list byte) (out : jsstring) (i : nat)
  : jsstring :=
  match fuel with
  | O => out
  | S fuel =>
      if decide (i < length array)%nat
      then let '(out, i) := decoder_body array out i in
           decoder_loop fuel array out i
      else out
  end.

(** [_decoder(array)] for a [Uint8Array] (lines 45-78). *)
Definition _decoder (array : list byte) : jsstring :=
  decoder_loop (length array) array [] 0%nat.

(** [_decoder(v)] where [v] is what an [open] primitive returned: a
    [Uint8Array], or [null] (here [None]) when authentication failed.  Reading
    [null.length] on line 51 throws a [TypeError]. *)
Definition _decoder_nullable (v : option (list byte)) : result jsstring :=
  match v with
  | Some array => Ok (_decoder array)
  | None => Throw (TypeError "Cannot read property 'length' of null")
  end.

(** ** The reference decoder *)

(** The four kinds of lead byte the [switch] distinguishes. *)
Inductive lead : Type := Single | Lead2 | Lead3 | Ignored.

#[export] Instance lead_eq_dec : EqDecision lead.
Proof. solve_decision. Defined.

Definition classify (c : byte) : lead :=
  let n := byte_to_Z c in
  if decide (n < 128) then Single
  else if decide (192 <= n < 224) then Lead2
  else if decide (224 <= n < 240) then Lead3
  else Ignored.

(** The code unit of a two-byte and of a three-byte form, in arithmetic. *)
Definition unit2 (c c2 : Z) : Z := c mod 32 * 64 + c2 mod 64.
Definition unit3 (c c2 c3 : Z) : Z := c mod 16 * 4096 + c2 mod 64 * 64 + c3 mod 64.

(** Decoding by recursion on the bytes.  A form cut short by the end of the
    input decodes as if the missing bytes were zero. *)
Fixpoint decode_ref (l : list byte) : jsstring :=
  match l with
  | [] => []
  | c :: r =>
      match classify c with
      | Single => byte_to_Z c :: decode_ref r
      | Lead2 =>
          match r with
          | [] => [unit2 (byte_to_Z c) 0]
          | c2 :: r => unit2 (byte_to_Z c) (byte_to_Z c2) :: decode_ref r
          end
      | Lead3 =>
          match r with
          | [] => [unit3 (byte_to_Z c) 0 0]
          | [c2] => [unit3 (byte_to_Z c) (byte_to_Z c2) 0]
          | c2 :: c3 :: r =>
              unit3 (byte_to_Z c) (byte_to_Z c2) (byte_to_Z c3) :: decode_ref r
          end
      | Ignored => decode_ref r
      end
  end.

(** ** One step of the reference decoder *)

(** The byte [k] places after the lead byte, zero when the input ends
    before it. *)
Definition peek (r : list byte) (k : nat) : Z := num (Uint8Array_get r k).

(** What the form that starts with [c] and continues in [r] emits, and how
    many bytes it takes. *)
Definition decode_head (c : byte) (r : list byte) : jsstring * nat :=
  match classify c with
  | Single => ([byte_to_Z c], 1%nat)
  | Lead2 => ([unit2 (byte_to_Z c) (peek r 0)], 2%nat)
  | Lead3 => ([unit3 (byte_to_Z c) (peek r 0) (peek r 1)], 3%nat)
  | Ignored => ([], 1%nat)
  end.

Definition lead_of_nibble (q : Z) : lead :=
  match q with
  | 0 | 1 | 2 | 3 | 4 | 5 | 6 | 7 => Single
  | 12 | 13 => Lead2
  | 14 => Lead3
  | _ => Ignored
  end.

(** The bytes of a list of numbers, for examples. *)
Definition bytes_of (l : list Z) : list byte := byte_of_Z <$> l.

Example decoder_ascii : _decoder (bytes_of [104; 105]) = js "hi".
Proof. vm_compute. reflexivity. Qed.

Example decoder_two_three :
  _decoder (bytes_of [0xC3; 0xA9; 0xE2; 0x82; 0xAC]) = [0xE9; 0x20AC].
Proof. vm_compute. reflexivity. Qed.

Example decoder_astral_dropped :
  _decoder (bytes_of [0xF0; 0x9F; 0x98; 0x80; 33]) = [33].
Proof. vm_compute. reflexivity. Qed.

Example decoder_truncated :
  _decoder (bytes_of [0x41; 0xE2; 0x82]) = [0x41; 0x2080].
Proof. vm_compute. reflexivity. Qed.

(** ** The expressions of the [switch], in arithmetic *)

Section expressions.
Context (c char2 char3 : option Z).
Context (Hc : byte_val c) (H2 : byte_val char2) (H3 : byte_val char3).

Lemma switch_nibble : ToInt32 c .>> 4 = num c / 16.
Proof.
  rewrite ToInt32_byte_val by assumption. pose proof (num_range c Hc).
  rewrite js_sar_small by lia. reflexivity.
Qed.

Lemma mask_bits (v : option Z) (k : Z) :
  byte_val v -> 0 <= k < 32 -> ToInt32 v .& Z.ones k = num v mod 2 ^ k.
Proof.
  intros Hv Hk. rewrite ToInt32_byte_val by assumption.
  pose proof (num_range v Hv). apply js_and_mask; lia.
Qed.

Lemma two_byte_expr :
  ((ToInt32 c .& 0x1F) .<< 6) .| (ToInt32 char2 .& 0x3F)
  = unit2 (num c) (num char2).
Proof.
  change 0x1F with (Z.ones 5). change 0x3F with (Z.ones 6).
  rewrite !mask_bits by (assumption || lia).
  pose proof (num_range c Hc). pose proof (num_range char2 H2).
  rewrite js_shl_small by (Z.div_mod_to_equations; lia).
  rewrite (js_or_add _ _ 6) by (Z.div_mod_to_equations; lia).
  reflexivity.
Qed.

Lemma three_byte_expr :
  ((ToInt32 c .& 0x0F) .<< 12) .| ((ToInt32 char2 .& 0x3F) .<< 6)
    .| ((ToInt32 char3 .& 0x3F) .<< 0)
  = unit3 (num c) (num char2) (num char3).
Proof.
  change 0x0F with (Z.ones 4). change 0x3F with (Z.ones 6).
  rewrite !mask_bits by (assumption || lia).
  pose proof (num_range c Hc). pose proof (num_range char2 H2).
  pose proof (num_range char3 H3).
  rewrite !js_shl_small by (Z.div_mod_to_equations; lia).
  rewrite (js_or_add (_ * 2 ^ 12) _ 12) by (Z.div_mod_to_equations; lia).
  rewrite (js_or_add _ _ 6) by (Z.div_mod_to_equations; lia).
  unfold unit3. change (2 ^ 12) with 4096. change (2 ^ 6) with 64.
  change (2 ^ 4) with 16. change (2 ^ 0) with 1. lia.
Qed.

End expressions.

(** ** One step of the loop is one step of the reference decoder *)

Lemma switch_lead {A} (q : Z) (a b c d : A) :
  match q with
  | 0 | 1 | 2 | 3 | 4 | 5 | 6 | 7 => a
  | 12 | 13 => b
  | 14 => c
  | _ => d
  end
  = match lead_of_nibble q with
    | Single => a
    | Lead2 => b
    | Lead3 => c
    | Ignored => d
    end.
Proof.
  destruct q as [|p|p]; try reflexivity.
  do 4 (destruct p as [p|p|]; try reflexivity).
Qed.

Lemma classify_nibble (c : byte) : lead_of_nibble (byte_to_Z c / 16) = classify c.
Proof. destruct c; vm_compute; reflexivity. Qed.

Lemma unit2_range (a b : Z) : 0 <= unit2 a b < 2048.
Proof. unfold unit2. Z.div_mod_to_equations. lia. Qed.

Lemma unit3_range (a b c : Z) : 0 <= unit3 a b c < 65536.
Proof. unfold unit3. Z.div_mod_to_equations. lia. Qed.

Lemma unit2_u16 (a b : Z) : is_u16 (unit2 a b).
Proof. pose proof (unit2_range a b). unfold is_u16. lia. Qed.

Lemma unit3_u16 (a b c : Z) : is_u16 (unit3 a b c).
Proof. apply unit3_range. Qed.

Lemma byte_u16 (c : byte) : is_u16 (byte_to_Z c).
Proof. pose proof (byte_to_Z_range c). unfold is_u16. lia. Qed.

#[export] Hint Resolve unit2_u16 unit3_u16 byte_u16 : salt.

Lemma decode_ref_cons (c : byte) (r : list byte) :
  decode_ref (c :: r)
  = (decode_head c r).1 ++ decode_ref (drop (pred (decode_head c r).2) r).
Proof.
  unfold decode_head. cbn [decode_ref].
  destruct (classify c); [reflexivity | | | reflexivity].
  - destruct r as [|c2 r]; reflexivity.
  - destruct r as [|c2 [|c3 r]]; reflexivity.
Qed.

(** The body of the loop takes one step of the reference decoder on the
    bytes from [i] on. *)
Lemma decoder_body_head (array : list byte) (out : jsstring) (i : nat) c r :
  drop i array = c :: r ->
  decoder_body array out i
  = (out ++ (decode_head c r).1, (i + (decode_head c r).2)%nat).
Proof.
  intros Hd. unfold decoder_body, decode_head, peek.
  rewrite (Uint8Array_get_lookup _ _ _ (drop_cons_lookup _ _ _ _ Hd)).
  rewrite switch_nibble by apply byte_to_Z_range.
  rewrite switch_lead. change (num (Some (byte_to_Z c))) with (byte_to_Z c).
  rewrite classify_nibble.
  assert (H1 : Uint8Array_get array (S i) = Uint8Array_get r 0).
  { unfold Uint8Array_get. rewrite <- (drop_cons_peek _ _ 0 _ _ Hd). f_equal. f_equal. lia. }
  assert (H2 : Uint8Array_get array (S (S i)) = Uint8Array_get r 1).
  { unfold Uint8Array_get. rewrite <- (drop_cons_peek _ _ 1 _ _ Hd). f_equal. f_equal. lia. }
  destruct (classify c); cbn [fst snd]; rewrite ?H1, ?H2.
  - unfold fromCharCode. rewrite ToUint16_small by auto with salt.
    f_equal. lia.
  - rewrite two_byte_expr by (simpl; auto using byte_to_Z_range with salt).
    unfold fromCharCode. rewrite ToUint16_small by auto with salt. f_equal. lia.
  - rewrite three_byte_expr by (simpl; auto using byte_to_Z_range with salt).
    unfold fromCharCode. rewrite ToUint16_small by auto with salt. f_equal. lia.
  - rewrite app_nil_r. f_equal. lia.
Qed.

(** The loop from index [i] with enough fuel appends the reference decoding
    of the bytes from [i] on. *)
Lemma decoder_loop_ref (fuel : nat) (array : list byte) (out : jsstring) (i : nat) :
  (length array - i <= fuel)%nat ->
  decoder_loop fuel array out i = out ++ decode_ref (drop i array).
Proof.
  revert out i. induction fuel as [|fuel IH]; intros out i Hf; cbn [decoder_loop].
  - rewrite drop_ge by lia. rewrite app_nil_r. reflexivity.
  - case_decide as Hi; [|rewrite drop_ge by lia; rewrite app_nil_r; reflexivity].
    destruct (drop_lt_cons array i Hi) as (c & r & Hd).
    rewrite (decoder_body_head _ _ _ _ _ Hd), Hd, decode_ref_cons.
    assert (Hk : (1 <= (decode_head c r).2)%nat)
      by (unfold decode_head; destruct (classify c); simpl; lia).
    rewrite IH by lia. rewrite <- app_assoc. do 2 f_equal.
    rewrite <- (drop_cons_drop _ _ _ _ _ Hd).
    destruct (decode_head c r).2; [lia | reflexivity].
Qed.

(** Replace [_decoder] by the reference decoder in the goal. *)
Ltac decoder_ref :=
  unfold _decoder; rewrite !decoder_loop_ref by lia; rewrite ?drop_0; cbn [app].

(** ** What [_decoder] computes *)

(** C4: the loop of [_decoder], run with the fuel [_decoder] gives it,
    computes the reference decoder [decode_ref] on every byte array. *)
Theorem decoder_refines_decode_ref (array : list byte) :
  _decoder array = decode_ref array.
Proof. decoder_ref. reflexivity. Qed.

(** The loop terminates within [len] iterations: any fuel of at least the
    array's length gives the result of [_decoder], so the fuel of the model
    never cuts the loop short. *)
Lemma decoder_loop_fuel (extra : nat) (array : list byte) :
  decoder_loop (length array + extra) array [] 0%nat = _decoder array.
Proof. decoder_ref. reflexivity. Qed.

(** One iteration moves the index forward by one to three places and appends
    at most one code unit. *)
Lemma decoder_body_progress (array : list byte) (out : jsstring) (i : nat) :
  (i < length array)%nat ->
  let '(out', i') := decoder_body array out i in
  (i < i' <= i + 3)%nat /\ exists e, out' = out ++ e /\ (length e <= 1)%nat.
Proof.
  intros Hi. destruct (drop_lt_cons array i Hi) as (c & r & Hd).
  rewrite (decoder_body_head _ _ _ _ _ Hd). unfold decode_head.
  destruct (classify c); simpl; (split; [lia | eexists; split; [reflexivity | simpl; lia]]).
Qed.

Lemma decode_head_wf (c : byte) (r : list byte) : wf_string (decode_head c r).1.
Proof.
  unfold decode_head, wf_string.
  destruct (classify c); simpl;
    repeat first [apply List.Forall_nil | apply List.Forall_cons; [auto with salt|]].
Qed.

Lemma decode_ref_wf (l : list byte) : wf_string (decode_ref l).
Proof.
  induction l as [l IH] using (induction_ltof1 _ (@length byte)).
  destruct l as [|c r]; [constructor|]. rewrite decode_ref_cons.
  apply Forall_app. split; [apply decode_head_wf|].
  apply IH. unfold ltof. rewrite length_drop. simpl. lia.
Qed.

(** Every code unit [_decoder] produces lies in [0, 65536). *)
Lemma decoder_wf (array : list byte) : wf_string (_decoder array).
Proof. decoder_ref. apply decode_ref_wf. Qed.

(** ** The operators of the body at their width

    The [switch] works with the 32-bit operators of JavaScript and passes
    its results to [String.fromCharCode], which keeps 16 bits.  On what is
    read from a byte array neither conversion changes a value. *)

(** The two- and three-byte units, with the bit operations of unbounded
    integers. *)
Ltac powers :=
  change (2 ^ 12) with 4096 in *; change (2 ^ 6) with 64 in *;
  change (2 ^ 5) with 32 in *; change (2 ^ 4) with 16 in *;
  change (2 ^ 0) with 1 in *.

Lemma unit2_bits (a b : Z) :
  0 <= a < 256 -> 0 <= b < 256 ->
  unit2 a b = Z.lor (Z.shiftl (Z.land a 0x1F) 6) (Z.land b 0x3F).
Proof.
  intros Ha Hb. change 0x1F with (Z.ones 5). change 0x3F with (Z.ones 6).
  rewrite !Z.land_ones, Z.shiftl_mul_pow2 by lia.
  rewrite (lor_add _ _ 6) by (powers; divmod). unfold unit2. powers. lia.
Qed.

Lemma unit3_bits (a b c : Z) :
  0 <= a < 256 -> 0 <= b < 256 -> 0 <= c < 256 ->
  unit3 a b c
  = Z.lor (Z.lor (Z.shiftl (Z.land a 0x0F) 12) (Z.shiftl (Z.land b 0x3F) 6))
      (Z.shiftl (Z.land c 0x3F) 0).
Proof.
  intros Ha Hb Hc. change 0x0F with (Z.ones 4). change 0x3F with (Z.ones 6).
  rewrite !Z.land_ones, !Z.shiftl_mul_pow2 by lia.
  rewrite (lor_add (_ * 2 ^ 12) _ 12) by (powers; divmod).
  rewrite (lor_add _ _ 6) by (powers; divmod).
  unfold unit3. powers. lia.
Qed.

(** What [String.fromCharCode] makes of an element of a byte array. *)
Lemma fromCharCode_byte_val (v : option Z) : byte_val v -> fromCharCode v = [num v].
Proof.
  destruct v as [z|]; [|reflexivity]. cbn. intros Hz.
  unfold fromCharCode. rewrite ToUint16_small; [reflexivity | unfold is_u16; lia].
Qed.

(** C33: in the body of the loop nothing wraps around and nothing is
    truncated.  Whatever the array and the index, the iteration computes
    what its expressions compute on unbounded integers, without [ToInt32],
    without the reduction of the 32-bit operators and without the
    [ToUint16] of [String.fromCharCode]; the unit of a two-byte form is
    below 2048 and the unit of a three-byte form below 65536. *)
Theorem decoder_body_no_overflow (array : list byte) (out : jsstring) (i : nat) :
  let c := num (Uint8Array_get array i) in
  let char2 := num (Uint8Array_get array (S i)) in
  let char3 := num (Uint8Array_get array (S (S i))) in
  let two := Z.lor (Z.shiftl (Z.land c 0x1F) 6) (Z.land char2 0x3F) in
  let three :=
    Z.lor (Z.lor (Z.shiftl (Z.land c 0x0F) 12) (Z.shiftl (Z.land char2 0x3F) 6))
      (Z.shiftl (Z.land char3 0x3F) 0) in
  decoder_body array out i
  = match lead_of_nibble (Z.shiftr c 4) with
    | Single => (out ++ [c], S i)
    | Lead2 => (out ++ [two], S (S i))
    | Lead3 => (out ++ [three], S (S (S i)))
    | Ignored => (out, S i)
    end
  /\ 0 <= c < 256 /\ 0 <= two < 2048 /\ 0 <= three < 65536.
Proof.
  pose proof (Uint8Array_get_byte_val array i) as Hc.
  pose proof (Uint8Array_get_byte_val array (S i)) as H2.
  pose proof (Uint8Array_get_byte_val array (S (S i))) as H3.
  pose proof (num_range _ Hc). pose proof (num_range _ H2). pose proof (num_range _ H3).
  cbv zeta. rewrite <- unit2_bits, <- unit3_bits by assumption.
  split; [|auto using unit2_range, unit3_range].
  unfold decoder_body. rewrite switch_nibble, switch_lead by assumption.
  rewrite Z.shiftr_div_pow2 by lia. change (2 ^ 4) with 16.
  rewrite two_byte_expr, three_byte_expr by assumption.
  destruct (lead_of_nibble _); [by rewrite fromCharCode_byte_val | | | reflexivity];
    unfold fromCharCode; rewrite ToUint16_small by auto with salt; reflexivity.
Qed.

Lemma decode_ref_length (l : list byte) : (length (decode_ref l) <= length l)%nat.
Proof.
  induction l as [l IH] using (induction_ltof1 _ (@length byte)).
  destruct l as [|c r]; [simpl; lia|]. rewrite decode_ref_cons, length_app.
  specialize (IH (drop (pred (decode_head c r).2) r)).
  unfold ltof in IH. rewrite length_drop in IH. simpl in IH |- *.
  assert ((length (decode_head c r).1 <= 1)%nat)
    by (unfold decode_head; destruct (classify c); simpl; lia).
  lia.
Qed.

(** The decoded string has at most as many code units as the input has
    bytes. *)
Lemma decoder_length (array : list byte) :
  (length (_decoder array) <= length array)%nat.
Proof. decoder_ref. apply decode_ref_length. Qed.

(** The step equation of [_decoder]: the first form is decoded by
    [decode_head] and the rest of the array is decoded after it, whatever the
    bytes that follow the lead byte are (continuation bytes are not checked). *)
Lemma decoder_unfold (c : byte) (r : list byte) :
  _decoder (c :: r)
  = (decode_head c r).1 ++ _decoder (drop (pred (decode_head c r).2) r).
Proof. decoder_ref. apply decode_ref_cons. Qed.

(** On bytes below 128 (ASCII) [_decoder] is the identity on values. *)
Lemma decoder_ascii_id (array : list byte) :
  Forall (fun b => byte_to_Z b < 128) array ->
  _decoder array = byte_to_Z <$> array.
Proof.
  intros H. decoder_ref.
  induction H as [|c r Hc _ IH]; [reflexivity|].
  cbn [decode_ref]. unfold classify. rewrite decide_True by assumption.
  rewrite IH. reflexivity.
Qed.

Lemma decoder_ascii_id_witness :
  _decoder (bytes_of [97; 98]) = byte_to_Z <$> bytes_of [97; 98].
Proof.
  apply decoder_ascii_id. decide_by_computation.
Defined.

(** ** The branches of the decoder, by the value of the lead byte *)

Ltac classify_by_range :=
  unfold classify; repeat case_decide; try lia; try reflexivity.

Lemma classify_single (c : byte) : byte_to_Z c < 128 -> classify c = Single.
Proof. intros. classify_by_range. Qed.

Lemma classify_lead2 (c : byte) : 192 <= byte_to_Z c < 224 -> classify c = Lead2.
Proof. intros. classify_by_range. Qed.

Lemma classify_lead3 (c : byte) : 224 <= byte_to_Z c < 240 -> classify c = Lead3.
Proof. intros. classify_by_range. Qed.

Lemma classify_ignored (c : byte) :
  128 <= byte_to_Z c < 192 \/ 240 <= byte_to_Z c -> classify c = Ignored.
Proof. intros. classify_by_range. Qed.

Lemma decode_ref_single (c : byte) (r : list byte) :
  byte_to_Z c < 128 -> decode_ref (c :: r) = byte_to_Z c :: decode_ref r.
Proof. intros H. cbn [decode_ref]. rewrite classify_single by assumption. reflexivity. Qed.

Lemma decode_ref_lead2 (c c2 : byte) (r : list byte) :
  192 <= byte_to_Z c < 224 ->
  decode_ref (c :: c2 :: r) = unit2 (byte_to_Z c) (byte_to_Z c2) :: decode_ref r.
Proof. intros H. cbn [decode_ref]. rewrite classify_lead2 by assumption. reflexivity. Qed.

Lemma decode_ref_lead3 (c c2 c3 : byte) (r : list byte) :
  224 <= byte_to_Z c < 240 ->
  decode_ref (c :: c2 :: c3 :: r)
  = unit3 (byte_to_Z c) (byte_to_Z c2) (byte_to_Z c3) :: decode_ref r.
Proof. intros H. cbn [decode_ref]. rewrite classify_lead3 by assumption. reflexivity. Qed.

Lemma decode_ref_ignored (c : byte) (r : list byte) :
  128 <= byte_to_Z c < 192 \/ 240 <= byte_to_Z c ->
  decode_ref (c :: r) = decode_ref r.
Proof. intros H. cbn [decode_ref]. rewrite classify_ignored by assumption. reflexivity. Qed.

Lemma decoder_ascii_fmap (l : list Z) :
  Forall (fun c => 0 <= c < 128) l ->
  _decoder (byte_of_Z <$> l) = byte_to_Z <$> (byte_of_Z <$> l).
Proof.
  intros H. decoder_ref.
  induction H as [|c r Hc _ IH]; [reflexivity|]. cbn [fmap list_fmap].
  rewrite decode_ref_single by (rewrite byte_to_of_Z_small; lia).
  rewrite IH. reflexivity.
Qed.
