(* ===== verification/DecoderMachine.v ===== *)
(** * DecoderMachine: the loop of [_decoder] as a transition system

    Two further views of [_decoder] ([src/saltshaker.js], lines 45-78).

    - The [while] loop as a step relation on the variables it changes
      ([out] and [i]): one step is one iteration of the body.  The
      invariant of the loop is proved by induction on the runs, every run
      is shown to end within [len] steps, and the state it ends in is the
      result of [_decoder].
    - The decoder the specification asks for in its design notes: a state
      machine that takes one byte at a time and remembers the form it is
      in.  [_decoder] is proved equal to that machine when the machine
      completes a form cut short by the end of the input with zero bytes;
      decoding in pieces and the truncation rule follow. *)

From Stdlib Require Import ZArith Lia List String.
From stdpp Require Import base tactics option list numbers relations.
From S2P Require Import Prelude JsPrims Decoder.

Local Open Scope Z_scope.

(** ** The loop as a step relation *)

(** The variables of [_decoder] that the loop changes (lines 47-52). *)
Record config : Type := Config {
  out : jsstring;
  idx : nat
}.

(** [out = ""; i = 0] (lines 50 and 52). *)
Definition init : config := Config [] 0.

(** The test of the loop, [i < len] (line 53). *)
Definition running (array : list byte) (s : config) : Prop :=
  (idx s < length array)%nat.

#[export] Instance running_dec array s : Decision (running array s).
Proof. unfold running. apply _. Defined.

(** One iteration of the body (lines 54-74). *)
Definition iterate (array : list byte) (s : config) : config :=
  let '(o, i) := decoder_body array (out s) (idx s) in Config o i.

(** The loop takes a step when its test holds. *)
Inductive step (array : list byte) : config -> config -> Prop :=
  | step_body s : running array s -> step array s (iterate array s).

(** The states the loop goes through, and those it can end in. *)
Definition reachable (array : list byte) (s : config) : Prop :=
  rtc (step array) init s.

Definition final (array : list byte) (s : config) : Prop :=
  reachable array s /\ ~ running array s.

(** The invariant of the loop: what is decoded so far, followed by the
    decoding of the bytes from [i] on, is the decoding of the array; and
    [i] runs past the end by two places at most. *)
Definition inv (array : list byte) (s : config) : Prop :=
  out s ++ decode_ref (drop (idx s) array) = decode_ref array
  /\ (idx s <= length array + 2)%nat.

(** The loop as a function: [fuel] iterations at most. *)
Fixpoint exec (fuel : nat) (array : list byte) (s : config) : config :=
  match fuel with
  | O => s
  | S fuel =>
      if decide (running array s) then exec fuel array (iterate array s) else s
  end.

(** ** The decoder as a machine fed one byte at a time *)

(** Between two bytes the machine is at the start of a form, or it has read
    the lead byte of a two-byte form, the lead byte of a three-byte form,
    or the first two bytes of a three-byte form. *)
Inductive mstate : Type :=
  | Idle
  | Pending2 (c : Z)
  | Pending3 (c : Z)
  | Pending3' (c c2 : Z).

#[export] Instance mstate_eq_dec : EqDecision mstate.
Proof. solve_decision. Defined.

(** The next state and the code units emitted on reading the byte [b]. *)
Definition feed (s : mstate) (b : byte) : mstate * jsstring :=
  match s with
  | Idle =>
      match classify b with
      | Single => (Idle, [byte_to_Z b])
      | Lead2 => (Pending2 (byte_to_Z b), [])
      | Lead3 => (Pending3 (byte_to_Z b), [])
      | Ignored => (Idle, [])
      end
  | Pending2 c => (Idle, [unit2 c (byte_to_Z b)])
  | Pending3 c => (Pending3' c (byte_to_Z b), [])
  | Pending3' c c2 => (Idle, [unit3 c c2 (byte_to_Z b)])
  end.

(** What the machine emits when the input ends: the form it is in, the
    missing bytes taken as zero. *)
Definition flush (s : mstate) : jsstring :=
  match s with
  | Idle => []
  | Pending2 c => [unit2 c 0]
  | Pending3 c => [unit3 c 0 0]
  | Pending3' c c2 => [unit3 c c2 0]
  end.

(** The number of bytes the form the machine is in still lacks. *)
Definition missing (s : mstate) : nat :=
  match s with
  | Idle => 0
  | Pending2 _ => 1
  | Pending3 _ => 2
  | Pending3' _ _ => 1
  end.

(** The state after the bytes [l], and the code units emitted on the way. *)
Fixpoint after (s : mstate) (l : list byte) : mstate :=
  match l with
  | [] => s
  | b :: l => after (feed s b).1 l
  end.

Fixpoint emitted (s : mstate) (l : list byte) : jsstring :=
  match l with
  | [] => []
  | b :: l => (feed s b).2 ++ emitted (feed s b).1 l
  end.

(** The machine run on a whole input. *)
Definition machine (s : mstate) (l : list byte) : jsstring :=
  emitted s l ++ flush (after s l).

(** An input that ends at the end of a form. *)
Definition complete (l : list byte) : Prop := after Idle l = Idle.

#[export] Instance complete_dec l : Decision (complete l).
Proof. unfold complete. apply _. Defined.

Definition zero_byte : byte := byte_of_Z 0.

Example machine_two_three :
  machine Idle (bytes_of [0xC3; 0xA9; 0xE2; 0x82; 0xAC]) = [0xE9; 0x20AC].
Proof. vm_compute. reflexivity. Qed.

Example machine_truncated :
  machine Idle (bytes_of [0x41; 0xE2; 0x82]) = [0x41; 0x2080]
  /\ after Idle (bytes_of [0x41; 0xE2; 0x82]) = Pending3' 0xE2 0x82.
Proof. vm_compute. split; reflexivity. Qed.

Example exec_overrun :
  exec 3 (bytes_of [0x41; 0xE2; 0x82]) init = Config [0x41; 0x2080] 4.
Proof. vm_compute. reflexivity. Qed.

(** ** The loop: invariant, termination, result *)

Section loop.
Context (array : list byte).
Implicit Types (s : config) (n fuel : nat).

Lemma decode_head_size (c : byte) (r : list byte) :
  (1 <= (decode_head c r).2 <= 3)%nat.
Proof. unfold decode_head. destruct (classify c); simpl; lia. Qed.

(** An iteration emits the head of the reference decoder and moves [i] past
    the form. *)
Lemma iterate_head s c r :
  drop (idx s) array = c :: r ->
  iterate array s
  = Config (out s ++ (decode_head c r).1) (idx s + (decode_head c r).2).
Proof.
  intros Hd. unfold iterate. rewrite (decoder_body_head _ _ _ _ _ Hd). reflexivity.
Qed.

Lemma step_deterministic s s1 s2 : step array s s1 -> step array s s2 -> s1 = s2.
Proof. intros H1 H2. destruct H1. inversion H2. reflexivity. Qed.

Lemma step_running s s' : step array s s' -> running array s.
Proof. intros []. assumption. Qed.

Lemma inv_init : inv array init.
Proof. split; [reflexivity | simpl; lia]. Qed.

Lemma inv_step s s' : inv array s -> step array s s' -> inv array s'.
Proof.
  intros Hinv Hstep. destruct Hstep as [s Hrun]. destruct Hinv as [Ho Hi].
  destruct (drop_lt_cons array (idx s) Hrun) as (c & r & Hd).
  rewrite (iterate_head _ _ _ Hd). pose proof (decode_head_size c r) as Hk.
  unfold running in Hrun. split; cbn [out idx]; [|lia].
  rewrite <- Ho, Hd, decode_ref_cons, <- app_assoc. do 2 f_equal.
  destruct (decode_head c r).2 as [|k]; [lia|].
  rewrite (drop_cons_drop _ _ k _ _ Hd). reflexivity.
Qed.

Lemma inv_rtc s s' : inv array s -> rtc (step array) s s' -> inv array s'.
Proof. intros Hs H. induction H; eauto using inv_step. Qed.

(** When the loop has stopped, the invariant gives the result. *)
Lemma inv_stopped s :
  inv array s -> ~ running array s ->
  out s = decode_ref array /\ (length array <= idx s <= length array + 2)%nat.
Proof.
  unfold running. intros [Ho Hi] Hn. rewrite drop_ge, app_nil_r in Ho by lia.
  split; [assumption | lia].
Qed.

(** The function [exec] follows the relation, one step per unit of fuel. *)
Lemma exec_nsteps fuel s :
  exists n, (n <= fuel)%nat /\ nsteps (step array) n s (exec fuel array s).
Proof.
  revert s. induction fuel as [|fuel IH]; intros s; cbn [exec].
  - exists 0%nat. split; [lia | constructor].
  - case_decide as Hr; [|exists 0%nat; split; [lia | constructor]].
    destruct (IH (iterate array s)) as (n & Hn & Hs).
    exists (S n). split; [lia|]. econstructor; [apply step_body, Hr | exact Hs].
Qed.

Lemma iterate_advances s : running array s -> (idx s < idx (iterate array s))%nat.
Proof.
  intros Hr. destruct (drop_lt_cons array (idx s) Hr) as (c & r & Hd).
  rewrite (iterate_head _ _ _ Hd). pose proof (decode_head_size c r). simpl. lia.
Qed.

(** [len - i] iterations are enough for the test of the loop to fail. *)
Lemma exec_stops fuel s :
  (length array - idx s <= fuel)%nat -> ~ running array (exec fuel array s).
Proof.
  revert s. induction fuel as [|fuel IH]; intros s Hf; cbn [exec].
  - unfold running. lia.
  - case_decide as Hr; [|assumption].
    apply IH. pose proof (iterate_advances s Hr). unfold running in Hr. lia.
Qed.

(** A run that has stopped is the only one: the steps are deterministic. *)
Lemma stopped_unique s s1 s2 :
  rtc (step array) s s1 -> ~ running array s1 ->
  rtc (step array) s s2 -> ~ running array s2 -> s1 = s2.
Proof.
  intros H1 Hn1 H2 Hn2. induction H1 as [s|s s' s1 Hs _ IH].
  - destruct H2 as [|s s'' s2 Hs']; [reflexivity|].
    destruct Hn1. exact (step_running _ _ Hs').
  - destruct H2 as [|s s'' s2 Hs' H2]; [destruct Hn2; exact (step_running _ _ Hs)|].
    rewrite (step_deterministic _ _ _ Hs' Hs) in H2. auto.
Qed.

(** C34: the invariant of the loop of [_decoder] holds in every state the
    loop reaches: the text decoded so far followed by the decoding of the
    bytes not yet read is the decoding of the whole array, and the index is
    at most two places past the end. *)
Theorem reachable_inv s : reachable array s -> inv array s.
Proof. apply inv_rtc, inv_init. Qed.

(** In every state the loop of [_decoder] can end in, [out] is the
    string [_decoder] returns, and the index has stopped at the length of
    the array or one or two places past it. *)
Lemma final_is_decoder s :
  final array s ->
  out s = _decoder array /\ (length array <= idx s <= length array + 2)%nat.
Proof.
  intros [Hr Hn]. decoder_ref. apply inv_stopped; [|assumption].
  exact (inv_rtc _ _ inv_init Hr).
Qed.

(** Each iteration moves the index forward, by one to three places. *)
Lemma step_advances s s' : step array s s' -> (idx s < idx s' <= idx s + 3)%nat.
Proof.
  intros [s0 Hr]. destruct (drop_lt_cons array (idx s0) Hr) as (c & r & Hd).
  rewrite (iterate_head _ _ _ Hd). pose proof (decode_head_size c r). simpl. lia.
Qed.

(** The distance of the index to the end decreases at each step, so no
    run goes on for ever, whatever state it starts in. *)
Lemma step_sn s : sn (step array) s.
Proof.
  revert s. apply (wf_projected lt (fun s => length array - idx s)%nat), Nat.lt_wf_0.
  intros s' s Hs. unfold flip in Hs. pose proof (step_advances _ _ Hs).
  pose proof (step_running _ _ Hs) as Hr. unfold running in Hr. lia.
Qed.

(** A run of [n] iterations moves the index by [n] to [3 * n] places, and
    its last iteration started before the end of the array. *)
Lemma nsteps_advances n s s' :
  nsteps (step array) n s s' ->
  (idx s + n <= idx s' <= idx s + 3 * n)%nat /\ (n <= length array - idx s)%nat.
Proof.
  induction 1 as [|n s s1 s' Hs _ IH]; [lia|].
  pose proof (step_advances _ _ Hs).
  pose proof (step_running _ _ Hs) as Hr. unfold running in Hr. lia.
Qed.

(** C27: the loop of [_decoder] terminates from every state, reached or
    not: no run is infinite (the step relation is strongly normalising),
    a run from index [i] has at most [len - i] iterations, each moving the
    index by one to three places, and a run that ends with the test
    [i < len] failing has at least a third of [len - i] iterations: the
    loop is linear in the length of the array, in both directions. *)
Theorem step_terminates s :
  sn (step array) s
  /\ forall n s', nsteps (step array) n s s' ->
       (n <= length array - idx s)%nat
       /\ (idx s + n <= idx s' <= idx s + 3 * n)%nat
       /\ (~ running array s' -> (length array - idx s <= 3 * n)%nat).
Proof.
  split; [apply step_sn|]. intros n s' Hn.
  destruct (nsteps_advances _ _ _ Hn) as [Hi Hle].
  refine (conj Hle (conj Hi _)). unfold running. lia.
Qed.

(** The loop of [_decoder] has one outcome: two runs that have both
    stopped are in the same state, the state the function [exec] computes
    with fuel [len]. *)
Lemma final_unique s :
  final array s -> s = exec (length array) array init.
Proof.
  intros [Hr Hn]. destruct (exec_nsteps (length array) init) as (n & _ & Hs).
  apply (stopped_unique init); try assumption.
  - exact (rtc_nsteps_2 _ _ _ Hs).
  - apply exec_stops. simpl. lia.
Qed.

(** C23: the loop of [_decoder] always finishes: from every state it
    reaches, after whatever iterations, it goes on to a state in which the
    test [i < len] fails, in at most [len - i] further iterations, and that
    state holds the string [_decoder] returns. *)
Theorem reachable_finishes s :
  reachable array s ->
  exists n s',
    (n <= length array - idx s)%nat /\ nsteps (step array) n s s'
    /\ final array s' /\ out s' = _decoder array.
Proof.
  intros Hr. destruct (exec_nsteps (length array - idx s) s) as (n & Hn & Hs).
  pose proof (exec_stops (length array - idx s) s (le_n _)) as Hstop.
  assert (Hr' : reachable array (exec (length array - idx s) array s))
    by exact (rtc_trans _ _ _ Hr (rtc_nsteps_2 _ _ _ Hs)).
  exists n, (exec (length array - idx s) array s). split_and!; try done.
  decoder_ref. apply inv_stopped; [exact (inv_rtc _ _ inv_init Hr') | exact Hstop].
Qed.

End loop.

(** The states [exec] computes are states of the loop. *)
Lemma exec_reachable (array : list byte) (fuel : nat) :
  reachable array (exec fuel array init).
Proof.
  destruct (exec_nsteps array fuel init) as (n & _ & Hs).
  exact (rtc_nsteps_2 _ _ _ Hs).
Qed.

Lemma exec_final (array : list byte) : final array (exec (length array) array init).
Proof. split; [apply exec_reachable | apply exec_stops; simpl; lia]. Qed.

Lemma reachable_inv_witness :
  inv (bytes_of [0x41; 0xE2; 0x82]) (Config [0x41; 0x2080] 4).
Proof.
  apply reachable_inv. exact (exec_reachable (bytes_of [0x41; 0xE2; 0x82]) 3).
Defined.

Lemma final_is_decoder_witness :
  [0x41; 0x2080] = _decoder (bytes_of [0x41; 0xE2; 0x82]) /\ (3 <= 4 <= 3 + 2)%nat.
Proof.
  apply (final_is_decoder (bytes_of [0x41; 0xE2; 0x82]) (Config [0x41; 0x2080] 4)).
  exact (exec_final (bytes_of [0x41; 0xE2; 0x82])).
Defined.

Lemma reachable_finishes_witness :
  exists n s',
    (n <= 3 - 1)%nat
    /\ nsteps (step (bytes_of [0x41; 0xE2; 0x82])) n (Config [0x41] 1) s'
    /\ final (bytes_of [0x41; 0xE2; 0x82]) s'
    /\ out s' = _decoder (bytes_of [0x41; 0xE2; 0x82]).
Proof.
  apply (reachable_finishes (bytes_of [0x41; 0xE2; 0x82]) (Config [0x41] 1)).
  exact (exec_reachable (bytes_of [0x41; 0xE2; 0x82]) 1).
Defined.

(** The run of two iterations on a three-byte array that ends in the
    middle of a form. *)
Lemma step_terminates_witness :
  (2 <= 3 - 0)%nat /\ (0 + 2 <= 4 <= 0 + 3 * 2)%nat
  /\ (~ running (bytes_of [0x41; 0xE2; 0x82]) (Config [0x41; 0x2080] 4)
      -> (3 - 0 <= 3 * 2)%nat).
Proof.
  apply (proj2 (step_terminates (bytes_of [0x41; 0xE2; 0x82]) init) 2%nat
           (Config [0x41; 0x2080] 4)).
  do 2 (eapply nsteps_l; [apply step_body; unfold running; vm_compute; lia|]).
  apply nsteps_O.
Defined.

Lemma final_unique_witness :
  Config [0x41; 0x2080] 4 = exec 3 (bytes_of [0x41; 0xE2; 0x82]) init.
Proof.
  apply (final_unique (bytes_of [0x41; 0xE2; 0x82])).
  exact (exec_final (bytes_of [0x41; 0xE2; 0x82])).
Defined.

(** ** The machine *)

Section machine.
Implicit Types (s : mstate) (l r : list byte) (b : byte).

Lemma after_app s l r : after s (l ++ r) = after (after s l) r.
Proof. revert s. induction l as [|b l IH]; intros s; [reflexivity | apply IH]. Qed.

Lemma emitted_app s l r :
  emitted s (l ++ r) = emitted s l ++ emitted (after s l) r.
Proof.
  revert s. induction l as [|b l IH]; intros s; [reflexivity|].
  cbn [app emitted after]. rewrite IH, app_assoc. reflexivity.
Qed.

(** The machine can be stopped and resumed anywhere in its input. *)
Lemma machine_app s l r :
  machine s (l ++ r) = emitted s l ++ machine (after s l) r.
Proof. unfold machine. rewrite emitted_app, after_app, app_assoc. reflexivity. Qed.

Lemma machine_cons s b l : machine s (b :: l) = (feed s b).2 ++ machine (feed s b).1 l.
Proof. unfold machine. cbn [emitted after]. rewrite app_assoc. reflexivity. Qed.

Lemma machine_complete l : complete l -> machine Idle l = emitted Idle l.
Proof. unfold machine, complete. intros ->. apply app_nil_r. Qed.

(** The machine by the form it is in. *)
Lemma machine_idle c r :
  machine Idle (c :: r)
  = match classify c with
    | Single => byte_to_Z c :: machine Idle r
    | Lead2 => machine (Pending2 (byte_to_Z c)) r
    | Lead3 => machine (Pending3 (byte_to_Z c)) r
    | Ignored => machine Idle r
    end.
Proof. rewrite machine_cons. cbn [feed]. destruct (classify c); reflexivity. Qed.

Lemma machine_pending2 (c : Z) l :
  machine (Pending2 c) l
  = match l with
    | [] => [unit2 c 0]
    | c2 :: r => unit2 c (byte_to_Z c2) :: machine Idle r
    end.
Proof. destruct l; reflexivity. Qed.

Lemma machine_pending3 (c : Z) l :
  machine (Pending3 c) l
  = match l with
    | [] => [unit3 c 0 0]
    | [c2] => [unit3 c (byte_to_Z c2) 0]
    | c2 :: c3 :: r => unit3 c (byte_to_Z c2) (byte_to_Z c3) :: machine Idle r
    end.
Proof. destruct l as [|c2 [|c3 r]]; reflexivity. Qed.

(** The machine started between two forms is the reference decoder. *)
Lemma machine_decode_ref l : machine Idle l = decode_ref l.
Proof.
  induction l as [l IH] using (induction_ltof1 _ (@length byte)).
  assert (IH' : forall r, (length r < length l)%nat -> machine Idle r = decode_ref r)
    by exact IH.
  destruct l as [|c r]; [reflexivity|].
  rewrite machine_idle. cbn [decode_ref]. destruct (classify c).
  - rewrite IH' by (simpl; lia). reflexivity.
  - rewrite machine_pending2. destruct r as [|c2 r]; [reflexivity|].
    rewrite IH' by (simpl; lia). reflexivity.
  - rewrite machine_pending3. destruct r as [|c2 [|c3 r]]; [reflexivity ..|].
    rewrite IH' by (simpl; lia). reflexivity.
  - apply IH'. simpl. lia.
Qed.

(** Zero bytes in the number [missing] complete the form the machine is in,
    and make it emit what [flush] emits. *)
Lemma flush_zero_fill s :
  emitted s (replicate (missing s) zero_byte) = flush s
  /\ after s (replicate (missing s) zero_byte) = Idle.
Proof. destruct s; split; reflexivity. Qed.

End machine.

(** Replace [_decoder] by the machine in the goal. *)
Ltac decoder_machine := decoder_ref; rewrite <- ?machine_decode_ref.

(** C26: [_decoder] implements the byte-at-a-time state machine of the design
    notes: on every array it returns what the machine emits when started
    between two forms, a form cut short by the end of the array being
    completed with zero bytes. *)
Theorem decoder_refines_machine (array : list byte) :
  _decoder array = machine Idle array.
Proof. decoder_machine. reflexivity. Qed.

(** Decoding in pieces: when the first piece ends at the end of a form,
    [_decoder] of the concatenation is the concatenation of the decoded
    pieces. *)
Lemma decoder_app_complete (a b : list byte) :
  complete a -> _decoder (a ++ b) = _decoder a ++ _decoder b.
Proof.
  intros Ha. decoder_machine. rewrite machine_app, (machine_complete a Ha).
  rewrite Ha. reflexivity.
Qed.

Lemma decoder_app_complete_witness :
  _decoder (bytes_of [0xC3; 0xA9] ++ bytes_of [0xE2; 0x82])
  = _decoder (bytes_of [0xC3; 0xA9]) ++ _decoder (bytes_of [0xE2; 0x82]).
Proof. apply decoder_app_complete. vm_compute. reflexivity. Defined.

(** A piece that ends inside a form cannot be decoded on its own. *)
Example decoder_app_incomplete :
  _decoder (bytes_of [0xC3] ++ bytes_of [0xA9])
  <> _decoder (bytes_of [0xC3]) ++ _decoder (bytes_of [0xA9]).
Proof. vm_compute. discriminate. Qed.

(** C39: the truncation rule of [_decoder]: an array that ends inside a form
    is decoded as the array followed by the one or two zero bytes the form
    lacks. *)
Theorem decoder_truncation_zero_fill (array : list byte) :
  let pad := replicate (missing (after Idle array)) zero_byte in
  _decoder array = _decoder (array ++ pad)
  /\ complete (array ++ pad) /\ (length pad <= 2)%nat.
Proof.
  intros pad. destruct (flush_zero_fill (after Idle array)) as [He Ha].
  split; [|split].
  - decoder_machine. rewrite machine_app. unfold machine. fold pad in He, Ha.
    rewrite He, Ha, app_nil_r. reflexivity.
  - unfold complete. rewrite after_app. exact Ha.
  - unfold pad. rewrite length_replicate. destruct (after Idle array); simpl; lia.
Qed.
