(* ===== verification/Utf8.v ===== *)
(** * Utf8: the text-to-bytes encoder of the messages, against [_decoder]

    [sign], [encrypt] and [encryptPSK] turn the message into bytes with
    [nacl.util.decodeUTF8], which is [unescape(encodeURIComponent(s))]: the
    UTF-8 encoding of the string's code points, with a [URIError] for a
    surrogate code unit that has no partner.  That function belongs to
    tweetnacl-util, not to this repository: it is modelled here from its
    contract.  [verify], [decrypt] and [decryptPSK] turn the bytes back into
    text with the program's own [_decoder].  This file proves what the
    composition gives: the original string with every surrogate pair removed,
    hence the original string exactly when it has no character outside the
    Basic Multilingual Plane. *)

From Stdlib Require Import ZArith Lia List String.
From stdpp Require Import base tactics option list numbers.
From S2P Require Import Prelude JsPrims Decoder.

Local Open Scope Z_scope.

(** ** Surrogates and code points *)

Definition is_high_surrogate (u : Z) : Prop := 0xD800 <= u < 0xDC00.
Definition is_low_surrogate (u : Z) : Prop := 0xDC00 <= u < 0xE000.
Definition is_surrogate (u : Z) : Prop := 0xD800 <= u < 0xE000.

#[export] Instance is_high_surrogate_dec u : Decision (is_high_surrogate u).
Proof. unfold is_high_surrogate. apply _. Defined.
#[export] Instance is_low_surrogate_dec u : Decision (is_low_surrogate u).
Proof. unfold is_low_surrogate. apply _. Defined.
#[export] Instance is_surrogate_dec u : Decision (is_surrogate u).
Proof. unfold is_surrogate. apply _. Defined.

(** The code point a surrogate pair stands for. *)
Definition code_point (hi lo : Z) : Z :=
  (hi - 0xD800) * 0x400 + (lo - 0xDC00) + 0x10000.

(** The UTF-8 bytes of a code point. *)
Definition utf8_bytes (cp : Z) : list byte :=
  if decide (cp < 0x80) then
    [byte_of_Z cp]
  else if decide (cp < 0x800) then
    [byte_of_Z (0xC0 + cp / 64); byte_of_Z (0x80 + cp mod 64)]
  else if decide (cp < 0x10000) then
    [byte_of_Z (0xE0 + cp / 4096); byte_of_Z (0x80 + cp / 64 mod 64);
     byte_of_Z (0x80 + cp mod 64)]
  else
    [byte_of_Z (0xF0 + cp / 262144); byte_of_Z (0x80 + cp / 4096 mod 64);
     byte_of_Z (0x80 + cp / 64 mod 64); byte_of_Z (0x80 + cp mod 64)].

(** [nacl.util.decodeUTF8(s)] for a string [s]. *)
Fixpoint decodeUTF8 (s : jsstring) : result (list byte) :=
  match s with
  | [] => Ok []
  | u :: r =>
      if decide (is_high_surrogate u) then
        match r with
        | lo :: r =>
            if decide (is_low_surrogate lo)
            then (utf8_bytes (code_point u lo) ++.) <$> decodeUTF8 r
            else Throw (URIError "URI malformed")
        | [] => Throw (URIError "URI malformed")
        end
      else if decide (is_low_surrogate u) then Throw (URIError "URI malformed")
      else (utf8_bytes u ++.) <$> decodeUTF8 r
  end.

(** A string every surrogate of which is half of a pair. *)
Fixpoint well_paired (s : jsstring) : bool :=
  match s with
  | [] => true
  | u :: r =>
      if decide (is_high_surrogate u) then
        match r with
        | lo :: r => bool_decide (is_low_surrogate lo) && well_paired r
        | [] => false
        end
      else bool_decide (~ is_low_surrogate u) && well_paired r
  end.

Example utf8_euro : decodeUTF8 [0x20AC] = Ok (bytes_of [0xE2; 0x82; 0xAC]).
Proof. vm_compute. reflexivity. Qed.

Example utf8_emoji :
  decodeUTF8 [0xD83D; 0xDE00] = Ok (bytes_of [0xF0; 0x9F; 0x98; 0x80]).
Proof. vm_compute. reflexivity. Qed.

Example utf8_lone_surrogate : decodeUTF8 [0x41; 0xD83D] = Throw (URIError "URI malformed").
Proof. vm_compute. reflexivity. Qed.

(** ** Decoding the bytes of one code point *)

Ltac byte_values :=
  rewrite ?byte_to_of_Z_small by divmod.

Lemma decode_utf8_bmp (u : Z) (r : list byte) :
  is_u16 u -> ~ is_surrogate u ->
  decode_ref (utf8_bytes u ++ r) = u :: decode_ref r.
Proof.
  unfold is_u16, is_surrogate, utf8_bytes. intros Hu Hs.
  repeat case_decide; cbn [app]; [| | |lia].
  - rewrite decode_ref_single; byte_values; [reflexivity | lia].
  - rewrite decode_ref_lead2; byte_values; [|divmod].
    f_equal. unfold unit2. divmod.
  - rewrite decode_ref_lead3; byte_values; [|divmod].
    f_equal. unfold unit3. divmod.
Qed.

Lemma code_point_range (hi lo : Z) :
  is_high_surrogate hi -> is_low_surrogate lo ->
  0x10000 <= code_point hi lo < 0x110000.
Proof. unfold is_high_surrogate, is_low_surrogate, code_point. lia. Qed.

Lemma decode_utf8_astral (cp : Z) (r : list byte) :
  0x10000 <= cp < 0x110000 -> decode_ref (utf8_bytes cp ++ r) = decode_ref r.
Proof.
  intros Hcp. unfold utf8_bytes. repeat case_decide; try lia. cbn [app].
  rewrite !decode_ref_ignored; byte_values; [reflexivity | divmod ..].
Qed.

(** ** [_decoder] after [decodeUTF8] *)

(** The code units [_decoder] gives back: the ones that are not surrogates. *)
Definition strip_surrogates (s : jsstring) : jsstring :=
  filter (fun u => ~ is_surrogate u) s.

Lemma decode_ref_decodeUTF8 (s : jsstring) (b : list byte) :
  wf_string s -> decodeUTF8 s = Ok b -> decode_ref b = strip_surrogates s.
Proof.
  revert b. induction s as [s IH] using (induction_ltof1 _ (@length Z)).
  unfold ltof in IH. intros b Hwf Henc.
  destruct s as [|u r]; [injection Henc as <-; reflexivity|].
  apply Forall_cons_1 in Hwf as [Hu Hr]. cbn [decodeUTF8] in Henc.
  unfold strip_surrogates. case_decide as Hhi.
  - destruct r as [|lo r]; [discriminate|]. case_decide as Hlo; [|discriminate].
    apply Forall_cons_1 in Hr as [_ Hr].
    destruct (decodeUTF8 r) as [b'|] eqn:Hb'; [|discriminate].
    injection Henc as <-.
    rewrite decode_utf8_astral by (apply code_point_range; assumption).
    rewrite (IH r) by (simpl; lia || assumption || reflexivity).
    unfold is_high_surrogate, is_low_surrogate in *.
    rewrite !filter_cons_False by (unfold is_surrogate; lia). reflexivity.
  - case_decide as Hlo; [discriminate|].
    destruct (decodeUTF8 r) as [b'|] eqn:Hb'; [|discriminate].
    injection Henc as <-.
    assert (Hs : ~ is_surrogate u).
    { unfold is_surrogate, is_high_surrogate, is_low_surrogate in *. lia. }
    rewrite decode_utf8_bmp by assumption.
    rewrite (IH r) by (simpl; lia || assumption || reflexivity).
    rewrite filter_cons_True by assumption. reflexivity.
Qed.

Lemma strip_surrogates_id (s : jsstring) :
  Forall (fun u => ~ is_surrogate u) s -> strip_surrogates s = s.
Proof.
  unfold strip_surrogates. induction 1 as [|u r Hu _ IH]; [reflexivity|].
  rewrite filter_cons_True by assumption. rewrite IH. reflexivity.
Qed.

(** C25: decoding the UTF-8 bytes of a string with [_decoder] gives the string
    without its surrogate code units: every character outside the Basic
    Multilingual Plane is removed and every other character is kept. *)
Theorem decoder_decodeUTF8 (s : jsstring) (b : list byte) :
  wf_string s -> decodeUTF8 s = Ok b -> _decoder b = strip_surrogates s.
Proof. decoder_ref. apply decode_ref_decodeUTF8. Qed.

Lemma decoder_decodeUTF8_witness :
  _decoder (bytes_of [0x41; 0xF0; 0x9F; 0x98; 0x80; 0xC3; 0xA9])
  = strip_surrogates [0x41; 0xD83D; 0xDE00; 0xE9].
Proof.
  apply decoder_decodeUTF8; [decide_by_computation | vm_compute; reflexivity].
Defined.

(** [decodeUTF8] throws exactly on the strings with an unpaired surrogate. *)
Lemma decodeUTF8_Ok_well_paired (s : jsstring) :
  is_Ok (decodeUTF8 s) = well_paired s.
Proof.
  induction s as [s IH] using (induction_ltof1 _ (@length Z)). unfold ltof in IH.
  destruct s as [|u r]; [reflexivity|]. cbn [decodeUTF8 well_paired].
  case_decide as Hhi.
  - destruct r as [|lo r]; [reflexivity|]. case_bool_decide as Hlo.
    + rewrite decide_True by assumption. rewrite <- (IH r) by (simpl; lia).
      destruct (decodeUTF8 r); reflexivity.
    + rewrite decide_False by assumption. reflexivity.
  - case_bool_decide as Hlo.
    + rewrite decide_False by assumption. rewrite <- (IH r) by (simpl; lia).
      destruct (decodeUTF8 r); reflexivity.
    + rewrite decide_True by tauto. reflexivity.
Qed.

(** [encodeURIComponent] throws one exception only. *)
Lemma decodeUTF8_Throw (s : jsstring) (e : exn) :
  decodeUTF8 s = Throw e -> e = URIError "URI malformed".
Proof.
  induction s as [s IH] using (induction_ltof1 _ (@length Z)). unfold ltof in IH.
  destruct s as [|u r]; [discriminate|]. cbn [decodeUTF8].
  repeat case_match; try congruence;
    match goal with
    | |- _ <$> decodeUTF8 ?r' = _ -> _ =>
        destruct (decodeUTF8 r') eqn:Er; [discriminate|];
        intros [= <-]; apply (IH r'); [subst; simpl; lia | assumption]
    end.
Qed.

Lemma utf8_bytes_length (cp : Z) :
  (1 <= length (utf8_bytes cp) <= 4)%nat
  /\ (cp < 0x10000 -> (length (utf8_bytes cp) <= 3)%nat)
  /\ (0x10000 <= cp -> length (utf8_bytes cp) = 4%nat).
Proof. unfold utf8_bytes. repeat case_decide; simpl; lia. Qed.

(** A string of [n] code units has between [n] and [3 * n] bytes. *)
Lemma decodeUTF8_length (s : jsstring) (b : list byte) :
  wf_string s -> decodeUTF8 s = Ok b ->
  (length s <= length b <= 3 * length s)%nat.
Proof.
  revert b. induction s as [s IH] using (induction_ltof1 _ (@length Z)).
  unfold ltof, wf_string in *. intros b Hwf. destruct s as [|u r]; [by intros [= <-]|].
  apply list.Forall_cons in Hwf as [Hu Hwf]. cbn [decodeUTF8]. repeat case_match; try done;
    intros (b' & Hb' & ->)%fmap_Ok_inv; rewrite length_app;
    match goal with
    | |- context [utf8_bytes ?cp] => pose proof (utf8_bytes_length cp) as (? & Hcp & Hcp')
    end.
  - subst. apply list.Forall_cons in Hwf as [_ Hwf].
    unfold code_point, is_high_surrogate, is_low_surrogate in *.
    apply IH in Hb'; [cbn [length]; lia | cbn [length]; lia | done].
  - apply IH in Hb'; [|cbn [length]; lia | done].
    unfold is_u16 in Hu. cbn [length]. lia.
Qed.

Lemma decodeUTF8_no_surrogate (s : jsstring) :
  Forall (fun u => ~ is_surrogate u) s -> is_Ok (decodeUTF8 s) = true.
Proof.
  induction 1 as [|u r Hu _ IH]; [reflexivity|]. cbn [decodeUTF8].
  unfold is_surrogate, is_high_surrogate, is_low_surrogate in *.
  rewrite !decide_False by lia. destruct (decodeUTF8 r); [reflexivity | discriminate].
Qed.

Lemma decode_ref_decodeUTF8_bmp (s : jsstring) :
  wf_string s -> Forall (fun u => ~ is_surrogate u) s ->
  exists b, decodeUTF8 s = Ok b /\ decode_ref b = s.
Proof.
  intros Hwf Hs. pose proof (decodeUTF8_no_surrogate s Hs) as Hok.
  destruct (decodeUTF8 s) as [b|] eqn:Hb; [|discriminate].
  exists b. split; [reflexivity|].
  rewrite (decode_ref_decodeUTF8 s b Hwf Hb). apply strip_surrogates_id, Hs.
Qed.

Lemma strip_surrogates_changes (s : jsstring) :
  Exists is_surrogate s -> strip_surrogates s <> s.
Proof.
  intros Hex Heq. apply Exists_exists in Hex as (u & Hin & Hu).
  rewrite <- Heq in Hin. apply list_elem_of_In, list_elem_of_filter in Hin.
  tauto.
Qed.

(** Round trip on the Basic Multilingual Plane: a string of 16-bit code
    units without surrogates is encoded by [decodeUTF8] without error and
    [_decoder] gives it back unchanged. *)
Lemma decoder_decodeUTF8_roundtrip (s : jsstring) :
  wf_string s -> Forall (fun u => ~ is_surrogate u) s ->
  exists b, decodeUTF8 s = Ok b /\ _decoder b = s.
Proof.
  intros Hwf Hs. destruct (decode_ref_decodeUTF8_bmp s Hwf Hs) as (b & Hb & Hd).
  exists b. split; [assumption|]. decoder_ref. assumption.
Qed.

Lemma decoder_decodeUTF8_roundtrip_witness :
  exists b, decodeUTF8 (js "attack at dawn") = Ok b
            /\ _decoder b = js "attack at dawn".
Proof.
  apply decoder_decodeUTF8_roundtrip; decide_by_computation.
Defined.

(** A character outside the Basic Multilingual Plane does not survive:
    the UTF-8 bytes of any surrogate pair decode to the empty string, so
    [_decoder] does not invert [decodeUTF8] on such messages. *)
Lemma decoder_drops_astral (hi lo : Z) :
  is_high_surrogate hi -> is_low_surrogate lo ->
  exists b, decodeUTF8 [hi; lo] = Ok b /\ _decoder b = [] /\ _decoder b <> [hi; lo].
Proof.
  intros Hhi Hlo. eexists. split; [|split].
  - cbn [decodeUTF8]. rewrite !decide_True by assumption. reflexivity.
  - decoder_ref.
    rewrite decode_utf8_astral by (apply code_point_range; assumption). reflexivity.
  - decoder_ref.
    rewrite decode_utf8_astral by (apply code_point_range; assumption). discriminate.
Qed.

Lemma decoder_drops_astral_witness :
  exists b, decodeUTF8 [0xD83D; 0xDE00] = Ok b /\ _decoder b = []
            /\ _decoder b <> [0xD83D; 0xDE00].
Proof. apply decoder_drops_astral; decide_by_computation. Defined.
