(* ===== verification/Utf8Strict.v ===== *)
(** * Utf8Strict: [_decoder] against a validating UTF-8 decoder

    [_decoder] never rejects its input: it reads a continuation byte without
    looking at its two high bits, accepts over-long forms and the forms of
    surrogates, and skips what it does not know.  [utf8_strict] is the
    decoder a validating implementation would be, restricted to the Basic
    Multilingual Plane: it returns a string only for well-formed UTF-8 of
    code points below 0x10000.  This file proves that [utf8_strict] accepts
    exactly the bytes [decodeUTF8] makes of strings without surrogates, and
    that on every input [utf8_strict] accepts, [_decoder] returns the same
    string. *)

From Stdlib Require Import ZArith Lia List String.
From stdpp Require Import base tactics option list numbers.
From S2P Require Import Prelude JsPrims Decoder Utf8.

Local Open Scope Z_scope.

(** ** The validating decoder *)

(** A continuation byte: [10xxxxxx]. *)
Definition is_cont (b : byte) : Prop := 128 <= byte_to_Z b < 192.

#[export] Instance is_cont_dec b : Decision (is_cont b).
Proof. unfold is_cont. apply _. Defined.

(** A three-byte form is well formed when its continuation bytes are, it is
    not over-long and it is not the form of a surrogate. *)
Definition valid3 (c c2 c3 : byte) : Prop :=
  is_cont c2 /\ is_cont c3
  /\ 0x800 <= unit3 (byte_to_Z c) (byte_to_Z c2) (byte_to_Z c3)
  /\ ~ is_surrogate (unit3 (byte_to_Z c) (byte_to_Z c2) (byte_to_Z c3)).

#[export] Instance valid3_dec c c2 c3 : Decision (valid3 c c2 c3).
Proof. unfold valid3. apply _. Defined.

Fixpoint utf8_strict (l : list byte) : option jsstring :=
  match l with
  | [] => Some []
  | c :: r =>
      let n := byte_to_Z c in
      if decide (n < 128) then (n ::.) <$> utf8_strict r
      else if decide (194 <= n < 224) then
        match r with
        | c2 :: r =>
            if decide (is_cont c2)
            then (unit2 n (byte_to_Z c2) ::.) <$> utf8_strict r
            else None
        | [] => None
        end
      else if decide (224 <= n < 240) then
        match r with
        | c2 :: c3 :: r =>
            if decide (valid3 c c2 c3)
            then (unit3 n (byte_to_Z c2) (byte_to_Z c3) ::.) <$> utf8_strict r
            else None
        | _ => None
        end
      else None
  end.

(** A string of the Basic Multilingual Plane: 16-bit code units, none of
    them a surrogate. *)
Definition bmp_string (s : jsstring) : Prop :=
  Forall (fun u => is_u16 u /\ ~ is_surrogate u) s.

#[export] Instance bmp_string_dec s : Decision (bmp_string s).
Proof. unfold bmp_string. apply _. Defined.

(** What an accepted input starts with: one of the three forms, well
    formed, and an accepted rest. *)
Inductive accepted_head : list byte -> Z -> list byte -> Prop :=
  | accepted1 c r :
      byte_to_Z c < 128 -> accepted_head (c :: r) (byte_to_Z c) r
  | accepted2 c c2 r :
      194 <= byte_to_Z c < 224 -> is_cont c2 ->
      accepted_head (c :: c2 :: r) (unit2 (byte_to_Z c) (byte_to_Z c2)) r
  | accepted3 c c2 c3 r :
      224 <= byte_to_Z c < 240 -> valid3 c c2 c3 ->
      accepted_head (c :: c2 :: c3 :: r)
        (unit3 (byte_to_Z c) (byte_to_Z c2) (byte_to_Z c3)) r.

Example strict_euro : utf8_strict (bytes_of [0x41; 0xE2; 0x82; 0xAC]) = Some [0x41; 0x20AC].
Proof. vm_compute. reflexivity. Qed.

(** Input a validating decoder rejects and [_decoder] accepts: an over-long
    form, a lead byte followed by an ASCII character, a truncated form, the
    form of a surrogate, a four-byte form. *)
Example strict_rejects :
  Forall (fun l => utf8_strict (bytes_of l) = None)
    [[0xC0; 0x80]; [0xC3; 0x41]; [0xE2; 0x82]; [0xED; 0xA0; 0x80];
     [0xF0; 0x9F; 0x98; 0x80]]
  /\ _decoder <$> (bytes_of <$> [[0xC0; 0x80]; [0xC3; 0x41]; [0xE2; 0x82];
                                  [0xED; 0xA0; 0x80]; [0xF0; 0x9F; 0x98; 0x80]])
     = [[0]; [0xC1]; [0x2080]; [0xD800]; []].
Proof. split; [decide_by_computation | vm_compute; reflexivity]. Qed.

(** ** The forms the validating decoder accepts *)

Section forms.
Implicit Types (c : byte) (r : list byte) (u : Z) (s : jsstring).

Lemma strict_single c r :
  byte_to_Z c < 128 -> utf8_strict (c :: r) = (byte_to_Z c ::.) <$> utf8_strict r.
Proof. intros. cbn [utf8_strict]. rewrite decide_True by done. reflexivity. Qed.

Lemma strict_lead2 c c2 r :
  194 <= byte_to_Z c < 224 -> is_cont c2 ->
  utf8_strict (c :: c2 :: r)
  = (unit2 (byte_to_Z c) (byte_to_Z c2) ::.) <$> utf8_strict r.
Proof.
  intros. cbn [utf8_strict].
  rewrite decide_False, !decide_True by (done || lia). reflexivity.
Qed.

Lemma strict_lead3 c c2 c3 r :
  224 <= byte_to_Z c < 240 -> valid3 c c2 c3 ->
  utf8_strict (c :: c2 :: c3 :: r)
  = (unit3 (byte_to_Z c) (byte_to_Z c2) (byte_to_Z c3) ::.) <$> utf8_strict r.
Proof.
  intros. cbn [utf8_strict].
  rewrite !decide_False, !decide_True by (done || lia). reflexivity.
Qed.

Lemma strict_cons_inv c r s :
  utf8_strict (c :: r) = Some s ->
  exists u r' s', accepted_head (c :: r) u r' /\ utf8_strict r' = Some s'
                  /\ s = u :: s'.
Proof.
  cbn [utf8_strict]. intros Hs. repeat case_decide; try discriminate.
  - apply fmap_Some in Hs as (s' & Hs' & ->).
    eexists _, _, _. split_and!; [by constructor | done..].
  - destruct r as [|c2 r]; [discriminate|]. case_decide; [|discriminate].
    apply fmap_Some in Hs as (s' & Hs' & ->).
    eexists _, _, _. split_and!; [by constructor | done..].
  - destruct r as [|c2 [|c3 r]]; try discriminate. case_decide; [|discriminate].
    apply fmap_Some in Hs as (s' & Hs' & ->).
    eexists _, _, _. split_and!; [by constructor | done..].
Qed.

Lemma accepted_head_shorter l u r :
  accepted_head l u r -> (length r < length l)%nat.
Proof. destruct 1; simpl; lia. Qed.

(** The reference decoder of [_decoder] reads an accepted form as the
    validating decoder does. *)
Lemma accepted_head_decode_ref l u r :
  accepted_head l u r -> decode_ref l = u :: decode_ref r.
Proof.
  destruct 1; [apply decode_ref_single | apply decode_ref_lead2
              | apply decode_ref_lead3]; done || lia.
Qed.

(** An accepted form is the UTF-8 encoding of the code unit it stands for. *)
Lemma accepted_head_encode l u r :
  accepted_head l u r ->
  is_u16 u /\ ~ is_surrogate u /\ l = utf8_bytes u ++ r.
Proof.
  unfold is_u16, is_surrogate, utf8_bytes.
  destruct 1 as [c r Hc|c c2 r Hc H2|c c2 c3 r Hc (H2 & H3 & Hmin & Hsur)];
    pose proof (byte_to_Z_range c); unfold is_cont, is_surrogate, unit2, unit3 in *.
  - rewrite decide_True by done. rewrite byte_of_to_Z. split_and!; done || lia.
  - rewrite decide_False, decide_True by divmod.
    rewrite (byte_of_Z_eq _ c), (byte_of_Z_eq _ c2) by divmod.
    split_and!; done || divmod.
  - rewrite !decide_False, decide_True by divmod.
    rewrite (byte_of_Z_eq _ c), (byte_of_Z_eq _ c2), (byte_of_Z_eq _ c3) by divmod.
    split_and!; done || divmod.
Qed.

(** The UTF-8 encoding of a code unit that is no surrogate is an accepted
    form. *)
Lemma encode_accepted_head u r :
  is_u16 u -> ~ is_surrogate u -> accepted_head (utf8_bytes u ++ r) u r.
Proof.
  unfold is_u16, is_surrogate, utf8_bytes. intros Hu Hs.
  repeat case_decide; cbn [app]; [| | |lia].
  - rewrite <- (byte_to_of_Z_small u) at 2 by lia.
    constructor. byte_values. lia.
  - replace u with (unit2 (byte_to_Z (byte_of_Z (0xC0 + u / 64)))
                      (byte_to_Z (byte_of_Z (0x80 + u mod 64)))) at 3
      by (byte_values; unfold unit2; divmod).
    constructor; unfold is_cont; byte_values; divmod.
  - replace u with (unit3 (byte_to_Z (byte_of_Z (0xE0 + u / 4096)))
                      (byte_to_Z (byte_of_Z (0x80 + u / 64 mod 64)))
                      (byte_to_Z (byte_of_Z (0x80 + u mod 64)))) at 4
      by (byte_values; unfold unit3; divmod).
    constructor; unfold valid3, is_cont, is_surrogate; byte_values;
      unfold unit3; divmod.
Qed.

Lemma accepted_head_strict l u r :
  accepted_head l u r -> utf8_strict l = (u ::.) <$> utf8_strict r.
Proof.
  destruct 1; [apply strict_single | apply strict_lead2 | apply strict_lead3]; done.
Qed.

End forms.

(** ** The validating decoder inverts [decodeUTF8] *)

Section inverse.
Implicit Types (l : list byte) (u : Z) (s : jsstring).

Lemma decodeUTF8_bmp_cons u s :
  ~ is_surrogate u -> decodeUTF8 (u :: s) = (utf8_bytes u ++.) <$> decodeUTF8 s.
Proof.
  unfold is_surrogate. intros Hu. cbn [decodeUTF8].
  rewrite !decide_False by (unfold is_high_surrogate, is_low_surrogate; lia).
  reflexivity.
Qed.

(** Induction on an accepted input, form by form. *)
Lemma strict_ind (P : list byte -> jsstring -> Prop) :
  P [] [] ->
  (forall l u r s, accepted_head l u r -> utf8_strict r = Some s -> P r s ->
                   P l (u :: s)) ->
  forall l s, utf8_strict l = Some s -> P l s.
Proof.
  intros Hnil Hcons l.
  induction l as [l IH] using (induction_ltof1 _ (@length byte)). unfold ltof in IH.
  destruct l as [|c r]; intros s Hs; [injection Hs as <-; exact Hnil|].
  apply strict_cons_inv in Hs as (u & r' & s' & Hh & Hs' & ->).
  eauto using accepted_head_shorter.
Qed.

Lemma strict_decode_ref l s : utf8_strict l = Some s -> decode_ref l = s.
Proof.
  revert l s. apply strict_ind; [reflexivity|].
  intros l u r s Hh _ <-. by apply accepted_head_decode_ref.
Qed.

Lemma strict_encoding l s :
  utf8_strict l = Some s -> bmp_string s /\ decodeUTF8 s = Ok l.
Proof.
  revert l s. apply strict_ind; [by split; [constructor|]|].
  intros l u r s (Hu & Hs & ->)%accepted_head_encode _ [Hbmp Henc].
  split; [by constructor|]. rewrite decodeUTF8_bmp_cons, Henc by done. reflexivity.
Qed.

Lemma encoding_strict s l :
  bmp_string s -> decodeUTF8 s = Ok l -> utf8_strict l = Some s.
Proof.
  intros Hbmp. revert l. induction Hbmp as [|u s [Hu Hs] _ IH]; intros l.
  - intros [= <-]. reflexivity.
  - rewrite decodeUTF8_bmp_cons by done.
    intros (b & Hb & ->)%fmap_Ok_inv.
    rewrite (accepted_head_strict _ u b) by by apply encode_accepted_head.
    rewrite (IH b Hb). reflexivity.
Qed.

(** The inputs the validating decoder accepts are the UTF-8 encodings of
    the strings of the Basic Multilingual Plane, and it returns the string
    encoded. *)
Lemma strict_iff_encoding l s :
  utf8_strict l = Some s <-> bmp_string s /\ decodeUTF8 s = Ok l.
Proof.
  split; [apply strict_encoding | intros [? ?]; by apply encoding_strict].
Qed.

(** C22: on every input a validating UTF-8 decoder of the Basic Multilingual
    Plane accepts, [_decoder] returns the string that decoder returns: the
    two differ only on input that is not well-formed UTF-8 of such text. *)
Theorem decoder_agrees_with_strict l s :
  utf8_strict l = Some s -> _decoder l = s.
Proof. decoder_ref. apply strict_decode_ref. Qed.

End inverse.

(** ** Witnesses *)

Lemma decoder_agrees_with_strict_witness :
  _decoder (bytes_of [0x41; 0xC3; 0xA9; 0xE2; 0x82; 0xAC]) = [0x41; 0xE9; 0x20AC].
Proof. apply decoder_agrees_with_strict. vm_compute. reflexivity. Defined.
