(* ===== verification/Encoder.v ===== *)
(** * Encoder: the text-to-bytes encoder [_encoder]

    [_encoder] ([src/saltshaker.js], lines 83-93) is applied to the MD5 digest
    of the passphrase to make the key of the secret box.  It allocates a
    buffer of two bytes per character, fills a [Uint16Array] view of it with
    the code units of the string, and returns [new Uint8Array(bufView)].
    That constructor, given a typed array, converts element by element: the
    result has one byte per character, its low byte.  This file models the
    loop as written, proves that closed form, and compares it with the
    two-bytes-per-character reading of the buffer. *)

From Stdlib Require Import ZArith Lia List String.
From stdpp Require Import base tactics option list numbers.
From S2P Require Import Prelude JsPrims Decoder.

Local Open Scope Z_scope.

(** ** The loop of the source *)

(** The [for] loop of lines 88-90: [bufView[i] = str.charCodeAt(i)] for
    [i] from its start value up to [strLen - 1]. *)
Fixpoint encoder_loop (fuel : nat) (str : jsstring) (strLen : nat)
  (bufView : list Z) (i : nat) : list Z :=
  match fuel with
  | O => bufView
  | S fuel =>
      if decide (i < strLen)%nat
      then encoder_loop fuel str strLen
             (Uint16Array_set bufView i (charCodeAt str i)) (S i)
      else bufView
  end.

(** [_encoder(str)] (lines 83-93). *)
Definition _encoder (str : jsstring) : list byte :=
  let bufView := Uint16Array_new (length str * 2) in
  let strLen := length str in
  let bufView := encoder_loop strLen str strLen bufView 0 in
  Uint8Array_from bufView.

(** The bytes of the buffer itself, two per character, low byte first: what
    [new Uint8Array(buf)] would return on a little-endian machine. *)
Definition buffer_bytes (str : jsstring) : list byte :=
  str ≫= fun c => [byte_of_Z c; byte_of_Z (c mod 65536 / 256)].

Example encoder_hex : _encoder (js "9e107d") = bytes_of [57; 101; 49; 48; 55; 100].
Proof. vm_compute. reflexivity. Qed.

Example encoder_low_byte : _encoder [0x20AC; 0x141] = bytes_of [0xAC; 0x41].
Proof. vm_compute. reflexivity. Qed.

(** ** The closed form *)

Lemma Uint16Array_new_length (n : nat) : length (Uint16Array_new (n * 2)) = n.
Proof.
  unfold Uint16Array_new. rewrite length_replicate. apply Nat.div_mul. lia.
Qed.

(** The loop from [i] on keeps the elements before [i] and stores the code
    units of [str] from [i] on. *)
Lemma encoder_loop_spec (fuel : nat) (str : jsstring) (bufView : list Z) (i : nat) :
  length bufView = length str -> (length str - i <= fuel)%nat ->
  encoder_loop fuel str (length str) bufView i
  = take i bufView ++ ((fun c => c mod 65536) <$> drop i str).
Proof.
  revert bufView i. induction fuel as [|fuel IH]; intros bufView i Hlen Hf;
    cbn [encoder_loop].
  - rewrite drop_ge, take_ge by lia. rewrite app_nil_r. reflexivity.
  - case_decide as Hi;
      [|rewrite drop_ge, take_ge by lia; rewrite app_nil_r; reflexivity].
    destruct (drop_lt_cons str i Hi) as (c & r & Hd).
    unfold Uint16Array_set, charCodeAt.
    rewrite (drop_cons_lookup _ _ _ _ Hd). cbn [ToUint16].
    rewrite IH by (rewrite ?length_insert; lia).
    rewrite (take_S_r _ _ (c mod 65536))
      by (apply list_lookup_insert_eq; lia).
    rewrite take_insert_ge by lia.
    rewrite (drop_cons_tail _ _ _ _ Hd), Hd, <- app_assoc. reflexivity.
Qed.

Lemma byte_of_Z_mod (c m : Z) : (256 | m) -> 0 < m -> byte_of_Z (c mod m) = byte_of_Z c.
Proof.
  intros [k ->] Hm. apply byte_to_Z_inj. rewrite !byte_to_of_Z.
  rewrite Z.mul_comm. rewrite Z.rem_mul_r by lia. divmod.
Qed.

(** The filled view, converted by [new Uint8Array(bufView)]. *)
Lemma encoder_loop_bytes (str : jsstring) :
  Uint8Array_from
    (encoder_loop (length str) str (length str) (Uint16Array_new (length str * 2)) 0)
  = byte_of_Z <$> str.
Proof.
  rewrite encoder_loop_spec by (rewrite ?Uint16Array_new_length; lia).
  rewrite take_0, drop_0. cbn [app]. unfold Uint8Array_from.
  rewrite <- list_fmap_compose. apply list_fmap_ext. intros _ c _. simpl.
  apply byte_of_Z_mod; [exists 256; reflexivity | lia].
Qed.

(** Replace [_encoder] by its closed form in the goal. *)
Ltac encoder_closed_form := unfold _encoder; rewrite !encoder_loop_bytes.

(** C5: [_encoder] returns one byte per code unit of the string, the unit
    reduced modulo 256: the high byte of every character is discarded. *)
Theorem encoder_low_bytes (str : jsstring) : _encoder str = byte_of_Z <$> str.
Proof. encoder_closed_form. reflexivity. Qed.

(** The key material [_encoder] makes has as many bytes as the string has
    characters, not twice as many. *)
Lemma encoder_length (str : jsstring) : length (_encoder str) = length str.
Proof. encoder_closed_form. apply length_fmap. Qed.

Lemma buffer_bytes_length (str : jsstring) :
  length (buffer_bytes str) = (2 * length str)%nat.
Proof.
  unfold buffer_bytes. induction str as [|c r IH]; [reflexivity|].
  cbn [mbind list_bind app length] in *. rewrite IH. lia.
Qed.

(** [_encoder] is not the byte view of its 16-bit buffer: on every
    non-empty string the two differ, the buffer holding twice as many
    bytes. *)
Lemma encoder_not_buffer_bytes (str : jsstring) :
  str <> [] -> _encoder str <> buffer_bytes str.
Proof.
  intros Hne Heq. apply (f_equal length) in Heq. revert Heq.
  encoder_closed_form. rewrite length_fmap, buffer_bytes_length.
  destruct str; [congruence | simpl; lia].
Qed.

Lemma encoder_not_buffer_bytes_witness :
  _encoder (js "9e107d") <> buffer_bytes (js "9e107d").
Proof. apply encoder_not_buffer_bytes. vm_compute. discriminate. Defined.

(** On a string of characters below 128 (such as a hexadecimal digest)
    [_decoder] inverts [_encoder]. *)
Lemma decoder_encoder_ascii (str : jsstring) :
  Forall (fun c => 0 <= c < 128) str -> _decoder (_encoder str) = str.
Proof.
  intros H. encoder_closed_form.
  rewrite decoder_ascii_fmap; [|assumption].
  induction H as [|c r Hc _ IH]; [reflexivity|]. cbn [fmap list_fmap].
  rewrite byte_to_of_Z_small by lia. rewrite <- IH at 2. reflexivity.
Qed.

Lemma decoder_encoder_ascii_witness :
  _decoder (_encoder (js "9e107d")) = js "9e107d".
Proof. apply decoder_encoder_ascii. decide_by_computation. Defined.
