(* ===== verification/Base64.v ===== *)
(** * Base64: the wire encoding of keys, nonces and ciphertexts

    Every byte array that enters or leaves the program passes through
    [nacl.util.encodeBase64] or [nacl.util.decodeBase64] (tweetnacl-util).
    These functions are not part of this repository; they are modelled from
    their contract: standard base64 with padding, the decoder throwing
    [TypeError('invalid encoding')] on a string that is not made of groups of
    four alphabet characters with at most two [=] at the end.  The file
    proves that decoding inverts encoding, which the round trips of the
    envelope operations rest on, and that encoding does not invert
    decoding: the decoder ignores the bits of the last character that belong
    to no byte, so that a padded text can be changed ([tamper]) without
    changing what it decodes to. *)

From Stdlib Require Import ZArith Lia List String.
From stdpp Require Import base tactics option list numbers.
From S2P Require Import Prelude JsPrims.

Local Open Scope Z_scope.

(** ** The alphabet *)

(** The character code of a six-bit value. *)
Definition b64_char (n : Z) : Z :=
  if decide (n < 26) then 65 + n
  else if decide (n < 52) then 97 + (n - 26)
  else if decide (n < 62) then 48 + (n - 52)
  else if decide (n = 62) then 43
  else 47.

(** The six-bit value of a character code, [None] outside the alphabet. *)
Definition b64_value (c : Z) : option Z :=
  if decide (65 <= c <= 90) then Some (c - 65)
  else if decide (97 <= c <= 122) then Some (c - 71)
  else if decide (48 <= c <= 57) then Some (c + 4)
  else if decide (c = 43) then Some 62
  else if decide (c = 47) then Some 63
  else None.

(** The padding character [=]. *)
Definition b64_pad : Z := 61.

(** The range of the characters of base64 text: printable ASCII. *)
Definition is_b64_text_char (c : Z) : Prop := 43 <= c <= 122.

Definition invalid_encoding {A} : result A := Throw (TypeError "invalid encoding").

(** ** Encoding and decoding *)

(** [nacl.util.encodeBase64(arr)]. *)
Fixpoint encodeBase64 (arr : list byte) : jsstring :=
  match arr with
  | [] => []
  | [a] =>
      let a := byte_to_Z a in
      [b64_char (a / 4); b64_char (a mod 4 * 16); b64_pad; b64_pad]
  | [a; b] =>
      let a := byte_to_Z a in
      let b := byte_to_Z b in
      [b64_char (a / 4); b64_char (a mod 4 * 16 + b / 16);
       b64_char (b mod 16 * 4); b64_pad]
  | a :: b :: c :: r =>
      let a := byte_to_Z a in
      let b := byte_to_Z b in
      let c := byte_to_Z c in
      b64_char (a / 4) :: b64_char (a mod 4 * 16 + b / 16)
        :: b64_char (b mod 16 * 4 + c / 64) :: b64_char (c mod 64)
        :: encodeBase64 r
  end.

(** [nacl.util.decodeBase64(s)]: validation and decoding in one pass over
    the groups of four characters. *)
Fixpoint decodeBase64 (s : jsstring) : result (list byte) :=
  match s with
  | [] => Ok []
  | c1 :: c2 :: c3 :: c4 :: r =>
      match b64_value c1, b64_value c2 with
      | Some v1, Some v2 =>
          let b1 := byte_of_Z (v1 * 4 + v2 / 16) in
          match b64_value c3, b64_value c4, r with
          | Some v3, Some v4, _ =>
              let b2 := byte_of_Z (v2 mod 16 * 16 + v3 / 4) in
              let b3 := byte_of_Z (v3 mod 4 * 64 + v4) in
              ([b1; b2; b3] ++.) <$> decodeBase64 r
          | Some v3, None, [] =>
              if decide (c4 = b64_pad)
              then Ok [b1; byte_of_Z (v2 mod 16 * 16 + v3 / 4)]
              else invalid_encoding
          | None, None, [] =>
              if decide (c3 = b64_pad /\ c4 = b64_pad) then Ok [b1]
              else invalid_encoding
          | _, _, _ => invalid_encoding
          end
      | _, _ => invalid_encoding
      end
  | _ => invalid_encoding
  end.

(** ** Texts that decode alike *)

(** The last character before the padding carries four or two bits that
    belong to no byte, and the decoder does not look at them.  [tamper]
    changes the lowest of them. *)
Definition flip_low (v : Z) : Z := if Z.even v then v + 1 else v - 1.

Definition flip_char (c : Z) : Z :=
  match b64_value c with
  | Some v => b64_char (flip_low v)
  | None => c
  end.

Fixpoint tamper (s : jsstring) : jsstring :=
  match s with
  | [c1; c2; c3; c4] =>
      if decide (c4 = b64_pad) then
        if decide (c3 = b64_pad) then [c1; flip_char c2; c3; c4]
        else [c1; c2; flip_char c3; c4]
      else s
  | c1 :: c2 :: c3 :: c4 :: r => c1 :: c2 :: c3 :: c4 :: tamper r
  | _ => s
  end.

(** Two texts that decode alike: to the same bytes, or both to the
    exception.  The operations of the program read a key, a nonce, a signed
    message or a ciphertext through [decodeBase64] only, so this is the
    equality of texts as the program sees them. *)
Definition same_bytes (s s' : jsstring) : Prop := decodeBase64 s = decodeBase64 s'.

#[export] Instance same_bytes_dec s s' : Decision (same_bytes s s').
Proof. unfold same_bytes. apply _. Defined.

Example encodeBase64_Man : encodeBase64 (byte_of_Z <$> js "Man") = js "TWFu".
Proof. vm_compute. reflexivity. Qed.

Example encodeBase64_pad2 : encodeBase64 (byte_of_Z <$> js "M") = js "TQ==".
Proof. vm_compute. reflexivity. Qed.

Example decodeBase64_pad1 : decodeBase64 (js "TWE=") = Ok (byte_of_Z <$> js "Ma").
Proof. vm_compute. reflexivity. Qed.

Example decodeBase64_slack : decodeBase64 (js "TWF=") = Ok (byte_of_Z <$> js "Ma").
Proof. vm_compute. reflexivity. Qed.

Example tamper_pad1 : tamper (js "TWFuTWE=") = js "TWFuTWF=".
Proof. vm_compute. reflexivity. Qed.

Example decodeBase64_bad_length : decodeBase64 (js "TWF") = invalid_encoding.
Proof. vm_compute. reflexivity. Qed.

Example decodeBase64_bad_char : decodeBase64 (js "TW!u") = invalid_encoding.
Proof. vm_compute. reflexivity. Qed.

Example decodeBase64_pad_inside : decodeBase64 (js "TQ==TWFu") = invalid_encoding.
Proof. vm_compute. reflexivity. Qed.

(** ** Induction on groups *)

(** Bytes are encoded in groups of three, text is decoded in groups of
    four. *)
Lemma triples_ind (P : list byte -> Prop) :
  P [] -> (forall a, P [a]) -> (forall a b, P [a; b]) ->
  (forall a b c r, P r -> P (a :: b :: c :: r)) ->
  forall arr, P arr.
Proof.
  intros H0 H1 H2 H3 arr.
  induction arr as [arr IH] using (induction_ltof1 _ (@length byte)).
  destruct arr as [|a [|b [|c r]]]; auto. apply H3, IH. unfold ltof. simpl. lia.
Qed.

Lemma quads_ind (P : jsstring -> Prop) :
  P [] -> (forall c1, P [c1]) -> (forall c1 c2, P [c1; c2]) ->
  (forall c1 c2 c3, P [c1; c2; c3]) -> (forall c1 c2 c3 c4, P [c1; c2; c3; c4]) ->
  (forall c1 c2 c3 c4 r, r <> [] -> P r -> P (c1 :: c2 :: c3 :: c4 :: r)) ->
  forall s, P s.
Proof.
  intros H0 H1 H2 H3 H4 H5 s.
  induction s as [s IH] using (induction_ltof1 _ (@length Z)).
  destruct s as [|c1 [|c2 [|c3 [|c4 [|c5 r]]]]]; auto.
  apply H5; [done|]. apply IH. unfold ltof. simpl. lia.
Qed.

(** ** Decoding inverts encoding *)

Lemma b64_value_char (n : Z) : 0 <= n < 64 -> b64_value (b64_char n) = Some n.
Proof.
  intros Hn. unfold b64_char, b64_value.
  repeat case_decide; try lia; f_equal; lia.
Qed.

Lemma b64_value_pad : b64_value b64_pad = None.
Proof. reflexivity. Qed.

Lemma b64_char_not_pad (n : Z) : 0 <= n < 64 -> b64_char n <> b64_pad.
Proof. intros Hn Hp%(f_equal b64_value). by rewrite b64_value_char in Hp. Qed.

Ltac sextets :=
  rewrite ?b64_value_char by divmod; rewrite ?b64_value_pad.

Lemma decodeBase64_group (a b c : byte) (r : jsstring) :
  decodeBase64 (encodeBase64 [a; b; c] ++ r) = ([a; b; c] ++.) <$> decodeBase64 r.
Proof.
  pose proof (byte_to_Z_range a). pose proof (byte_to_Z_range b).
  pose proof (byte_to_Z_range c).
  cbn [encodeBase64 app decodeBase64]. sextets.
  rewrite (byte_of_Z_eq _ a), (byte_of_Z_eq _ b), (byte_of_Z_eq _ c) by divmod.
  reflexivity.
Qed.

Lemma decodeBase64_encodeBase64 (arr : list byte) :
  decodeBase64 (encodeBase64 arr) = Ok arr.
Proof.
  induction arr as [|a|a b|a b c r IH] using triples_ind; [reflexivity | | |].
  - pose proof (byte_to_Z_range a).
    cbn [encodeBase64 decodeBase64]. sextets.
    rewrite decide_True by done. rewrite (byte_of_Z_eq _ a) by divmod. reflexivity.
  - pose proof (byte_to_Z_range a). pose proof (byte_to_Z_range b).
    cbn [encodeBase64 decodeBase64]. sextets.
    rewrite decide_True by done.
    rewrite (byte_of_Z_eq _ a), (byte_of_Z_eq _ b) by divmod. reflexivity.
  - change (encodeBase64 (a :: b :: c :: r))
      with (encodeBase64 [a; b; c] ++ encodeBase64 r).
    rewrite decodeBase64_group, IH. reflexivity.
Qed.

#[export] Hint Rewrite decodeBase64_encodeBase64 : salt.

(** The decoder throws one exception only. *)
Lemma decodeBase64_Throw (s : jsstring) (e : exn) :
  decodeBase64 s = Throw e -> e = TypeError "invalid encoding".
Proof.
  induction s as [|c1|c1 c2|c1 c2 c3|c1 c2 c3 c4|c1 c2 c3 c4 r _ IH] using quads_ind;
    cbn [decodeBase64]; try (unfold invalid_encoding; congruence);
    repeat case_match; try (unfold invalid_encoding; congruence); try discriminate.
  destruct (decodeBase64 r) eqn:Er; [discriminate|].
  intros [= <-]. by apply IH.
Qed.

Lemma encodeBase64_length (arr : list byte) :
  length (encodeBase64 arr) = (4 * ((length arr + 2) / 3))%nat.
Proof.
  induction arr as [|a|a b|a b c r IH] using triples_ind; [reflexivity ..|].
  cbn [encodeBase64 length]. rewrite IH.
  replace (S (S (S (length r))) + 2)%nat with (1 * 3 + (length r + 2))%nat by lia.
  rewrite Nat.div_add_l by lia. lia.
Qed.

Lemma encodeBase64_nonempty (arr : list byte) : arr <> [] -> encodeBase64 arr <> [].
Proof. destruct arr as [|a [|b [|c r]]]; [congruence | discriminate ..]. Qed.

(** ** The encoded text is a string *)

Lemma b64_char_text (n : Z) : 0 <= n -> is_b64_text_char (b64_char n).
Proof. intros Hn. unfold b64_char, is_b64_text_char. repeat case_decide; lia. Qed.

Lemma encodeBase64_text_chars (arr : list byte) :
  Forall is_b64_text_char (encodeBase64 arr).
Proof.
  induction arr as [|a|a b|a b c r IH] using triples_ind; [constructor | ..];
    pose proof (byte_to_Z_range a); try pose proof (byte_to_Z_range b);
    try pose proof (byte_to_Z_range c); cbn [encodeBase64];
    repeat (apply List.Forall_cons;
            [first [apply b64_char_text; divmod | unfold is_b64_text_char, b64_pad; lia]|]);
    first [apply List.Forall_nil | apply IH].
Qed.

Lemma encodeBase64_wf (arr : list byte) : wf_string (encodeBase64 arr).
Proof.
  eapply list.Forall_impl; [apply encodeBase64_text_chars|].
  unfold is_b64_text_char, is_u16. lia.
Qed.

(** Only the empty text decodes to no bytes. *)
Lemma decodeBase64_nil_inv (s : jsstring) : decodeBase64 s = Ok [] -> s = [].
Proof.
  destruct s as [|c1 [|c2 [|c3 [|c4 r]]]]; [done | discriminate ..|].
  cbn [decodeBase64]. unfold invalid_encoding.
  repeat case_match; try discriminate.
  destruct (decodeBase64 r); discriminate.
Qed.

(** ** The decoder ignores the bits that belong to no byte *)

Lemma b64_value_range (c v : Z) : b64_value c = Some v -> 0 <= v < 64.
Proof. unfold b64_value. repeat case_decide; intros [= <-]; lia. Qed.

Lemma flip_low_cases (v : Z) :
  exists k, (v = 2 * k /\ flip_low v = 2 * k + 1)
            \/ (v = 2 * k + 1 /\ flip_low v = 2 * k).
Proof.
  unfold flip_low. destruct (Z.even v) eqn:Hv.
  - apply Z.even_spec in Hv as [k ->]. exists k. lia.
  - rewrite <- Z.negb_odd in Hv. apply negb_false_iff, Z.odd_spec in Hv as [k ->].
    exists k. lia.
Qed.

Lemma flip_low_range (v : Z) : 0 <= v < 64 -> 0 <= flip_low v < 64.
Proof. destruct (flip_low_cases v) as [k ?]. lia. Qed.

Lemma flip_low_ne (v : Z) : flip_low v <> v.
Proof. destruct (flip_low_cases v) as [k ?]. lia. Qed.

Lemma flip_low_div (v k : Z) : 0 < k -> flip_low v / (2 * k) = v / (2 * k).
Proof.
  intros Hk. rewrite <- !Z.div_div by lia. f_equal.
  destruct (flip_low_cases v) as [j ?]. divmod.
Qed.

Lemma b64_value_flip_char (c : Z) : b64_value (flip_char c) = flip_low <$> b64_value c.
Proof.
  unfold flip_char. destruct (b64_value c) as [v|] eqn:Hv; [|by rewrite Hv].
  apply b64_value_char, flip_low_range, (b64_value_range c), Hv.
Qed.

Lemma flip_char_ne (c v : Z) : b64_value c = Some v -> flip_char c <> c.
Proof.
  intros Hv Heq. pose proof (b64_value_flip_char c) as Hf.
  rewrite Heq, Hv in Hf. injection Hf as Hf. by apply (flip_low_ne v).
Qed.

Lemma tamper_group (c1 c2 c3 c4 : Z) (r : jsstring) :
  r <> [] -> tamper (c1 :: c2 :: c3 :: c4 :: r) = c1 :: c2 :: c3 :: c4 :: tamper r.
Proof. by destruct r. Qed.

Lemma tamper_nonempty (s : jsstring) : s <> [] -> tamper s <> [].
Proof.
  destruct s as [|c1 [|c2 [|c3 [|c4 [|c5 r]]]]]; try done.
  intros _. cbn [tamper]. by repeat case_decide.
Qed.

Lemma flip_char_no_value (c : Z) : b64_value c = None -> flip_char c = c.
Proof. intros Hc. unfold flip_char. by rewrite Hc. Qed.

(** The decoder returns the same bytes, or throws alike, on the tampered
    text. *)
Lemma tamper_decodeBase64 (s : jsstring) : decodeBase64 (tamper s) = decodeBase64 s.
Proof.
  induction s as [|c1|c1 c2|c1 c2 c3|c1 c2 c3 c4|c1 c2 c3 c4 r Hr IH] using quads_ind;
    try reflexivity.
  - cbn [tamper]. repeat case_decide; subst; try reflexivity; cbn [decodeBase64].
    + destruct (b64_value c2) as [v2|] eqn:H2;
        [|by rewrite flip_char_no_value, ?H2 by done].
      rewrite b64_value_flip_char, H2. cbn [fmap option_fmap option_map].
      by replace (flip_low v2 / 16) with (v2 / 16)
        by (symmetry; apply (flip_low_div v2 8); lia).
    + destruct (b64_value c3) as [v3|] eqn:H3;
        [|by rewrite flip_char_no_value, ?H3 by done].
      rewrite b64_value_flip_char, H3. cbn [fmap option_fmap option_map].
      by replace (flip_low v3 / 4) with (v3 / 4)
        by (symmetry; apply (flip_low_div v3 2); lia).
  - rewrite tamper_group by done. pose proof (tamper_nonempty r Hr).
    cbn [decodeBase64]. rewrite IH.
    destruct (tamper r) as [|t ts]; [done|]. by destruct r.
Qed.

(** The text of bytes that do not fill their last group changes. *)
Lemma tamper_encodeBase64_ne (arr : list byte) :
  (length arr mod 3 <> 0)%nat -> tamper (encodeBase64 arr) <> encodeBase64 arr.
Proof.
  induction arr as [|a|a b|a b c r IH] using triples_ind; [done | | |].
  - intros _. pose proof (byte_to_Z_range a). cbn [encodeBase64 tamper].
    rewrite !decide_True by done. intros [= Hf].
    by eapply flip_char_ne, Hf; apply b64_value_char; divmod.
  - intros _. pose proof (byte_to_Z_range b). cbn [encodeBase64 tamper].
    rewrite decide_True, decide_False by (done || apply b64_char_not_pad; divmod).
    intros [= Hf].
    by eapply flip_char_ne, Hf; apply b64_value_char; divmod.
  - intros Hl. cbn [encodeBase64]. rewrite tamper_group.
    + intros [= Hf]. apply IH; [|exact Hf].
      cbn [length] in Hl. replace (S (S (S (length r)))) with (length r + 1 * 3)%nat in Hl by lia.
      by rewrite Nat.Div0.mod_add in Hl.
    + apply encodeBase64_nonempty. intros ->. by apply Hl.
Qed.

(** ** Texts as the program sees them *)

#[export] Instance same_bytes_equivalence : Equivalence same_bytes.
Proof.
  unfold same_bytes. split; [by intros s | by intros s s' | by intros s s' s'' ->].
Qed.

#[export] Instance decodeBase64_proper : Proper (same_bytes ==> eq) decodeBase64.
Proof. by intros s s' Hs. Qed.

Lemma tamper_same_bytes (s : jsstring) : same_bytes (tamper s) s.
Proof. apply tamper_decodeBase64. Qed.

(** Every class of texts that decode has one text that the encoder
    writes. *)
Lemma same_bytes_canonical (s : jsstring) (b : list byte) :
  decodeBase64 s = Ok b -> same_bytes (encodeBase64 b) s.
Proof. intros Hs. unfold same_bytes. by rewrite decodeBase64_encodeBase64. Qed.

Lemma same_bytes_encodeBase64 (a b : list byte) :
  same_bytes (encodeBase64 a) (encodeBase64 b) <-> a = b.
Proof.
  unfold same_bytes. rewrite !decodeBase64_encodeBase64. split; congruence.
Qed.

(** The empty text is alone in its class, so that texts that decode alike
    are both empty or both not: [if (privatekey)] cannot tell them apart. *)
Lemma same_bytes_truthy (s s' : jsstring) :
  same_bytes s s' -> truthy (Some s) = truthy (Some s').
Proof.
  unfold same_bytes. intros Hs. destruct s as [|c r], s' as [|c' r']; try done.
  - symmetry in Hs. by apply decodeBase64_nil_inv in Hs.
  - by apply decodeBase64_nil_inv in Hs.
Qed.
