(* ===== verification/Nacl.v ===== *)
(** * Nacl: the interface of the primitive libraries

    The program calls tweetnacl ([nacl.sign], [nacl.box], [nacl.secretbox],
    [nacl.randomBytes]), ed2curve ([convertPublicKey], [convertSecretKey])
    and an MD5 library ([md5.md5]).  None of them is part of this
    repository.  This file states what the program needs from them:

    - [rng] and the monad [M]: the random source as explicit state, so that
      "draws 24 fresh bytes" is a statement about the state;
    - the class [Primitives]: the cryptographic functions themselves, as
      operations on byte arrays, with the laws the envelope relies on
      (opening what was signed or boxed with matching keys gives the message
      back; the two sides of a box derive the same shared key; the sizes of
      keys, of a signed message and of a box; what ed2curve returns);
    - the argument checks of the tweetnacl API ([nacl_sign], [nacl_box], ...)
      as definitions over the class, with the exceptions tweetnacl throws.

    The theorems of [SaltShaker] are proved for every instance of the class;
    [NaclModel] gives an executable one. *)

From Stdlib Require Import ZArith Lia List String.
From stdpp Require Import base tactics option list numbers.
From S2P Require Import Prelude JsPrims.

(** ** The random source *)

(** The state of the random source: the stream of bytes it will deliver and
    the number of bytes delivered so far. *)
Record rng : Type := Rng {
  entropy : nat -> byte;
  drawn : nat
}.

(** A computation that may draw random bytes and may throw. *)
Abbreviation M := (ST rng).

(** The random source after [n] more bytes. *)
Definition advance (n : nat) (g : rng) : rng := Rng (entropy g) (drawn g + n).

(** The next [n] bytes of the random source. *)
Definition next_bytes (n : nat) (g : rng) : list byte :=
  entropy g <$> seq (drawn g) n.

(** [nacl.randomBytes(n)]. *)
Definition randomBytes (n : nat) : M (list byte) :=
  fun g => (Ok (next_bytes n g), advance n g).

(** ** Sizes *)

Definition sign_publicKeyLength : nat := 32.
Definition sign_secretKeyLength : nat := 64.
Definition sign_seedLength : nat := 32.
Definition box_publicKeyLength : nat := 32.
Definition box_secretKeyLength : nat := 32.
Definition box_nonceLength : nat := 24.
Definition secretbox_keyLength : nat := 32.
Definition secretbox_nonceLength : nat := 24.
Definition sign_signatureLength : nat := 64.
Definition secretbox_overheadLength : nat := 16.

(** ** The primitives and their laws *)

(** The object [nacl.sign.keyPair] returns. *)
Record keyPair : Type := KeyPair {
  publicKey : list byte;
  secretKey : list byte
}.

Definition is_hex_digit (c : Z) : Prop := (48 <= c <= 57 \/ 97 <= c <= 102)%Z.

Class Primitives : Type := {
  (** the signing key pair made from the 32 random bytes [nacl.sign.keyPair]
      draws *)
  crypto_sign_keypair : list byte -> keyPair;
  (** the signed message: signature and message together *)
  crypto_sign : list byte -> list byte -> list byte;
  (** the message of a signed message, [None] when verification fails *)
  crypto_sign_open : list byte -> list byte -> option (list byte);
  (** the shared key of a box *)
  crypto_box_beforenm : list byte -> list byte -> list byte;
  crypto_secretbox : list byte -> list byte -> list byte -> list byte;
  crypto_secretbox_open : list byte -> list byte -> list byte -> option (list byte);
  (** ed2curve: [null] (here [None]) for a key that is no curve point *)
  convertPublicKey : list byte -> option (list byte);
  convertSecretKey : list byte -> list byte;
  (** [md5.md5]: the digest as 32 hexadecimal digits *)
  md5 : jsstring -> jsstring;

  keypair_publicKey_length seed :
    length seed = sign_seedLength ->
    length (publicKey (crypto_sign_keypair seed)) = sign_publicKeyLength;
  keypair_secretKey_length seed :
    length seed = sign_seedLength ->
    length (secretKey (crypto_sign_keypair seed)) = sign_secretKeyLength;
  keypair_secretKey_public seed :
    length seed = sign_seedLength ->
    drop 32 (secretKey (crypto_sign_keypair seed))
    = publicKey (crypto_sign_keypair seed);
  sign_open_sign seed msg :
    length seed = sign_seedLength ->
    crypto_sign_open
      (crypto_sign msg (secretKey (crypto_sign_keypair seed)))
      (publicKey (crypto_sign_keypair seed))
    = Some msg;
  convertPublicKey_keypair seed :
    length seed = sign_seedLength ->
    is_Some (convertPublicKey (publicKey (crypto_sign_keypair seed)));
  convertPublicKey_length pk pk' :
    convertPublicKey pk = Some pk' -> length pk' = box_publicKeyLength;
  convertSecretKey_length sk :
    length (convertSecretKey sk) = box_secretKeyLength;
  beforenm_length pk sk :
    length (crypto_box_beforenm pk sk) = secretbox_keyLength;
  beforenm_shared seedA seedB pkA pkB :
    length seedA = sign_seedLength -> length seedB = sign_seedLength ->
    convertPublicKey (publicKey (crypto_sign_keypair seedA)) = Some pkA ->
    convertPublicKey (publicKey (crypto_sign_keypair seedB)) = Some pkB ->
    crypto_box_beforenm pkB (convertSecretKey (secretKey (crypto_sign_keypair seedA)))
    = crypto_box_beforenm pkA (convertSecretKey (secretKey (crypto_sign_keypair seedB)));
  secretbox_open_secretbox msg nonce key :
    length nonce = secretbox_nonceLength -> length key = secretbox_keyLength ->
    crypto_secretbox_open (crypto_secretbox msg nonce key) nonce key = Some msg;
  (** sizes of what is sealed: a signed message is the signature followed
      by the message, a box is the authenticator followed by the
      ciphertext *)
  sign_length msg sk :
    length (crypto_sign msg sk) = (sign_signatureLength + length msg)%nat;
  sign_open_length signedMsg pk msg :
    crypto_sign_open signedMsg pk = Some msg ->
    length signedMsg = (sign_signatureLength + length msg)%nat;
  (** the signature is attached: the message follows it unchanged, and
      what opening returns is what follows the signature *)
  sign_attached msg sk :
    drop sign_signatureLength (crypto_sign msg sk) = msg;
  sign_open_attached signedMsg pk msg :
    crypto_sign_open signedMsg pk = Some msg ->
    msg = drop sign_signatureLength signedMsg;
  secretbox_length msg nonce key :
    length (crypto_secretbox msg nonce key)
    = (secretbox_overheadLength + length msg)%nat;
  secretbox_open_length box nonce key msg :
    crypto_secretbox_open box nonce key = Some msg ->
    length box = (secretbox_overheadLength + length msg)%nat;
  md5_length s : length (md5 s) = 32%nat;
  md5_hex s : Forall is_hex_digit (md5 s)
}.

(** ** The tweetnacl API: argument checks *)

Section api.
Context `{Primitives}.

(** [nacl.sign.keyPair()]. *)
Definition nacl_sign_keyPair : M keyPair :=
  seed ← randomBytes sign_seedLength; mret (crypto_sign_keypair seed).

(** [nacl.sign.keyPair.fromSecretKey(secretKey)]: the public key is the
    second half of the secret key. *)
Definition nacl_sign_keyPair_fromSecretKey (sk : list byte) : result keyPair :=
  if decide (length sk = sign_secretKeyLength)
  then Ok (KeyPair (take 32 (drop 32 sk)) sk)
  else Throw (Error "bad secret key size").

(** [nacl.sign(msg, secretKey)]. *)
Definition nacl_sign (msg sk : list byte) : result (list byte) :=
  if decide (length sk = sign_secretKeyLength)
  then Ok (crypto_sign msg sk)
  else Throw (Error "bad secret key size").

(** [nacl.sign.open(signedMsg, publicKey)]: [null] when verification fails. *)
Definition nacl_sign_open (signedMsg pk : list byte) : result (option (list byte)) :=
  if decide (length pk = sign_publicKeyLength)
  then Ok (crypto_sign_open signedMsg pk)
  else Throw (Error "bad public key size").

(** [nacl.box.before(publicKey, secretKey)], the public key being what
    [convertPublicKey] returned. *)
Definition nacl_box_before (pk : option (list byte)) (sk : list byte)
  : result (list byte) :=
  match pk with
  | None => Throw (TypeError "unexpected type, use Uint8Array")
  | Some pk =>
      if decide (length pk <> box_publicKeyLength)
      then Throw (Error "bad public key size")
      else if decide (length sk <> box_secretKeyLength)
      then Throw (Error "bad secret key size")
      else Ok (crypto_box_beforenm pk sk)
  end.

(** [nacl.secretbox(msg, nonce, key)]. *)
Definition nacl_secretbox (msg nonce key : list byte) : result (list byte) :=
  if decide (length key <> secretbox_keyLength) then Throw (Error "bad key size")
  else if decide (length nonce <> secretbox_nonceLength)
  then Throw (Error "bad nonce size")
  else Ok (crypto_secretbox msg nonce key).

(** [nacl.secretbox.open(box, nonce, key)]: [null] when authentication
    fails. *)
Definition nacl_secretbox_open (box nonce key : list byte)
  : result (option (list byte)) :=
  if decide (length key <> secretbox_keyLength) then Throw (Error "bad key size")
  else if decide (length nonce <> secretbox_nonceLength)
  then Throw (Error "bad nonce size")
  else Ok (crypto_secretbox_open box nonce key).

(** [nacl.box(msg, nonce, publicKey, secretKey)]. *)
Definition nacl_box (msg nonce : list byte) (pk : option (list byte))
  (sk : list byte) : result (list byte) :=
  k ← nacl_box_before pk sk; nacl_secretbox msg nonce k.

(** [nacl.box.open(box, nonce, publicKey, secretKey)]. *)
Definition nacl_box_open (box nonce : list byte) (pk : option (list byte))
  (sk : list byte) : result (option (list byte)) :=
  k ← nacl_box_before pk sk; nacl_secretbox_open box nonce k.

End api.

(** ** Running computations *)

Section monad_lemmas.
Context {B : Type}.

Lemma M_bind_randomBytes (n : nat) (f : list byte -> M B) g :
  (randomBytes n ≫= f) g = f (next_bytes n g) (advance n g).
Proof. reflexivity. Qed.

End monad_lemmas.

Lemma next_bytes_length (n : nat) (g : rng) : length (next_bytes n g) = n.
Proof. unfold next_bytes. rewrite length_fmap. apply length_seq. Qed.

Lemma advance_0 (g : rng) : advance 0 g = g.
Proof. destruct g. unfold advance. cbn. f_equal. lia. Qed.

Lemma advance_advance (n m : nat) (g : rng) :
  advance m (advance n g) = advance (n + m) g.
Proof. unfold advance. simpl. f_equal. lia. Qed.

Lemma next_bytes_lookup (n : nat) (g : rng) (i : nat) :
  (i < n)%nat -> next_bytes n g !! i = Some (entropy g (drawn g + i)%nat).
Proof.
  intros Hi. unfold next_bytes. rewrite list_lookup_fmap.
  rewrite lookup_seq_lt by assumption. reflexivity.
Qed.

#[export] Hint Rewrite next_bytes_length : salt.

(** ** What the API promises on keys made by [nacl.sign.keyPair] *)

Section api_lemmas.
Context `{Primitives}.
Implicit Types (seed msg nonce key : list byte).

Lemma nacl_sign_keyPair_run g :
  nacl_sign_keyPair g
  = (Ok (crypto_sign_keypair (next_bytes sign_seedLength g)),
     advance sign_seedLength g).
Proof. reflexivity. Qed.

Lemma nacl_sign_bad_size msg sk :
  length sk <> sign_secretKeyLength ->
  nacl_sign msg sk = Throw (Error "bad secret key size").
Proof. intros. unfold nacl_sign. rewrite decide_False by assumption. reflexivity. Qed.

Lemma nacl_sign_open_bad_size signedMsg pk :
  length pk <> sign_publicKeyLength ->
  nacl_sign_open signedMsg pk = Throw (Error "bad public key size").
Proof. intros. unfold nacl_sign_open. rewrite decide_False by assumption. reflexivity. Qed.

Lemma nacl_sign_open_sized signedMsg pk :
  length pk = sign_publicKeyLength ->
  nacl_sign_open signedMsg pk = Ok (crypto_sign_open signedMsg pk).
Proof. intros. unfold nacl_sign_open. rewrite decide_True by assumption. reflexivity. Qed.

(** Signing with the secret key of a generated pair succeeds, and opening
    the result with the public key gives the message. *)
Lemma nacl_sign_open_keypair seed msg :
  length seed = sign_seedLength ->
  exists signed,
    nacl_sign msg (secretKey (crypto_sign_keypair seed)) = Ok signed
    /\ nacl_sign_open signed (publicKey (crypto_sign_keypair seed)) = Ok (Some msg).
Proof.
  intros Hs. eexists. unfold nacl_sign, nacl_sign_open.
  rewrite !decide_True
    by auto using keypair_secretKey_length, keypair_publicKey_length.
  split; [reflexivity|]. rewrite sign_open_sign by assumption. reflexivity.
Qed.

(** Rebuilding a generated pair from its secret key gives the pair back. *)
Lemma nacl_sign_keyPair_fromSecretKey_keypair seed :
  length seed = sign_seedLength ->
  nacl_sign_keyPair_fromSecretKey (secretKey (crypto_sign_keypair seed))
  = Ok (crypto_sign_keypair seed).
Proof.
  intros Hs. unfold nacl_sign_keyPair_fromSecretKey.
  rewrite decide_True by auto using keypair_secretKey_length.
  rewrite keypair_secretKey_public by assumption.
  rewrite take_ge by (rewrite keypair_publicKey_length by assumption; reflexivity).
  destruct (crypto_sign_keypair seed); reflexivity.
Qed.

Lemma nacl_secretbox_sized msg nonce key :
  length nonce = secretbox_nonceLength -> length key = secretbox_keyLength ->
  nacl_secretbox msg nonce key = Ok (crypto_secretbox msg nonce key).
Proof.
  intros Hn Hk. unfold nacl_secretbox.
  rewrite !decide_False by (intros ?; congruence). reflexivity.
Qed.

Lemma nacl_secretbox_open_sized box nonce key :
  length nonce = secretbox_nonceLength -> length key = secretbox_keyLength ->
  nacl_secretbox_open box nonce key = Ok (crypto_secretbox_open box nonce key).
Proof.
  intros Hn Hk. unfold nacl_secretbox_open.
  rewrite !decide_False by (intros ?; congruence). reflexivity.
Qed.

(** A secret box made with a nonce and a key of the right sizes opens to the
    message under the same nonce and key. *)
Lemma nacl_secretbox_open_secretbox msg nonce key :
  length nonce = secretbox_nonceLength -> length key = secretbox_keyLength ->
  exists box,
    nacl_secretbox msg nonce key = Ok box
    /\ nacl_secretbox_open box nonce key = Ok (Some msg).
Proof.
  intros Hn Hk. eexists.
  rewrite nacl_secretbox_sized, nacl_secretbox_open_sized by assumption.
  split; [reflexivity|]. rewrite secretbox_open_secretbox by assumption. reflexivity.
Qed.

(** What the functions that seal return, when they return. *)
Lemma nacl_sign_Ok msg sk signed :
  nacl_sign msg sk = Ok signed -> signed = crypto_sign msg sk.
Proof. unfold nacl_sign. case_decide; congruence. Qed.

Lemma nacl_secretbox_Ok msg nonce key box :
  nacl_secretbox msg nonce key = Ok box -> box = crypto_secretbox msg nonce key.
Proof. unfold nacl_secretbox. repeat case_decide; congruence. Qed.

Lemma nacl_box_Ok msg nonce pk sk box :
  nacl_box msg nonce pk sk = Ok box -> exists k, box = crypto_secretbox msg nonce k.
Proof.
  unfold nacl_box. destruct (nacl_box_before pk sk) as [k|]; [|done].
  eauto using nacl_secretbox_Ok.
Qed.

(** A public key that ed2curve converted and the secret key it derived
    have the sizes [nacl.box.before] checks. *)
Lemma nacl_box_before_converted pk pk' sk :
  convertPublicKey pk = Some pk' ->
  nacl_box_before (Some pk') (convertSecretKey sk)
  = Ok (crypto_box_beforenm pk' (convertSecretKey sk)).
Proof.
  intros Hc%convertPublicKey_length. unfold nacl_box_before.
  rewrite !decide_False by (rewrite ?convertSecretKey_length; intros ?; congruence).
  reflexivity.
Qed.

Lemma nacl_secretbox_open_bad_nonce box nonce key :
  length key = secretbox_keyLength -> length nonce <> secretbox_nonceLength ->
  nacl_secretbox_open box nonce key = Throw (Error "bad nonce size").
Proof.
  intros Hk Hn. unfold nacl_secretbox_open.
  rewrite decide_False, decide_True by (first [assumption | intros ?; congruence]).
  reflexivity.
Qed.

Lemma nacl_box_before_keypairs seedA seedB :
  length seedA = sign_seedLength -> length seedB = sign_seedLength ->
  exists k,
    length k = secretbox_keyLength
    /\ nacl_box_before (convertPublicKey (publicKey (crypto_sign_keypair seedB)))
         (convertSecretKey (secretKey (crypto_sign_keypair seedA))) = Ok k
    /\ nacl_box_before (convertPublicKey (publicKey (crypto_sign_keypair seedA)))
         (convertSecretKey (secretKey (crypto_sign_keypair seedB))) = Ok k.
Proof.
  intros HA HB.
  destruct (convertPublicKey_keypair seedA HA) as [pkA HpA].
  destruct (convertPublicKey_keypair seedB HB) as [pkB HpB].
  exists (crypto_box_beforenm pkB
            (convertSecretKey (secretKey (crypto_sign_keypair seedA)))).
  rewrite HpA, HpB, !(nacl_box_before_converted _ _ _ HpA),
    !(nacl_box_before_converted _ _ _ HpB).
  split; [apply beforenm_length|]. split; [reflexivity|].
  f_equal. symmetry. apply beforenm_shared; assumption.
Qed.

(** A box made for B with A's secret key opens with A's public key and B's
    secret key, for pairs made by [nacl.sign.keyPair] and converted by
    ed2curve. *)
Lemma nacl_box_open_box seedA seedB msg nonce :
  length seedA = sign_seedLength -> length seedB = sign_seedLength ->
  length nonce = box_nonceLength ->
  exists box,
    nacl_box msg nonce (convertPublicKey (publicKey (crypto_sign_keypair seedB)))
      (convertSecretKey (secretKey (crypto_sign_keypair seedA))) = Ok box
    /\ nacl_box_open box nonce
         (convertPublicKey (publicKey (crypto_sign_keypair seedA)))
         (convertSecretKey (secretKey (crypto_sign_keypair seedB))) = Ok (Some msg).
Proof.
  intros HA HB Hn.
  destruct (nacl_box_before_keypairs seedA seedB HA HB) as (k & Hk & H1 & H2).
  destruct (nacl_secretbox_open_secretbox msg nonce k Hn Hk) as (box & Hb & Ho).
  exists box. unfold nacl_box, nacl_box_open. rewrite H1, H2. simpl.
  split; assumption.
Qed.

End api_lemmas.
