(* ===== verification/Md5.v ===== *)
(** * Md5: the digest the passphrase key is made of

    [src/saltshaker.js] derives the key of [encryptPSK] and [decryptPSK]
    from [md5.md5(key)] (line 39, lines 155 and 164).  The MD5 library is
    not part of the repository; this file writes the function it computes,
    the MD5 message digest of RFC 1321 as 32 hexadecimal digits, so that the
    instance of [NaclModel] derives the keys the program derives and the
    examples are test vectors of the key derivation.  The theorems of
    [SaltShaker] do not depend on it: they use the two laws of
    [Nacl.Primitives] on [md5], which are proved here.

    The digest works on 32-bit words: every addition is taken modulo
    [2 ^ 32] ([word]) and the rotation [rotl] is written with shifts;
    [md5_round_words] shows that the state stays made of such words.  On a
    passphrase of ASCII characters every MD5 library computes this digest
    of the characters.  For other passphrases the libraries that encode the
    text as UTF-8 agree with [md5_text]; a passphrase with an unpaired
    surrogate has no UTF-8 encoding, the libraries differ on it, and
    [md5_text] takes the low byte of each code unit. *)

From Stdlib Require Import ZArith Lia List String.
From stdpp Require Import base tactics option list numbers.
From S2P Require Import Prelude JsPrims Utf8 Nacl.

Local Open Scope Z_scope.

(** ** Words of 32 bits *)

Definition word (x : Z) : Z := x mod 2 ^ 32.

(** Rotation to the left of a 32-bit word by [s] bits, [0 < s < 32]. *)
Definition rotl (x s : Z) : Z :=
  word (Z.lor (Z.shiftl x s) (Z.shiftr x (32 - s))).

Definition not32 (x : Z) : Z := Z.lxor x (2 ^ 32 - 1).

(** The four auxiliary functions of RFC 1321, section 3.4. *)
Definition md5_F (x y z : Z) : Z := Z.lor (Z.land x y) (Z.land (not32 x) z).
Definition md5_G (x y z : Z) : Z := Z.lor (Z.land x z) (Z.land y (not32 z)).
Definition md5_H (x y z : Z) : Z := Z.lxor x (Z.lxor y z).
Definition md5_I (x y z : Z) : Z := Z.lxor y (Z.lor x (not32 z)).

(** The table [T]: [T[i]] is the integer part of [2 ^ 32 * abs (sin (i + 1))]. *)
Definition md5_sines : list Z :=
  [0xd76aa478; 0xe8c7b756; 0x242070db; 0xc1bdceee;
   0xf57c0faf; 0x4787c62a; 0xa8304613; 0xfd469501;
   0x698098d8; 0x8b44f7af; 0xffff5bb1; 0x895cd7be;
   0x6b901122; 0xfd987193; 0xa679438e; 0x49b40821;
   0xf61e2562; 0xc040b340; 0x265e5a51; 0xe9b6c7aa;
   0xd62f105d; 0x02441453; 0xd8a1e681; 0xe7d3fbc8;
   0x21e1cde6; 0xc33707d6; 0xf4d50d87; 0x455a14ed;
   0xa9e3e905; 0xfcefa3f8; 0x676f02d9; 0x8d2a4c8a;
   0xfffa3942; 0x8771f681; 0x6d9d6122; 0xfde5380c;
   0xa4beea44; 0x4bdecfa9; 0xf6bb4b60; 0xbebfbc70;
   0x289b7ec6; 0xeaa127fa; 0xd4ef3085; 0x04881d05;
   0xd9d4d039; 0xe6db99e5; 0x1fa27cf8; 0xc4ac5665;
   0xf4292244; 0x432aff97; 0xab9423a7; 0xfc93a039;
   0x655b59c3; 0x8f0ccc92; 0xffeff47d; 0x85845dd1;
   0x6fa87e4f; 0xfe2ce6e0; 0xa3014314; 0x4e0811a1;
   0xf7537e82; 0xbd3af235; 0x2ad7d2bb; 0xeb86d391].

(** The rotation of each of the 64 operations. *)
Definition md5_shifts : list Z :=
  [7; 12; 17; 22; 7; 12; 17; 22; 7; 12; 17; 22; 7; 12; 17; 22;
   5; 9; 14; 20; 5; 9; 14; 20; 5; 9; 14; 20; 5; 9; 14; 20;
   4; 11; 16; 23; 4; 11; 16; 23; 4; 11; 16; 23; 4; 11; 16; 23;
   6; 10; 15; 21; 6; 10; 15; 21; 6; 10; 15; 21; 6; 10; 15; 21].

(** ** The digest *)

Definition md5_state : Type := Z * Z * Z * Z.

Definition md5_init : md5_state := (0x67452301, 0xefcdab89, 0x98badcfe, 0x10325476).

(** The operation number [i] on the block [m] of sixteen words: the round
    [i / 16] chooses the auxiliary function and the word of the block. *)
Definition md5_round (m : list Z) (st : md5_state) (i : nat) : md5_state :=
  let '(a, b, c, d) := st in
  let '(f, g) :=
    match (i / 16)%nat with
    | 0%nat => (md5_F b c d, i)
    | 1%nat => (md5_G b c d, ((5 * i + 1) mod 16)%nat)
    | 2%nat => (md5_H b c d, ((3 * i + 5) mod 16)%nat)
    | _ => (md5_I b c d, ((7 * i) mod 16)%nat)
    end in
  let x := word (a + f + nth i md5_sines 0 + nth g m 0) in
  (d, word (b + rotl x (nth i md5_shifts 0)), b, c).

(** One block: the 64 operations, then the state before the block is
    added. *)
Definition md5_block (st : md5_state) (m : list Z) : md5_state :=
  let '(a, b, c, d) := st in
  let '(a', b', c', d') := fold_left (md5_round m) (seq 0 64) st in
  (word (a + a'), word (b + b'), word (c + c'), word (d + d')).

(** [k] bytes of a number, the low byte first. *)
Fixpoint le_bytes (k : nat) (z : Z) : list byte :=
  match k with
  | O => []
  | S k => byte_of_Z z :: le_bytes k (z / 256)
  end.

(** The words of a byte string, four bytes each, the low byte first. *)
Fixpoint le_words (l : list byte) : list Z :=
  match l with
  | b0 :: b1 :: b2 :: b3 :: r =>
      (byte_to_Z b0 + 256 * byte_to_Z b1 + 65536 * byte_to_Z b2
       + 16777216 * byte_to_Z b3) :: le_words r
  | _ => []
  end.

(** The blocks of sixteen words of a list of words. *)
Fixpoint blocks (fuel : nat) (ws : list Z) : list (list Z) :=
  match fuel, ws with
  | S fuel, _ :: _ => take 16 ws :: blocks fuel (drop 16 ws)
  | _, _ => []
  end.

(** Padding (RFC 1321, sections 3.1 and 3.2): a bit 1, zeros up to 56
    bytes modulo 64, and the length of the message in bits on 8 bytes. *)
Definition md5_pad (msg : list byte) : list byte :=
  msg ++ Byte.x80 :: replicate ((119 - length msg mod 64) mod 64) Byte.x00
    ++ le_bytes 8 (8 * Z.of_nat (length msg)).

Definition md5_digest (msg : list byte) : list byte :=
  let ws := le_words (md5_pad msg) in
  let '(a, b, c, d) := fold_left md5_block (blocks (length ws) ws) md5_init in
  le_bytes 4 a ++ le_bytes 4 b ++ le_bytes 4 c ++ le_bytes 4 d.

(** ** The digest as text *)

Definition hex_digit (n : Z) : Z := if decide (n < 10) then 48 + n else 87 + n.

Definition hex_byte (b : byte) : jsstring :=
  [hex_digit (byte_to_Z b / 16); hex_digit (byte_to_Z b mod 16)].

Definition md5_hexdigest (msg : list byte) : jsstring := md5_digest msg ≫= hex_byte.

(** The bytes of a passphrase: its UTF-8 encoding when it has one. *)
Definition passphrase_bytes (s : jsstring) : list byte :=
  match decodeUTF8 s with
  | Ok b => b
  | Throw _ => byte_of_Z <$> s
  end.

(** [md5.md5(s)]. *)
Definition md5_text (s : jsstring) : jsstring := md5_hexdigest (passphrase_bytes s).

(** A state made of 32-bit words. *)
Definition words_state (st : md5_state) : Prop :=
  let '(a, b, c, d) := st in
  (0 <= a < 2 ^ 32) /\ (0 <= b < 2 ^ 32) /\ (0 <= c < 2 ^ 32) /\ (0 <= d < 2 ^ 32).

(** ** The test suite of RFC 1321, appendix A.5 *)

Example md5_empty : md5_text (js "") = js "d41d8cd98f00b204e9800998ecf8427e".
Proof. vm_compute. reflexivity. Qed.

Example md5_a : md5_text (js "a") = js "0cc175b9c0f1b6a831c399e269772661".
Proof. vm_compute. reflexivity. Qed.

Example md5_abc : md5_text (js "abc") = js "900150983cd24fb0d6963f7d28e17f72".
Proof. vm_compute. reflexivity. Qed.

Example md5_message_digest :
  md5_text (js "message digest") = js "f96b697d7cb7938d525a2f31aaf161d0".
Proof. vm_compute. reflexivity. Qed.

Example md5_alphabet :
  md5_text (js "abcdefghijklmnopqrstuvwxyz") = js "c3fcd3d76192e4007dfb496cca67e13b".
Proof. vm_compute. reflexivity. Qed.

(** A message of 80 bytes: two blocks. *)
Example md5_digits :
  md5_text (js "12345678901234567890123456789012345678901234567890123456789012345678901234567890")
  = js "57edf4a22be3c955ac49da2e2107b67a".
Proof. vm_compute. reflexivity. Qed.

(** ** Words stay words *)

Lemma word_range (x : Z) : 0 <= word x < 2 ^ 32.
Proof. unfold word. apply Z.mod_pos_bound. lia. Qed.

Lemma word_small (x : Z) : 0 <= x < 2 ^ 32 -> word x = x.
Proof. unfold word. apply Z.mod_small. Qed.

(** The sums of the digest wrap around: adding [2 ^ 32] changes nothing. *)
Lemma word_add_wrap (x y : Z) : word (x + word y) = word (x + y).
Proof. unfold word. by rewrite Zplus_mod_idemp_r. Qed.

Lemma md5_round_words (m : list Z) (st : md5_state) (i : nat) :
  words_state st -> words_state (md5_round m st i).
Proof.
  destruct st as [[[a b] c] d]. intros (Ha & Hb & Hc & Hd). unfold md5_round.
  destruct (i / 16)%nat as [|[|[|q]]]; cbn [words_state];
    exact (conj Hd (conj (word_range _) (conj Hb Hc))).
Qed.

Lemma md5_rounds_words (m : list Z) (ops : list nat) (st : md5_state) :
  words_state st -> words_state (fold_left (md5_round m) ops st).
Proof.
  revert st. induction ops as [|i ops IH]; intros st Hst; [exact Hst|].
  cbn [fold_left]. by apply IH, md5_round_words.
Qed.

Lemma md5_block_words (st : md5_state) (m : list Z) : words_state (md5_block st m).
Proof.
  destruct st as [[[a b] c] d]. unfold md5_block.
  destruct (fold_left _ _ _) as [[[a' b'] c'] d']. cbn [words_state].
  refine (conj _ (conj _ (conj _ _))); apply word_range.
Qed.

Lemma md5_init_words : words_state md5_init.
Proof. cbn. lia. Qed.

Lemma md5_blocks_words (ms : list (list Z)) (st : md5_state) :
  words_state st -> words_state (fold_left md5_block ms st).
Proof.
  revert st. induction ms as [|m ms IH]; intros st Hst; [exact Hst|].
  cbn [fold_left]. apply IH, md5_block_words.
Qed.

(** ** Padding gives whole blocks *)

Lemma le_bytes_length (k : nat) (z : Z) : length (le_bytes k z) = k.
Proof. revert z. induction k as [|k IH]; intros z; cbn; [|rewrite IH]; reflexivity. Qed.

Lemma md5_pad_length (msg : list byte) :
  (length (md5_pad msg) mod 64 = 0)%nat
  /\ (length msg + 9 <= length (md5_pad msg) <= length msg + 72)%nat.
Proof.
  unfold md5_pad. rewrite length_app. cbn [length].
  rewrite length_app, length_replicate, le_bytes_length.
  pose proof (Nat.div_mod_eq (length msg) 64).
  pose proof (Nat.mod_upper_bound (length msg) 64).
  pose proof (Nat.div_mod_eq (119 - length msg mod 64) 64).
  pose proof (Nat.mod_upper_bound (119 - length msg mod 64) 64).
  split; [|lia].
  replace (length msg + S ((119 - length msg mod 64) mod 64 + 8))%nat
    with ((length msg / 64 + 2 - (119 - length msg mod 64) / 64) * 64)%nat by lia.
  apply Nat.Div0.mod_mul.
Qed.

(** ** Words, bytes and blocks *)

(** The four bytes of a 32-bit word, read as a word, are the word. *)
Lemma le_words_le_bytes (a : Z) (r : list byte) :
  0 <= a < 2 ^ 32 -> le_words (le_bytes 4 a ++ r) = a :: le_words r.
Proof.
  intros Ha. change (2 ^ 32) with 4294967296 in Ha.
  cbn [le_bytes app le_words]. rewrite !byte_to_of_Z. f_equal. divmod.
Qed.

(** The fuel of [blocks] is enough when it is the number of words: every
    word is in a block, in its place. *)
Lemma blocks_concat (fuel : nat) (ws : list Z) :
  (length ws <= fuel)%nat -> concat (blocks fuel ws) = ws.
Proof.
  revert ws. induction fuel as [|fuel IH]; intros ws Hl.
  - destruct ws; [reflexivity | cbn in Hl; lia].
  - destruct ws as [|w ws]; [reflexivity|]. cbn [blocks concat].
    rewrite IH; [apply take_drop|]. rewrite length_drop. cbn [length] in *. lia.
Qed.

(** ** The digest has 16 bytes and its text 32 hexadecimal digits *)

Lemma md5_digest_length (msg : list byte) : length (md5_digest msg) = 16%nat.
Proof.
  unfold md5_digest. destruct (fold_left _ _ _) as [[[a b] c] d]. reflexivity.
Qed.

Lemma hex_digit_hex (n : Z) : 0 <= n < 16 -> is_hex_digit (hex_digit n).
Proof. unfold hex_digit, is_hex_digit. case_decide; lia. Qed.

Lemma hex_byte_hex (b : byte) : Forall is_hex_digit (hex_byte b).
Proof.
  pose proof (byte_to_Z_range b). unfold hex_byte.
  repeat apply List.Forall_cons; [..|apply List.Forall_nil]; apply hex_digit_hex; divmod.
Qed.

Lemma md5_hexdigest_length (msg : list byte) : length (md5_hexdigest msg) = 32%nat.
Proof.
  unfold md5_hexdigest. change 32%nat with (2 * 16)%nat.
  rewrite <- (md5_digest_length msg).
  induction (md5_digest msg) as [|b l IH]; [reflexivity|].
  cbn [mbind list_bind]. rewrite length_app. fold (l ≫= hex_byte). rewrite IH.
  cbn [length hex_byte]. lia.
Qed.

Lemma md5_hexdigest_digits (msg : list byte) : Forall is_hex_digit (md5_hexdigest msg).
Proof. apply Forall_bind, Forall_true, hex_byte_hex. Qed.

(** A passphrase of ASCII characters is hashed as its characters. *)
Lemma passphrase_bytes_ascii (s : jsstring) :
  Forall (fun c => 0 <= c < 128) s -> passphrase_bytes s = byte_of_Z <$> s.
Proof.
  intros Hs. unfold passphrase_bytes.
  destruct (decodeUTF8 s) as [b|] eqn:Hb; [|reflexivity].
  revert b Hb. induction Hs as [|c r Hc _ IH]; intros b; [by intros [= <-]|].
  cbn [decodeUTF8]. unfold is_high_surrogate, is_low_surrogate.
  rewrite !decide_False by lia.
  destruct (decodeUTF8 r) as [b'|]; [|discriminate]. intros [= <-].
  rewrite (IH b' eq_refl). unfold utf8_bytes. by rewrite decide_True by lia.
Qed.
