(* ===== verification/NaclModel.v ===== *)
(** * NaclModel: an executable instance of the primitive interface

    The laws of [Nacl.Primitives] are assumptions about tweetnacl, ed2curve
    and the MD5 library.  This file shows that they can be met together, by
    an instance made of list operations, and gives the theorems of
    [SaltShaker] something to run on.  The instance has the functional
    behaviour the laws ask for (sizes, opening what was sealed, one shared
    key for both sides of a box) and no cryptographic strength: it is a test
    double, not a model of Curve25519, Salsa20 or Poly1305.  Its digest is
    the one of [Md5], so the keys it derives from a passphrase are the keys
    the program derives. *)

From Stdlib Require Import ZArith Lia List String.
From stdpp Require Import base tactics option list numbers.
From S2P Require Import Prelude JsPrims Nacl Md5.

(** ** The operations *)

(** The first [n] bytes of [l], with zeros when [l] is shorter. *)
Definition pad_to (n : nat) (l : list byte) : list byte :=
  take n (l ++ replicate n Byte.x00).

Definition xor_byte (a b : byte) : byte :=
  byte_of_Z (Z.lxor (byte_to_Z a) (byte_to_Z b)).

Definition model_keypair (seed : list byte) : keyPair :=
  KeyPair (pad_to 32 seed) (pad_to 32 seed ++ pad_to 32 seed).

Definition model_sign (msg sk : list byte) : list byte :=
  pad_to 32 (drop 32 sk) ++ replicate 32 Byte.x00 ++ msg.

Definition model_sign_open (signedMsg pk : list byte) : option (list byte) :=
  if decide (take 32 signedMsg = pk /\ (64 <= length signedMsg)%nat)
  then Some (drop 64 signedMsg)
  else None.

Definition model_convertPublicKey (pk : list byte) : option (list byte) :=
  if decide (length pk = 32%nat) then Some pk else None.

Definition model_convertSecretKey (sk : list byte) : list byte := pad_to 32 sk.

Definition model_beforenm (pk sk : list byte) : list byte :=
  pad_to 32 (zip_with xor_byte pk sk).

(** The authenticator of the model: sixteen bytes made of the key and the
    nonce. *)
Definition model_tag (nonce key : list byte) : list byte :=
  pad_to 16 (zip_with xor_byte key (nonce ++ nonce)).

Definition model_secretbox (msg nonce key : list byte) : list byte :=
  model_tag nonce key ++ msg.

Definition model_secretbox_open (box nonce key : list byte) : option (list byte) :=
  if decide (take 16 box = model_tag nonce key /\ (16 <= length box)%nat)
  then Some (drop 16 box)
  else None.

(** ** The laws *)

Lemma pad_to_length (n : nat) (l : list byte) : length (pad_to n l) = n.
Proof.
  unfold pad_to. rewrite length_take, length_app, length_replicate. lia.
Qed.

Lemma pad_to_id (n : nat) (l : list byte) : length l = n -> pad_to n l = l.
Proof.
  intros <-. unfold pad_to. rewrite take_app_length. reflexivity.
Qed.

Lemma pad_to_app (n : nat) (l r : list byte) : length l = n -> pad_to n (l ++ r) = l.
Proof.
  intros <-. unfold pad_to. rewrite <- app_assoc. apply take_app_length.
Qed.

Lemma xor_byte_comm (a b : byte) : xor_byte a b = xor_byte b a.
Proof. unfold xor_byte. rewrite Z.lxor_comm. reflexivity. Qed.

Lemma zip_with_xor_comm (l r : list byte) :
  zip_with xor_byte l r = zip_with xor_byte r l.
Proof.
  revert r. induction l as [|a l IH]; intros [|b r]; simpl; try reflexivity.
  rewrite xor_byte_comm, IH. reflexivity.
Qed.

Ltac lengths :=
  rewrite ?length_app, ?pad_to_length, ?length_replicate; (done || lia).

Lemma model_sign_open_sign (seed msg : list byte) :
  model_sign_open (model_sign msg (secretKey (model_keypair seed)))
    (publicKey (model_keypair seed)) = Some msg.
Proof.
  unfold model_sign_open, model_sign, model_keypair. cbn [publicKey secretKey].
  rewrite drop_app_length' by lengths.
  rewrite (pad_to_id 32 (pad_to 32 seed)) by lengths.
  rewrite decide_True.
  - f_equal. rewrite app_assoc. apply drop_app_length'. lengths.
  - split; [apply take_app_length'|]; lengths.
Qed.

Lemma model_beforenm_shared (seedA seedB : list byte) :
  model_beforenm (pad_to 32 seedB) (model_convertSecretKey (secretKey (model_keypair seedA)))
  = model_beforenm (pad_to 32 seedA) (model_convertSecretKey (secretKey (model_keypair seedB))).
Proof.
  unfold model_beforenm, model_convertSecretKey, model_keypair. cbn [publicKey secretKey].
  rewrite !pad_to_app by lengths.
  rewrite zip_with_xor_comm. reflexivity.
Qed.

Lemma model_tag_length (nonce key : list byte) : length (model_tag nonce key) = 16%nat.
Proof. apply pad_to_length. Qed.

Lemma model_secretbox_open_secretbox (msg nonce key : list byte) :
  model_secretbox_open (model_secretbox msg nonce key) nonce key = Some msg.
Proof.
  unfold model_secretbox_open, model_secretbox.
  pose proof (model_tag_length nonce key) as Ht. rewrite decide_True.
  - f_equal. by apply drop_app_length'.
  - split; [by apply take_app_length' | lengths].
Qed.

Lemma model_sign_open_length (signedMsg pk msg : list byte) :
  model_sign_open signedMsg pk = Some msg ->
  length signedMsg = (64 + length msg)%nat.
Proof.
  unfold model_sign_open. case_decide as Hd; [|discriminate].
  intros [= <-]. rewrite length_drop. lia.
Qed.

Lemma model_sign_attached (msg sk : list byte) : drop 64 (model_sign msg sk) = msg.
Proof.
  unfold model_sign. rewrite app_assoc. apply drop_app_length'. lengths.
Qed.

Lemma model_sign_open_attached (signedMsg pk msg : list byte) :
  model_sign_open signedMsg pk = Some msg -> msg = drop 64 signedMsg.
Proof. unfold model_sign_open. case_decide; [by intros [= <-] | discriminate]. Qed.

Lemma model_secretbox_open_length (box nonce key msg : list byte) :
  model_secretbox_open box nonce key = Some msg ->
  length box = (16 + length msg)%nat.
Proof.
  unfold model_secretbox_open. case_decide as Hd; [|discriminate].
  intros [= <-]. rewrite length_drop. lia.
Qed.

(** ** The instance *)

#[export] Instance model : Primitives.
Proof.
  refine {|
    crypto_sign_keypair := model_keypair;
    crypto_sign := model_sign;
    crypto_sign_open := model_sign_open;
    crypto_box_beforenm := model_beforenm;
    crypto_secretbox := model_secretbox;
    crypto_secretbox_open := model_secretbox_open;
    convertPublicKey := model_convertPublicKey;
    convertSecretKey := model_convertSecretKey;
    md5 := md5_text |}.
  - intros seed _. apply pad_to_length.
  - intros seed _. cbn [model_keypair secretKey]. rewrite length_app, !pad_to_length. reflexivity.
  - intros seed _. cbn [model_keypair secretKey publicKey]. apply drop_app_length'. lengths.
  - intros seed msg _. apply model_sign_open_sign.
  - intros seed _. exists (pad_to 32 seed). cbn [model_keypair publicKey].
    unfold model_convertPublicKey. by rewrite decide_True by apply pad_to_length.
  - intros pk pk'. unfold model_convertPublicKey.
    case_decide; [by intros [= <-] | discriminate].
  - intros sk. apply pad_to_length.
  - intros pk sk. apply pad_to_length.
  - intros seedA seedB pkA pkB _ _. cbn [model_keypair publicKey].
    unfold model_convertPublicKey.
    rewrite !decide_True by apply pad_to_length. intros [= <-] [= <-].
    apply model_beforenm_shared.
  - intros msg nonce key _ _. apply model_secretbox_open_secretbox.
  - intros msg sk. unfold model_sign. lengths.
  - apply model_sign_open_length.
  - apply model_sign_attached.
  - apply model_sign_open_attached.
  - intros msg nonce key. unfold model_secretbox.
    rewrite length_app, model_tag_length. reflexivity.
  - apply model_secretbox_open_length.
  - intros s. apply md5_hexdigest_length.
  - intros s. apply md5_hexdigest_digits.
Defined.

(** ** What the laws leave open

    The laws of [Primitives] say that what was sealed opens; none says
    that anything else does not.  The model is lawful and opens a box
    whose message bytes were changed, to the changed message: a theorem
    proved from the laws cannot promise that a forged envelope is
    refused. *)
Example model_opens_altered_box :
  let nonce := replicate 24 Byte.x00 in
  let key := replicate 32 Byte.x01 in
  let box := model_secretbox (byte_of_Z <$> [104; 105]%Z) nonce key in
  model_secretbox_open (take 16 box ++ (byte_of_Z <$> [104; 111]%Z)) nonce key
  = Some (byte_of_Z <$> [104; 111]%Z).
Proof. vm_compute. reflexivity. Qed.
