(* ===== verification/SaltShaker.v ===== *)
(** * SaltShaker: the exported operations

    The seven functions the module exports ([src/saltshaker.js], lines
    100-165): [create], [sign], [verify], [encrypt], [decrypt], [encryptPSK]
    and [decryptPSK].  Each is a composition of the codecs ([Decoder],
    [Encoder], [Utf8], [Base64]) and of the primitive API ([Nacl]), written in
    the order JavaScript evaluates the arguments, so that the first exception
    thrown is the one the caller sees.  The functions that call
    [nacl.randomBytes] or [nacl.sign.keyPair()] live in the monad [M]; the
    others return a [result].  Arguments are strings; [create]'s optional
    argument is an [option].

    The theorems are proved for every instance of [Nacl.Primitives]; the
    witnesses run them on [NaclModel.model]. *)

From Stdlib Require Import ZArith Lia List String.
From stdpp Require Import base tactics option list numbers.
From S2P Require Import Prelude JsPrims Decoder Utf8 Encoder Base64 Nacl NaclModel.

(** ** Data *)

(** The object [create] returns. *)
Record keys : Type := Keys {
  publickey : jsstring;
  privatekey : jsstring
}.

(** The object [encrypt] and [encryptPSK] return. *)
Record envelope : Type := Envelope {
  message : jsstring;
  nonce : jsstring
}.

#[export] Instance keys_eq_dec : EqDecision keys.
Proof. solve_decision. Defined.

#[export] Instance envelope_eq_dec : EqDecision envelope.
Proof. solve_decision. Defined.

(** ** Operations *)

Section operations.
Context `{Primitives}.

(** [var _md5 = md5.md5] (line 39). *)
Definition _md5 (s : jsstring) : jsstring := md5 s.

(** The string an argument holds; [create] reads it only when the argument
    is truthy. *)
Definition string_of (v : option jsstring) : jsstring := default [] v.

(** [SaltShaker.create(privatekey)] (lines 100-111). *)
Definition create (privatekey : option jsstring) : M keys :=
  _keys ← (if truthy privatekey
           then lift (sk ← decodeBase64 (string_of privatekey);
                      nacl_sign_keyPair_fromSecretKey sk)
           else nacl_sign_keyPair);
  mret (Keys (encodeBase64 (publicKey _keys)) (encodeBase64 (secretKey _keys))).

(** [SaltShaker.sign(msg, privkey)] (lines 116-118). *)
Definition sign (msg privkey : jsstring) : result jsstring :=
  m ← decodeUTF8 msg;
  sk ← decodeBase64 privkey;
  signed ← nacl_sign m sk;
  mret (encodeBase64 signed).

(** [SaltShaker.verify(signedmsg, pubkey)] (lines 123-127): the message, or
    [null] (here [None]) when [nacl.sign.open] returns [null]. *)
Definition verify (signedmsg pubkey : jsstring) : result (option jsstring) :=
  sm ← decodeBase64 signedmsg;
  pk ← decodeBase64 pubkey;
  _returnv ← nacl_sign_open sm pk;
  mret (match _returnv with
        | Some array => Some (_decoder array)
        | None => None
        end).

(** [SaltShaker.encrypt(msg, pubkey, privkey)] (lines 132-139). *)
Definition encrypt (msg pubkey privkey : jsstring) : M envelope :=
  _nonce ← randomBytes box_nonceLength;
  lift (m ← decodeUTF8 msg;
        pk ← decodeBase64 pubkey;
        sk ← decodeBase64 privkey;
        box ← nacl_box m _nonce (convertPublicKey pk) (convertSecretKey sk);
        mret (Envelope (encodeBase64 box) (encodeBase64 _nonce))).

(** [SaltShaker.decrypt(msg, nonce, pubkey, privkey)] (lines 144-146). *)
Definition decrypt (msg nonce pubkey privkey : jsstring) : result jsstring :=
  box ← decodeBase64 msg;
  n ← decodeBase64 nonce;
  pk ← decodeBase64 pubkey;
  sk ← decodeBase64 privkey;
  opened ← nacl_box_open box n (convertPublicKey pk) (convertSecretKey sk);
  _decoder_nullable opened.

(** [SaltShaker.encryptPSK(msg, key)] (lines 151-158). *)
Definition encryptPSK (msg key : jsstring) : M envelope :=
  _nonce ← randomBytes secretbox_nonceLength;
  lift (m ← decodeUTF8 msg;
        box ← nacl_secretbox m _nonce (_encoder (_md5 key));
        mret (Envelope (encodeBase64 box) (encodeBase64 _nonce))).

(** [SaltShaker.decryptPSK(msg, key, nonce)] (lines 163-165). *)
Definition decryptPSK (msg key nonce : jsstring) : result jsstring :=
  box ← decodeBase64 msg;
  n ← decodeBase64 nonce;
  opened ← nacl_secretbox_open box n (_encoder (_md5 key));
  _decoder_nullable opened.

End operations.

(** ** Auxiliary definitions for the statements *)

(** The [keys] object of a key pair. *)
Definition keys_of (kp : keyPair) : keys :=
  Keys (encodeBase64 (publicKey kp)) (encodeBase64 (secretKey kp)).

Section created.
Context `{Primitives}.

(** The keys [create()] makes from the random source in state [g]. *)
Definition created (g : rng) : keys :=
  keys_of (crypto_sign_keypair (next_bytes sign_seedLength g)).

End created.

(** A random source for the examples and three states of it. *)
Definition zero_rng : rng := Rng (fun i => byte_of_Z (Z.of_nat i * 7 + 3)) 0.

Definition alice : rng := zero_rng.
Definition bob : rng := advance 32 zero_rng.
Definition later : rng := advance 64 zero_rng.

Definition no_envelope : envelope := Envelope [] [].

(** 64 bytes that are no key pair: the first half of A's private key
    followed by the public key of B. *)
Definition mismatched : list byte :=
  take 32 (secretKey (crypto_sign_keypair (next_bytes sign_seedLength alice)))
  ++ publicKey (crypto_sign_keypair (next_bytes sign_seedLength bob)).

(** The text "H", an emoji (a surrogate pair), "i". *)
Definition astral_text : jsstring := [0x48; 0xD83D; 0xDE00; 0x69]%Z.

(** ** How the operations run *)

(** Simplify the binds of [result] and the base64 round trips in the goal. *)
Ltac run :=
  repeat first
    [ progress cbn [mbind result_bind mret result_ret fmap result_fmap
                    option_fmap option_map
                    publickey privatekey message nonce keys_of]
    | rewrite decodeBase64_encodeBase64
    | rewrite M_bind_randomBytes
    | rewrite ST_bind_lift ].

Section running.
Context `{Primitives}.
Implicit Types (msg key pubkey privkey : jsstring) (g : rng).

Lemma create_generates (privatekey : option jsstring) g :
  truthy privatekey = false ->
  create privatekey g
  = (Ok (keys_of (crypto_sign_keypair (next_bytes sign_seedLength g))),
     advance sign_seedLength g).
Proof. intros Ht. unfold create. rewrite Ht. reflexivity. Qed.

Lemma create_rebuilds (privatekey : option jsstring) g :
  truthy privatekey = true ->
  create privatekey g
  = (keys_of <$> (decodeBase64 (string_of privatekey)
                    ≫= nacl_sign_keyPair_fromSecretKey), g).
Proof.
  intros Ht. unfold create. rewrite Ht, ST_bind_lift.
  destruct (decodeBase64 (string_of privatekey)) as [sk|]; [|reflexivity].
  cbn [mbind result_bind]. destruct (nacl_sign_keyPair_fromSecretKey sk); reflexivity.
Qed.

Lemma truthy_encodeBase64 (arr : list byte) :
  arr <> [] -> truthy (Some (encodeBase64 arr)) = true.
Proof.
  intros Hne. pose proof (encodeBase64_nonempty arr Hne).
  destruct (encodeBase64 arr); [congruence | reflexivity].
Qed.

Lemma sign_run msg m sk :
  decodeUTF8 msg = Ok m ->
  sign msg (encodeBase64 sk) = encodeBase64 <$> nacl_sign m sk.
Proof.
  intros Hm. unfold sign. rewrite Hm. run. destruct (nacl_sign m sk); reflexivity.
Qed.

Lemma verify_run signedmsg pubkey sm pk :
  decodeBase64 signedmsg = Ok sm -> decodeBase64 pubkey = Ok pk ->
  verify signedmsg pubkey = fmap (M := option) _decoder <$> nacl_sign_open sm pk.
Proof.
  intros Hs Hp. unfold verify. rewrite Hs, Hp. run.
  destruct (nacl_sign_open sm pk) as [[a|]|]; reflexivity.
Qed.

Lemma encrypt_run msg pubkey privkey g :
  encrypt msg pubkey privkey g
  = (m ← decodeUTF8 msg;
     pk ← decodeBase64 pubkey;
     sk ← decodeBase64 privkey;
     box ← nacl_box m (next_bytes box_nonceLength g)
             (convertPublicKey pk) (convertSecretKey sk);
     mret (Envelope (encodeBase64 box)
             (encodeBase64 (next_bytes box_nonceLength g))),
     advance box_nonceLength g).
Proof. reflexivity. Qed.

Lemma encryptPSK_run msg key g :
  encryptPSK msg key g
  = (m ← decodeUTF8 msg;
     box ← nacl_secretbox m (next_bytes secretbox_nonceLength g)
             (_encoder (_md5 key));
     mret (Envelope (encodeBase64 box)
             (encodeBase64 (next_bytes secretbox_nonceLength g))),
     advance secretbox_nonceLength g).
Proof. reflexivity. Qed.

Lemma psk_key_sized key : length (_encoder (_md5 key)) = secretbox_keyLength.
Proof. encoder_closed_form. rewrite length_fmap. apply md5_length. Qed.

(** Every byte of the derived key is the character code of a hexadecimal
    digit. *)
Lemma psk_key_hex key :
  Forall (fun b => is_hex_digit (byte_to_Z b)) (_encoder (_md5 key)).
Proof.
  encoder_closed_form. apply Forall_fmap. eapply list.Forall_impl; [apply md5_hex|].
  intros c Hc. cbn. rewrite byte_to_of_Z_small; [done | unfold is_hex_digit in Hc; lia].
Qed.

End running.

(** ** Signing and verifying *)

Section signer.
Context `{Primitives}.
Implicit Types (msg signedmsg pubkey privkey : jsstring) (g : rng).

(** Signing with the private key [create()] made and verifying with its
    public key: the signed message is the base64 text of what [nacl.sign]
    returned, and [verify] returns what [_decoder] reads in the UTF-8 bytes
    of the message. *)
Lemma sign_verify_run msg m g :
  decodeUTF8 msg = Ok m ->
  exists sm,
    sign msg (privatekey (created g)) = Ok (encodeBase64 sm)
    /\ verify (encodeBase64 sm) (publickey (created g)) = Ok (Some (_decoder m)).
Proof.
  intros Hm.
  destruct (nacl_sign_open_keypair (next_bytes sign_seedLength g) m)
    as (sm & Hsig & Hopen); [apply next_bytes_length|].
  exists sm. unfold created. run. split.
  - rewrite (sign_run _ m), Hsig by assumption. reflexivity.
  - erewrite verify_run by (run; reflexivity). rewrite Hopen. reflexivity.
Qed.

(** C2: round trip of the signer: with the keys [create()] makes, signing a
    message of 16-bit code units without surrogates succeeds and verifying
    the result with the public key returns the message. *)
Theorem sign_verify_roundtrip msg g :
  wf_string msg -> Forall (fun u => ~ is_surrogate u) msg ->
  exists ks signed,
    (create None g).1 = Ok ks
    /\ sign msg (privatekey ks) = Ok signed
    /\ verify signed (publickey ks) = Ok (Some msg).
Proof.
  intros Hwf Hs. destruct (decode_ref_decodeUTF8_bmp msg Hwf Hs) as (m & Hm & Hd).
  destruct (sign_verify_run msg m g Hm) as (sm & Hsig & Hver).
  rewrite create_generates by reflexivity.
  exists (created g), (encodeBase64 sm). split_and!; [reflexivity | exact Hsig|].
  rewrite Hver. do 2 f_equal. decoder_ref. assumption.
Qed.

(** C6: what [verify] returns for a signed message in general: the message
    without its surrogate code units.  A message that contains a character
    outside the Basic Multilingual Plane is accepted by [sign], verified by
    [verify], and returned altered. *)
Theorem sign_verify_loses_astral msg m g :
  wf_string msg -> decodeUTF8 msg = Ok m ->
  exists ks signed,
    (create None g).1 = Ok ks
    /\ sign msg (privatekey ks) = Ok signed
    /\ verify signed (publickey ks) = Ok (Some (strip_surrogates msg))
    /\ (Exists is_surrogate msg -> verify signed (publickey ks) <> Ok (Some msg)).
Proof.
  intros Hwf Hm. destruct (sign_verify_run msg m g Hm) as (sm & Hsig & Hver).
  assert (Hd : _decoder m = strip_surrogates msg)
    by (decoder_ref; apply decode_ref_decodeUTF8; assumption).
  rewrite Hd in Hver. rewrite create_generates by reflexivity.
  exists (created g), (encodeBase64 sm).
  split_and!; [reflexivity | exact Hsig | exact Hver|].
  intros Hex. rewrite Hver. intros [= Heq].
  exact (strip_surrogates_changes msg Hex Heq).
Qed.

(** C8: [verify] on well-formed inputs never throws: for a signed message
    and a public key that are valid base64, the key 32 bytes long, it returns
    the decoded message when [nacl.sign.open] accepts and [null] when it
    rejects. *)
Theorem verify_returns_null_on_rejection signedmsg pubkey sm pk :
  decodeBase64 signedmsg = Ok sm -> decodeBase64 pubkey = Ok pk ->
  length pk = sign_publicKeyLength ->
  verify signedmsg pubkey = Ok (_decoder <$> crypto_sign_open sm pk)
  /\ (crypto_sign_open sm pk = None -> verify signedmsg pubkey = Ok None).
Proof.
  intros Hs Hp Hl. rewrite (verify_run _ _ sm pk), nacl_sign_open_sized by assumption.
  split; [reflexivity | intros ->; reflexivity].
Qed.

(** [verify] with a public key that is valid base64 of a length other
    than 32 bytes throws tweetnacl's [Error('bad public key size')]: a
    mismatched key is reported as "not verified" only when it has the right
    length. *)
Lemma verify_bad_key_size signedmsg pubkey sm pk :
  decodeBase64 signedmsg = Ok sm -> decodeBase64 pubkey = Ok pk ->
  length pk <> sign_publicKeyLength ->
  verify signedmsg pubkey = Throw (Error "bad public key size").
Proof.
  intros Hs Hp Hl.
  rewrite (verify_run _ _ sm pk), nacl_sign_open_bad_size by assumption.
  reflexivity.
Qed.

(** [sign] examines the message before the key: a message with an
    unpaired surrogate makes [sign] throw the [URIError] of [decodeUTF8],
    whatever the key argument is. *)
Lemma sign_message_error_first msg privkey e :
  decodeUTF8 msg = Throw e -> sign msg privkey = Throw e.
Proof. intros Hm. unfold sign. rewrite Hm. reflexivity. Qed.

(** [sign] with a key that is valid base64 of the wrong length throws
    tweetnacl's [Error('bad secret key size')]; with a key that is not valid
    base64 it throws [TypeError('invalid encoding')]. *)
Lemma sign_bad_key msg privkey m :
  decodeUTF8 msg = Ok m ->
  (forall sk, decodeBase64 privkey = Ok sk -> length sk <> sign_secretKeyLength ->
     sign msg privkey = Throw (Error "bad secret key size"))
  /\ (decodeBase64 privkey = invalid_encoding ->
      sign msg privkey = Throw (TypeError "invalid encoding")).
Proof.
  intros Hm. unfold sign. rewrite Hm. split.
  - intros sk -> Hl. run. rewrite nacl_sign_bad_size by assumption. reflexivity.
  - intros ->. reflexivity.
Qed.

End signer.

(** ** Public-key encryption *)

Section asymmetric.
Context `{Primitives}.
Implicit Types (msg pubkey privkey : jsstring) (g : rng).

Lemma decrypt_run box n pk sk :
  decrypt (encodeBase64 box) (encodeBase64 n) (encodeBase64 pk) (encodeBase64 sk)
  = nacl_box_open box n (convertPublicKey pk) (convertSecretKey sk)
      ≫= _decoder_nullable.
Proof. unfold decrypt. run. reflexivity. Qed.

(** An envelope between two parties whose keys [create()] made: with the
    same nonce both write the same envelope, and each of them opens it, to
    what [_decoder] reads in the UTF-8 bytes of the message. *)
Lemma box_exchange_run msg m gA gB g :
  decodeUTF8 msg = Ok m ->
  exists box,
    let env := Envelope (encodeBase64 box)
                 (encodeBase64 (next_bytes box_nonceLength g)) in
    encrypt msg (publickey (created gB)) (privatekey (created gA)) g
    = (Ok env, advance box_nonceLength g)
    /\ encrypt msg (publickey (created gA)) (privatekey (created gB)) g
       = (Ok env, advance box_nonceLength g)
    /\ decrypt (message env) (nonce env)
         (publickey (created gA)) (privatekey (created gB)) = Ok (_decoder m)
    /\ decrypt (message env) (nonce env)
         (publickey (created gB)) (privatekey (created gA)) = Ok (_decoder m).
Proof.
  intros Hm.
  destruct (nacl_box_before_keypairs (next_bytes sign_seedLength gA)
              (next_bytes sign_seedLength gB))
    as (k & Hk & HAB & HBA); [apply next_bytes_length ..|].
  destruct (nacl_secretbox_open_secretbox m (next_bytes box_nonceLength g) k)
    as (box & Hbox & Hopen); [apply next_bytes_length | exact Hk|].
  exists box. rewrite !encrypt_run, Hm. unfold created, nacl_box. run.
  rewrite HAB, HBA. run. rewrite Hbox. split_and!; [reflexivity ..| |];
    rewrite decrypt_run; unfold nacl_box_open; rewrite ?HAB, ?HBA; run;
    rewrite Hopen; reflexivity.
Qed.

(** C1: round trip of public-key encryption: for two key pairs made by
    [create()], a message of 16-bit code units without surrogates that A
    encrypts for B (B's public key, A's private key) is returned by [decrypt]
    with A's public key, B's private key and the nonce of the envelope. *)
Theorem encrypt_decrypt_roundtrip msg gA gB g :
  wf_string msg -> Forall (fun u => ~ is_surrogate u) msg ->
  exists env,
    (encrypt msg (publickey (created gB)) (privatekey (created gA)) g).1 = Ok env
    /\ decrypt (message env) (nonce env)
         (publickey (created gA)) (privatekey (created gB)) = Ok msg.
Proof.
  intros Hwf Hs. destruct (decode_ref_decodeUTF8_bmp msg Hwf Hs) as (m & Hm & Hd).
  destruct (box_exchange_run msg m gA gB g Hm) as (box & Henc & _ & Hdec & _).
  eexists. rewrite Henc. split; [reflexivity|].
  rewrite Hdec. f_equal. decoder_ref. assumption.
Qed.

(** C7: a box that does not open makes [decrypt] throw: when
    [nacl.box.open] returns [null], [_decoder] reads [null.length] and the
    caller gets a [TypeError], never a string; in particular never the empty
    string an empty message decrypts to. *)
Theorem decrypt_failure_throws msg nonce pubkey privkey box n pk sk :
  decodeBase64 msg = Ok box -> decodeBase64 nonce = Ok n ->
  decodeBase64 pubkey = Ok pk -> decodeBase64 privkey = Ok sk ->
  nacl_box_open box n (convertPublicKey pk) (convertSecretKey sk) = Ok None ->
  decrypt msg nonce pubkey privkey
  = Throw (TypeError "Cannot read property 'length' of null").
Proof.
  intros Hb Hn Hp Hs Ho. unfold decrypt. rewrite Hb, Hn, Hp, Hs. run.
  rewrite Ho. reflexivity.
Qed.

(** A nonce of the wrong length makes [decrypt] throw tweetnacl's
    [Error('bad nonce size')], for keys made by [create()]: a damaged nonce
    is reported by an exception of its own, before the box is opened. *)
Lemma decrypt_bad_nonce_size msg nonce box n gA gB :
  decodeBase64 msg = Ok box -> decodeBase64 nonce = Ok n ->
  length n <> box_nonceLength ->
  decrypt msg nonce (publickey (created gA)) (privatekey (created gB))
  = Throw (Error "bad nonce size").
Proof.
  intros Hb Hn Hl. unfold decrypt, created. rewrite Hb, Hn. run.
  destruct (nacl_box_before_keypairs (next_bytes sign_seedLength gB)
              (next_bytes sign_seedLength gA)) as (k & Hk & Hbefore & _);
    [apply next_bytes_length ..|].
  unfold nacl_box_open. rewrite Hbefore. run. unfold nacl_secretbox_open.
  rewrite decide_False by (intros ?; congruence).
  rewrite decide_True by assumption. reflexivity.
Qed.

(** A public key that ed2curve cannot convert ([convertPublicKey]
    returns [null]) makes [encrypt] throw tweetnacl's
    [TypeError('unexpected type, use Uint8Array')], after the nonce has been
    drawn. *)
Lemma encrypt_unconvertible_key msg pubkey privkey m pk sk g :
  decodeUTF8 msg = Ok m -> decodeBase64 pubkey = Ok pk ->
  decodeBase64 privkey = Ok sk -> convertPublicKey pk = None ->
  encrypt msg pubkey privkey g
  = (Throw (TypeError "unexpected type, use Uint8Array"), advance box_nonceLength g).
Proof.
  intros Hm Hp Hs Hc. rewrite encrypt_run, Hm, Hp, Hs. run. rewrite Hc. reflexivity.
Qed.

Lemma encrypt_Ok_nonce msg pubkey privkey g env :
  (encrypt msg pubkey privkey g).1 = Ok env ->
  nonce env = encodeBase64 (next_bytes box_nonceLength g).
Proof.
  rewrite encrypt_run. cbn [fst].
  destruct (decodeUTF8 msg); [|discriminate]. run.
  destruct (decodeBase64 pubkey); [|discriminate]. run.
  destruct (decodeBase64 privkey); [|discriminate]. run.
  destruct (nacl_box _ _ _ _); [|discriminate]. run. intros [= <-]. reflexivity.
Qed.

(** C10: [encrypt] draws exactly [nacl.box.nonceLength] = 24 bytes from the
    random source, whether it returns or throws, and the nonce of the
    envelope it returns is the base64 text of those bytes. *)
Theorem encrypt_draws_nonce msg pubkey privkey g :
  (encrypt msg pubkey privkey g).2 = advance box_nonceLength g
  /\ forall env, (encrypt msg pubkey privkey g).1 = Ok env ->
       nonce env = encodeBase64 (next_bytes box_nonceLength g).
Proof. split; [reflexivity | apply encrypt_Ok_nonce]. Qed.

Lemma encodeBase64_inj (a b : list byte) : encodeBase64 a = encodeBase64 b -> a = b.
Proof.
  intros Heq. apply (f_equal decodeBase64) in Heq.
  rewrite !decodeBase64_encodeBase64 in Heq. congruence.
Qed.

(** Two successive calls of [encrypt] take their nonces from
    consecutive, disjoint windows of the random source; when the source
    delivers different bytes in the two windows, the two envelopes carry
    different nonces. *)
Lemma encrypt_twice_fresh_nonce msg pubkey privkey g env1 env2 :
  (encrypt msg pubkey privkey g).1 = Ok env1 ->
  (encrypt msg pubkey privkey (encrypt msg pubkey privkey g).2).1 = Ok env2 ->
  nonce env1 = encodeBase64 (next_bytes 24 g)
  /\ nonce env2 = encodeBase64 (next_bytes 24 (advance 24 g))
  /\ (next_bytes 24 g <> next_bytes 24 (advance 24 g) -> nonce env1 <> nonce env2).
Proof.
  intros H1 H2. apply encrypt_Ok_nonce in H1, H2. rewrite H1, H2.
  split; [reflexivity|]. split; [reflexivity|].
  intros Hne Heq. apply Hne, encodeBase64_inj, Heq.
Qed.

(** The same public key makes [decrypt] throw the same error. *)
Lemma decrypt_unconvertible_key box n pk sk :
  convertPublicKey pk = None ->
  decrypt (encodeBase64 box) (encodeBase64 n) (encodeBase64 pk) (encodeBase64 sk)
  = Throw (TypeError "unexpected type, use Uint8Array").
Proof. intros Hc. rewrite decrypt_run, Hc. reflexivity. Qed.

(** The arguments are decoded from left to right, and the first that
    cannot be decoded decides the exception: in [encrypt] the message comes
    before the keys, in [decrypt] the box before the nonce and the nonce
    before the keys. *)
Lemma encrypt_error_order msg pubkey privkey g e :
  (decodeUTF8 msg = Throw e
   \/ (is_Ok (decodeUTF8 msg) = true
       /\ (decodeBase64 pubkey = Throw e
           \/ (is_Ok (decodeBase64 pubkey) = true
               /\ decodeBase64 privkey = Throw e)))) ->
  encrypt msg pubkey privkey g = (Throw e, advance box_nonceLength g).
Proof.
  rewrite encrypt_run. intros [-> | [Hm [-> | [Hp ->]]]];
    repeat match goal with
      | H : is_Ok ?r = true |- _ => destruct r; [clear H | discriminate H]
      end; reflexivity.
Qed.

Lemma decrypt_error_order msg nonce pubkey privkey e :
  (decodeBase64 msg = Throw e
   \/ (is_Ok (decodeBase64 msg) = true
       /\ (decodeBase64 nonce = Throw e
           \/ (is_Ok (decodeBase64 nonce) = true
               /\ (decodeBase64 pubkey = Throw e
                   \/ (is_Ok (decodeBase64 pubkey) = true
                       /\ decodeBase64 privkey = Throw e)))))) ->
  decrypt msg nonce pubkey privkey = Throw e.
Proof.
  unfold decrypt. intros [-> | [Hm [-> | [Hn [-> | [Hp ->]]]]]];
    repeat match goal with
      | H : is_Ok ?r = true |- _ => destruct r; [clear H | discriminate H]
      end; reflexivity.
Qed.

(** C21: a box has no direction.  The envelope A makes for B (B's public
    key, A's private key) is, for the same nonce, the envelope B makes for
    A, and A's own keys open it as B's do: nothing in an envelope says
    which of the two parties wrote it. *)
Theorem envelope_has_no_direction msg gA gB g :
  wf_string msg -> Forall (fun u => ~ is_surrogate u) msg ->
  exists env,
    (encrypt msg (publickey (created gB)) (privatekey (created gA)) g).1 = Ok env
    /\ (encrypt msg (publickey (created gA)) (privatekey (created gB)) g).1 = Ok env
    /\ decrypt (message env) (nonce env)
         (publickey (created gB)) (privatekey (created gA)) = Ok msg.
Proof.
  intros Hwf Hs. destruct (decode_ref_decodeUTF8_bmp msg Hwf Hs) as (m & Hm & Hd).
  destruct (box_exchange_run msg m gA gB g Hm) as (box & HAB & HBA & _ & Hdec).
  eexists. rewrite HAB, HBA. split_and!; [reflexivity ..|].
  rewrite Hdec. f_equal. decoder_ref. assumption.
Qed.

(** What [decrypt] returns for an envelope in general: the message without
    its surrogate code units.  A character outside the Basic Multilingual
    Plane is accepted by [encrypt] and lost by [decrypt], as by [verify]. *)
Lemma encrypt_decrypt_loses_astral msg m gA gB g :
  wf_string msg -> decodeUTF8 msg = Ok m ->
  exists env,
    encrypt msg (publickey (created gB)) (privatekey (created gA)) g
    = (Ok env, advance box_nonceLength g)
    /\ decrypt (message env) (nonce env)
         (publickey (created gA)) (privatekey (created gB))
       = Ok (strip_surrogates msg).
Proof.
  intros Hwf Hm.
  destruct (box_exchange_run msg m gA gB g Hm) as (box & Henc & _ & Hdec & _).
  eexists. split; [exact Henc|]. rewrite Hdec. f_equal. decoder_ref.
  by apply decode_ref_decodeUTF8.
Qed.

End asymmetric.

(** ** Pre-shared-key encryption *)

Section symmetric.
Context `{Primitives}.
Implicit Types (msg key : jsstring) (g : rng).

(** C31: the key [encryptPSK] and [decryptPSK] derive from a passphrase,
    [_encoder(_md5(key))], is 32 bytes long, the key size of the secret box:
    the characters of the digest, one byte each.  Every byte of it is the
    code of a hexadecimal digit, [0]-[9] or [a]-[f]: of the 256 bits of a
    secret-box key the passphrase decides at most 128. *)
Theorem psk_key_length key :
  length (_encoder (_md5 key)) = secretbox_keyLength
  /\ _encoder (_md5 key) = byte_of_Z <$> _md5 key
  /\ Forall (fun b => is_hex_digit (byte_to_Z b)) (_encoder (_md5 key)).
Proof.
  split_and!; [apply psk_key_sized | encoder_closed_form; reflexivity | apply psk_key_hex].
Qed.

(** An envelope under a passphrase: [encryptPSK] returns one for every
    message [decodeUTF8] accepts, and [decryptPSK] opens it with the same
    passphrase, to what [_decoder] reads in the UTF-8 bytes of the
    message. *)
Lemma psk_run msg m key g :
  decodeUTF8 msg = Ok m ->
  exists box,
    let env := Envelope (encodeBase64 box)
                 (encodeBase64 (next_bytes secretbox_nonceLength g)) in
    encryptPSK msg key g = (Ok env, advance secretbox_nonceLength g)
    /\ decryptPSK (message env) key (nonce env) = Ok (_decoder m).
Proof.
  intros Hm.
  destruct (nacl_secretbox_open_secretbox m (next_bytes secretbox_nonceLength g)
              (_encoder (_md5 key)))
    as (box & Hbox & Hopen); [apply next_bytes_length | apply psk_key_sized|].
  exists box. rewrite encryptPSK_run, Hm. run. rewrite Hbox. split; [reflexivity|].
  unfold decryptPSK. run. rewrite Hopen. reflexivity.
Qed.

(** C3: round trip of pre-shared-key encryption: a message of 16-bit code
    units without surrogates that [encryptPSK] encrypts under a passphrase is
    returned by [decryptPSK] with the same passphrase and the nonce of the
    envelope. *)
Theorem encryptPSK_decryptPSK_roundtrip msg key g :
  wf_string msg -> Forall (fun u => ~ is_surrogate u) msg ->
  exists env,
    (encryptPSK msg key g).1 = Ok env
    /\ decryptPSK (message env) key (nonce env) = Ok msg.
Proof.
  intros Hwf Hs. destruct (decode_ref_decodeUTF8_bmp msg Hwf Hs) as (m & Hm & Hd).
  destruct (psk_run msg m key g Hm) as (box & Henc & Hdec).
  eexists. rewrite Henc. split; [reflexivity|].
  rewrite Hdec. f_equal. decoder_ref. assumption.
Qed.

(** The same under a passphrase, for every message [decodeUTF8] accepts:
    [decryptPSK] returns it without its surrogate code units. *)
Lemma encryptPSK_decryptPSK_loses_astral msg m key g :
  wf_string msg -> decodeUTF8 msg = Ok m ->
  exists env,
    encryptPSK msg key g = (Ok env, advance secretbox_nonceLength g)
    /\ decryptPSK (message env) key (nonce env) = Ok (strip_surrogates msg).
Proof.
  intros Hwf Hm. destruct (psk_run msg m key g Hm) as (box & Henc & Hdec).
  eexists. split; [exact Henc|]. rewrite Hdec. f_equal. decoder_ref.
  by apply decode_ref_decodeUTF8.
Qed.

(** A secret box that does not open (wrong passphrase, wrong nonce or a
    changed ciphertext) makes [decryptPSK] throw a [TypeError]; it never
    returns a string. *)
Lemma decryptPSK_failure_throws msg key nonce box n :
  decodeBase64 msg = Ok box -> decodeBase64 nonce = Ok n ->
  length n = secretbox_nonceLength ->
  crypto_secretbox_open box n (_encoder (_md5 key)) = None ->
  decryptPSK msg key nonce
  = Throw (TypeError "Cannot read property 'length' of null").
Proof.
  intros Hb Hn Hl Ho. unfold decryptPSK. rewrite Hb, Hn. run.
  rewrite nacl_secretbox_open_sized, Ho by (assumption || apply psk_key_sized).
  reflexivity.
Qed.

(** [encryptPSK] throws only when the message cannot be encoded: for
    every passphrase the derived key has the size the secret box wants and
    the nonce has the size it wants, so the result is an envelope exactly
    when [decodeUTF8] accepts the message. *)
Lemma encryptPSK_total msg key g :
  is_Ok (encryptPSK msg key g).1 = is_Ok (decodeUTF8 msg)
  /\ (encryptPSK msg key g).2 = advance secretbox_nonceLength g.
Proof.
  rewrite encryptPSK_run. split; [|reflexivity]. cbn [fst].
  destruct (decodeUTF8 msg) as [m|]; [|reflexivity]. run.
  rewrite nacl_secretbox_sized by (apply next_bytes_length || apply psk_key_sized).
  reflexivity.
Qed.

End symmetric.

(** ** Key management *)

Section key_manager.
Context `{Primitives}.
Implicit Types (g : rng).

(** C40: [create] with a private key does not touch the random source and
    its result does not depend on it: rebuilding a key pair from the same
    private key twice gives the same public key.  For a key of 64 bytes
    that public key is bytes 32 to 63 of the key given, whatever they are:
    nothing is computed from the first half. *)
Theorem create_from_key_deterministic (privatekey : option jsstring) sk g g' :
  truthy privatekey = true ->
  (create privatekey g).2 = g
  /\ (create privatekey g).1 = (create privatekey g').1
  /\ (decodeBase64 (string_of privatekey) = Ok sk ->
      length sk = sign_secretKeyLength ->
      (create privatekey g).1
      = Ok (Keys (encodeBase64 (drop 32 sk)) (encodeBase64 sk))).
Proof.
  intros Ht. rewrite !create_rebuilds by assumption. split_and!; [reflexivity ..|].
  intros -> Hl. cbn [fst]. run. unfold nacl_sign_keyPair_fromSecretKey.
  rewrite decide_True by assumption. cbn [fmap result_fmap keys_of publicKey secretKey].
  by rewrite take_ge by (rewrite length_drop, Hl; unfold sign_secretKeyLength; lia).
Qed.

(** [create] applied to the private key [create()] made gives the pair
    [create()] made, and leaves the random source alone. *)
Lemma create_created g g' :
  create (Some (privatekey (created g))) g' = (Ok (created g), g').
Proof.
  assert (Hl : length (secretKey (crypto_sign_keypair (next_bytes sign_seedLength g)))
               = sign_secretKeyLength)
    by (apply keypair_secretKey_length, next_bytes_length).
  unfold created. rewrite create_rebuilds
    by (apply truthy_encodeBase64; intros E; rewrite E in Hl; discriminate).
  cbn [string_of default from_option id]. run.
  rewrite nacl_sign_keyPair_fromSecretKey_keypair by apply next_bytes_length.
  reflexivity.
Qed.

(** C9: [create()] draws 32 bytes from the random source, and [create]
    applied to the private key it returned gives the same pair of keys
    back. *)
Theorem create_roundtrip g g' :
  exists ks,
    create None g = (Ok ks, advance sign_seedLength g)
    /\ create (Some (privatekey ks)) g' = (Ok ks, g').
Proof.
  exists (created g). split; [apply create_generates; reflexivity|].
  apply create_created.
Qed.

(** The empty string counts as no key: [create("")] generates a fresh
    key pair from the random source, exactly as [create()] does, instead of
    rejecting the key. *)
Lemma create_empty_string_generates g : create (Some []) g = create None g.
Proof. rewrite !create_generates by reflexivity. reflexivity. Qed.

(** [create] with a non-empty private key that is valid base64 of a
    length other than 64 bytes throws tweetnacl's
    [Error('bad secret key size')] and leaves the random source alone. *)
Lemma create_bad_key_size (s : jsstring) sk g :
  s <> [] -> decodeBase64 s = Ok sk -> length sk <> sign_secretKeyLength ->
  create (Some s) g = (Throw (Error "bad secret key size"), g).
Proof.
  intros Hne Hd Hl. rewrite create_rebuilds by (destruct s; [congruence | reflexivity]).
  cbn [string_of default from_option id]. rewrite Hd. run.
  unfold nacl_sign_keyPair_fromSecretKey. rewrite decide_False by assumption.
  reflexivity.
Qed.

End key_manager.

(** ** The scenario of the specification, run on the model instance *)

Example psk_scenario :
  let '(r, _) := encryptPSK (js "attack at dawn") (js "correct horse") zero_rng in
  match r with
  | Ok env =>
      decryptPSK (message env) (js "correct horse") (nonce env)
        = Ok (js "attack at dawn")
      /\ decryptPSK (message env) (js "wrong horse") (nonce env)
        = Throw (TypeError "Cannot read property 'length' of null")
  | Throw _ => False
  end.
Proof. vm_compute. split; reflexivity. Qed.

(** The key of the scenario: the 32 hexadecimal digits of the MD5 digest of
    the passphrase, one byte for each digit. *)
Example psk_key_correct_horse :
  _encoder (_md5 (js "correct horse"))
  = byte_of_Z <$> js "3cb4e732631f47e6eb961f34554b7cde".
Proof. vm_compute. reflexivity. Qed.

(** [decryptPSK] called with its second and third arguments in the order of
    section 4.5 of the specification (nonce, then passphrase). *)
Example decryptPSK_spec_order :
  let env := from_Ok no_envelope
               (encryptPSK (js "attack at dawn") (js "correct horse") zero_rng).1 in
  decryptPSK (message env) (nonce env) (js "correct horse")
  = Throw (TypeError "invalid encoding").
Proof. vm_compute. reflexivity. Qed.

Example sign_scenario :
  let '(r, _) := create None zero_rng in
  match r with
  | Ok ks =>
      (s ← sign (js "hello") (privatekey ks); verify s (publickey ks))
      = Ok (Some (js "hello"))
  | Throw _ => False
  end.
Proof. vm_compute. reflexivity. Qed.

(** ** Witnesses: the theorems applied on the model instance *)

Lemma sign_verify_roundtrip_witness :
  exists ks signed,
    (create None alice).1 = Ok ks
    /\ sign (js "attack at dawn") (privatekey ks) = Ok signed
    /\ verify signed (publickey ks) = Ok (Some (js "attack at dawn")).
Proof. apply sign_verify_roundtrip; decide_by_computation. Defined.

Lemma sign_verify_loses_astral_witness :
  exists ks signed,
    (create None alice).1 = Ok ks
    /\ sign astral_text (privatekey ks) = Ok signed
    /\ verify signed (publickey ks) = Ok (Some (strip_surrogates astral_text))
    /\ (Exists is_surrogate astral_text ->
        verify signed (publickey ks) <> Ok (Some astral_text)).
Proof.
  apply (sign_verify_loses_astral astral_text
           (bytes_of [0x48; 0xF0; 0x9F; 0x98; 0x80; 0x69]%Z));
    [decide_by_computation | vm_compute; reflexivity].
Defined.

Lemma verify_returns_null_on_rejection_witness :
  let signedmsg := encodeBase64 (replicate 70 Byte.x00) in
  let pubkey := encodeBase64 (replicate 32 Byte.x01) in
  verify signedmsg pubkey
  = Ok (_decoder <$> crypto_sign_open (replicate 70 Byte.x00) (replicate 32 Byte.x01))
  /\ (crypto_sign_open (replicate 70 Byte.x00) (replicate 32 Byte.x01) = None ->
      verify signedmsg pubkey = Ok None).
Proof.
  apply verify_returns_null_on_rejection; vm_compute; reflexivity.
Defined.

Lemma sign_message_error_first_witness :
  sign [0xD83D%Z] (js "not a key") = Throw (URIError "URI malformed").
Proof. apply sign_message_error_first. vm_compute. reflexivity. Defined.

Lemma sign_bad_key_witness :
  (forall sk, decodeBase64 (js "TWFu") = Ok sk -> length sk <> sign_secretKeyLength ->
     sign (js "hi") (js "TWFu") = Throw (Error "bad secret key size"))
  /\ (decodeBase64 (js "TWFu") = invalid_encoding ->
      sign (js "hi") (js "TWFu") = Throw (TypeError "invalid encoding")).
Proof.
  apply (sign_bad_key (js "hi") (js "TWFu") (bytes_of [104; 105]%Z)).
  vm_compute. reflexivity.
Defined.

Lemma encrypt_decrypt_roundtrip_witness :
  exists env,
    (encrypt (js "attack at dawn") (publickey (created bob))
       (privatekey (created alice)) later).1 = Ok env
    /\ decrypt (message env) (nonce env)
         (publickey (created alice)) (privatekey (created bob))
       = Ok (js "attack at dawn").
Proof. apply encrypt_decrypt_roundtrip; decide_by_computation. Defined.

Lemma decrypt_failure_throws_witness :
  decrypt [] (encodeBase64 (replicate 24 Byte.x00))
    (encodeBase64 (replicate 32 Byte.x01)) (encodeBase64 (replicate 64 Byte.x02))
  = Throw (TypeError "Cannot read property 'length' of null").
Proof.
  apply (decrypt_failure_throws _ _ _ _ [] (replicate 24 Byte.x00)
           (replicate 32 Byte.x01) (replicate 64 Byte.x02));
    vm_compute; reflexivity.
Defined.

Lemma encrypt_unconvertible_key_witness :
  encrypt (js "hi") [] (privatekey (created alice)) later
  = (Throw (TypeError "unexpected type, use Uint8Array"), advance box_nonceLength later).
Proof.
  apply (encrypt_unconvertible_key _ _ _ (bytes_of [104; 105]%Z) []
           (secretKey (crypto_sign_keypair (next_bytes sign_seedLength alice))));
    vm_compute; reflexivity.
Defined.

Lemma encrypt_twice_fresh_nonce_witness :
  let pub := publickey (created bob) in
  let priv := privatekey (created alice) in
  let run1 := encrypt (js "hi") pub priv later in
  let run2 := encrypt (js "hi") pub priv run1.2 in
  nonce (from_Ok no_envelope run1.1) <> nonce (from_Ok no_envelope run2.1).
Proof.
  intros pub priv run1 run2.
  apply (encrypt_twice_fresh_nonce (js "hi") pub priv later
           (from_Ok no_envelope run1.1) (from_Ok no_envelope run2.1));
    [vm_compute; reflexivity .. | vm_compute; discriminate].
Defined.

Lemma encryptPSK_decryptPSK_roundtrip_witness :
  exists env,
    (encryptPSK (js "attack at dawn") (js "correct horse") alice).1 = Ok env
    /\ decryptPSK (message env) (js "correct horse") (nonce env)
       = Ok (js "attack at dawn").
Proof. apply encryptPSK_decryptPSK_roundtrip; decide_by_computation. Defined.

Lemma decryptPSK_failure_throws_witness :
  let env := from_Ok no_envelope
               (encryptPSK (js "attack at dawn") (js "correct horse") alice).1 in
  decryptPSK (message env) (js "wrong horse") (nonce env)
  = Throw (TypeError "Cannot read property 'length' of null").
Proof.
  intros env.
  apply (decryptPSK_failure_throws _ _ _
           (from_Ok [] (decodeBase64 (message env)))
           (from_Ok [] (decodeBase64 (nonce env))));
    vm_compute; reflexivity.
Defined.

(** A private key made of the first half of A's and the public key of B
    is accepted and returned with B's public key. *)
Example create_mismatched_halves :
  (create (Some (encodeBase64 mismatched)) later).1
  = Ok (Keys (publickey (created bob)) (encodeBase64 mismatched))
  /\ publickey (created bob) <> publickey (created alice).
Proof. split; [vm_compute; reflexivity | decide_by_computation]. Qed.

Lemma create_from_key_deterministic_witness :
  let key := Some (encodeBase64 mismatched) in
  (create key bob).2 = bob
  /\ (create key bob).1 = (create key later).1
  /\ (decodeBase64 (string_of key) = Ok mismatched ->
      length mismatched = sign_secretKeyLength ->
      (create key bob).1
      = Ok (Keys (encodeBase64 (drop 32 mismatched)) (encodeBase64 mismatched))).
Proof. apply create_from_key_deterministic. vm_compute. reflexivity. Defined.

Lemma create_bad_key_size_witness :
  create (Some (js "TWFu")) alice = (Throw (Error "bad secret key size"), alice).
Proof.
  apply (create_bad_key_size (js "TWFu") (bytes_of [77; 97; 110]%Z));
    [discriminate | vm_compute; reflexivity | vm_compute; lia].
Defined.

Lemma verify_bad_key_size_witness :
  verify (js "AAAA") (js "AAAA") = Throw (Error "bad public key size").
Proof.
  apply (verify_bad_key_size _ _ (replicate 3 Byte.x00) (replicate 3 Byte.x00));
    vm_compute; (reflexivity || discriminate).
Defined.

Lemma decrypt_bad_nonce_size_witness :
  decrypt [] (js "AAAA") (publickey (created alice)) (privatekey (created bob))
  = Throw (Error "bad nonce size").
Proof.
  apply (decrypt_bad_nonce_size _ _ [] (replicate 3 Byte.x00));
    vm_compute; (reflexivity || discriminate).
Defined.

Lemma envelope_has_no_direction_witness :
  wf_string (js "attack at dawn")
  /\ Forall (fun u => ~ is_surrogate u) (js "attack at dawn")
  /\ exists env,
       (encrypt (js "attack at dawn") (publickey (created bob))
          (privatekey (created alice)) later).1 = Ok env
       /\ (encrypt (js "attack at dawn") (publickey (created alice))
            (privatekey (created bob)) later).1 = Ok env
       /\ decrypt (message env) (nonce env)
            (publickey (created bob)) (privatekey (created alice))
          = Ok (js "attack at dawn").
Proof.
  assert (Hwf : wf_string (js "attack at dawn")) by decide_by_computation.
  assert (Hs : Forall (fun u => ~ is_surrogate u) (js "attack at dawn"))
    by decide_by_computation.
  split_and!; [exact Hwf | exact Hs | exact (envelope_has_no_direction _ _ _ _ Hwf Hs)].
Defined.

Lemma encrypt_decrypt_loses_astral_witness :
  exists env,
    encrypt astral_text (publickey (created bob)) (privatekey (created alice)) later
    = (Ok env, advance box_nonceLength later)
    /\ decrypt (message env) (nonce env)
         (publickey (created alice)) (privatekey (created bob))
       = Ok (strip_surrogates astral_text).
Proof.
  eapply (encrypt_decrypt_loses_astral astral_text _ alice bob later);
    [decide_by_computation | vm_compute; reflexivity].
Defined.
