(* ===== verification/Protocols.v ===== *)
(** * Protocols: the operations composed by their users

    The operations of [src/saltshaker.js] are made to be composed: the
    private key that signs is also the one that encrypts, and everything an
    operation returns is text that another accepts as a message.  This file
    writes two such compositions as programs on the random source and
    proves what they return, from the lemmas of [SaltShaker.v] on each
    operation:
    - a letter ([seal_letter], [open_letter]): the sender signs the message
      and encrypts the signed text for the recipient, who decrypts it and
      verifies the signature, which is what the specification (section 6)
      leaves to the callers that need to know who wrote an envelope;
    - a key kept under a passphrase ([backup], [restore]): the private key
      is encrypted with [encryptPSK], and [create] rebuilds the pair from
      what [decryptPSK] returns.
    Both rest on the fact that base64 text survives the codecs of messages
    ([base64_text_roundtrips]), which only text without characters outside
    the Basic Multilingual Plane does. *)

From Stdlib Require Import ZArith Lia List String.
From stdpp Require Import base tactics option list numbers.
From S2P Require Import Prelude JsPrims Decoder Utf8 Encoder Base64 Nacl NaclModel SaltShaker.

Section protocols.
Context `{Primitives}.
Implicit Types (msg passphrase : jsstring) (g : rng) (e : envelope).

(** ** A signed letter *)

(** What the sender does: [sign] with the own private key, then [encrypt]
    the signed text with the recipient's public key and the same private
    key. *)
Definition seal_letter msg (sender : keys) (recipient : jsstring) : M envelope :=
  signed ← lift (sign msg (privatekey sender));
  encrypt signed recipient (privatekey sender).

(** What the recipient does: [decrypt] with the sender's public key and
    the own private key, then [verify] the text obtained with the sender's
    public key. *)
Definition open_letter e (sender : jsstring) (recipient : keys)
  : result (option jsstring) :=
  signed ← decrypt (message e) (nonce e) sender (privatekey recipient);
  verify signed sender.

(** Two parties make their keys, one after the other on the same random
    source, and the first sends a letter to the second. *)
Definition correspondence msg : M (option jsstring) :=
  a ← create None;
  b ← create None;
  e ← seal_letter msg a (publickey b);
  lift (open_letter e (publickey a) b).

(** ** A key under a passphrase *)

Definition backup (ks : keys) passphrase : M envelope :=
  encryptPSK (privatekey ks) passphrase.

Definition restore e passphrase : M keys :=
  privatekey ← lift (decryptPSK (message e) passphrase (nonce e));
  create (Some privatekey).

(** A party makes its keys, keeps the private key under a passphrase and
    rebuilds the pair from what it kept. *)
Definition escrow passphrase : M (keys * keys) :=
  ks ← create None;
  e ← backup ks passphrase;
  ks' ← restore e passphrase;
  mret (ks, ks').

(** ** Text that survives the codecs of messages *)

(** Base64 text has no surrogate. *)
Lemma encodeBase64_no_surrogate (b : list byte) :
  Forall (fun u => ~ is_surrogate u) (encodeBase64 b).
Proof.
  eapply list.Forall_impl; [apply encodeBase64_text_chars|].
  unfold is_b64_text_char, is_surrogate. lia.
Qed.

(** Base64 text given as a message comes back as it was: [decodeUTF8]
    accepts it and [_decoder] reads the text in its bytes. *)
Lemma base64_text_roundtrips (b : list byte) :
  exists m, decodeUTF8 (encodeBase64 b) = Ok m /\ _decoder m = encodeBase64 b.
Proof.
  destruct (decode_ref_decodeUTF8_bmp (encodeBase64 b)) as (m & Hm & Hd);
    [apply encodeBase64_wf | apply encodeBase64_no_surrogate|].
  exists m. split; [exact Hm|]. decoder_ref. exact Hd.
Qed.

(** ** The letter *)

(** Between two parties whose keys [create()] made, sealing draws the
    nonce and nothing else, and opening returns the message as [_decoder]
    reads its UTF-8 bytes. *)
Lemma seal_letter_run msg m gA gB g :
  decodeUTF8 msg = Ok m ->
  exists e,
    seal_letter msg (created gA) (publickey (created gB)) g
    = (Ok e, advance box_nonceLength g)
    /\ open_letter e (publickey (created gA)) (created gB) = Ok (Some (_decoder m)).
Proof.
  intros Hm. destruct (sign_verify_run msg m gA Hm) as (sm & Hsig & Hver).
  destruct (base64_text_roundtrips sm) as (t & Ht & Hd).
  destruct (box_exchange_run (encodeBase64 sm) t gA gB g Ht)
    as (box & Henc & _ & Hdec & _).
  eexists. unfold seal_letter, open_letter. rewrite Hsig, ST_bind_lift, Henc.
  split; [reflexivity|]. rewrite Hdec. cbn [mbind result_bind].
  rewrite Hd. exact Hver.
Qed.

(** A message [decodeUTF8] refuses stops the sender at [sign]: no nonce is
    drawn. *)
Lemma seal_letter_throws msg x (sender : keys) recipient g :
  decodeUTF8 msg = Throw x -> seal_letter msg sender recipient g = (Throw x, g).
Proof.
  intros Hm. unfold seal_letter.
  by rewrite (sign_message_error_first msg _ x Hm), ST_bind_lift.
Qed.

(** C14: a letter between two parties that make their keys on the same
    random source.  When [decodeUTF8] accepts the message, the recipient
    obtains it, without its surrogate code units, from a decryption and a
    verification that both succeed, and the random source has given the two
    seeds and the nonce; when it refuses the message, the exception is the
    result, after the two seeds were drawn and before any nonce. *)
Theorem correspondence_delivers msg g :
  wf_string msg ->
  (forall m, decodeUTF8 msg = Ok m ->
     correspondence msg g
     = (Ok (Some (strip_surrogates msg)),
        advance box_nonceLength (advance sign_seedLength (advance sign_seedLength g))))
  /\ (forall x, decodeUTF8 msg = Throw x ->
        correspondence msg g
        = (Throw x, advance sign_seedLength (advance sign_seedLength g))).
Proof.
  intros Hwf. unfold correspondence.
  rewrite (ST_bind_Ok _ _ g _ _ (create_generates None g eq_refl)).
  rewrite (ST_bind_Ok _ _ _ _ _ (create_generates None _ eq_refl)).
  fold (created g) (created (advance sign_seedLength g)). split.
  - intros m Hm.
    destruct (seal_letter_run msg m g (advance sign_seedLength g)
                (advance sign_seedLength (advance sign_seedLength g)) Hm)
      as (e & Hseal & Hopen).
    rewrite (ST_bind_Ok _ _ _ _ _ Hseal). unfold lift. rewrite Hopen.
    do 3 f_equal. decoder_ref. by apply decode_ref_decodeUTF8.
  - intros x Hx. by rewrite (ST_bind_Throw _ _ _ _ _ (seal_letter_throws msg x _ _ _ Hx)).
Qed.

(** ** The key under a passphrase *)

(** The private key [create()] made is kept under any passphrase: [backup]
    draws the nonce, and [restore] gives the same pair of keys back,
    without touching the random source. *)
Lemma backup_restore_run passphrase g g' :
  exists e,
    backup (created g) passphrase g' = (Ok e, advance secretbox_nonceLength g')
    /\ forall g'', restore e passphrase g'' = (Ok (created g), g'').
Proof.
  destruct (base64_text_roundtrips
              (secretKey (crypto_sign_keypair (next_bytes sign_seedLength g))))
    as (t & Ht & Hd).
  destruct (psk_run (privatekey (created g)) t passphrase g' Ht)
    as (box & Henc & Hdec).
  eexists. split; [exact Henc|]. intros g''. unfold restore.
  rewrite Hdec, ST_bind_lift, Hd. apply create_created.
Qed.

(** A party that makes its keys, keeps the private key under a passphrase
    and restores it has the same pair twice; the random source has given
    the seed and the nonce. *)
Lemma escrow_restores passphrase g :
  escrow passphrase g
  = (Ok (created g, created g),
     advance secretbox_nonceLength (advance sign_seedLength g)).
Proof.
  unfold escrow.
  rewrite (ST_bind_Ok _ _ g _ _ (create_generates None g eq_refl)).
  fold (created g).
  destruct (backup_restore_run passphrase g (advance sign_seedLength g))
    as (e & Hback & Hrest).
  rewrite (ST_bind_Ok _ _ _ _ _ Hback). by rewrite (ST_bind_Ok _ _ _ _ _ (Hrest _)).
Qed.

End protocols.

(** ** On the model *)

(** A letter with a character outside the Basic Multilingual Plane arrives
    without it. *)
Example correspondence_astral :
  (correspondence astral_text zero_rng).1 = Ok (Some (js "Hi")).
Proof. vm_compute. reflexivity. Qed.

Lemma correspondence_delivers_witness :
  wf_string (js "hi")
  /\ (forall m, decodeUTF8 (js "hi") = Ok m ->
        correspondence (js "hi") zero_rng
        = (Ok (Some (strip_surrogates (js "hi"))),
           advance box_nonceLength
             (advance sign_seedLength (advance sign_seedLength zero_rng))))
  /\ (forall x, decodeUTF8 (js "hi") = Throw x ->
        correspondence (js "hi") zero_rng
        = (Throw x, advance sign_seedLength (advance sign_seedLength zero_rng))).
Proof.
  assert (Hwf : wf_string (js "hi")) by decide_by_computation.
  split; [exact Hwf | exact (correspondence_delivers (js "hi") zero_rng Hwf)].
Defined.
