(* ===== verification/Loader.v ===== *)
(** * Loader: evaluation of the module

    [src/saltshaker.js] is one immediately invoked function (lines 35-167).
    Its argument (line 167) chooses the object that receives the functions:
    [module.exports] when a [module] with a truthy [exports] exists, the
    object [self.SaltShaker] otherwise, created and stored in [self] when it
    does not exist yet.  Its body reads [md5.md5] once (line 39) and assigns
    seven function objects to properties of the chosen object (lines 100,
    116, 123, 132, 144, 151 and 163).

    This file models the part of the JavaScript object model this needs: a
    heap of objects with named properties, some of them callable; global
    variables that may be undeclared; property reads and writes in
    non-strict code.  [load] is the evaluation of the module.  The theorems
    say which object receives the functions in each environment, what the
    object holds afterwards, that nothing else changes, and what is left
    behind when the evaluation throws.

    Not modelled: prototype chains, accessors, frozen objects and proxies
    (an object is its own properties, all writable) and the [prototype]
    object a function expression creates. *)

From Stdlib Require Import ZArith Lia List String.
From stdpp Require Import base tactics option list numbers strings gmap.
From S2P Require Import Prelude.

(** ** Values and objects *)

Abbreviation loc := nat.

(** A JavaScript value, as far as the module can tell values apart:
    [undefined], [null], a primitive (of which only truthiness matters) or
    a reference to an object. *)
Inductive value : Type :=
  | VUndefined
  | VNull
  | VPrim (truthy : bool)
  | VRef (l : loc).

#[export] Instance value_eq_dec : EqDecision value.
Proof. solve_decision. Defined.

(** The functions the module exports, in the order it assigns them. *)
Inductive export : Type :=
  Create | Sign | Verify | Encrypt | Decrypt | EncryptPSK | DecryptPSK.

#[export] Instance export_eq_dec : EqDecision export.
Proof. solve_decision. Defined.

(** The property each function is assigned to. *)
Definition export_name (f : export) : string :=
  match f with
  | Create => "create"
  | Sign => "sign"
  | Verify => "verify"
  | Encrypt => "encrypt"
  | Decrypt => "decrypt"
  | EncryptPSK => "encryptPSK"
  | DecryptPSK => "decryptPSK"
  end.

Definition exports : list export :=
  [Create; Sign; Verify; Encrypt; Decrypt; EncryptPSK; DecryptPSK].

(** What a callable object runs: a function of the module, closed over the
    value [_md5] had when the module was evaluated; the function [md5.md5]
    of the MD5 library; or some other function. *)
Inductive func : Type :=
  | FExport (f : export) (_md5 : value)
  | FMd5
  | FOther.

#[export] Instance func_eq_dec : EqDecision func.
Proof. solve_decision. Defined.

Record object : Type := Object {
  props : gmap string value;
  callable : option func
}.

#[export] Instance object_eq_dec : EqDecision object.
Proof. solve_decision. Defined.

Abbreviation heap := (gmap loc object).

(** The object literal [{}]. *)
Definition empty_object : object := Object ∅ None.

(** A library that the functions look up when they run. *)
Inductive library : Type := Missing | Loaded.

(** The global variables the module mentions.  [None] is a variable that is
    not declared: [typeof] of it is ['undefined'], any other use throws a
    [ReferenceError]. *)
Record globals : Type := Globals {
  g_module : option value;
  g_self : option value;
  g_md5 : option value;
  g_nacl : library;
  g_ed2curve : library
}.

(** ** Expressions *)

(** The truthiness of a value. *)
Definition js_truthy (v : value) : bool :=
  match v with
  | VUndefined | VNull => false
  | VPrim t => t
  | VRef _ => true
  end.

(** [typeof x !== 'undefined'] for a global variable [x]. *)
Definition defined (x : option value) : bool :=
  match x with
  | None | Some VUndefined => false
  | Some _ => true
  end.

(** The value of the global variable [name]. *)
Definition resolve (name : string) (x : option value) : result value :=
  match x with
  | Some v => Ok v
  | None => Throw (ReferenceError (name +:+ " is not defined"))
  end.

(** [v.p]: the property [p] of the value [v]. *)
Definition get_prop (h : heap) (v : value) (p : string) : result value :=
  match v with
  | VUndefined =>
      Throw (TypeError ("Cannot read property '" +:+ p +:+ "' of undefined"))
  | VNull => Throw (TypeError ("Cannot read property '" +:+ p +:+ "' of null"))
  | VPrim _ => Ok VUndefined
  | VRef l => Ok (default VUndefined (h !! l ≫= fun o => props o !! p))
  end.

(** [v.p = x] in non-strict code: a write to a primitive is dropped. *)
Definition set_prop (h : heap) (v : value) (p : string) (x : value)
  : result heap :=
  match v with
  | VUndefined =>
      Throw (TypeError ("Cannot set property '" +:+ p +:+ "' of undefined"))
  | VNull => Throw (TypeError ("Cannot set property '" +:+ p +:+ "' of null"))
  | VPrim _ => Ok h
  | VRef l => Ok (alter (fun o => Object (<[p := x]> (props o)) (callable o)) l h)
  end.

(** What the value [v] runs when it is called, if it is callable. *)
Definition func_of (h : heap) (v : value) : option func :=
  match v with
  | VRef l => h !! l ≫= callable
  | _ => None
  end.

(** ** Computations on the heap *)

Abbreviation HeapM := (ST heap).

Definition get (v : value) (p : string) : HeapM value :=
  fun h => (get_prop h v p, h).

Definition put (v : value) (p : string) (x : value) : HeapM unit :=
  fun h =>
    match set_prop h v p x with
    | Ok h' => (Ok tt, h')
    | Throw e => (Throw e, h)
    end.

(** A new object, at a location the heap does not use. *)
Definition alloc (o : object) : HeapM value :=
  fun h => let l := fresh (dom h) in (Ok (VRef l), <[l := o]> h).

(** ** The module *)

(** The test of the conditional on line 167:
    [typeof module !== 'undefined' && module.exports]. *)
Definition module_test (g : globals) : HeapM value :=
  if defined (g_module g)
  then m ← lift (resolve "module" (g_module g)); get m "exports"
  else mret (VPrim false).

(** The argument of the function (line 167):
    [test ? module.exports : (self.SaltShaker = self.SaltShaker || {})]. *)
Definition target (g : globals) : HeapM value :=
  test ← module_test g;
  if js_truthy test
  then m ← lift (resolve "module" (g_module g)); get m "exports"
  else self ← lift (resolve "self" (g_self g));
       old ← get self "SaltShaker";
       new ← (if js_truthy old then mret old else alloc empty_object);
       put self "SaltShaker" new;;
       mret new.

(** [SaltShaker.name = function (...) { ... }]: the function expression
    makes a function object, the assignment stores it. *)
Definition assign (SaltShaker _md5 : value) (f : export) : HeapM unit :=
  fn ← alloc (Object ∅ (Some (FExport f _md5)));
  put SaltShaker (export_name f) fn.

(** The body of the function (lines 36-165), called with the target. *)
Definition body (g : globals) (SaltShaker : value) : HeapM unit :=
  md5 ← lift (resolve "md5" (g_md5 g));
  _md5 ← get md5 "md5";
  assign SaltShaker _md5 Create;;
  assign SaltShaker _md5 Sign;;
  assign SaltShaker _md5 Verify;;
  assign SaltShaker _md5 Encrypt;;
  assign SaltShaker _md5 Decrypt;;
  assign SaltShaker _md5 EncryptPSK;;
  assign SaltShaker _md5 DecryptPSK.

(** The evaluation of the file: the argument, then the call. *)
Definition load (g : globals) : HeapM unit :=
  SaltShaker ← target g; body g SaltShaker.

(** The assignments of a list of functions, in order. *)
Fixpoint assign_all (SaltShaker _md5 : value) (fs : list export) : HeapM unit :=
  match fs with
  | [] => mret tt
  | f :: fs => assign SaltShaker _md5 f;; assign_all SaltShaker _md5 fs
  end.

(** ** Predicates on heaps, for the statements *)

(** The property [p] of the object at [l], when there is one. *)
Definition prop_at (h : heap) (l : loc) (p : string) : option value :=
  h !! l ≫= fun o => props o !! p.

(** [frame t h h']: the objects of [h] other than [t] are unchanged in
    [h']. *)
Definition frame (t : option loc) (h h' : heap) : Prop :=
  forall l, Some l <> t -> is_Some (h !! l) -> h' !! l = h !! l.

(** The object a value refers to, if it is a reference. *)
Definition ref_of (v : value) : option loc :=
  match v with VRef l => Some l | _ => None end.

(** A value that is not a reference to a location the heap does not use. *)
Definition live (h : heap) (v : value) : Prop :=
  match v with
  | VRef l => is_Some (h !! l)
  | _ => True
  end.

(** A value that can receive the functions: a truthy value that, when it
    is a reference, refers to an object of the heap. *)
Definition receiver (h : heap) (v : value) : Prop :=
  match v with
  | VRef l => is_Some (h !! l)
  | v => js_truthy v = true
  end.

(** [installed m fs T h h']: from [h] to [h'] the functions [fs], closed
    over [m], have been assigned to the target [T].  When the target is an
    object it has, for each function, a property that refers to a new
    function object; its other properties are as before; every other
    object of [h] is unchanged. *)
Definition installed (m : value) (fs : list export) (T : value) (h h' : heap)
  : Prop :=
  frame (ref_of T) h h'
  /\ forall t o, T = VRef t -> h !! t = Some o ->
       exists o', h' !! t = Some o' /\ callable o' = callable o
         /\ (forall p, p ∉ export_name <$> fs -> props o' !! p = props o !! p)
         /\ (forall f, f ∈ fs ->
               exists l, props o' !! export_name f = Some (VRef l)
                 /\ h !! l = None
                 /\ h' !! l = Some (Object ∅ (Some (FExport f m)))).

(** The heap after [self.SaltShaker = {}]: a new empty object at [l], and
    the object [o] at [sl] with its property [SaltShaker] referring to
    it. *)
Definition attach (h : heap) (sl : loc) (o : object) (l : loc) : heap :=
  <[sl := Object (<["SaltShaker" := VRef l]> (props o)) (callable o)]>
    (<[l := empty_object]> h).

(** ** Example environments *)

(** The MD5 library: an object whose property [md5] is the function. *)
Definition md5_heap : heap :=
  {[ 10%nat := Object {[ "md5" := VRef 11 ]} None;
     11%nat := Object ∅ (Some FMd5) ]}.

(** Node.js: [module.exports] is an empty object, there is no [self]. *)
Definition node_heap : heap :=
  <[ 0%nat := Object {[ "exports" := VRef 1 ]} None ]>
    (<[ 1%nat := empty_object ]> md5_heap).

Definition node_globals : globals :=
  Globals (Some (VRef 0)) None (Some (VRef 10)) Loaded Loaded.

(** A browser: no [module]; [self] is the global object, without a
    property [SaltShaker]. *)
Definition browser_heap : heap :=
  <[ 0%nat := Object {[ "name" := VPrim true ]} None ]> md5_heap.

Definition browser_globals : globals :=
  Globals None (Some (VRef 0)) (Some (VRef 10)) Loaded Loaded.

(** The heap after the module is evaluated. *)
Definition loaded (g : globals) (h : heap) : heap := (load g h).2.

Example load_node :
  (load node_globals node_heap).1 = Ok tt
  /\ get_prop (loaded node_globals node_heap) (VRef 1) "encryptPSK" = Ok (VRef 17)
  /\ func_of (loaded node_globals node_heap) (VRef 17)
     = Some (FExport EncryptPSK (VRef 11)).
Proof. vm_compute. repeat split; reflexivity. Qed.

Example load_browser :
  (load browser_globals browser_heap).1 = Ok tt
  /\ get_prop (loaded browser_globals browser_heap) (VRef 0) "SaltShaker"
     = Ok (VRef 12)
  /\ get_prop (loaded browser_globals browser_heap) (VRef 12) "create" = Ok (VRef 13)
  /\ get_prop (loaded browser_globals browser_heap) (VRef 0) "name"
     = Ok (VPrim true).
Proof. vm_compute. repeat split; reflexivity. Qed.

(** Without a global [md5] the module throws, after [self.SaltShaker] has
    been created. *)
Example load_browser_no_md5 :
  let g := Globals None (Some (VRef 0)) None Loaded Loaded in
  (load g browser_heap).1 = Throw (ReferenceError "md5 is not defined")
  /\ get_prop (loaded g browser_heap) (VRef 0) "SaltShaker" = Ok (VRef 12)
  /\ loaded g browser_heap !! 12%nat = Some empty_object.
Proof. vm_compute. repeat split; reflexivity. Qed.

(** ** The heap: reads after writes *)

Section heap_lemmas.
Implicit Types (h : heap) (l t : loc) (p : string) (v x : value) (o : object).

Lemma fresh_lookup h : h !! fresh (dom h) = None.
Proof. apply not_elem_of_dom, is_fresh. Qed.

Lemma fresh_ne h l : is_Some (h !! l) -> l <> fresh (dom h).
Proof. intros [o Ho] ->. rewrite fresh_lookup in Ho. discriminate. Qed.

Lemma get_prop_ref h l p : get_prop h (VRef l) p = Ok (default VUndefined (prop_at h l p)).
Proof. reflexivity. Qed.

Lemma frame_refl (k : option loc) h : frame k h h.
Proof. intros l _ _. reflexivity. Qed.

Lemma frame_trans (k : option loc) h1 h2 h3 :
  frame k h1 h2 -> frame k h2 h3 -> frame k h1 h3.
Proof.
  intros H12 H23 l Hl Hs. rewrite <- (H12 l Hl Hs). apply H23; [assumption|].
  rewrite (H12 l Hl Hs). assumption.
Qed.

(** A frame for no object at all is a frame for any. *)
Lemma frame_weaken (k : option loc) h h' : frame None h h' -> frame k h h'.
Proof. intros Hf l _. apply Hf. discriminate. Qed.

Lemma frame_prop_at (k : option loc) h h' l p :
  frame k h h' -> Some l <> k -> is_Some (h !! l) -> prop_at h' l p = prop_at h l p.
Proof. intros Hf Hl Hs. unfold prop_at. rewrite (Hf l Hl Hs). reflexivity. Qed.

Lemma alloc_run o h :
  alloc o h = (Ok (VRef (fresh (dom h))), <[fresh (dom h) := o]> h).
Proof. reflexivity. Qed.

Lemma alloc_frame o h : frame None h (<[fresh (dom h) := o]> h).
Proof. intros l _ Hs. apply lookup_insert_ne. symmetry. apply fresh_ne, Hs. Qed.

(** A write to a property changes the object written to, and nothing
    else; a write to a primitive changes nothing. *)
Lemma put_run v p x h :
  js_truthy v = true ->
  exists h', put v p x h = (Ok tt, h') /\ frame (ref_of v) h h'
    /\ forall l, ref_of v = Some l ->
         h' !! l = (fun o => Object (<[p := x]> (props o)) (callable o)) <$> h !! l.
Proof.
  intros Hv. destruct v as [| |b|t]; try discriminate; unfold put; cbn [set_prop].
  - exists h. split; [reflexivity|]. split; [apply frame_refl | discriminate].
  - eexists. split; [reflexivity|]. split.
    + intros l Hl _. apply lookup_alter_ne. intros ->. auto.
    + intros l [= <-]. apply lookup_alter_eq.
Qed.

End heap_lemmas.

(** ** The assignments of the functions *)

Section assign_lemmas.
Implicit Types (h : heap) (l t : loc) (T m : value) (f : export).

Lemma export_name_inj f f' : export_name f = export_name f' -> f = f'.
Proof. destruct f, f'; (reflexivity || discriminate). Qed.

Lemma exports_NoDup : NoDup (export_name <$> exports).
Proof. decide_by_computation. Qed.

Lemma elem_of_exports f : f ∈ exports.
Proof. destruct f; unfold exports; set_solver. Qed.

Lemma frame_None (k : option loc) h h' l :
  frame k h h' -> h' !! l = None -> Some l <> k -> h !! l = None.
Proof.
  intros Hf Hn Hl. destruct (h !! l) as [o|] eqn:E; [|reflexivity].
  rewrite (Hf l Hl) in Hn by (rewrite E; eauto). congruence.
Qed.

(** One assignment: a new function object, and the property set. *)
Lemma assign_run T m f h :
  receiver h T ->
  exists h',
    assign T m f h = (Ok tt, h') /\ frame (ref_of T) h h'
    /\ h' !! fresh (dom h) = Some (Object ∅ (Some (FExport f m)))
    /\ forall t o, T = VRef t -> h !! t = Some o ->
         h' !! t = Some (Object (<[export_name f := VRef (fresh (dom h))]> (props o))
                           (callable o)).
Proof.
  intros HT. unfold assign. rewrite (ST_bind_Ok _ _ _ _ _ (alloc_run _ h)).
  set (l := fresh (dom h)). set (fo := Object ∅ (Some (FExport f m))).
  assert (Hl : Some l <> ref_of T).
  { destruct T; try discriminate. intros [= <-]. exact (fresh_ne h l HT eq_refl). }
  destruct (put_run T (export_name f) (VRef l) (<[l := fo]> h))
    as (h' & -> & Hf & Hput); [destruct T; (discriminate || assumption || reflexivity)|].
  exists h'. split; [reflexivity|]. split; [|split].
  - eapply frame_trans; [apply frame_weaken, alloc_frame | exact Hf].
  - rewrite (Hf l Hl) by (rewrite lookup_insert_eq; eauto). apply lookup_insert_eq.
  - intros t o -> Ho. rewrite (Hput t eq_refl).
    rewrite lookup_insert_ne by (apply not_eq_sym, fresh_ne; eauto).
    rewrite Ho. reflexivity.
Qed.

(** The assignment of [f] followed by those of [fs]. *)
Lemma installed_cons T m f fs h h1 h' :
  export_name f ∉ export_name <$> fs ->
  frame (ref_of T) h h1 ->
  h1 !! fresh (dom h) = Some (Object ∅ (Some (FExport f m))) ->
  (forall t o, T = VRef t -> h !! t = Some o ->
     h1 !! t = Some (Object (<[export_name f := VRef (fresh (dom h))]> (props o))
                       (callable o))) ->
  installed m fs T h1 h' -> installed m (f :: fs) T h h'.
Proof.
  intros Hf Hfr Hfo Hobj [Hfr' Hinst]. split; [eapply frame_trans; eassumption|].
  intros t o -> Ho. pose proof (Hobj t o eq_refl Ho) as Ht.
  destruct (Hinst t _ eq_refl Ht) as (o' & Ho' & Hc & Hp & Hfs).
  assert (Hne : fresh (dom h) <> t) by (intros <-; rewrite fresh_lookup in Ho; discriminate).
  exists o'. split; [assumption|]. split; [assumption|]. split.
  - intros p Hp'. rewrite fmap_cons, not_elem_of_cons in Hp'. destruct Hp' as [Hpf Hp'].
    rewrite (Hp p Hp'). apply lookup_insert_ne. congruence.
  - intros f' Hf'. apply elem_of_cons in Hf' as [->|Hf'].
    + exists (fresh (dom h)). rewrite (Hp _ Hf). cbn [props].
      rewrite lookup_insert_eq. split; [reflexivity|]. split; [apply fresh_lookup|].
      rewrite (Hfr' (fresh (dom h))); [exact Hfo | cbn; congruence | rewrite Hfo; eauto].
    + destruct (Hfs f' Hf') as (l & Hl1 & Hl2 & Hl3). exists l.
      split; [assumption|]. split; [|assumption].
      apply (frame_None _ _ _ _ Hfr Hl2). intros [= ->]. congruence.
Qed.

Lemma receiver_frame T h h' :
  receiver h T -> (forall t o, T = VRef t -> h !! t = Some o -> is_Some (h' !! t)) ->
  receiver h' T.
Proof. destruct T as [| |b|t]; try done. intros [o Ho] Hs. exact (Hs t o eq_refl Ho). Qed.

(** The assignments of a list of functions with distinct names. *)
Lemma assign_all_installed T m fs h :
  receiver h T -> NoDup (export_name <$> fs) ->
  exists h', assign_all T m fs h = (Ok tt, h') /\ installed m fs T h h'.
Proof.
  revert h. induction fs as [|f fs IH]; intros h HT Hnd.
  - exists h. split; [reflexivity|]. split; [apply frame_refl|].
    intros t o _ Ho. exists o. repeat split; try done. intros f Hf. inversion Hf.
  - rewrite fmap_cons in Hnd. apply NoDup_cons in Hnd as [Hf Hnd].
    destruct (assign_run T m f h HT) as (h1 & Hrun & Hfr & Hfo & Hobj).
    destruct (IH h1) as (h' & Hall & Hinst); [|assumption|].
    { apply (receiver_frame T h); [assumption|]. intros t o HTt Ho.
      rewrite (Hobj t o HTt Ho). eauto. }
    exists h'. cbn [assign_all]. rewrite (ST_bind_Ok _ _ _ _ _ Hrun).
    split; [assumption | eapply installed_cons; eassumption].
Qed.

End assign_lemmas.

(** ** The evaluation of the module *)

Section load_lemmas.
Implicit Types (g : globals) (h : heap) (l t : loc) (T m v : value) (f : export).

(** The body, when [md5] is there: the seven assignments. *)
Lemma body_run g T lib m h :
  g_md5 g = Some lib -> get_prop h lib "md5" = Ok m ->
  body g T h = assign_all T m exports h.
Proof.
  intros Hl Hm. unfold body. rewrite Hl. cbn [resolve].
  rewrite ST_bind_lift. rewrite (ST_bind_Ok (get lib "md5") _ h m h)
    by (unfold get; rewrite Hm; reflexivity).
  unfold exports. cbn [assign_all].
  do 6 (apply ST_bind_ext; intros _ ?). symmetry. apply ST_bind_skip.
Qed.

Lemma body_md5_undeclared g T h :
  g_md5 g = None -> body g T h = (Throw (ReferenceError "md5 is not defined"), h).
Proof. intros Hl. unfold body. rewrite Hl. reflexivity. Qed.

(** With [md5] there and a receiver for target, the body installs the
    functions. *)
Lemma body_installed g T lib m h :
  g_md5 g = Some lib -> get_prop h lib "md5" = Ok m -> receiver h T ->
  exists h', body g T h = (Ok tt, h') /\ installed m exports T h h'.
Proof.
  intros Hl Hm HT. rewrite (body_run g T lib m h Hl Hm).
  apply assign_all_installed; [assumption | apply exports_NoDup].
Qed.

(** *** The target *)

Lemma module_test_absent g h :
  defined (g_module g) = false -> module_test g h = (Ok (VPrim false), h).
Proof. intros Hd. unfold module_test. rewrite Hd. reflexivity. Qed.

Lemma module_test_present g h m :
  g_module g = Some m -> m <> VUndefined ->
  module_test g h = (get_prop h m "exports", h).
Proof.
  intros Hm Hne. unfold module_test. rewrite Hm.
  destruct m; (congruence || reflexivity).
Qed.

(** [module.exports] is the target when it is truthy; [self] is not
    looked at. *)
Lemma target_module g h m e :
  g_module g = Some m -> get_prop h m "exports" = Ok e -> js_truthy e = true ->
  target g h = (Ok e, h).
Proof.
  intros Hm He Ht. unfold target.
  rewrite (ST_bind_Ok _ _ h e h)
    by (rewrite (module_test_present g h m Hm), He; [reflexivity|];
        intros ->; discriminate).
  rewrite Ht, Hm. cbn [resolve]. rewrite ST_bind_lift. unfold get. rewrite He.
  reflexivity.
Qed.

(** Writing to a property the value it has changes nothing. *)
Lemma put_same v p x h :
  get_prop h v p = Ok x -> js_truthy x = true -> put v p x h = (Ok tt, h).
Proof.
  destruct v as [| |b|l]; try discriminate; [reflexivity|].
  rewrite get_prop_ref. unfold prop_at, put. cbn [set_prop]. intros [= Hx] Ht.
  destruct (h !! l) as [[ps c]|] eqn:Hl; cbn in Hx;
    [|subst x; discriminate].
  destruct (ps !! p) as [y|] eqn:Hp; cbn in Hx; [subst y | subst x; discriminate].
  rewrite (alter_alt_Some _ _ _ _ Hl). cbn [props callable].
  rewrite (insert_id ps p x Hp), (insert_id h l _ Hl). reflexivity.
Qed.

(** Without a usable [module.exports], an object that [self.SaltShaker]
    holds already is the target, and the heap is as before. *)
Lemma target_self_existing g h v s old :
  module_test g h = (Ok v, h) -> js_truthy v = false ->
  g_self g = Some s -> get_prop h s "SaltShaker" = Ok old -> js_truthy old = true ->
  target g h = (Ok old, h).
Proof.
  intros Hv Hf Hs Ho Ht. unfold target. rewrite (ST_bind_Ok _ _ h v h Hv), Hf, Hs.
  cbn [resolve]. rewrite ST_bind_lift.
  rewrite (ST_bind_Ok (get s "SaltShaker") _ h old h)
    by (unfold get; rewrite Ho; reflexivity).
  rewrite Ht, ST_bind_ret.
  rewrite (ST_bind_Ok _ _ h tt h (put_same s _ old h Ho Ht)). reflexivity.
Qed.

(** Otherwise a new object is the target, and [self.SaltShaker] refers to
    it. *)
Lemma target_self_fresh g h v sl o :
  module_test g h = (Ok v, h) -> js_truthy v = false ->
  g_self g = Some (VRef sl) -> h !! sl = Some o ->
  js_truthy (default VUndefined (props o !! "SaltShaker")) = false ->
  target g h = (Ok (VRef (fresh (dom h))), attach h sl o (fresh (dom h))).
Proof.
  intros Hv Hf Hs Ho Ht. unfold target. rewrite (ST_bind_Ok _ _ h v h Hv), Hf, Hs.
  cbn [resolve]. rewrite ST_bind_lift.
  rewrite (ST_bind_Ok (get (VRef sl) "SaltShaker") _ h
             (default VUndefined (props o !! "SaltShaker")) h)
    by (unfold get; cbn [get_prop]; rewrite Ho; reflexivity).
  rewrite Ht. rewrite (ST_bind_Ok _ _ _ _ _ (alloc_run empty_object h)).
  unfold put. cbn [set_prop].
  assert (Hsl : (<[fresh (dom h) := empty_object]> h) !! sl = Some o)
    by (rewrite lookup_insert_ne by (apply not_eq_sym, fresh_ne; eauto); exact Ho).
  unfold mbind, ST_bind. rewrite (alter_alt_Some _ _ _ _ Hsl). reflexivity.
Qed.

End load_lemmas.

(** ** What the evaluation of the module does *)

Section load_theorems.
Implicit Types (g : globals) (h : heap) (l t : loc) (T m v : value) (f : export).

Lemma load_run g h T h1 : target g h = (Ok T, h1) -> load g h = body g T h1.
Proof. intros Ht. unfold load. apply (ST_bind_Ok _ _ _ _ _ Ht). Qed.

(** The functions an object has received can be read from it and are
    callable. *)
Lemma installed_functions m fs t h h' f :
  installed m fs (VRef t) h h' -> is_Some (h !! t) -> f ∈ fs ->
  exists lf, prop_at h' t (export_name f) = Some (VRef lf)
    /\ func_of h' (VRef lf) = Some (FExport f m).
Proof.
  intros [_ Hinst] [o Ho] Hf.
  destruct (Hinst t o eq_refl Ho) as (o' & Ho' & _ & _ & Hfs).
  destruct (Hfs f Hf) as (lf & Hp & _ & Hlf). exists lf.
  unfold prop_at, func_of. rewrite Ho', Hlf. split; [exact Hp | reflexivity].
Qed.

(** What is callable stays callable, the target included. *)
Lemma installed_callable m fs T h h' l :
  installed m fs T h h' -> is_Some (h !! l) ->
  h' !! l ≫= callable = h !! l ≫= callable.
Proof.
  intros [Hfr Hinst] [o Ho]. destruct (decide (Some l = ref_of T)) as [E|Hne].
  - destruct T; try discriminate. injection E as <-.
    destruct (Hinst l o eq_refl Ho) as (o' & Ho' & Hc & _).
    rewrite Ho, Ho'. cbn. congruence.
  - rewrite (Hfr l Hne) by (rewrite Ho; eauto). reflexivity.
Qed.

(** The properties under other names are as before, in every object. *)
Lemma installed_get_prop m fs T h h' x p :
  installed m fs T h h' -> live h x -> p ∉ export_name <$> fs ->
  get_prop h' x p = get_prop h x p.
Proof.
  intros [Hfr Hinst] Hx Hp. destruct x as [| |b|l]; try reflexivity.
  rewrite !get_prop_ref. f_equal. unfold prop_at. destruct Hx as [o Ho].
  destruct (decide (Some l = ref_of T)) as [E|Hne].
  - destruct T; try discriminate. injection E as <-.
    destruct (Hinst l o eq_refl Ho) as (o' & Ho' & _ & Hps & _).
    rewrite Ho, Ho'. cbn. by rewrite Hps.
  - rewrite (Hfr l Hne) by (rewrite Ho; eauto). reflexivity.
Qed.

Lemma installed_live m fs T h h' x : installed m fs T h h' -> live h x -> live h' x.
Proof.
  intros [Hfr Hinst] Hx. destruct x as [| |b|l]; try exact I. destruct Hx as [o Ho].
  destruct (decide (Some l = ref_of T)) as [E|Hne].
  - destruct T; try discriminate. injection E as <-.
    destruct (Hinst l o eq_refl Ho) as (o' & Ho' & _). cbn. rewrite Ho'. eauto.
  - cbn. rewrite (Hfr l Hne) by (rewrite Ho; eauto). rewrite Ho. eauto.
Qed.

(** A value that has a property that is an object is not dangling. *)
Lemma get_prop_live h x p l : get_prop h x p = Ok (VRef l) -> live h x.
Proof.
  destruct x as [| |b|y]; try discriminate.
  rewrite get_prop_ref. unfold prop_at. cbn.
  destruct (h !! y); [eauto | discriminate].
Qed.

(** C11: in an environment with a [module] whose [exports] is an object, the
    evaluation of the file returns normally and that object receives the
    seven functions, closed over the value of [md5.md5]; the properties it
    had under other names are kept and no other object changes.  The
    variable [self] plays no part: it need not exist. *)
Theorem load_module_exports g h m t lib _md5 :
  g_module g = Some m -> get_prop h m "exports" = Ok (VRef t) ->
  is_Some (h !! t) ->
  g_md5 g = Some lib -> get_prop h lib "md5" = Ok _md5 ->
  exists h', load g h = (Ok tt, h') /\ installed _md5 exports (VRef t) h h'.
Proof.
  intros Hm He Ht Hl Hmd5.
  rewrite (load_run g h _ h (target_module g h m _ Hm He eq_refl)).
  exact (body_installed g (VRef t) lib _md5 h Hl Hmd5 Ht).
Qed.

(** Without a usable [module.exports], an object that [self.SaltShaker]
    holds already receives the functions: it is the same object afterwards,
    with the properties it had under other names. *)
Lemma load_self_existing g h v s t lib _md5 :
  module_test g h = (Ok v, h) -> js_truthy v = false ->
  g_self g = Some s -> get_prop h s "SaltShaker" = Ok (VRef t) ->
  is_Some (h !! t) ->
  g_md5 g = Some lib -> get_prop h lib "md5" = Ok _md5 ->
  exists h', load g h = (Ok tt, h') /\ installed _md5 exports (VRef t) h h'.
Proof.
  intros Hv Hf Hs Ho Ht Hl Hmd5.
  rewrite (load_run g h _ h (target_self_existing g h v s _ Hv Hf Hs Ho eq_refl)).
  exact (body_installed g (VRef t) lib _md5 h Hl Hmd5 Ht).
Qed.

(** Without a usable [module.exports] and without a global [self], the
    evaluation of the file throws a [ReferenceError] and changes nothing,
    whatever the other globals are. *)
Lemma load_self_undeclared g h v :
  module_test g h = (Ok v, h) -> js_truthy v = false -> g_self g = None ->
  load g h = (Throw (ReferenceError "self is not defined"), h).
Proof.
  intros Hv Hf Hs. unfold load. apply ST_bind_Throw. unfold target.
  rewrite (ST_bind_Ok _ _ h v h Hv), Hf, Hs. reflexivity.
Qed.

(** *** The heap in which the body runs when [self.SaltShaker] is created *)

Section attached.
Context (h : heap) (sl l : loc) (o : object).
Context (Ho : h !! sl = Some o) (Hl : h !! l = None).

Lemma attach_ne : sl <> l.
Proof. intros ->. congruence. Qed.

Lemma attach_new : attach h sl o l !! l = Some empty_object.
Proof.
  unfold attach. rewrite lookup_insert_ne by apply attach_ne. apply lookup_insert_eq.
Qed.

Lemma attach_self :
  attach h sl o l !! sl
  = Some (Object (<["SaltShaker" := VRef l]> (props o)) (callable o)).
Proof. apply lookup_insert_eq. Qed.

Lemma attach_other x : x <> sl -> x <> l -> attach h sl o l !! x = h !! x.
Proof. intros. unfold attach. rewrite !lookup_insert_ne by congruence. reflexivity. Qed.

Lemma prop_at_attach x p :
  p <> "SaltShaker" -> prop_at (attach h sl o l) x p = prop_at h x p.
Proof.
  intros Hp. unfold prop_at. destruct (decide (x = sl)) as [->|Hx].
  - rewrite attach_self, Ho. cbn. apply lookup_insert_ne. congruence.
  - destruct (decide (x = l)) as [->|Hx'].
    + rewrite attach_new, Hl. reflexivity.
    + rewrite attach_other by assumption. reflexivity.
Qed.

Lemma get_prop_attach v p :
  p <> "SaltShaker" -> get_prop (attach h sl o l) v p = get_prop h v p.
Proof.
  intros Hp. destruct v; try reflexivity.
  rewrite !get_prop_ref, prop_at_attach by assumption. reflexivity.
Qed.

(** What was callable is, and the new object is not. *)
Lemma callable_attach x :
  is_Some (h !! x) -> attach h sl o l !! x ≫= callable = h !! x ≫= callable.
Proof.
  intros Hx. destruct (decide (x = sl)) as [->|Hne].
  - rewrite attach_self, Ho. reflexivity.
  - rewrite attach_other; [reflexivity | assumption|].
    intros ->. rewrite Hl in Hx. by destruct Hx.
Qed.

Lemma frame_attach : frame (Some sl) h (attach h sl o l).
Proof.
  intros x Hx Hsx. apply attach_other; [congruence|].
  intros ->. rewrite Hl in Hsx. by destruct Hsx.
Qed.

(** The body gives the new object the functions. *)
Lemma body_attach g lib m :
  g_md5 g = Some lib -> get_prop h lib "md5" = Ok m ->
  exists h', body g (VRef l) (attach h sl o l) = (Ok tt, h')
             /\ installed m exports (VRef l) (attach h sl o l) h'.
Proof.
  intros Hg Hm. apply (body_installed g (VRef l) lib m); [assumption | |].
  - rewrite get_prop_attach by discriminate. exact Hm.
  - cbn. rewrite attach_new. eauto.
Qed.

End attached.

(** C28: without a usable [module.exports] and with a [self] that has no
    [SaltShaker] yet, the evaluation of the file creates an object, stores
    it in [self.SaltShaker] and gives it the seven functions; the other
    properties of [self] and all other objects are unchanged. *)
Theorem load_self_fresh g h v sl o lib _md5 :
  module_test g h = (Ok v, h) -> js_truthy v = false ->
  g_self g = Some (VRef sl) -> h !! sl = Some o ->
  js_truthy (default VUndefined (props o !! "SaltShaker")) = false ->
  g_md5 g = Some lib -> get_prop h lib "md5" = Ok _md5 ->
  exists h', load g h = (Ok tt, h')
    /\ h !! fresh (dom h) = None
    /\ prop_at h' sl "SaltShaker" = Some (VRef (fresh (dom h)))
    /\ (forall f, exists lf,
          prop_at h' (fresh (dom h)) (export_name f) = Some (VRef lf)
          /\ func_of h' (VRef lf) = Some (FExport f _md5))
    /\ (forall p, p <> "SaltShaker" -> prop_at h' sl p = prop_at h sl p)
    /\ frame (Some sl) h h'.
Proof.
  intros Hv Hf Hs Ho Ht Hl Hmd5. set (l := fresh (dom h)).
  assert (Hfresh : h !! l = None) by apply fresh_lookup.
  rewrite (load_run g h _ _ (target_self_fresh g h v sl o Hv Hf Hs Ho Ht)). fold l.
  destruct (body_attach h sl l o Ho Hfresh g lib _md5 Hl Hmd5) as (h' & -> & Hinst).
  pose proof (attach_new h sl l o Ho Hfresh) as Hnew.
  assert (Hsl : h' !! sl = attach h sl o l !! sl).
  { apply (proj1 Hinst); [|rewrite attach_self; eauto].
    cbn. intros [= E]. exact (attach_ne h sl l o Ho Hfresh E). }
  exists h'. split_and!; [reflexivity | assumption | ..].
  - unfold prop_at. rewrite Hsl, attach_self. apply lookup_insert_eq.
  - intros f. apply (installed_functions _ _ _ _ _ f Hinst); [eauto | apply elem_of_exports].
  - intros p Hp. unfold prop_at at 1. rewrite Hsl. fold (prop_at (attach h sl o l) sl p).
    by apply prop_at_attach.
  - intros x Hx Hsx.
    assert (Hxl : x <> l) by (intros ->; rewrite Hfresh in Hsx; by destruct Hsx).
    assert (Hxs : x <> sl) by congruence.
    rewrite (proj1 Hinst x); [by apply attach_other | cbn; congruence|].
    rewrite attach_other by assumption. exact Hsx.
Qed.

(** C29: when the global [md5] is not declared the evaluation of the file
    throws a [ReferenceError], but only after the argument has been
    evaluated: a [self] that had no [SaltShaker] is left with an empty
    object in that property. *)
Theorem load_md5_undeclared g h v sl o :
  module_test g h = (Ok v, h) -> js_truthy v = false ->
  g_self g = Some (VRef sl) -> h !! sl = Some o ->
  js_truthy (default VUndefined (props o !! "SaltShaker")) = false ->
  g_md5 g = None ->
  (load g h).1 = Throw (ReferenceError "md5 is not defined")
  /\ prop_at (load g h).2 sl "SaltShaker" = Some (VRef (fresh (dom h)))
  /\ (load g h).2 !! fresh (dom h) = Some empty_object.
Proof.
  intros Hv Hf Hs Ho Ht Hl.
  rewrite (load_run g h _ _ (target_self_fresh g h v sl o Hv Hf Hs Ho Ht)).
  rewrite (body_md5_undeclared g _ _ Hl). cbn [fst snd].
  pose proof (fresh_lookup h) as Hfresh.
  split; [reflexivity|]. unfold prop_at.
  rewrite attach_self, attach_new by assumption.
  split; [apply lookup_insert_eq | reflexivity].
Qed.

End load_theorems.

Lemma load_module_exports_witness :
  exists h', load node_globals node_heap = (Ok tt, h')
    /\ installed (VRef 11) exports (VRef 1) node_heap h'.
Proof.
  apply (load_module_exports node_globals node_heap (VRef 0) 1 (VRef 10));
    try (vm_compute; reflexivity).
  decide_by_computation.
Defined.

Lemma load_self_undeclared_witness :
  load (Globals None None (Some (VRef 10)) Loaded Loaded) md5_heap
  = (Throw (ReferenceError "self is not defined"), md5_heap).
Proof.
  apply (load_self_undeclared _ _ (VPrim false)); vm_compute; reflexivity.
Defined.

Lemma load_self_existing_witness :
  exists h', load browser_globals (loaded browser_globals browser_heap) = (Ok tt, h')
    /\ installed (VRef 11) exports (VRef 12) (loaded browser_globals browser_heap) h'.
Proof.
  apply (load_self_existing _ _ (VPrim false) (VRef 0) 12 (VRef 10));
    try (vm_compute; reflexivity).
  decide_by_computation.
Defined.

Lemma load_self_fresh_witness :
  exists h', load browser_globals browser_heap = (Ok tt, h')
    /\ browser_heap !! fresh (dom browser_heap) = None
    /\ prop_at h' 0%nat "SaltShaker" = Some (VRef (fresh (dom browser_heap)))
    /\ (forall f, exists lf,
          prop_at h' (fresh (dom browser_heap)) (export_name f) = Some (VRef lf)
          /\ func_of h' (VRef lf) = Some (FExport f (VRef 11)))
    /\ (forall p, p <> "SaltShaker" -> prop_at h' 0%nat p = prop_at browser_heap 0%nat p)
    /\ frame (Some 0%nat) browser_heap h'.
Proof.
  apply (load_self_fresh browser_globals browser_heap (VPrim false) 0
           (Object {[ "name" := VPrim true ]} None) (VRef 10));
    vm_compute; reflexivity.
Defined.

Lemma load_md5_undeclared_witness :
  let g := Globals None (Some (VRef 0)) None Loaded Loaded in
  (load g browser_heap).1 = Throw (ReferenceError "md5 is not defined")
  /\ prop_at (load g browser_heap).2 0%nat "SaltShaker"
     = Some (VRef (fresh (dom browser_heap)))
  /\ (load g browser_heap).2 !! fresh (dom browser_heap) = Some empty_object.
Proof.
  apply (load_md5_undeclared _ browser_heap (VPrim false) 0
           (Object {[ "name" := VPrim true ]} None));
    vm_compute; reflexivity.
Defined.
