(* ===== verification/Exports.v ===== *)
(** * Exports: calls of the exported functions through the object

    The functions the module assigns are closures: [nacl] and [ed2curve]
    are global variables looked up when a function runs, [_md5] is the
    value [md5.md5] had when the module was evaluated.  [invoke] is a call
    [T.name(args)] on a heap that [Loader.load] produced: the property is
    read, the function object found is called.  [run_export] is the
    function called, in its environment: each function is written with
    the uses of [nacl], [ed2curve] and [_md5] at their place
    ([create_in] to [decryptPSK_in]).  With the libraries there these are
    the operations of [SaltShaker] ([run_export_loaded]); without one,
    a function runs up to the expression that mentions it
    ([run_export_cases]).

    Calls of functions that are not the module's are outside the model:
    [invoke] returns [None] for them.  Arguments are strings. *)

From Stdlib Require Import ZArith Lia List String.
From stdpp Require Import base tactics option list numbers strings gmap.
From S2P Require Import Prelude JsPrims Decoder Utf8 Encoder Base64.
From S2P Require Import Nacl NaclModel SaltShaker Loader.

(** ** Calls *)

(** A call of an exported function with string arguments ([create]'s may
    be omitted), and what it returns. *)
Inductive call : Type :=
  | CallCreate (privatekey : option jsstring)
  | CallSign (msg privkey : jsstring)
  | CallVerify (signedmsg pubkey : jsstring)
  | CallEncrypt (msg pubkey privkey : jsstring)
  | CallDecrypt (msg nonce pubkey privkey : jsstring)
  | CallEncryptPSK (msg key : jsstring)
  | CallDecryptPSK (msg key nonce : jsstring).

Inductive retval : Type :=
  | RKeys (k : keys)
  | RString (s : jsstring)
  | RNull
  | REnvelope (e : envelope).

#[export] Instance call_eq_dec : EqDecision call.
Proof. solve_decision. Defined.

#[export] Instance retval_eq_dec : EqDecision retval.
Proof. solve_decision. Defined.

Definition callee (c : call) : export :=
  match c with
  | CallCreate _ => Create
  | CallSign _ _ => Sign
  | CallVerify _ _ => Verify
  | CallEncrypt _ _ _ => Encrypt
  | CallDecrypt _ _ _ _ => Decrypt
  | CallEncryptPSK _ _ => EncryptPSK
  | CallDecryptPSK _ _ _ => DecryptPSK
  end.

(** What the variable [_md5] of the closure holds: the function of the MD5
    library, or a value that cannot be called. *)
Inductive md5_binding : Type := Md5Genuine | Md5NotCallable.

Definition md5_binding_of (h : heap) (_md5 : value) : option md5_binding :=
  match _md5 with
  | VRef l =>
      match h !! l ≫= callable with
      | Some FMd5 => Some Md5Genuine
      | Some _ => None
      | None => Some Md5NotCallable
      end
  | _ => Some Md5NotCallable
  end.

(** The use of a library variable inside a function. *)
Definition need (name : string) (l : library) : result unit :=
  match l with
  | Loaded => Ok tt
  | Missing => Throw (ReferenceError (name +:+ " is not defined"))
  end.

Definition not_a_function (name : string) : exn :=
  TypeError (name +:+ " is not a function").

Section calls.
Context `{Primitives}.

(** The operation a call asks for, as [SaltShaker] defines it. *)
Definition operation (c : call) : M retval :=
  match c with
  | CallCreate privatekey => RKeys <$> create privatekey
  | CallSign msg privkey => lift (RString <$> sign msg privkey)
  | CallVerify signedmsg pubkey =>
      lift (from_option RString RNull <$> verify signedmsg pubkey)
  | CallEncrypt msg pubkey privkey => REnvelope <$> encrypt msg pubkey privkey
  | CallDecrypt msg nonce pubkey privkey =>
      lift (RString <$> decrypt msg nonce pubkey privkey)
  | CallEncryptPSK msg key => REnvelope <$> encryptPSK msg key
  | CallDecryptPSK msg key nonce => lift (RString <$> decryptPSK msg key nonce)
  end.

(** ** The functions with their free variables

    The functions are closures: [nacl] and [ed2curve] are looked up each
    time an expression that mentions them is evaluated, and [_md5] is
    called as what it held when the file was evaluated.  Each function is
    written again here with these uses at their place in the order of
    evaluation (a callee before its arguments, the arguments from left to
    right); [run_export_loaded] shows that with the libraries there the
    functions are the operations of [SaltShaker]. *)

(** [_md5(key)] (lines 155 and 164). *)
Definition call_md5 (b : md5_binding) (key : jsstring) : result jsstring :=
  match b with
  | Md5Genuine => Ok (_md5 key)
  | Md5NotCallable => Throw (not_a_function "_md5")
  end.

(** [create] (lines 100-111): the test of [privatekey] has no effect and
    both branches start with [nacl]. *)
Definition create_in (g : globals) (privatekey : option jsstring) : M keys :=
  lift (need "nacl" (g_nacl g));;
  create privatekey.

(** [sign] (lines 116-118) and [verify] (lines 123-127): the first
    expression evaluated is [nacl]. *)
Definition sign_in (g : globals) (msg privkey : jsstring) : result jsstring :=
  need "nacl" (g_nacl g);;
  sign msg privkey.

Definition verify_in (g : globals) (signedmsg pubkey : jsstring)
  : result (option jsstring) :=
  need "nacl" (g_nacl g);;
  verify signedmsg pubkey.

(** [encrypt] (lines 132-139): [ed2curve] is mentioned in the third
    argument of [nacl.box], after the message and the nonce. *)
Definition encrypt_in (g : globals) (msg pubkey privkey : jsstring) : M envelope :=
  lift (need "nacl" (g_nacl g));;
  _nonce ← randomBytes box_nonceLength;
  lift (m ← decodeUTF8 msg;
        need "ed2curve" (g_ed2curve g);;
        pk ← decodeBase64 pubkey;
        sk ← decodeBase64 privkey;
        box ← nacl_box m _nonce (convertPublicKey pk) (convertSecretKey sk);
        mret (Envelope (encodeBase64 box) (encodeBase64 _nonce))).

(** [decrypt] (lines 144-146): [ed2curve] is mentioned in the third
    argument of [nacl.box.open]. *)
Definition decrypt_in (g : globals) (msg nonce pubkey privkey : jsstring)
  : result jsstring :=
  need "nacl" (g_nacl g);;
  box ← decodeBase64 msg;
  n ← decodeBase64 nonce;
  need "ed2curve" (g_ed2curve g);;
  pk ← decodeBase64 pubkey;
  sk ← decodeBase64 privkey;
  opened ← nacl_box_open box n (convertPublicKey pk) (convertSecretKey sk);
  _decoder_nullable opened.

(** [encryptPSK] (lines 151-158): [_md5] is called in the third argument
    of [nacl.secretbox]. *)
Definition encryptPSK_in (g : globals) (b : md5_binding) (msg key : jsstring)
  : M envelope :=
  lift (need "nacl" (g_nacl g));;
  _nonce ← randomBytes secretbox_nonceLength;
  lift (m ← decodeUTF8 msg;
        digest ← call_md5 b key;
        box ← nacl_secretbox m _nonce (_encoder digest);
        mret (Envelope (encodeBase64 box) (encodeBase64 _nonce))).

(** [decryptPSK] (lines 163-165): [_md5] is called in the third argument
    of [nacl.secretbox.open]. *)
Definition decryptPSK_in (g : globals) (b : md5_binding) (msg key nonce : jsstring)
  : result jsstring :=
  need "nacl" (g_nacl g);;
  box ← decodeBase64 msg;
  n ← decodeBase64 nonce;
  digest ← call_md5 b key;
  opened ← nacl_secretbox_open box n (_encoder digest);
  _decoder_nullable opened.

(** The calls whose function mentions [ed2curve] (lines 136 and 145) and
    those whose function calls [_md5] (lines 155 and 164). *)
Definition mentions_ed2curve (c : call) : bool :=
  match c with
  | CallEncrypt _ _ _ | CallDecrypt _ _ _ _ => true
  | _ => false
  end.

Definition mentions_md5 (c : call) : bool :=
  match c with
  | CallEncryptPSK _ _ | CallDecryptPSK _ _ _ => true
  | _ => false
  end.

(** The function a call runs, in its environment. *)
Definition run_export (g : globals) (b : md5_binding) (c : call) : M retval :=
  match c with
  | CallCreate privatekey => RKeys <$> create_in g privatekey
  | CallSign msg privkey => lift (RString <$> sign_in g msg privkey)
  | CallVerify signedmsg pubkey =>
      lift (from_option RString RNull <$> verify_in g signedmsg pubkey)
  | CallEncrypt msg pubkey privkey => REnvelope <$> encrypt_in g msg pubkey privkey
  | CallDecrypt msg nonce pubkey privkey =>
      lift (RString <$> decrypt_in g msg nonce pubkey privkey)
  | CallEncryptPSK msg key => REnvelope <$> encryptPSK_in g b msg key
  | CallDecryptPSK msg key nonce =>
      lift (RString <$> decryptPSK_in g b msg key nonce)
  end.

(** [T.name(args)]: the property is read, the value found is called.
    [None] when the value is a function that is not the module's function
    of that name: what such a call does is outside the model. *)
Definition invoke (g : globals) (h : heap) (T : value) (c : call)
  : option (M retval) :=
  match get_prop h T (export_name (callee c)) with
  | Throw e => Some (lift (Throw e))
  | Ok fv =>
      match func_of h fv with
      | None => Some (lift (Throw (not_a_function (export_name (callee c)))))
      | Some (FExport f _md5) =>
          if decide (f = callee c)
          then b ← md5_binding_of h _md5; Some (run_export g b c)
          else None
      | Some _ => None
      end
  end.

End calls.

(** ** Calls through the object *)

Section invoke_theorems.
Context `{Primitives}.
Implicit Types (g : globals) (h : heap) (l t : loc) (T m v : value) (c : call).

(** What [_md5] holds is the same before and after the assignments. *)
Lemma md5_binding_installed m' fs T h h' m :
  installed m' fs T h h' -> live h m -> md5_binding_of h' m = md5_binding_of h m.
Proof.
  intros Hinst Hm. destruct m as [| |b|l]; try reflexivity.
  unfold md5_binding_of. rewrite (installed_callable _ _ _ _ _ l Hinst Hm). reflexivity.
Qed.

(** A call of a function the object has received runs that function. *)
Lemma invoke_installed g m fs t h h' b c :
  installed m fs (VRef t) h h' -> is_Some (h !! t) -> callee c ∈ fs ->
  live h m -> md5_binding_of h m = Some b ->
  invoke g h' (VRef t) c = Some (run_export g b c).
Proof.
  intros Hinst Ht Hc Hm Hb.
  destruct (installed_functions _ _ _ _ _ _ Hinst Ht Hc) as (lf & Hp & Hf).
  unfold invoke. rewrite get_prop_ref, Hp. cbn [default from_option id].
  rewrite Hf, decide_True by reflexivity.
  rewrite (md5_binding_installed _ _ _ _ _ _ Hinst Hm), Hb. reflexivity.
Qed.

(** Unfold the functions with their free variables. *)
Ltac closures :=
  unfold run_export, create_in, sign_in, verify_in, encrypt_in, decrypt_in,
    encryptPSK_in, decryptPSK_in.

(** Without [nacl] a function stops at its first expression. *)
Lemma run_export_nacl_missing g b c r :
  g_nacl g = Missing ->
  run_export g b c r = (Throw (ReferenceError "nacl is not defined"), r).
Proof. intros Hn. destruct c; closures; rewrite Hn; reflexivity. Qed.

(** A function is the operation of [SaltShaker] as soon as the libraries
    it mentions are there. *)
Lemma run_export_needs g b c :
  g_nacl g = Loaded ->
  (mentions_ed2curve c -> g_ed2curve g = Loaded) ->
  (mentions_md5 c -> b = Md5Genuine) ->
  run_export g b c = operation c.
Proof.
  intros Hn He Hb.
  destruct c; closures; rewrite Hn, ?(He I), ?(Hb I); reflexivity.
Qed.

(** With the libraries there, the functions are the operations. *)
Lemma run_export_loaded g c :
  g_nacl g = Loaded -> g_ed2curve g = Loaded ->
  run_export g Md5Genuine c = operation c.
Proof. intros Hn He. by apply run_export_needs. Qed.

(** What is left of a function when [ed2curve] is missing or [_md5] cannot
    be called: [encrypt] and [encryptPSK] have drawn the nonce and encoded
    the message, [decrypt] and [decryptPSK] have decoded the message and
    the nonce. *)
Lemma run_export_cases g b c r :
  g_nacl g = Loaded ->
  run_export g b c r
  = match c, g_ed2curve g, b with
    | CallEncrypt msg _ _, Missing, _ =>
        (m ← decodeUTF8 msg; Throw (ReferenceError "ed2curve is not defined"),
         advance box_nonceLength r)
    | CallDecrypt msg nonce _ _, Missing, _ =>
        (box ← decodeBase64 msg; n ← decodeBase64 nonce;
         Throw (ReferenceError "ed2curve is not defined"), r)
    | CallEncryptPSK msg _, _, Md5NotCallable =>
        (m ← decodeUTF8 msg; Throw (not_a_function "_md5"),
         advance secretbox_nonceLength r)
    | CallDecryptPSK msg _ nonce, _, Md5NotCallable =>
        (box ← decodeBase64 msg; n ← decodeBase64 nonce;
         Throw (not_a_function "_md5"), r)
    | _, _, _ => operation c r
    end.
Proof.
  intros Hn.
  destruct c, (g_ed2curve g) eqn:He, b;
    try (rewrite run_export_needs by (cbn; done); reflexivity);
    closures; rewrite Hn, ?He;
    repeat match goal with |- context [decodeUTF8 ?m] => destruct (decodeUTF8 m) end;
    repeat match goal with |- context [decodeBase64 ?m] => destruct (decodeBase64 m) end;
    reflexivity.
Qed.

(** The evaluation of the file in an environment with [module.exports]. *)
Lemma load_module_installed g h m t lib _md5 :
  g_module g = Some m -> get_prop h m "exports" = Ok (VRef t) ->
  is_Some (h !! t) -> g_md5 g = Some lib -> get_prop h lib "md5" = Ok _md5 ->
  (load g h).1 = Ok tt /\ installed _md5 exports (VRef t) h (loaded g h).
Proof.
  intros Hm He Ht Hl Hmd5. unfold loaded.
  rewrite (load_run g h _ h (target_module g h m _ Hm He eq_refl)).
  destruct (body_installed g (VRef t) lib _md5 h Hl Hmd5 Ht) as (h' & -> & Hinst).
  split; [reflexivity | exact Hinst].
Qed.

(** A call through an object that has received the functions, with the
    MD5 function bound and the libraries there, is the operation. *)
Lemma invoke_after_installed g h h' t lm c :
  installed (VRef lm) exports (VRef t) h h' -> is_Some (h !! t) ->
  func_of h (VRef lm) = Some FMd5 ->
  g_nacl g = Loaded -> g_ed2curve g = Loaded ->
  invoke g h' (VRef t) c = Some (operation c).
Proof.
  intros Hinst Ht Hf Hn He. rewrite <- (run_export_loaded g c Hn He).
  apply (invoke_installed g (VRef lm) exports t h h' Md5Genuine c Hinst Ht).
  - apply elem_of_exports.
  - cbn in *. destruct (h !! lm); [eauto | discriminate].
  - unfold md5_binding_of. cbn in Hf. rewrite Hf. reflexivity.
Qed.

(** The evaluation of the file where [self.SaltShaker] holds an object. *)
Lemma load_self_existing_installed g h v s t lib _md5 :
  module_test g h = (Ok v, h) -> js_truthy v = false ->
  g_self g = Some s -> get_prop h s "SaltShaker" = Ok (VRef t) ->
  is_Some (h !! t) -> g_md5 g = Some lib -> get_prop h lib "md5" = Ok _md5 ->
  (load g h).1 = Ok tt /\ installed _md5 exports (VRef t) h (loaded g h).
Proof.
  intros Hv Hf Hs Ho Ht Hl Hmd5. unfold loaded.
  rewrite (load_run g h _ h (target_self_existing g h v s _ Hv Hf Hs Ho eq_refl)).
  destruct (body_installed g (VRef t) lib _md5 h Hl Hmd5 Ht) as (h' & -> & Hinst).
  split; [reflexivity | exact Hinst].
Qed.

(** The evaluation of the file where [self.SaltShaker] is created. *)
Lemma load_self_installed g h v sl o lib _md5 :
  module_test g h = (Ok v, h) -> js_truthy v = false ->
  g_self g = Some (VRef sl) -> h !! sl = Some o ->
  js_truthy (default VUndefined (props o !! "SaltShaker")) = false ->
  g_md5 g = Some lib -> get_prop h lib "md5" = Ok _md5 ->
  (load g h).1 = Ok tt
  /\ installed _md5 exports (VRef (fresh (dom h)))
       (attach h sl o (fresh (dom h))) (loaded g h).
Proof.
  intros Hv Hf Hs Ho Ht Hl Hmd5. unfold loaded.
  rewrite (load_run g h _ _ (target_self_fresh g h v sl o Hv Hf Hs Ho Ht)).
  destruct (body_attach h sl _ o Ho (fresh_lookup h) g lib _md5 Hl Hmd5)
    as (h' & -> & Hinst).
  split; [reflexivity | exact Hinst].
Qed.

(** What [_md5] holds is not affected by the creation of
    [self.SaltShaker]. *)
Lemma md5_binding_attach h sl o l m :
  h !! sl = Some o -> h !! l = None -> live h m ->
  md5_binding_of (attach h sl o l) m = md5_binding_of h m.
Proof.
  intros Ho Hl Hm. destruct m as [| |b|x]; try reflexivity.
  unfold md5_binding_of. rewrite (callable_attach h sl l o Ho Hl x Hm). reflexivity.
Qed.

Lemma live_attach h sl o l m :
  h !! sl = Some o -> h !! l = None -> live h m -> live (attach h sl o l) m.
Proof.
  intros Ho Hl Hm. destruct m as [| |b|x]; try exact I. cbn in *.
  destruct (decide (x = sl)) as [->|Hx]; [rewrite attach_self; eauto|].
  rewrite attach_other; [assumption | assumption|].
  intros ->. rewrite Hl in Hm. by destruct Hm.
Qed.

(** Where [self.SaltShaker] is created, it holds the new object after the
    evaluation. *)
Lemma load_self_stored g h v sl o lib _md5 :
  module_test g h = (Ok v, h) -> js_truthy v = false ->
  g_self g = Some (VRef sl) -> h !! sl = Some o ->
  js_truthy (default VUndefined (props o !! "SaltShaker")) = false ->
  g_md5 g = Some lib -> get_prop h lib "md5" = Ok _md5 ->
  get_prop (loaded g h) (VRef sl) "SaltShaker" = Ok (VRef (fresh (dom h))).
Proof.
  intros Hv Hf Hs Ho Ht Hl Hmd5. pose proof (fresh_lookup h) as Hfresh.
  destruct (load_self_installed g h v sl o lib _ Hv Hf Hs Ho Ht Hl Hmd5)
    as [_ Hinst].
  rewrite get_prop_ref, (frame_prop_at _ _ _ sl "SaltShaker" (proj1 Hinst)).
  - unfold prop_at. rewrite attach_self by assumption. cbn.
    rewrite lookup_insert_eq. reflexivity.
  - cbn. intros [= E]. exact (attach_ne h sl _ o Ho Hfresh E).
  - rewrite attach_self by assumption. eauto.
Qed.

(** In a browser: after the file has been evaluated where [self] had
    no [SaltShaker], that property of [self] holds the object that received
    the functions, and a call of any of them through it is the operation
    of that name. *)
Lemma invoke_after_load_self g h v sl o lib lm c :
  module_test g h = (Ok v, h) -> js_truthy v = false ->
  g_self g = Some (VRef sl) -> h !! sl = Some o ->
  js_truthy (default VUndefined (props o !! "SaltShaker")) = false ->
  g_md5 g = Some lib -> get_prop h lib "md5" = Ok (VRef lm) ->
  func_of h (VRef lm) = Some FMd5 ->
  g_nacl g = Loaded -> g_ed2curve g = Loaded ->
  get_prop (loaded g h) (VRef sl) "SaltShaker" = Ok (VRef (fresh (dom h)))
  /\ invoke g (loaded g h) (VRef (fresh (dom h))) c = Some (operation c).
Proof.
  intros Hv Hf Hs Ho Ht Hl Hmd5 Hfn Hn He.
  pose proof (fresh_lookup h) as Hfresh.
  destruct (load_self_installed g h v sl o lib _ Hv Hf Hs Ho Ht Hl Hmd5)
    as [_ Hinst].
  assert (Hlm : live h (VRef lm))
    by (cbn in *; destruct (h !! lm); [eauto | discriminate]).
  split; [exact (load_self_stored g h v sl o lib _ Hv Hf Hs Ho Ht Hl Hmd5)|].
  - apply (invoke_after_installed g _ _ _ lm c Hinst); try assumption.
    + rewrite attach_new by assumption. eauto.
    + cbn in *. rewrite callable_attach by assumption. exact Hfn.
Qed.

(** "SaltShaker" and "md5" are not names the module assigns. *)
Lemma not_export_name p :
  p = "SaltShaker" \/ p = "md5" -> p ∉ export_name <$> exports.
Proof. intros [-> | ->]; decide_by_computation. Qed.

(** C30: evaluating the file a second time, as when a page includes the
    script twice: the second evaluation finds the object the first one
    created, gives it new function objects, and [self.SaltShaker] is the
    same object as before; calls through it are the operations. *)
Theorem load_twice g h sl o lib lm c :
  defined (g_module g) = false ->
  g_self g = Some (VRef sl) -> h !! sl = Some o ->
  js_truthy (default VUndefined (props o !! "SaltShaker")) = false ->
  g_md5 g = Some lib -> get_prop h lib "md5" = Ok (VRef lm) ->
  func_of h (VRef lm) = Some FMd5 ->
  g_nacl g = Loaded -> g_ed2curve g = Loaded ->
  (load g (loaded g h)).1 = Ok tt
  /\ get_prop (loaded g (loaded g h)) (VRef sl) "SaltShaker"
     = Ok (VRef (fresh (dom h)))
  /\ invoke g (loaded g (loaded g h)) (VRef (fresh (dom h))) c
     = Some (operation c).
Proof.
  intros Hd Hs Ho Ht Hl Hmd5 Hfn Hn He.
  pose proof (fresh_lookup h) as Hfresh. set (l := fresh (dom h)) in *.
  pose proof (fun h => module_test_absent g h Hd) as Hv.
  destruct (load_self_installed g h _ sl o lib _ (Hv h) eq_refl Hs Ho Ht Hl Hmd5)
    as [_ Hinst]. fold l in Hinst.
  pose proof (load_self_stored g h _ sl o lib _ (Hv h) eq_refl Hs Ho Ht Hl Hmd5)
    as Hself. fold l in Hself.
  set (h1 := loaded g h) in *.
  assert (Hl1 : is_Some (h1 !! l))
    by (apply (installed_live _ _ _ _ _ (VRef l) Hinst); cbn;
        rewrite attach_new by assumption; eauto).
  assert (Hlib : live h lib) by exact (get_prop_live _ _ _ _ Hmd5).
  assert (Hmd1 : get_prop h1 lib "md5" = Ok (VRef lm)).
  { rewrite (installed_get_prop _ _ _ _ _ lib "md5" Hinst)
      by (apply live_attach || apply not_export_name; auto).
    rewrite get_prop_attach by (assumption || discriminate). exact Hmd5. }
  assert (Hfn1 : func_of h1 (VRef lm) = Some FMd5).
  { assert (Hlm : is_Some (h !! lm))
      by (cbn in Hfn; destruct (h !! lm); [eauto | discriminate]).
    cbn in *. rewrite (installed_callable _ _ _ _ _ lm Hinst)
      by (apply (live_attach h sl o l (VRef lm)); assumption).
    rewrite callable_attach by assumption. exact Hfn. }
  destruct (load_self_existing_installed g h1 _ (VRef sl) l lib _ (Hv h1) eq_refl
              Hs Hself Hl1 Hl Hmd1) as [Hok Hinst2].
  split_and!; [exact Hok | |].
  - rewrite (installed_get_prop _ _ _ _ _ (VRef sl) "SaltShaker" Hinst2);
      [exact Hself | exact (get_prop_live _ _ _ _ Hself) | apply not_export_name; auto].
  - exact (invoke_after_installed g h1 _ l lm c Hinst2 Hl1 Hfn1 Hn He).
Qed.

(** C16: after the file has been evaluated in an environment that has
    [module.exports], the MD5 library, [nacl] and [ed2curve], a call of any
    of the seven functions through the object is the operation of that
    name: the module exports what [SaltShaker] defines. *)
Theorem invoke_after_load g h m t lib lm c :
  g_module g = Some m -> get_prop h m "exports" = Ok (VRef t) ->
  is_Some (h !! t) ->
  g_md5 g = Some lib -> get_prop h lib "md5" = Ok (VRef lm) ->
  func_of h (VRef lm) = Some FMd5 ->
  g_nacl g = Loaded -> g_ed2curve g = Loaded ->
  invoke g (loaded g h) (VRef t) c = Some (operation c).
Proof.
  intros Hm He Ht Hl Hmd5 Hf Hn Hc.
  destruct (load_module_installed g h m t lib _ Hm He Ht Hl Hmd5) as [_ Hinst].
  exact (invoke_after_installed g h _ t lm c Hinst Ht Hf Hn Hc).
Qed.

(** C37: when [md5.md5] is not a function the file is evaluated without
    complaint and the failure waits for the first use: [encryptPSK] draws
    its nonce, encodes the message and then throws a [TypeError];
    [decryptPSK] decodes the message and the nonce and then throws it. *)
Theorem invoke_without_md5 g h m t lib _md5 msg key nonce r :
  g_module g = Some m -> get_prop h m "exports" = Ok (VRef t) ->
  is_Some (h !! t) ->
  g_md5 g = Some lib -> get_prop h lib "md5" = Ok _md5 ->
  live h _md5 -> md5_binding_of h _md5 = Some Md5NotCallable ->
  g_nacl g = Loaded ->
  (load g h).1 = Ok tt
  /\ (k ← invoke g (loaded g h) (VRef t) (CallEncryptPSK msg key); Some (k r))
     = Some (m ← decodeUTF8 msg; Throw (not_a_function "_md5"),
             advance secretbox_nonceLength r)
  /\ (k ← invoke g (loaded g h) (VRef t) (CallDecryptPSK msg key nonce); Some (k r))
     = Some (box ← decodeBase64 msg; n ← decodeBase64 nonce;
             Throw (not_a_function "_md5"), r).
Proof.
  intros Hm He Ht Hl Hmd5 Hlive Hb Hn.
  destruct (load_module_installed g h m t lib _ Hm He Ht Hl Hmd5) as [Hok Hinst].
  split; [exact Hok|].
  rewrite !(invoke_installed g _ _ t h _ _ _ Hinst Ht (elem_of_exports _) Hlive Hb).
  cbn [mbind option_bind]. rewrite !(run_export_cases _ _ _ _ Hn).
  destruct (g_ed2curve g); split; reflexivity.
Qed.

(** C36: the libraries are looked up when a function runs, so a missing
    library is noticed by the functions that mention it, where they mention
    it.  Without [nacl] every function throws a [ReferenceError] before
    anything else happens: no random byte is drawn.  With [nacl], a
    function is the operation of [SaltShaker] when [ed2curve] is there or
    the function is neither [encrypt] nor [decrypt], and [_md5] can be
    called or the function is neither [encryptPSK] nor [decryptPSK].
    Without [ed2curve], [encrypt] has drawn its nonce and encoded the
    message when it throws, and [decrypt] has decoded the message and the
    nonce. *)
Theorem run_export_library_missing g b c r :
  (g_nacl g = Missing ->
   run_export g b c r = (Throw (ReferenceError "nacl is not defined"), r))
  /\ (g_nacl g = Loaded ->
      (mentions_ed2curve c -> g_ed2curve g = Loaded) ->
      (mentions_md5 c -> b = Md5Genuine) ->
      run_export g b c = operation c)
  /\ (g_nacl g = Loaded -> g_ed2curve g = Missing ->
      forall msg nonce pubkey privkey,
        run_export g b (CallEncrypt msg pubkey privkey) r
        = (m ← decodeUTF8 msg; Throw (ReferenceError "ed2curve is not defined"),
           advance box_nonceLength r)
        /\ run_export g b (CallDecrypt msg nonce pubkey privkey) r
          = (box ← decodeBase64 msg; n ← decodeBase64 nonce;
             Throw (ReferenceError "ed2curve is not defined"), r)).
Proof.
  split_and!.
  - apply run_export_nacl_missing.
  - apply run_export_needs.
  - intros Hn He msg nonce pubkey privkey.
    rewrite !(run_export_cases _ _ _ _ Hn), He. split; reflexivity.
Qed.

End invoke_theorems.

(** A page that includes the script twice: [create] is a function object
    made by the second evaluation. *)
Example load_twice_browser :
  let h2 := loaded browser_globals (loaded browser_globals browser_heap) in
  get_prop (loaded browser_globals browser_heap) (VRef 12) "create" = Ok (VRef 13)
  /\ get_prop h2 (VRef 12) "create" = Ok (VRef 20).
Proof. split; vm_compute; reflexivity. Qed.

Lemma load_twice_witness :
  let h2 := loaded browser_globals (loaded browser_globals browser_heap) in
  (load browser_globals (loaded browser_globals browser_heap)).1 = Ok tt
  /\ get_prop h2 (VRef 0) "SaltShaker" = Ok (VRef 12)
  /\ invoke browser_globals h2 (VRef 12) (CallCreate None)
     = Some (operation (CallCreate None)).
Proof.
  refine (load_twice browser_globals browser_heap 0 _ (VRef 10) 11
            (CallCreate None) _ _ _ _ _ _ _ _ _);
    vm_compute; reflexivity.
Defined.

Lemma invoke_after_load_self_witness :
  get_prop (loaded browser_globals browser_heap) (VRef 0) "SaltShaker" = Ok (VRef 12)
  /\ invoke browser_globals (loaded browser_globals browser_heap) (VRef 12)
       (CallVerify (js "aGk=") (js "key"))
     = Some (operation (CallVerify (js "aGk=") (js "key"))).
Proof.
  refine (invoke_after_load_self browser_globals browser_heap (VPrim false) 0 _
            (VRef 10) 11 _ _ _ _ _ _ _ _ _ _ _);
    vm_compute; reflexivity.
Defined.

Lemma invoke_after_load_witness :
  invoke node_globals (loaded node_globals node_heap) (VRef 1)
    (CallSign (js "hello") (js "key"))
  = Some (operation (CallSign (js "hello") (js "key"))).
Proof.
  apply (invoke_after_load node_globals node_heap (VRef 0) 1 (VRef 10) 11);
    try (vm_compute; reflexivity).
  decide_by_computation.
Defined.

Lemma invoke_without_md5_witness :
  let g := Globals (Some (VRef 0)) None (Some (VPrim true)) Loaded Loaded in
  (load g node_heap).1 = Ok tt
  /\ (k ← invoke g (loaded g node_heap) (VRef 1)
            (CallEncryptPSK (js "attack at dawn") (js "correct horse"));
      Some (k zero_rng))
     = Some (m ← decodeUTF8 (js "attack at dawn"); Throw (not_a_function "_md5"),
             advance secretbox_nonceLength zero_rng)
  /\ (k ← invoke g (loaded g node_heap) (VRef 1)
            (CallDecryptPSK (js "attack at dawn") (js "correct horse") []);
      Some (k zero_rng))
     = Some (box ← decodeBase64 (js "attack at dawn"); n ← decodeBase64 [];
             Throw (not_a_function "_md5"), zero_rng).
Proof.
  apply (invoke_without_md5 _ node_heap (VRef 0) 1 (VPrim true) VUndefined);
    try (vm_compute; reflexivity); try exact I.
  decide_by_computation.
Defined.

Lemma run_export_library_missing_witness :
  let g := Globals (Some (VRef 0)) None (Some (VRef 10)) Missing Loaded in
  run_export g Md5Genuine (CallEncrypt (js "hi") [] []) zero_rng
  = (Throw (ReferenceError "nacl is not defined"), zero_rng).
Proof.
  exact (proj1 (run_export_library_missing
                  (Globals (Some (VRef 0)) None (Some (VRef 10)) Missing Loaded)
                  Md5Genuine (CallEncrypt (js "hi") [] []) zero_rng) eq_refl).
Defined.
