(* ===== verification/Session.v ===== *)
(** * Session: sequences of calls

    The exported functions share one piece of state, the random source.  A
    session is a sequence of calls a client makes one after the other, each
    guarded so that an exception does not stop the next call.  This file
    proves that what a call takes from the random source depends on which
    function is called and not on its other arguments or on whether it
    throws, that every call of a session therefore runs at a position of
    the source fixed by the calls before it, and that no two envelopes of a
    session have nonces read from overlapping positions. *)

From Stdlib Require Import ZArith Lia List String.
From stdpp Require Import base tactics option list numbers.
From S2P Require Import Prelude JsPrims Decoder Utf8 Encoder Base64.
From S2P Require Import Nacl NaclModel SaltShaker Loader Exports.

(** ** Sessions *)

Section session.
Context `{Primitives}.
Context (g : globals) (b : md5_binding).

(** The calls [cs] made in order from the state [r] of the random source:
    what each call returned or threw, and the state afterwards. *)
Fixpoint session (cs : list call) (r : rng) : list (result retval) * rng :=
  match cs with
  | [] => ([], r)
  | c :: cs =>
      let '(o, r1) := run_export g b c r in
      let '(os, r2) := session cs r1 in
      (o :: os, r2)
  end.

(** The number of random bytes a call takes: [nacl.sign.keyPair()] takes 32
    (line 106), [nacl.randomBytes] is asked for a nonce on lines 133 and
    152; a function that cannot find [nacl] takes none. *)
Definition draws (c : call) : nat :=
  match g_nacl g with
  | Missing => 0
  | Loaded =>
      match c with
      | CallCreate privatekey =>
          if truthy privatekey then 0 else sign_seedLength
      | CallEncrypt _ _ _ => box_nonceLength
      | CallEncryptPSK _ _ => secretbox_nonceLength
      | _ => 0
      end
  end.

(** The position of the random source at which the call number [i] of
    [cs] runs, counted from the start of the session. *)
Definition offset (cs : list call) (i : nat) : nat :=
  sum_list (draws <$> take i cs).

End session.

(** Two states of the random source that deliver the same bytes from now
    on: they may differ in the bytes already delivered. *)
Definition same_future (r r' : rng) : Prop :=
  drawn r = drawn r'
  /\ forall i, (drawn r <= i)%nat -> entropy r i = entropy r' i.

Example session_three :
  let cs := [CallCreate None; CallEncryptPSK (js "hi") (js "k");
             CallSign [0xD800%Z] []; CallEncryptPSK (js "hi") (js "k")] in
  (session node_globals Md5Genuine cs zero_rng).2 = advance 80 zero_rng
  /\ offset node_globals cs <$> [0; 1; 2; 3]%nat = [0; 32; 56; 56]%nat
  /\ is_Ok <$> (session node_globals Md5Genuine cs zero_rng).1
     = [true; true; false; true].
Proof. vm_compute. repeat split; reflexivity. Qed.

(** The calls that take random bytes cannot be reordered: made in the
    other order, each of two [encryptPSK] returns the envelope with the
    other nonce. *)
Example session_order_matters :
  let hi := CallEncryptPSK (js "hi") (js "k") in
  let ho := CallEncryptPSK (js "ho") (js "k") in
  (session node_globals Md5Genuine [hi; ho] zero_rng).1
  <> reverse (session node_globals Md5Genuine [ho; hi] zero_rng).1.
Proof. cbv zeta. decide_by_computation. Qed.

(** ** What a call takes from the random source *)

Section draws.
Context `{Primitives}.
Context (g : globals) (b : md5_binding).
Implicit Types (c : call) (cs : list call) (r : rng) (i j : nat).

Lemma create_draws privatekey r :
  (create privatekey r).2
  = advance (if truthy privatekey then 0 else sign_seedLength) r.
Proof.
  destruct (truthy privatekey) eqn:Ht.
  - rewrite create_rebuilds, advance_0 by done. reflexivity.
  - rewrite create_generates by done. reflexivity.
Qed.

(** With [nacl] there, a function takes what its kind says, whatever the
    other libraries, the arguments and the outcome are. *)
Lemma operation_draws c r :
  g_nacl g = Loaded -> (operation c r).2 = advance (draws g c) r.
Proof.
  intros Hn. unfold draws. rewrite Hn.
  destruct c; cbn [operation]; rewrite ?ST_fmap_snd, ?create_draws, ?advance_0;
    reflexivity.
Qed.

Lemma run_export_draws c r : (run_export g b c r).2 = advance (draws g c) r.
Proof.
  destruct (g_nacl g) eqn:Hn.
  - rewrite run_export_nacl_missing by assumption.
    unfold draws. rewrite Hn, advance_0. reflexivity.
  - rewrite (run_export_cases _ _ _ _ Hn).
    destruct c, (g_ed2curve g), b;
      first [ exact (operation_draws _ r Hn)
            | unfold draws; rewrite Hn, ?advance_0; reflexivity ].
Qed.

End draws.

(** ** Every call runs at its offset *)

Section sessions.
Context `{Primitives}.
Context (g : globals) (b : md5_binding).
Implicit Types (c : call) (cs : list call) (r : rng) (i j : nat).

Lemma session_cons c cs r :
  session g b (c :: cs) r
  = ((run_export g b c r).1 :: (session g b cs (advance (draws g c) r)).1,
     (session g b cs (advance (draws g c) r)).2).
Proof.
  cbn [session]. rewrite <- (run_export_draws g b).
  destruct (run_export g b c r) as [o r1]. cbn [fst snd].
  destruct (session g b cs r1). reflexivity.
Qed.

Lemma offset_0 cs : offset g cs 0 = 0%nat.
Proof. unfold offset. rewrite take_0. reflexivity. Qed.

Lemma offset_S c cs i : offset g (c :: cs) (S i) = (draws g c + offset g cs i)%nat.
Proof. reflexivity. Qed.

Lemma offset_le cs i j : (i <= j)%nat -> (offset g cs i <= offset g cs j)%nat.
Proof.
  revert i j. induction cs as [|c cs IH]; intros i j Hij.
  - unfold offset. rewrite !take_nil. reflexivity.
  - destruct i as [|i], j as [|j]; try lia; rewrite ?offset_S.
    + rewrite offset_0. lia.
    + specialize (IH i j ltac:(lia)). lia.
Qed.

Lemma offset_next cs i c :
  cs !! i = Some c -> offset g cs (S i) = (offset g cs i + draws g c)%nat.
Proof.
  revert i. induction cs as [|c' cs IH]; intros [|i] Hc; try discriminate.
  - injection Hc as ->. rewrite offset_S, !offset_0. lia.
  - rewrite !offset_S, (IH i Hc). lia.
Qed.

Lemma session_state cs r :
  (session g b cs r).2 = advance (offset g cs (length cs)) r.
Proof.
  revert r. induction cs as [|c cs IH]; intros r.
  - symmetry. apply advance_0.
  - rewrite session_cons. cbn [snd length]. rewrite IH, advance_advance, offset_S.
    reflexivity.
Qed.

Lemma session_lookup cs r i c :
  cs !! i = Some c ->
  (session g b cs r).1 !! i
  = Some (run_export g b c (advance (offset g cs i) r)).1.
Proof.
  revert r i. induction cs as [|c' cs IH]; intros r [|i] Hc; try discriminate;
    rewrite session_cons; cbn [fst lookup list_lookup].
  - injection Hc as ->. rewrite offset_0, advance_0. reflexivity.
  - rewrite (IH _ i Hc), advance_advance, offset_S. reflexivity.
Qed.

Lemma session_length cs r : length (session g b cs r).1 = length cs.
Proof.
  revert r. induction cs as [|c cs IH]; intros r; [reflexivity|].
  rewrite session_cons. cbn. rewrite IH. reflexivity.
Qed.

(** An envelope comes from [encrypt] or [encryptPSK]: the call has taken
    24 bytes and the nonce is their base64 text. *)
Lemma run_export_envelope c r e :
  (run_export g b c r).1 = Ok (REnvelope e) ->
  draws g c = box_nonceLength
  /\ nonce e = encodeBase64 (next_bytes box_nonceLength r).
Proof.
  unfold draws. destruct (g_nacl g) eqn:Hn;
    [by rewrite run_export_nacl_missing | rewrite (run_export_cases _ _ _ _ Hn)].
  destruct c, (g_ed2curve g), b; cbn [operation];
    rewrite ?ST_fmap_fst, ?M_bind_randomBytes; unfold lift; cbn [fst];
    intros He; returned; try discriminate;
    try match goal with
        | E : _ = from_option _ _ ?o |- _ => destruct o; discriminate
        end.
  all: split; [reflexivity|].
  all: match goal with
       | He : (_ _).1 = Ok _ |- _ => revert He
       end.
  all: rewrite ?encrypt_run, ?encryptPSK_run; cbn [fst]; intros He; returned;
    reflexivity.
Qed.

End sessions.

(** ** The functions read the random source forwards only *)

#[export] Instance same_future_equivalence : Equivalence same_future.
Proof.
  split.
  - intros r. split; reflexivity.
  - intros r r' [Hd He]. split; [done|]. intros i Hi. symmetry. apply He. lia.
  - intros r1 r2 r3 [Hd He] [Hd' He']. split; [congruence|].
    intros i Hi. rewrite He by done. apply He'. lia.
Qed.

#[export] Instance advance_proper n : Proper (same_future ==> same_future) (advance n).
Proof.
  intros r r' [Hd He]. split; cbn; [lia|]. intros i Hi. apply He. lia.
Qed.

#[export] Instance next_bytes_proper n : Proper (same_future ==> eq) (next_bytes n).
Proof.
  intros r r' [Hd He]. unfold next_bytes. rewrite <- Hd.
  apply list_fmap_ext. intros k i [-> _]%lookup_seq. apply He. lia.
Qed.

Section forwards.
Context `{Primitives}.
Context (g : globals) (b : md5_binding).
Implicit Types (c : call) (cs : list call) (r : rng).

(** What a call returns or throws depends on the random source through
    the bytes it takes only. *)
Lemma operation_reads c r r' :
  g_nacl g = Loaded ->
  next_bytes (draws g c) r = next_bytes (draws g c) r' ->
  (operation c r).1 = (operation c r').1.
Proof.
  intros Hn. unfold draws. rewrite Hn.
  destruct c; cbn [operation]; intros Hb; try reflexivity;
    rewrite !ST_fmap_fst; f_equal.
  - destruct (truthy privatekey) eqn:Ht.
    + rewrite !create_rebuilds by done. reflexivity.
    + rewrite !create_generates, Hb by done. reflexivity.
  - rewrite !encrypt_run. cbn [fst]. rewrite Hb. reflexivity.
  - rewrite !encryptPSK_run. cbn [fst]. rewrite Hb. reflexivity.
Qed.

Lemma run_export_reads c r r' :
  next_bytes (draws g c) r = next_bytes (draws g c) r' ->
  (run_export g b c r).1 = (run_export g b c r').1.
Proof.
  destruct (g_nacl g) eqn:Hn.
  - intros _. by rewrite !run_export_nacl_missing.
  - intros Hb. pose proof (operation_reads c r r' Hn Hb) as Ho.
    rewrite !(run_export_cases _ _ _ _ Hn).
    destruct c, (g_ed2curve g), b; exact Ho || reflexivity.
Qed.

(** A call that takes nothing from the random source does not read it. *)
Lemma run_export_pure c r r' :
  draws g c = 0%nat -> (run_export g b c r).1 = (run_export g b c r').1.
Proof. intros Hd. apply run_export_reads. by rewrite Hd. Qed.

(** A call behaves in the same way from two states of the random source
    that deliver the same bytes, and leaves two such states. *)
#[export] Instance run_export_proper c :
  Proper (same_future ==> prod_relation eq same_future) (run_export g b c).
Proof.
  intros r r' Hr. split.
  - apply run_export_reads. rewrite Hr. reflexivity.
  - rewrite !run_export_draws, Hr. reflexivity.
Qed.

#[export] Instance session_proper cs :
  Proper (same_future ==> prod_relation eq same_future) (session g b cs).
Proof.
  induction cs as [|c cs IH]; intros r r' Hr; [by split|].
  rewrite !session_cons. pose proof (run_export_proper c r r' Hr) as [Ho _].
  assert (Hr' : same_future (advance (draws g c) r) (advance (draws g c) r'))
    by (rewrite Hr; reflexivity).
  destruct (IH _ _ Hr') as [Hos Hs]. split; cbn in *; [congruence | exact Hs].
Qed.

End forwards.

(** ** Sessions: positions and nonces *)

Section session_theorems.
Context `{Primitives}.
Context (g : globals) (b : md5_binding).
Implicit Types (c : call) (cs : list call) (r : rng) (i j : nat).

(** What the call number [i] of a session gave is what its call gives at
    its offset. *)
Lemma session_outcome_inv cs r i o :
  (session g b cs r).1 !! i = Some o ->
  exists c, cs !! i = Some c
            /\ o = (run_export g b c (advance (offset g cs i) r)).1.
Proof.
  intros Ho. pose proof (lookup_lt_Some _ _ _ Ho) as Hi.
  rewrite session_length in Hi. apply lookup_lt_is_Some in Hi as [c Hc].
  exists c. split; [exact Hc|]. rewrite (session_lookup g b cs r i c Hc) in Ho.
  congruence.
Qed.

(** A call that takes nothing from the random source gives the same in
    every session, wherever it stands. *)
Lemma session_independent cs r i cs' r' j c :
  cs !! i = Some c -> cs' !! j = Some c -> draws g c = 0%nat ->
  (session g b cs r).1 !! i = (session g b cs' r').1 !! j.
Proof.
  intros Hi Hj Hd.
  rewrite (session_lookup g b cs r i c Hi), (session_lookup g b cs' r' j c Hj).
  f_equal. by apply run_export_pure.
Qed.

(** A session of such calls is the list of what each of them gives, and
    leaves the random source as it was. *)
Lemma session_pure cs r :
  Forall (fun c => draws g c = 0%nat) cs ->
  session g b cs r = ((fun c => (run_export g b c r).1) <$> cs, r).
Proof.
  induction 1 as [|c cs Hc _ IH]; [reflexivity|].
  by rewrite session_cons, Hc, advance_0, IH.
Qed.

(** Such calls can be made in any order: the same results come in the
    order of the calls. *)
Lemma session_pure_Permutation cs cs' r :
  Forall (fun c => draws g c = 0%nat) cs -> cs ≡ₚ cs' ->
  (session g b cs r).1 ≡ₚ (session g b cs' r).1
  /\ (session g b cs' r).2 = r.
Proof.
  intros Hcs Hp. rewrite !session_pure by (by rewrite <- ?Hp).
  split; [by apply fmap_Permutation | reflexivity].
Qed.

(** C35: the random source through a session.  Whatever the calls return or
    throw, the session leaves the source advanced by the sum of what the
    kinds of its calls take (32 bytes for [create()], 24 for [encrypt] and
    [encryptPSK], none otherwise), and each call has run at the position
    the calls before it determine.  The calls share nothing else: a call
    that takes nothing from the source gives what it gives in any other
    session, from any state of the source and after any other calls. *)
Theorem session_offsets cs r :
  (session g b cs r).2 = advance (offset g cs (length cs)) r
  /\ length (session g b cs r).1 = length cs
  /\ (forall i c, cs !! i = Some c ->
       (session g b cs r).1 !! i
       = Some (run_export g b c (advance (offset g cs i) r)).1)
  /\ (forall i c cs' r' j,
       cs !! i = Some c -> cs' !! j = Some c -> draws g c = 0%nat ->
       (session g b cs r).1 !! i = (session g b cs' r').1 !! j).
Proof.
  split_and!; [apply session_state | apply session_length | |].
  - intros i c. apply session_lookup.
  - intros i c cs' r' j. apply session_independent.
Qed.

(** C24: no nonce is read twice.  Two envelopes returned in one session,
    by [encrypt] or [encryptPSK] in any mixture and with any calls between
    them, failed ones included, have nonces that are the base64 text of
    two windows of 24 bytes of the random source that do not overlap. *)
Theorem session_nonces_disjoint cs r i j ei ej :
  (i < j)%nat ->
  (session g b cs r).1 !! i = Some (Ok (REnvelope ei)) ->
  (session g b cs r).1 !! j = Some (Ok (REnvelope ej)) ->
  exists ni nj,
    (ni + box_nonceLength <= nj)%nat
    /\ nonce ei = encodeBase64 (next_bytes box_nonceLength (advance ni r))
    /\ nonce ej = encodeBase64 (next_bytes box_nonceLength (advance nj r)).
Proof.
  intros Hij (ci & Hci & Hi)%session_outcome_inv (cj & Hcj & Hj)%session_outcome_inv.
  symmetry in Hi, Hj.
  apply run_export_envelope in Hi as [Hd Hni], Hj as [_ Hnj].
  exists (offset g cs i), (offset g cs j). split_and!; [|done..].
  rewrite <- Hd, <- (offset_next g cs i ci Hci). apply offset_le. lia.
Qed.

End session_theorems.

(** ** Witnesses *)

Lemma session_nonces_disjoint_witness :
  let cs := [CallCreate None; CallEncryptPSK (js "hi") (js "k");
             CallSign [0xD800%Z] []; CallEncryptPSK (js "hi") (js "k")] in
  let e n := from_Ok no_envelope (encryptPSK (js "hi") (js "k") (advance n zero_rng)).1 in
  exists ni nj,
    (ni + box_nonceLength <= nj)%nat
    /\ nonce (e 32%nat) = encodeBase64 (next_bytes box_nonceLength (advance ni zero_rng))
    /\ nonce (e 56%nat) = encodeBase64 (next_bytes box_nonceLength (advance nj zero_rng)).
Proof.
  apply (session_nonces_disjoint node_globals Md5Genuine
           [CallCreate None; CallEncryptPSK (js "hi") (js "k");
            CallSign [0xD800%Z] []; CallEncryptPSK (js "hi") (js "k")]
           zero_rng 1 3); [lia | vm_compute; reflexivity..].
Defined.
