(* ===== verification/Typing.v ===== *)
(** * Typing: the values the operations return

    The operations of [src/saltshaker.js] pass keys, nonces and ciphertexts
    as base64 text and messages as strings.  This file states what a value
    of each kind is ([wf_keys], [wf_envelope], [wf_retval]), as decidable
    predicates, and proves that every value an operation returns has the
    type of its kind, and that the keys [create] accepts without change are
    exactly the well-formed ones it produces. *)

From Stdlib Require Import ZArith Lia List String.
From stdpp Require Import base tactics option list numbers.
From S2P Require Import Prelude JsPrims Decoder Utf8 Encoder Base64.
From S2P Require Import Nacl NaclModel SaltShaker Loader Exports.

(** ** The types *)

(** Text that [encodeBase64] produces: it decodes, and encoding the bytes
    gives the text back. *)
Definition base64_text (s : jsstring) : Prop :=
  match decodeBase64 s with
  | Ok b => s = encodeBase64 b
  | Throw _ => False
  end.

(** Base64 text of [n] bytes. *)
Definition base64_of (n : nat) (s : jsstring) : Prop :=
  match decodeBase64 s with
  | Ok b => s = encodeBase64 b /\ length b = n
  | Throw _ => False
  end.

(** The object [create] returns: the base64 text of a 32-byte public key
    and of a 64-byte private key whose second half is the public key. *)
Definition wf_keys (ks : keys) : Prop :=
  match decodeBase64 (publickey ks), decodeBase64 (privatekey ks) with
  | Ok pk, Ok sk =>
      publickey ks = encodeBase64 pk /\ privatekey ks = encodeBase64 sk
      /\ length sk = sign_secretKeyLength /\ pk = drop 32 sk
  | _, _ => False
  end.

(** The object [encrypt] and [encryptPSK] return: base64 text of a box and
    of a 24-byte nonce. *)
Definition wf_envelope (e : envelope) : Prop :=
  base64_text (message e) /\ base64_of box_nonceLength (nonce e).

(** What a call returns. *)
Definition wf_retval (v : retval) : Prop :=
  match v with
  | RKeys ks => wf_keys ks
  | RString s => wf_string s
  | RNull => True
  | REnvelope e => wf_envelope e
  end.

#[export] Instance base64_text_dec s : Decision (base64_text s).
Proof. unfold base64_text. destruct (decodeBase64 s); apply _. Defined.

#[export] Instance base64_of_dec n s : Decision (base64_of n s).
Proof. unfold base64_of. destruct (decodeBase64 s); apply _. Defined.

#[export] Instance wf_keys_dec ks : Decision (wf_keys ks).
Proof.
  unfold wf_keys.
  destruct (decodeBase64 (publickey ks)), (decodeBase64 (privatekey ks)); apply _.
Defined.

#[export] Instance wf_envelope_dec e : Decision (wf_envelope e).
Proof. unfold wf_envelope. apply _. Defined.

#[export] Instance wf_retval_dec v : Decision (wf_retval v).
Proof. destruct v; apply _. Defined.

Example wf_keys_created : wf_keys (created alice).
Proof. decide_by_computation. Qed.

Example wf_keys_swapped :
  ~ wf_keys (Keys (privatekey (created alice)) (publickey (created alice))).
Proof. decide_by_computation. Qed.

(** ** Encoded bytes have the type *)

Section types.
Implicit Types (b pk sk : list byte) (s : jsstring).

Lemma base64_of_encode b : base64_of (length b) (encodeBase64 b).
Proof. unfold base64_of. rewrite decodeBase64_encodeBase64. done. Qed.

Lemma base64_text_encode b : base64_text (encodeBase64 b).
Proof. unfold base64_text. rewrite decodeBase64_encodeBase64. done. Qed.

Lemma base64_text_wf s : base64_text s -> wf_string s.
Proof.
  unfold base64_text. destruct (decodeBase64 s); [|done].
  intros ->. apply encodeBase64_wf.
Qed.

(** The keys of a key pair whose public key is the second half of its
    64-byte secret key. *)
Lemma wf_keys_of (kp : keyPair) :
  length (secretKey kp) = sign_secretKeyLength ->
  publicKey kp = drop 32 (secretKey kp) -> wf_keys (keys_of kp).
Proof.
  intros Hl Hp. unfold wf_keys, keys_of. cbn [publickey privatekey].
  rewrite !decodeBase64_encodeBase64. done.
Qed.

Lemma wf_keys_inv ks :
  wf_keys ks ->
  exists sk, length sk = sign_secretKeyLength
    /\ ks = Keys (encodeBase64 (drop 32 sk)) (encodeBase64 sk).
Proof.
  unfold wf_keys. destruct ks as [pub priv]. cbn [publickey privatekey].
  destruct (decodeBase64 pub) as [pk|]; [|done].
  destruct (decodeBase64 priv) as [sk|]; [|done].
  intros (-> & -> & Hl & ->). eauto.
Qed.

End types.

(** ** Every value an operation returns has its type *)

Section typing.
Context `{Primitives}.
Implicit Types (msg key pubkey privkey : jsstring) (g : rng).

Lemma fromSecretKey_Ok sk kp :
  nacl_sign_keyPair_fromSecretKey sk = Ok kp ->
  length sk = sign_secretKeyLength /\ kp = KeyPair (drop 32 sk) sk.
Proof.
  unfold nacl_sign_keyPair_fromSecretKey. case_decide as Hl; [|discriminate].
  intros [= <-]. split; [done|]. f_equal. apply take_ge.
  rewrite length_drop, Hl. reflexivity.
Qed.

Lemma create_wf privatekey g ks g' :
  create privatekey g = (Ok ks, g') -> wf_keys ks.
Proof.
  destruct (truthy privatekey) eqn:Ht.
  - rewrite create_rebuilds by done. intros [= Hk _]. returned.
    match goal with H : _ = Ok _ |- _ => apply fromSecretKey_Ok in H as [Hl ->] end.
    by apply wf_keys_of.
  - rewrite create_generates by done. intros [= <- _].
    apply wf_keys_of; [apply keypair_secretKey_length | symmetry; apply keypair_secretKey_public];
      apply next_bytes_length.
Qed.

Lemma decoder_nullable_wf opened s : _decoder_nullable opened = Ok s -> wf_string s.
Proof.
  destruct opened; [intros [= <-] | discriminate]. decoder_ref. apply decode_ref_wf.
Qed.

Lemma sign_wf msg privkey s : sign msg privkey = Ok s -> wf_string s.
Proof. unfold sign. intros Hs. returned. apply encodeBase64_wf. Qed.

Lemma verify_wf signedmsg pubkey v :
  verify signedmsg pubkey = Ok v -> from_option wf_string True v.
Proof.
  unfold verify. intros Hv. returned.
  match goal with |- context [match ?o with _ => _ end] => destruct o end;
    [decoder_ref; apply decode_ref_wf | done].
Qed.

Lemma decrypt_wf msg nonce pubkey privkey s :
  decrypt msg nonce pubkey privkey = Ok s -> wf_string s.
Proof. unfold decrypt. intros Hd. returned. eauto using decoder_nullable_wf. Qed.

Lemma decryptPSK_wf msg key nonce s :
  decryptPSK msg key nonce = Ok s -> wf_string s.
Proof. unfold decryptPSK. intros Hd. returned. eauto using decoder_nullable_wf. Qed.

Lemma envelope_wf box g : wf_envelope (Envelope (encodeBase64 box)
                                        (encodeBase64 (next_bytes box_nonceLength g))).
Proof.
  split; [apply base64_text_encode|]. cbn [nonce].
  rewrite <- (next_bytes_length box_nonceLength g) at 1. apply base64_of_encode.
Qed.

Lemma encrypt_wf msg pubkey privkey g e g' :
  encrypt msg pubkey privkey g = (Ok e, g') -> wf_envelope e.
Proof. rewrite encrypt_run. intros [= He _]. returned. apply envelope_wf. Qed.

Lemma encryptPSK_wf msg key g e g' :
  encryptPSK msg key g = (Ok e, g') -> wf_envelope e.
Proof. rewrite encryptPSK_run. intros [= He _]. returned. apply envelope_wf. Qed.

(** *** Well-typed arguments are accepted

    The other direction: keys of the type [create] returns are keys [sign]
    and [verify] accept, whatever key pair they belong to. *)

Lemma sign_accepts_wf_keys msg ks m :
  wf_keys ks -> decodeUTF8 msg = Ok m ->
  exists sk, decodeBase64 (privatekey ks) = Ok sk
    /\ sign msg (privatekey ks) = Ok (encodeBase64 (crypto_sign m sk)).
Proof.
  intros (sk & Hl & ->)%wf_keys_inv Hm. exists sk. cbn [privatekey].
  rewrite decodeBase64_encodeBase64, (sign_run _ m) by done.
  unfold nacl_sign. rewrite decide_True by done. done.
Qed.

Lemma verify_accepts_wf_keys signedmsg ks :
  wf_keys ks -> base64_text signedmsg ->
  exists v, verify signedmsg (publickey ks) = Ok v.
Proof.
  intros (sk & Hl & ->)%wf_keys_inv Hs. cbn [publickey].
  unfold base64_text in Hs. destruct (decodeBase64 signedmsg) as [sm|] eqn:Hsm; [|done].
  rewrite (verify_run _ _ sm (drop 32 sk))
    by (done || apply decodeBase64_encodeBase64).
  rewrite nacl_sign_open_sized by (rewrite length_drop, Hl; reflexivity).
  eauto.
Qed.

End typing.

Section well_typed.
Context `{Primitives}.

(** C17: every exported operation returns a value of its type: [create]
    returns well-formed keys (base64 text of a 64-byte secret key and of its
    second half), [sign], [decrypt] and [decryptPSK] a string of 16-bit code
    units, [verify] such a string or [null], [encrypt] and [encryptPSK] an
    envelope of base64 text whose nonce has 24 bytes. *)
Theorem operation_well_typed (c : call) (g g' : rng) (v : retval) :
  operation c g = (Ok v, g') -> wf_retval v.
Proof.
  destruct c; cbn [operation]; intros Hc; returned; cbn [wf_retval];
    eauto using create_wf, sign_wf, decrypt_wf, decryptPSK_wf, encrypt_wf,
      encryptPSK_wf.
  match goal with H : verify _ _ = Ok ?o |- _ =>
    apply verify_wf in H; destruct o; [exact H | exact I] end.
Qed.

(** [create] is the identity on well-formed keys: given the private
    key of keys of the type [create] returns, it returns those keys and
    leaves the random source alone. *)
Lemma create_well_formed_id (ks : keys) (g : rng) :
  wf_keys ks -> create (Some (privatekey ks)) g = (Ok ks, g).
Proof.
  intros (sk & Hl & ->)%wf_keys_inv. cbn [privatekey].
  rewrite create_rebuilds
    by (apply truthy_encodeBase64; intros ->; discriminate Hl).
  change (string_of (Some ?s)) with s.
  rewrite decodeBase64_encodeBase64. cbn [mbind result_bind].
  unfold nacl_sign_keyPair_fromSecretKey. rewrite decide_True by done.
  rewrite take_ge by (rewrite length_drop, Hl; reflexivity). reflexivity.
Qed.

End well_typed.

(** ** Witnesses *)

Lemma operation_well_typed_witness :
  operation (CallEncryptPSK astral_text [0x6B]%Z) alice
  = (Ok (REnvelope (from_Ok no_envelope (encryptPSK astral_text [0x6B]%Z alice).1)),
     advance 24 alice)
  /\ wf_retval (REnvelope (from_Ok no_envelope (encryptPSK astral_text [0x6B]%Z alice).1)).
Proof.
  assert (Hrun : operation (CallEncryptPSK astral_text [0x6B]%Z) alice
    = (Ok (REnvelope (from_Ok no_envelope (encryptPSK astral_text [0x6B]%Z alice).1)),
       advance 24 alice)) by (vm_compute; reflexivity).
  split; [exact Hrun | exact (operation_well_typed _ _ _ _ Hrun)].
Defined.

Lemma create_well_formed_id_witness :
  wf_keys (created alice)
  /\ create (Some (privatekey (created alice))) bob = (Ok (created alice), bob).
Proof.
  assert (Hwf : wf_keys (created alice)) by decide_by_computation.
  split; [exact Hwf | exact (create_well_formed_id _ _ Hwf)].
Defined.
