(* ===== verification/ApiSpec.v ===== *)
(** * ApiSpec: the contract of the seven operations

    What the design document of the program promises of a call, independent
    of how [src/saltshaker.js] computes it: which inputs are rejected and
    with which of the four failures of its error taxonomy
    ([InvalidKeyError], [KeyConversionError], [AuthenticationError],
    [EncodingError]), and what a call returns when it succeeds, in terms of
    the primitives alone.  The contract is a relation [allowed g c o]: the
    call [c], made when the random source is in state [g], may have the
    outcome [o].  It is a relation because the document leaves open which
    failure is reported when several apply (a key that is not base64 is
    both a malformed key and a malformed encoding).

    The file also proves what makes the contract usable: a call that may
    succeed has one result and may not fail, a failure names a defect of
    the inputs, and every call whose text can be encoded has an outcome.
    The outcomes allowed are finitely many: [outcomes] lists them, which
    makes [allowed] decidable.  [Refinement] shows how the program
    implements the contract. *)

From Stdlib Require Import ZArith Lia List String.
From stdpp Require Import base tactics option list numbers.
From S2P Require Import Prelude JsPrims Decoder Utf8 Encoder Base64 Nacl SaltShaker Loader Exports.

(** ** Failures and outcomes *)

Inductive spec_error : Type :=
  | InvalidKeyError
  | KeyConversionError
  | AuthenticationError
  | EncodingError.

#[export] Instance spec_error_eq_dec : EqDecision spec_error.
Proof. solve_decision. Defined.

(** A call returns a value or fails; it never does both, and a failure
    carries no partial result. *)
Inductive outcome (A : Type) : Type :=
  | Returns (a : A)
  | Fails (e : spec_error).

Arguments Returns {A} a.
Arguments Fails {A} e.

#[export] Instance outcome_eq_dec {A} `{EqDecision A} : EqDecision (outcome A).
Proof. solve_decision. Defined.

(** ** Inputs that cross the trust boundary *)

(** A base64 argument of a call: a byte string of any length (a ciphertext,
    a nonce, a signed message) or a key of a fixed size. *)
Inductive field : Type :=
  | Blob (s : jsstring)
  | Key (n : nat) (s : jsstring).

Definition inputs (c : call) : list field :=
  match c with
  | CallCreate None => []
  | CallCreate (Some privatekey) => [Key sign_secretKeyLength privatekey]
  | CallSign _ privkey => [Key sign_secretKeyLength privkey]
  | CallVerify signedmsg pubkey => [Blob signedmsg; Key sign_publicKeyLength pubkey]
  | CallEncrypt _ pubkey privkey =>
      [Key sign_publicKeyLength pubkey; Key sign_secretKeyLength privkey]
  | CallDecrypt msg nonce pubkey privkey =>
      [Blob msg; Blob nonce;
       Key sign_publicKeyLength pubkey; Key sign_secretKeyLength privkey]
  | CallEncryptPSK _ _ => []
  | CallDecryptPSK msg _ nonce => [Blob msg; Blob nonce]
  end.

(** The bytes a well-formed field holds. *)
Definition holds (f : field) (b : list byte) : Prop :=
  match f with
  | Blob s => decodeBase64 s = Ok b
  | Key n s => decodeBase64 s = Ok b /\ length b = n
  end.

(** The failure a field may be rejected with. *)
Inductive rejected : field -> spec_error -> Prop :=
  | blob_malformed s e :
      decodeBase64 s = Throw e -> rejected (Blob s) EncodingError
  | key_malformed n s e :
      decodeBase64 s = Throw e -> rejected (Key n s) EncodingError
  | key_malformed_key n s e :
      decodeBase64 s = Throw e -> rejected (Key n s) InvalidKeyError
  | key_wrong_size n s b :
      decodeBase64 s = Ok b -> length b <> n -> rejected (Key n s) InvalidKeyError.

(** The failures a field may be rejected with, and the bytes it holds
    when it is rejected with none: [rejected] and [holds] as functions. *)
Definition rejections (f : field) : list spec_error :=
  match f with
  | Blob s =>
      match decodeBase64 s with Ok _ => [] | Throw _ => [EncodingError] end
  | Key n s =>
      match decodeBase64 s with
      | Ok b => if decide (length b = n) then [] else [InvalidKeyError]
      | Throw _ => [EncodingError; InvalidKeyError]
      end
  end.

Definition content (f : field) : option (list byte) :=
  match f with
  | Blob s => match decodeBase64 s with Ok b => Some b | Throw _ => None end
  | Key n s =>
      match decodeBase64 s with
      | Ok b => if decide (length b = n) then Some b else None
      | Throw _ => None
      end
  end.

(** The text a call asks to sign or to seal. *)
Definition plaintext (c : call) : option jsstring :=
  match c with
  | CallSign msg _ | CallEncrypt msg _ _ | CallEncryptPSK msg _ => Some msg
  | _ => None
  end.

(** An outcome that is reached only after every input was accepted: a
    value, or a failure of the cryptography. *)
Definition validated {A} (o : outcome A) : Prop :=
  match o with
  | Returns _ | Fails KeyConversionError | Fails AuthenticationError => True
  | Fails InvalidKeyError | Fails EncodingError => False
  end.

#[export] Instance validated_dec {A} (o : outcome A) : Decision (validated o).
Proof. destruct o as [a|[]]; apply _. Defined.

(** ** What the operations compute *)

Section contract.
Context `{Primitives}.

(** [decodeToText]: the decoder of one-, two- and three-byte forms. *)
Definition decodeToText (m : list byte) : jsstring := decode_ref m.

(** The key pair of a private key: the public key is its second half. *)
Definition rebuilt (sk : list byte) : keys :=
  Keys (encodeBase64 (drop 32 sk)) (encodeBase64 sk).

(** The key a passphrase derives: the characters of its digest, one byte
    each. *)
Definition derived_key (passphrase : jsstring) : list byte :=
  byte_of_Z <$> md5 passphrase.

(** The key of a box between a converted public key and a private key. *)
Definition box_key (pk' sk : list byte) : list byte :=
  crypto_box_beforenm pk' (convertSecretKey sk).

(** An envelope: the sealed message and the nonce it was sealed with. *)
Definition sealed (m nonce key : list byte) : envelope :=
  Envelope (encodeBase64 (crypto_secretbox m nonce key)) (encodeBase64 nonce).

(** Opening an envelope; a nonce of the wrong size opens nothing. *)
Definition unsealed (box nonce key : list byte) : option (list byte) :=
  if decide (length nonce = secretbox_nonceLength)
  then crypto_secretbox_open box nonce key
  else None.

(** The nonce of a call made in state [g]. *)
Definition fresh_nonce (g : rng) : list byte := next_bytes secretbox_nonceLength g.

(** ** The contract *)

Inductive allowed (g : rng) : call -> outcome retval -> Prop :=
  | spec_invalid_input c f e :
      f ∈ inputs c -> rejected f e -> allowed g c (Fails e)
  | spec_create_fresh :
      allowed g (CallCreate None) (Returns (RKeys (created g)))
  | spec_create_rebuild privatekey sk :
      holds (Key sign_secretKeyLength privatekey) sk ->
      allowed g (CallCreate (Some privatekey)) (Returns (RKeys (rebuilt sk)))
  | spec_sign msg privkey m sk :
      decodeUTF8 msg = Ok m ->
      holds (Key sign_secretKeyLength privkey) sk ->
      allowed g (CallSign msg privkey)
        (Returns (RString (encodeBase64 (crypto_sign m sk))))
  | spec_verify signedmsg pubkey sm pk m :
      holds (Blob signedmsg) sm -> holds (Key sign_publicKeyLength pubkey) pk ->
      crypto_sign_open sm pk = Some m ->
      allowed g (CallVerify signedmsg pubkey) (Returns (RString (decodeToText m)))
  | spec_verify_not_verified signedmsg pubkey sm pk :
      holds (Blob signedmsg) sm -> holds (Key sign_publicKeyLength pubkey) pk ->
      crypto_sign_open sm pk = None ->
      allowed g (CallVerify signedmsg pubkey) (Returns RNull)
  | spec_encrypt msg pubkey privkey m pk sk pk' :
      decodeUTF8 msg = Ok m ->
      holds (Key sign_publicKeyLength pubkey) pk ->
      holds (Key sign_secretKeyLength privkey) sk ->
      convertPublicKey pk = Some pk' ->
      allowed g (CallEncrypt msg pubkey privkey)
        (Returns (REnvelope (sealed m (fresh_nonce g) (box_key pk' sk))))
  | spec_encrypt_unconvertible msg pubkey privkey m pk sk :
      decodeUTF8 msg = Ok m ->
      holds (Key sign_publicKeyLength pubkey) pk ->
      holds (Key sign_secretKeyLength privkey) sk ->
      convertPublicKey pk = None ->
      allowed g (CallEncrypt msg pubkey privkey) (Fails KeyConversionError)
  | spec_decrypt msg nonce pubkey privkey box n pk sk pk' m :
      holds (Blob msg) box -> holds (Blob nonce) n ->
      holds (Key sign_publicKeyLength pubkey) pk ->
      holds (Key sign_secretKeyLength privkey) sk ->
      convertPublicKey pk = Some pk' ->
      unsealed box n (box_key pk' sk) = Some m ->
      allowed g (CallDecrypt msg nonce pubkey privkey)
        (Returns (RString (decodeToText m)))
  | spec_decrypt_unconvertible msg nonce pubkey privkey box n pk sk :
      holds (Blob msg) box -> holds (Blob nonce) n ->
      holds (Key sign_publicKeyLength pubkey) pk ->
      holds (Key sign_secretKeyLength privkey) sk ->
      convertPublicKey pk = None ->
      allowed g (CallDecrypt msg nonce pubkey privkey) (Fails KeyConversionError)
  | spec_decrypt_unauthentic msg nonce pubkey privkey box n pk sk pk' :
      holds (Blob msg) box -> holds (Blob nonce) n ->
      holds (Key sign_publicKeyLength pubkey) pk ->
      holds (Key sign_secretKeyLength privkey) sk ->
      convertPublicKey pk = Some pk' ->
      unsealed box n (box_key pk' sk) = None ->
      allowed g (CallDecrypt msg nonce pubkey privkey) (Fails AuthenticationError)
  | spec_encryptPSK msg key m :
      decodeUTF8 msg = Ok m ->
      allowed g (CallEncryptPSK msg key)
        (Returns (REnvelope (sealed m (fresh_nonce g) (derived_key key))))
  | spec_decryptPSK msg key nonce box n m :
      holds (Blob msg) box -> holds (Blob nonce) n ->
      unsealed box n (derived_key key) = Some m ->
      allowed g (CallDecryptPSK msg key nonce) (Returns (RString (decodeToText m)))
  | spec_decryptPSK_unauthentic msg key nonce box n :
      holds (Blob msg) box -> holds (Blob nonce) n ->
      unsealed box n (derived_key key) = None ->
      allowed g (CallDecryptPSK msg key nonce) (Fails AuthenticationError).

(** ** The contract as a function

    The outcomes the contract allows are finitely many and can be listed:
    one failure for each way in which an input may be rejected, and what
    the call does once its inputs are accepted. *)

(** The UTF-8 bytes of a text that has them. *)
Definition utf8 (msg : jsstring) : option (list byte) :=
  match decodeUTF8 msg with Ok m => Some m | Throw _ => None end.

Definition opened (o : option (list byte)) : outcome retval :=
  match o with
  | Some m => Returns (RString (decodeToText m))
  | None => Fails AuthenticationError
  end.

Definition converted (pk : list byte) (k : list byte -> outcome retval)
  : outcome retval :=
  match convertPublicKey pk with
  | Some pk' => k pk'
  | None => Fails KeyConversionError
  end.

(** What a call does when every input is accepted; [None] when an input
    is not, or when the text cannot be encoded. *)
Definition proceeds (g : rng) (c : call) : option (outcome retval) :=
  match c with
  | CallCreate None => Some (Returns (RKeys (created g)))
  | CallCreate (Some privatekey) =>
      sk ← content (Key sign_secretKeyLength privatekey);
      Some (Returns (RKeys (rebuilt sk)))
  | CallSign msg privkey =>
      m ← utf8 msg; sk ← content (Key sign_secretKeyLength privkey);
      Some (Returns (RString (encodeBase64 (crypto_sign m sk))))
  | CallVerify signedmsg pubkey =>
      sm ← content (Blob signedmsg); pk ← content (Key sign_publicKeyLength pubkey);
      Some (match crypto_sign_open sm pk with
            | Some m => Returns (RString (decodeToText m))
            | None => Returns RNull
            end)
  | CallEncrypt msg pubkey privkey =>
      m ← utf8 msg; pk ← content (Key sign_publicKeyLength pubkey);
      sk ← content (Key sign_secretKeyLength privkey);
      Some (converted pk (fun pk' =>
              Returns (REnvelope (sealed m (fresh_nonce g) (box_key pk' sk)))))
  | CallDecrypt msg nonce pubkey privkey =>
      box ← content (Blob msg); n ← content (Blob nonce);
      pk ← content (Key sign_publicKeyLength pubkey);
      sk ← content (Key sign_secretKeyLength privkey);
      Some (converted pk (fun pk' => opened (unsealed box n (box_key pk' sk))))
  | CallEncryptPSK msg key =>
      m ← utf8 msg;
      Some (Returns (REnvelope (sealed m (fresh_nonce g) (derived_key key))))
  | CallDecryptPSK msg key nonce =>
      box ← content (Blob msg); n ← content (Blob nonce);
      Some (opened (unsealed box n (derived_key key)))
  end.

Definition outcomes (g : rng) (c : call) : list (outcome retval) :=
  (Fails <$> (inputs c ≫= rejections)) ++ option_list (proceeds g c).

End contract.

#[export] Hint Constructors rejected : salt.

(** ** The contract determines the outcome of a successful call *)

(** A field is well formed or rejected. *)
Lemma field_cases (f : field) : (exists b, holds f b) \/ (exists e, rejected f e).
Proof.
  destruct f as [s|n s]; cbn [holds]; destruct (decodeBase64 s) as [b|e] eqn:E;
    eauto with salt.
  destruct (decide (length b = n)); eauto with salt.
Qed.

Lemma rejections_spec (f : field) (e : spec_error) :
  e ∈ rejections f <-> rejected f e.
Proof.
  split.
  - destruct f as [s|n s]; cbn [rejections];
      destruct (decodeBase64 s) eqn:E; try case_decide;
      rewrite ?elem_of_cons, ?elem_of_nil; intros Hin; destruct_or?;
      subst; try done; eauto with salt.
  - destruct 1 as [s e E|n s e E|n s e E|n s b E Hn]; cbn [rejections];
      rewrite E, ?decide_False by done; rewrite ?elem_of_cons; auto.
Qed.

Lemma content_spec (f : field) (b : list byte) : content f = Some b <-> holds f b.
Proof.
  destruct f as [s|n s]; cbn [content holds];
    destruct (decodeBase64 s) eqn:E; try case_decide; intuition congruence.
Qed.

Lemma holds_unique (f : field) (b b' : list byte) : holds f b -> holds f b' -> b = b'.
Proof. destruct f; cbn [holds]; intros; destruct_and?; congruence. Qed.

Lemma holds_not_rejected (f : field) (b : list byte) (e : spec_error) :
  holds f b -> rejected f e -> False.
Proof. destruct 2; cbn [holds] in *; destruct_and?; congruence. Qed.

(** Identify the bytes two derivations read from the same field, and close
    the cases in which a field both holds bytes and is rejected. *)
Ltac same_fields :=
  repeat match goal with
    | H : holds ?f ?b, H' : holds ?f ?b' |- _ =>
        pose proof (holds_unique f b b' H H'); clear H'; subst
    | H : holds ?f _, H' : rejected ?f _ |- _ =>
        destruct (holds_not_rejected _ _ _ H H')
    | H : _ ∈ inputs _ |- _ =>
        cbn [inputs] in H; rewrite ?elem_of_cons, ?elem_of_nil in H
    | H : _ \/ _ |- _ => destruct H
    | H : ?f = _ |- _ => is_var f; subst f
    | H : False |- _ => destruct H
    end.

Section contract_facts.
Context `{Primitives}.
Implicit Types (g : rng) (c : call) (v : retval) (e : spec_error).

Lemma allowed_Returns_unique g c v v' :
  allowed g c (Returns v) -> allowed g c (Returns v') -> v = v'.
Proof.
  inversion 1; subst; inversion 1; subst; same_fields; congruence.
Qed.

Lemma allowed_Returns_not_Fails g c v e :
  allowed g c (Returns v) -> allowed g c (Fails e) -> False.
Proof.
  inversion 1; subst; inversion 1; subst; same_fields; congruence.
Qed.

(** A failure names a defect: an input that is rejected, a public key
    that has no counterpart on the encryption curve, or an envelope that
    does not open. *)
Lemma allowed_Fails_reason g c e :
  allowed g c (Fails e) ->
  (exists f, f ∈ inputs c /\ rejected f e)
  \/ (e = KeyConversionError /\ (callee c = Encrypt \/ callee c = Decrypt))
  \/ (e = AuthenticationError /\ (callee c = Decrypt \/ callee c = DecryptPSK)).
Proof. inversion 1; subst; cbn [callee]; eauto 6. Qed.

(** A call that returns, or fails for a reason that is not its inputs,
    had inputs that are all well formed. *)
Lemma allowed_inputs_hold g c (o : outcome retval) :
  allowed g c o -> validated o -> Forall (fun f => exists b, holds f b) (inputs c).
Proof.
  destruct 1 as [c f e _ Hr| | | | | | | | | | | | |]; cbn [inputs]; intros Hv;
    [by destruct Hr | repeat constructor; eauto ..].
Qed.

Lemma utf8_Some msg m : utf8 msg = Some m <-> decodeUTF8 msg = Ok m.
Proof. unfold utf8. destruct (decodeUTF8 msg); naive_solver. Qed.

Lemma proceeds_allowed g c o : proceeds g c = Some o -> allowed g c o.
Proof.
  destruct c as [[s|]|msg k|sm pk|msg pk sk|box n pk sk|msg k|box k n];
    cbn [proceeds]; intros Hp;
    repeat (apply bind_Some in Hp as (? & ? & Hp)); injection Hp as <-;
    repeat match goal with
      | H : content _ = Some _ |- _ => apply content_spec in H
      | H : utf8 _ = Some _ |- _ => apply utf8_Some in H
      end;
    unfold converted, opened; repeat case_match; eauto using allowed.
Qed.

Lemma allowed_proceeds g c o :
  allowed g c o -> validated o -> proceeds g c = Some o.
Proof.
  destruct 1 as [c f e _ Hr| | | | | | | | | | | | |]; intros Hv;
    [by destruct Hr|..]; cbn [proceeds];
    repeat match goal with
      | H : holds _ _ |- _ => apply content_spec in H; rewrite H
      | H : decodeUTF8 _ = Ok _ |- _ => apply utf8_Some in H; rewrite H
      end;
    cbn [mbind option_bind]; unfold converted, opened;
    repeat match goal with H : _ = _ |- _ => rewrite H end; reflexivity.
Qed.

(** The contract says something of every call whose text can be encoded:
    where the program departs from it, it is not for want of an outcome
    the contract would accept. *)
Lemma allowed_total g c :
  (forall msg, plaintext c = Some msg -> exists m, decodeUTF8 msg = Ok m) ->
  exists o, allowed g c o.
Proof.
  intros Hm. destruct (proceeds g c) as [o|] eqn:Hp; [eauto using proceeds_allowed|].
  assert (exists f, f ∈ inputs c /\ content f = None) as (f & Hf & Hc).
  { destruct c as [[s|]|msg k|sm pk|msg pk sk|box n pk sk|msg k|box k n];
      cbn [proceeds inputs] in *;
      try (destruct (Hm msg eq_refl) as [m Em%utf8_Some]; rewrite Em in Hp);
      cbn [mbind option_bind] in Hp;
      repeat match type of Hp with
        | context [content ?f] =>
            destruct (content f) eqn:?;
              [ cbn [mbind option_bind] in Hp
              | exists f; split; [|done];
                repeat first [apply list_elem_of_here | apply list_elem_of_further] ]
        end;
      discriminate. }
  destruct (field_cases f) as [[b Hb%content_spec]|[e He]]; [congruence|].
  eauto using allowed.
Qed.

(** The outcomes the contract allows are the ones [outcomes] lists. *)
Lemma allowed_iff_outcomes g c o : allowed g c o <-> o ∈ outcomes g c.
Proof.
  unfold outcomes. rewrite elem_of_app, list_elem_of_fmap. split.
  - intros Ha. destruct (decide (validated o)) as [Hv|Hv].
    + right. rewrite (allowed_proceeds g c o Ha Hv). by left.
    + left. inversion Ha; subst; try by destruct Hv.
      eexists. split; [reflexivity|]. apply list_elem_of_bind.
      eexists. by rewrite rejections_spec.
  - intros [(e & -> & (f & He & Hf)%list_elem_of_bind)|Hp].
    + apply (spec_invalid_input _ _ f); [done | by apply rejections_spec].
    + apply proceeds_allowed. destruct (proceeds g c); [|by apply elem_of_nil in Hp].
      by apply list_elem_of_singleton in Hp as ->.
Qed.

(** When every input of a call is well formed, the contract allows one
    outcome only: what the call does once its inputs are accepted. *)
Lemma allowed_accepted g c o :
  Forall (fun f => is_Some (content f)) (inputs c) ->
  allowed g c o <-> proceeds g c = Some o.
Proof.
  intros Hin. split; [|apply proceeds_allowed].
  rewrite allowed_iff_outcomes. unfold outcomes.
  assert (inputs c ≫= rejections = []) as ->.
  { induction Hin as [|f fs [b Hb%content_spec] _ IH]; [reflexivity|]. cbn.
    rewrite IH, app_nil_r. destruct (rejections f) as [|e es] eqn:Er; [reflexivity|].
    destruct (holds_not_rejected f b e Hb). apply rejections_spec. rewrite Er. by left. }
  destruct (proceeds g c); cbn; [by intros ->%list_elem_of_singleton|].
  by intros ?%elem_of_nil.
Qed.

#[export] Instance allowed_dec g c o : Decision (allowed g c o).
Proof.
  refine (cast_if (decide (o ∈ outcomes g c))); by rewrite allowed_iff_outcomes.
Defined.

End contract_facts.
