(* ===== verification/Refinement.v ===== *)
(** * Refinement: the program against its contract

    [ApiSpec.allowed] says what a call may do; [Exports.operation] is what
    [src/saltshaker.js] does.  The two are related by an abstraction of the
    results: a value returned is the value of the contract, an exception is
    read as one of the four failures by its constructor and message
    ([spec_error_of]).  The exceptions that are no failure of the contract
    ([URIError], [ReferenceError], a [TypeError] of the language) have no
    abstraction.

    The program implements the contract on the calls of [in_contract]: the
    message has no unpaired surrogate, the argument of [create] is not the
    empty string, and the keys given to [encrypt] and [decrypt], when they
    are base64, have the sizes of signing keys.  Outside of it the program
    does something the contract does not allow, and the last part of the
    file shows a call for each of the three conditions.

    The comparison is made on the program's terms in two places.  The
    program throws what its libraries and the engine throw, and
    [spec_error_of] reads a [TypeError] on [null.length] and an [Error]
    on the size of a nonce as the [AuthenticationError] of the contract.
    The contract's passphrase key and decoder ([ApiSpec.derived_key],
    [ApiSpec.decodeToText]) are those of the program.  The statements on
    [encryptPSK] and [decryptPSK] therefore say that the program seals and
    opens with one and the same key, not that the key is the one a reader
    of section 4.1 of the design document would compute. *)

From Stdlib Require Import ZArith Lia List String.
From stdpp Require Import base tactics option list numbers strings.
From S2P Require Import Prelude JsPrims Decoder Utf8 Encoder Base64 Nacl NaclModel.
From S2P Require Import SaltShaker Loader Exports ApiSpec.

(** ** Abstraction of results *)

Definition spec_error_of (e : exn) : option spec_error :=
  match e with
  | Error msg =>
      if decide (msg = "bad nonce size") then Some AuthenticationError
      else if decide (msg ∈ ["bad secret key size"; "bad public key size";
                              "bad key size"])
      then Some InvalidKeyError
      else None
  | TypeError msg =>
      if decide (msg = "invalid encoding") then Some EncodingError
      else if decide (msg = "unexpected type, use Uint8Array")
      then Some KeyConversionError
      else if decide (msg = "Cannot read property 'length' of null")
      then Some AuthenticationError
      else None
  | URIError _ | ReferenceError _ => None
  end.

Definition abstract {A} (r : result A) : option (outcome A) :=
  match r with
  | Ok a => Some (Returns a)
  | Throw e => Fails <$> spec_error_of e
  end.

(** Two key arguments of [encrypt] or [decrypt] that are both base64 have
    the sizes of a public and of a private signing key. *)
Definition sized (pubkey privkey : jsstring) : Prop :=
  match decodeBase64 pubkey, decodeBase64 privkey with
  | Ok pk, Ok sk =>
      length pk = sign_publicKeyLength /\ length sk = sign_secretKeyLength
  | _, _ => True
  end.

#[export] Instance sized_dec pubkey privkey : Decision (sized pubkey privkey).
Proof.
  unfold sized. destruct (decodeBase64 pubkey), (decodeBase64 privkey); apply _.
Defined.

(** The calls on which the program implements the contract. *)
Definition in_contract (c : call) : Prop :=
  match c with
  | CallCreate privatekey => privatekey <> Some []
  | CallSign msg _ => well_paired msg
  | CallVerify _ _ => True
  | CallEncrypt msg pubkey privkey => well_paired msg /\ sized pubkey privkey
  | CallDecrypt msg nonce pubkey privkey =>
      is_Ok (decodeBase64 msg) -> is_Ok (decodeBase64 nonce) -> sized pubkey privkey
  | CallEncryptPSK msg _ => well_paired msg
  | CallDecryptPSK _ _ _ => True
  end.

#[export] Instance in_contract_dec c : Decision (in_contract c).
Proof. destruct c; apply _. Defined.

Section implements.
Context `{Primitives}.

(** The result [r] of the call [c] is one the contract allows. *)
Definition implements (g : rng) (c : call) (r : result retval) : Prop :=
  match abstract r with
  | Some o => allowed g c o
  | None => False
  end.

#[export] Instance implements_dec g c r : Decision (implements g c r).
Proof. unfold implements. destruct (abstract r); apply _. Defined.

End implements.

(** ** The cases of the proof *)

Section refinement.
Context `{Primitives}.
Implicit Types (g : rng) (c : call) (msg key pubkey privkey nonce : jsstring).

Lemma implements_Throw g c e se :
  spec_error_of e = Some se -> allowed g c (Fails se) -> implements g c (Throw e).
Proof. intros He Ha. unfold implements. cbn [abstract]. rewrite He. exact Ha. Qed.

(** An argument that is not base64 is reported as [EncodingError]. *)
Lemma implements_malformed g c f e :
  f ∈ inputs c -> rejected f EncodingError ->
  e = TypeError "invalid encoding" -> implements g c (Throw e).
Proof.
  intros Hf Hr ->. apply (implements_Throw _ _ _ EncodingError); [reflexivity|].
  by apply (spec_invalid_input _ _ f).
Qed.

Lemma implements_malformed_blob g c s e :
  Blob s ∈ inputs c -> decodeBase64 s = Throw e -> implements g c (Throw e).
Proof. eauto using implements_malformed, decodeBase64_Throw with salt. Qed.

Lemma implements_malformed_key g c n s e :
  Key n s ∈ inputs c -> decodeBase64 s = Throw e -> implements g c (Throw e).
Proof. eauto using implements_malformed, decodeBase64_Throw with salt. Qed.

(** A key of the wrong size is reported as [InvalidKeyError]. *)
Lemma implements_wrong_size g c n s b e :
  Key n s ∈ inputs c -> decodeBase64 s = Ok b -> length b <> n ->
  spec_error_of e = Some InvalidKeyError ->
  implements g c (Throw e).
Proof. intros. eapply implements_Throw; eauto using allowed with salt. Qed.

End refinement.

(** Decode the base64 argument [s]: the goal is closed when it is malformed,
    and the bytes are named [b] otherwise. *)
Ltac in_inputs :=
  cbn [inputs]; repeat first [apply list_elem_of_here | apply list_elem_of_further].

Ltac decode s b :=
  let E := fresh "E" b in
  destruct (decodeBase64 s) as [b|?] eqn:E;
  [ cbn [mbind result_bind fmap result_fmap]
  | cbn [mbind result_bind fmap result_fmap];
    solve [ eapply (implements_malformed_blob _ _ s); [in_inputs | exact E]
          | eapply (implements_malformed_key _ _ _ s); [in_inputs | exact E] ] ].

(** The message of a call in the contract has UTF-8 bytes. *)
Ltac encode msg m :=
  let E := fresh "E" m in
  destruct (decodeUTF8 msg) as [m|?] eqn:E;
  [ cbn [mbind result_bind fmap result_fmap]
  | exfalso;
    match goal with
    | Hw : Is_true (well_paired msg) |- _ =>
        rewrite <- decodeUTF8_Ok_well_paired, E in Hw; exact Hw
    end ].

Section cases.
Context `{Primitives}.
Implicit Types (g : rng) (c : call) (msg key pubkey privkey nonce : jsstring).

Lemma sized_holds pubkey privkey pk sk :
  sized pubkey privkey -> decodeBase64 pubkey = Ok pk -> decodeBase64 privkey = Ok sk ->
  holds (Key sign_publicKeyLength pubkey) pk
  /\ holds (Key sign_secretKeyLength privkey) sk.
Proof. unfold sized. intros Hs Ep Es. rewrite Ep, Es in Hs. by destruct Hs. Qed.

Lemma psk_key_derived key : _encoder (_md5 key) = derived_key key.
Proof. encoder_closed_form. reflexivity. Qed.

Lemma derived_key_sized key : length (derived_key key) = secretbox_keyLength.
Proof. rewrite <- psk_key_derived. apply psk_key_sized. Qed.

(** What opening an envelope gives: the text, or a failure of
    authentication when the box does not open or the nonce has the wrong
    size. *)
Lemma opened_implements g c box n k :
  length k = secretbox_keyLength ->
  (forall m, unsealed box n k = Some m ->
             allowed g c (Returns (RString (decodeToText m)))) ->
  (unsealed box n k = None -> allowed g c (Fails AuthenticationError)) ->
  implements g c (RString <$> (nacl_secretbox_open box n k ≫= _decoder_nullable)).
Proof.
  intros Hk Hsome Hnone. unfold unsealed in *. case_decide as Hn.
  - rewrite nacl_secretbox_open_sized by assumption.
    destruct (crypto_secretbox_open box n k) as [m|]; cbn.
    + decoder_ref. by apply Hsome.
    + apply (implements_Throw _ _ _ AuthenticationError); [reflexivity | by apply Hnone].
  - rewrite nacl_secretbox_open_bad_nonce by assumption.
    apply (implements_Throw _ _ _ AuthenticationError); [reflexivity | by apply Hnone].
Qed.

Lemma create_implements g privatekey :
  privatekey <> Some [] ->
  implements g (CallCreate privatekey) (RKeys <$> (create privatekey g).1).
Proof.
  intros Hne. destruct privatekey as [[|u s]|]; [done | | apply spec_create_fresh].
  rewrite create_rebuilds by reflexivity.
  change (string_of (Some (u :: s))) with (u :: s). cbn [fst].
  decode (u :: s) sk. unfold nacl_sign_keyPair_fromSecretKey. case_decide as Hl.
  - cbn. rewrite take_ge by (rewrite length_drop, Hl; cbv; lia).
    by apply (spec_create_rebuild _ _ sk).
  - eapply implements_wrong_size; [in_inputs | done ..].
Qed.

Lemma sign_implements g msg privkey :
  well_paired msg -> implements g (CallSign msg privkey) (RString <$> sign msg privkey).
Proof.
  intros Hw. unfold sign. encode msg m. decode privkey sk.
  unfold nacl_sign. case_decide as Hl.
  - by apply (spec_sign _ _ _ m sk).
  - eapply implements_wrong_size; [in_inputs | done ..].
Qed.

Lemma verify_implements g signedmsg pubkey :
  implements g (CallVerify signedmsg pubkey)
    (from_option RString RNull <$> verify signedmsg pubkey).
Proof.
  unfold verify. decode signedmsg sm. decode pubkey pk.
  unfold nacl_sign_open. case_decide as Hl.
  - cbn. destruct (crypto_sign_open sm pk) as [m|] eqn:Eo; cbn.
    + decoder_ref. by apply (spec_verify _ _ _ sm pk m).
    + by apply (spec_verify_not_verified _ _ _ sm pk).
  - eapply implements_wrong_size; [in_inputs | done ..].
Qed.

Lemma encrypt_implements g msg pubkey privkey :
  well_paired msg -> sized pubkey privkey ->
  implements g (CallEncrypt msg pubkey privkey)
    (REnvelope <$> (encrypt msg pubkey privkey g).1).
Proof.
  intros Hw Hs. rewrite encrypt_run. cbn [fst]. encode msg m.
  decode pubkey pk. decode privkey sk.
  destruct (sized_holds _ _ _ _ Hs Epk Esk) as [Hpk Hsk].
  unfold nacl_box. destruct (convertPublicKey pk) as [pk'|] eqn:Ec.
  - rewrite (nacl_box_before_converted pk) by assumption. cbn [mbind result_bind].
    rewrite nacl_secretbox_sized by first [apply next_bytes_length | apply beforenm_length].
    by apply (spec_encrypt _ _ _ _ m pk sk pk').
  - apply (implements_Throw _ _ _ KeyConversionError); [reflexivity|].
    by apply (spec_encrypt_unconvertible _ _ _ _ m pk sk).
Qed.

Lemma decrypt_implements g msg nonce pubkey privkey :
  (is_Ok (decodeBase64 msg) -> is_Ok (decodeBase64 nonce) -> sized pubkey privkey) ->
  implements g (CallDecrypt msg nonce pubkey privkey)
    (RString <$> decrypt msg nonce pubkey privkey).
Proof.
  intros Hs. unfold decrypt. decode msg box. decode nonce n.
  decode pubkey pk. decode privkey sk.
  destruct (sized_holds _ _ _ _ (Hs I I) Epk Esk) as [Hpk Hsk].
  unfold nacl_box_open. destruct (convertPublicKey pk) as [pk'|] eqn:Ec.
  - rewrite (nacl_box_before_converted pk) by assumption. cbn [mbind result_bind].
    apply opened_implements; [apply beforenm_length | intros ..].
    + by apply (spec_decrypt _ _ _ _ _ box n pk sk pk').
    + by apply (spec_decrypt_unauthentic _ _ _ _ _ box n pk sk pk').
  - apply (implements_Throw _ _ _ KeyConversionError); [reflexivity|].
    by apply (spec_decrypt_unconvertible _ _ _ _ _ box n pk sk).
Qed.

Lemma encryptPSK_implements g msg key :
  well_paired msg ->
  implements g (CallEncryptPSK msg key) (REnvelope <$> (encryptPSK msg key g).1).
Proof.
  intros Hw. rewrite encryptPSK_run. cbn [fst]. encode msg m.
  rewrite nacl_secretbox_sized by first [apply next_bytes_length | apply psk_key_sized].
  rewrite psk_key_derived. by apply spec_encryptPSK.
Qed.

Lemma decryptPSK_implements g msg key nonce :
  implements g (CallDecryptPSK msg key nonce) (RString <$> decryptPSK msg key nonce).
Proof.
  unfold decryptPSK. decode msg box. decode nonce n. rewrite psk_key_derived.
  apply opened_implements; [apply derived_key_sized | intros ..].
  - by apply (spec_decryptPSK _ _ _ _ box n).
  - by apply (spec_decryptPSK_unauthentic _ _ _ _ box n).
Qed.

End cases.

(** ** The contract is implemented *)

Section into_contract.
Context `{Primitives}.
Implicit Types (g : rng) (c : call) (msg key pubkey privkey nonce : jsstring).

(** A result the contract allows that is not a rejection of an input
    comes from inputs that are all well formed. *)
Lemma implements_validated g c r :
  implements g c r -> (forall o, abstract r = Some o -> validated o) ->
  Forall (fun f => exists b, holds f b) (inputs c).
Proof.
  unfold implements. destruct (abstract r) as [o|]; [|done].
  eauto using allowed_inputs_hold.
Qed.

Lemma implements_well_paired {A} g c msg (f : list byte -> result A) (h : A -> retval) :
  implements g c (h <$> (decodeUTF8 msg ≫= f)) -> well_paired msg.
Proof.
  rewrite <- decodeUTF8_Ok_well_paired. destruct (decodeUTF8 msg) eqn:E; [done|].
  rewrite (decodeUTF8_Throw _ _ E). intros [].
Qed.

Lemma inputs_hold_sizes c pubkey privkey pk sk :
  Key sign_publicKeyLength pubkey ∈ inputs c ->
  Key sign_secretKeyLength privkey ∈ inputs c ->
  decodeBase64 pubkey = Ok pk -> decodeBase64 privkey = Ok sk ->
  Forall (fun f => exists b, holds f b) (inputs c) ->
  length pk = sign_publicKeyLength /\ length sk = sign_secretKeyLength.
Proof.
  rewrite Forall_forall. intros Hp Hs Epk Esk Hall.
  destruct (Hall _ Hp) as (pk' & Epk' & Hpk), (Hall _ Hs) as (sk' & Esk' & Hsk).
  split; congruence.
Qed.

Lemma opened_validated box n k o :
  length k = secretbox_keyLength ->
  abstract (RString <$> (nacl_secretbox_open box n k ≫= _decoder_nullable)) = Some o ->
  validated o.
Proof.
  intros Hk. destruct (decide (length n = secretbox_nonceLength)) as [Hn|Hn].
  - rewrite nacl_secretbox_open_sized by assumption.
    destruct (crypto_secretbox_open box n k); by intros [= <-].
  - rewrite nacl_secretbox_open_bad_nonce by assumption. by intros [= <-].
Qed.

Lemma create_in_contract g privatekey :
  implements g (CallCreate privatekey) (RKeys <$> (create privatekey g).1) ->
  privatekey <> Some [].
Proof.
  intros Hi ->. apply implements_validated in Hi; [|by intros o [= <-]].
  apply Forall_inv in Hi as (sk & [= <-] & [=]).
Qed.

Lemma encrypt_in_contract g msg pubkey privkey :
  implements g (CallEncrypt msg pubkey privkey)
    (REnvelope <$> (encrypt msg pubkey privkey g).1) ->
  well_paired msg /\ sized pubkey privkey.
Proof.
  rewrite encrypt_run. cbn [fst]. intros Hi.
  pose proof (implements_well_paired _ _ _ _ _ Hi) as Hw. split; [done|].
  revert Hi. unfold sized. encode msg m.
  destruct (decodeBase64 pubkey) as [pk|] eqn:Epk,
    (decodeBase64 privkey) as [sk|] eqn:Esk; try done.
  cbn [mbind result_bind]. intros Hi.
  eapply (inputs_hold_sizes (CallEncrypt msg pubkey privkey));
    [in_inputs | in_inputs | done | done |].
  apply (implements_validated _ _ _ Hi). intros o. unfold nacl_box.
  destruct (convertPublicKey pk) as [pk'|] eqn:Ec; [|by intros [= <-]].
  rewrite (nacl_box_before_converted pk) by assumption. cbn [mbind result_bind].
  rewrite nacl_secretbox_sized by first [apply next_bytes_length | apply beforenm_length].
  by intros [= <-].
Qed.

Lemma decrypt_in_contract g msg nonce pubkey privkey :
  implements g (CallDecrypt msg nonce pubkey privkey)
    (RString <$> decrypt msg nonce pubkey privkey) ->
  is_Ok (decodeBase64 msg) -> is_Ok (decodeBase64 nonce) -> sized pubkey privkey.
Proof.
  unfold decrypt, sized.
  destruct (decodeBase64 msg) as [box|] eqn:Ebox, (decodeBase64 nonce) as [n|] eqn:En,
    (decodeBase64 pubkey) as [pk|] eqn:Epk,
    (decodeBase64 privkey) as [sk|] eqn:Esk; try done.
  cbn [mbind result_bind]. intros Hi _ _.
  eapply (inputs_hold_sizes (CallDecrypt msg nonce pubkey privkey));
    [in_inputs | in_inputs | done | done |].
  apply (implements_validated _ _ _ Hi). intros o. unfold nacl_box_open.
  destruct (convertPublicKey pk) as [pk'|] eqn:Ec; [|by intros [= <-]].
  rewrite (nacl_box_before_converted pk) by assumption. cbn [mbind result_bind].
  apply opened_validated, beforenm_length.
Qed.

Lemma operation_result c g :
  (operation c g).1
  = match c with
    | CallCreate privatekey => RKeys <$> (create privatekey g).1
    | CallSign msg privkey => RString <$> sign msg privkey
    | CallVerify signedmsg pubkey =>
        from_option RString RNull <$> verify signedmsg pubkey
    | CallEncrypt msg pubkey privkey => REnvelope <$> (encrypt msg pubkey privkey g).1
    | CallDecrypt msg nonce pubkey privkey =>
        RString <$> decrypt msg nonce pubkey privkey
    | CallEncryptPSK msg key => REnvelope <$> (encryptPSK msg key g).1
    | CallDecryptPSK msg key nonce => RString <$> decryptPSK msg key nonce
    end.
Proof. destruct c; cbn [operation]; rewrite ?ST_fmap_fst; reflexivity. Qed.

(** The result of a call is one the contract allows exactly when the call
    is in the domain. *)
Lemma result_implements_iff c g r :
  r = (operation c g).1 -> implements g c r <-> in_contract c.
Proof.
  intros ->. rewrite operation_result. split.
  - intros Hi. destruct c; cbn [in_contract]; try done;
      [ by eapply create_in_contract
      | revert Hi; unfold sign; by apply implements_well_paired
      | by eapply encrypt_in_contract
      | by eapply decrypt_in_contract
      | revert Hi; rewrite encryptPSK_run; by apply implements_well_paired ].
  - destruct c; cbn [in_contract]; intros Hc;
      [ by apply create_implements | by apply sign_implements
      | apply verify_implements | destruct Hc; by apply encrypt_implements
      | by apply decrypt_implements | by apply encryptPSK_implements
      | apply decryptPSK_implements ].
Qed.

(** C12: on every call of the contract's domain the program does what the
    contract allows: it returns the value the contract specifies, or throws
    an exception that is one of the four failures and that the contract
    allows for these arguments. *)
Theorem operation_implements_contract c g :
  in_contract c -> implements g c (operation c g).1.
Proof. by apply result_implements_iff. Qed.

(** C18: the domain is exact: on a call outside of it (a message with an
    unpaired surrogate, [create] with the empty string, keys of the wrong
    size given to [encrypt] or [decrypt]) the result of the program is one
    the contract does not allow. *)
Theorem contract_broken_outside c g :
  ~ in_contract c -> ~ implements g c (operation c g).1.
Proof. by rewrite result_implements_iff. Qed.

End into_contract.

(** ** The contract on the model *)

(** The scenario of the design document: a message sealed with a
    passphrase opens with it, and fails to authenticate with another. *)
Example psk_scenario_contract :
  exists e g',
    encryptPSK (js "attack at dawn") (js "correct horse") alice = (Ok e, g')
    /\ abstract (decryptPSK (message e) (js "correct horse") (nonce e))
       = Some (Returns (js "attack at dawn"))
    /\ abstract (decryptPSK (message e) (js "wrong horse") (nonce e))
       = Some (Fails AuthenticationError).
Proof.
  eexists _, _. split; [vm_compute; reflexivity|].
  split; vm_compute; reflexivity.
Qed.

Lemma operation_implements_contract_witness :
  let c := CallEncrypt (js "hi") (publickey (created bob)) (privatekey (created alice)) in
  in_contract c /\ implements later c (operation c later).1.
Proof.
  assert (in_contract (CallEncrypt (js "hi") (publickey (created bob))
                         (privatekey (created alice)))) as Hc
    by (split; decide_by_computation).
  split; [exact Hc | exact (operation_implements_contract _ later Hc)].
Defined.

(** [encrypt] with the 32-byte seed of a key pair in place of its 64-byte
    private key returns an envelope. *)
Lemma contract_broken_outside_witness :
  let c := CallEncrypt (js "hi") (publickey (created bob))
             (encodeBase64 (next_bytes sign_seedLength alice)) in
  ~ in_contract c /\ ~ implements later c (operation c later).1.
Proof.
  assert (~ in_contract (CallEncrypt (js "hi") (publickey (created bob))
                           (encodeBase64 (next_bytes sign_seedLength alice)))) as Hc
    by decide_by_computation.
  split; [exact Hc | exact (contract_broken_outside _ later Hc)].
Defined.
