(* ===== verification/Letters.v ===== *)
(** * Letters: a client of the contract

    [Protocols.v] proves what a signed letter does from the code of the
    operations.  This file proves it from their contract
    ([ApiSpec.allowed]) alone: whatever implements the contract on its
    domain ([conforms]) returns, at each of the four calls of a letter
    between two parties whose keys the contract's [create] made, the value
    the letter needs, in any state of the random source.  The contract of
    the specification is therefore enough for the callers that compose the
    operations, and the program, which implements the contract
    ([operation_conforms], from [Refinement.v]), is one such
    implementation. *)

From Stdlib Require Import ZArith Lia List String.
From stdpp Require Import base tactics option list numbers strings.
From S2P Require Import Prelude JsPrims Decoder Utf8 Encoder Base64 Nacl NaclModel.
From S2P Require Import SaltShaker Protocols Loader Exports ApiSpec Refinement.

(** An implementation of the seven functions: what a call returns or
    throws in a state of the random source. *)
Definition implementation : Type := call -> rng -> result retval.

Section conformance.
Context `{Primitives}.
Implicit Types (impl : implementation) (g : rng) (c : call) (msg : jsstring).

(** An implementation conforms when, on the calls of the domain of the
    contract, its result is one the contract allows. *)
Definition conforms impl : Prop :=
  forall c g, in_contract c -> implements g c (impl c g).

(** The calls all of whose base64 arguments are well formed. *)
Definition accepted c : Prop := Forall (fun f => is_Some (content f)) (inputs c).

(** The program as an implementation. *)
Definition program : implementation := fun c g => (operation c g).1.

(** ** What conformance gives a caller *)

Lemma operation_conforms : conforms program.
Proof. intros c g. by apply result_implements_iff. Qed.

(** On an accepted call of the domain, the result of a conforming
    implementation is what the contract computes: the value, or the failure
    of the cryptography. *)
Lemma conforms_proceeds impl g c :
  conforms impl -> in_contract c -> accepted c ->
  abstract (impl c g) = proceeds g c.
Proof.
  intros Hc Hin Hacc. specialize (Hc c g Hin). unfold implements in Hc.
  destruct (abstract (impl c g)) as [o|]; [|done].
  symmetry. by apply allowed_accepted.
Qed.

Lemma conforms_returns impl g c v :
  conforms impl -> in_contract c -> accepted c ->
  proceeds g c = Some (Returns v) -> impl c g = Ok v.
Proof.
  intros Hc Hin Hacc Hp. rewrite <- (conforms_proceeds impl g c Hc Hin Hacc) in Hp.
  destruct (impl c g) as [v'|x]; cbn [abstract] in Hp; [congruence|].
  by destruct (spec_error_of x).
Qed.

(** It throws only where the cryptography fails: a public key without a
    counterpart on the encryption curve, or a box that does not open. *)
Lemma conforms_throws impl g c x :
  conforms impl -> in_contract c -> accepted c -> impl c g = Throw x ->
  proceeds g c = Some (Fails KeyConversionError) /\ callee c ∈ [Encrypt; Decrypt]
  \/ proceeds g c = Some (Fails AuthenticationError)
     /\ callee c ∈ [Decrypt; DecryptPSK].
Proof.
  intros Hc Hin Hacc Hx. pose proof (Hc c g Hin) as Ha.
  rewrite Hx in Ha. unfold implements in Ha. cbn [abstract] in Ha.
  destruct (spec_error_of x) as [e|]; [cbn in Ha|done].
  pose proof Ha as Hp. apply allowed_accepted in Hp; [|exact Hacc].
  destruct (allowed_Fails_reason g c e Ha) as [(f & Hf & Hr)|[[-> Hk]|[-> Hk]]].
  - unfold accepted in Hacc. rewrite Forall_forall in Hacc.
    destruct (Hacc f Hf) as [b Hb%content_spec].
    destruct (holds_not_rejected f b e Hb Hr).
  - left. split; [done|]. rewrite !elem_of_cons. tauto.
  - right. split; [done|]. rewrite !elem_of_cons. tauto.
Qed.

Lemma content_key (n : nat) (b : list byte) :
  length b = n -> content (Key n (encodeBase64 b)) = Some b.
Proof.
  intros Hb. cbn [content]. by rewrite decodeBase64_encodeBase64, decide_True.
Qed.

Lemma content_blob (b : list byte) : content (Blob (encodeBase64 b)) = Some b.
Proof. cbn [content]. by rewrite decodeBase64_encodeBase64. Qed.

Lemma utf8_Ok msg m : decodeUTF8 msg = Ok m -> utf8 msg = Some m.
Proof. apply utf8_Some. Qed.

Lemma well_paired_Ok msg m : decodeUTF8 msg = Ok m -> well_paired msg.
Proof. intros Hm. by rewrite <- decodeUTF8_Ok_well_paired, Hm. Qed.

(** Base64 text, given as a message, has UTF-8 bytes in which
    [decodeToText] reads the text. *)
Lemma base64_text_to_text (b : list byte) :
  exists t, decodeUTF8 (encodeBase64 b) = Ok t /\ decodeToText t = encodeBase64 b.
Proof.
  apply decode_ref_decodeUTF8_bmp;
    [apply encodeBase64_wf | apply encodeBase64_no_surrogate].
Qed.

End conformance.

(** Rewrite the contents of the arguments of a call made with keys of known
    sizes, and reduce what the contract computes. *)
Ltac contents :=
  cbn [proceeds inputs publickey privatekey message nonce sealed];
  rewrite ?content_blob;
  repeat match goal with
    | H : length ?b = ?n |- context [content (Key ?n (encodeBase64 ?b))] =>
        rewrite (content_key n b H)
    | H : decodeUTF8 ?msg = Ok _ |- context [utf8 ?msg] => rewrite (utf8_Ok _ _ H)
    end;
  cbn [mbind option_bind].

(** The arguments of the call are accepted. *)
Ltac accept :=
  unfold accepted; cbn [inputs];
  repeat (apply List.Forall_cons; [contents; by eexists|]); apply List.Forall_nil.

Section letter.
Context `{Primitives}.
Context (impl : implementation) (Hconforms : conforms impl).
Context (seedA seedB : list byte).
Context (HA : length seedA = sign_seedLength) (HB : length seedB = sign_seedLength).
Implicit Types (g : rng) (msg : jsstring) (m t : list byte).

Local Abbreviation pkA := (publicKey (crypto_sign_keypair seedA)).
Local Abbreviation skA := (secretKey (crypto_sign_keypair seedA)).
Local Abbreviation pkB := (publicKey (crypto_sign_keypair seedB)).
Local Abbreviation skB := (secretKey (crypto_sign_keypair seedB)).

Local Lemma pkA_length : length pkA = sign_publicKeyLength.
Proof. by apply keypair_publicKey_length. Qed.

Local Lemma skA_length : length skA = sign_secretKeyLength.
Proof. by apply keypair_secretKey_length. Qed.

Local Lemma pkB_length : length pkB = sign_publicKeyLength.
Proof. by apply keypair_publicKey_length. Qed.

Local Lemma skB_length : length skB = sign_secretKeyLength.
Proof. by apply keypair_secretKey_length. Qed.

(** The keys of the two parties have the sizes of signing keys. *)
Lemma letter_keys_sized :
  sized (encodeBase64 pkB) (encodeBase64 skA)
  /\ sized (encodeBase64 pkA) (encodeBase64 skB).
Proof.
  unfold sized. rewrite !decodeBase64_encodeBase64.
  pose proof pkA_length. pose proof skA_length.
  pose proof pkB_length. pose proof skB_length. done.
Qed.

Lemma sign_by_contract msg m g :
  decodeUTF8 msg = Ok m ->
  impl (CallSign msg (encodeBase64 skA)) g
  = Ok (RString (encodeBase64 (crypto_sign m skA))).
Proof.
  intros Hm. pose proof skA_length.
  apply conforms_returns;
    [done | exact (well_paired_Ok msg m Hm) | accept | by contents].
Qed.

Lemma verify_by_contract m g :
  impl (CallVerify (encodeBase64 (crypto_sign m skA)) (encodeBase64 pkA)) g
  = Ok (RString (decodeToText m)).
Proof.
  pose proof pkA_length.
  apply conforms_returns; [done | done | accept | contents].
  by rewrite sign_open_sign.
Qed.

(** The envelope of a text from A to B, sealed with the nonce of the state
    [g], and what B's call of [decrypt] returns for it. *)
Lemma box_by_contract msg t g g' :
  decodeUTF8 msg = Ok t ->
  exists e,
    impl (CallEncrypt msg (encodeBase64 pkB) (encodeBase64 skA)) g = Ok (REnvelope e)
    /\ impl (CallDecrypt (message e) (nonce e) (encodeBase64 pkA) (encodeBase64 skB)) g'
       = Ok (RString (decodeToText t)).
Proof.
  intros Ht. destruct letter_keys_sized as [HsBA HsAB].
  pose proof pkA_length. pose proof skA_length.
  pose proof pkB_length. pose proof skB_length.
  destruct (convertPublicKey_keypair seedA HA) as [pkA' HpA].
  destruct (convertPublicKey_keypair seedB HB) as [pkB' HpB].
  exists (sealed t (fresh_nonce g) (box_key pkB' skA)). split.
  - apply conforms_returns;
      [done | exact (conj (well_paired_Ok msg t Ht) HsBA) | accept | contents].
    unfold converted. by rewrite HpB.
  - apply conforms_returns; [done | by intros _ _ | accept | contents].
    unfold converted, unsealed, box_key, fresh_nonce. rewrite HpA.
    rewrite decide_True by apply next_bytes_length.
    rewrite <- (beforenm_shared seedA seedB pkA' pkB' HA HB HpA HpB).
    by rewrite secretbox_open_secretbox
      by (apply next_bytes_length || apply beforenm_length).
Qed.

End letter.

Section letter_theorems.
Context `{Primitives}.
Implicit Types (impl : implementation) (g : rng) (msg : jsstring).

(** C15: the contract is enough for a signed letter.  With any
    implementation that conforms to the contract on its domain, and keys
    that the contract's [create] made for the two parties, the four calls
    of a letter return, in any states of the random source: the signed
    text, an envelope, the signed text again from the envelope, and from
    it the message as [decodeToText] reads its UTF-8 bytes. *)
Theorem letter_by_contract impl msg m gA gB g1 g2 g3 g4 :
  conforms impl -> decodeUTF8 msg = Ok m ->
  exists signed e,
    impl (CallSign msg (privatekey (created gA))) g1 = Ok (RString signed)
    /\ impl (CallEncrypt signed (publickey (created gB)) (privatekey (created gA))) g2
       = Ok (REnvelope e)
    /\ impl (CallDecrypt (message e) (nonce e)
               (publickey (created gA)) (privatekey (created gB))) g3
       = Ok (RString signed)
    /\ impl (CallVerify signed (publickey (created gA))) g4
       = Ok (RString (decodeToText m)).
Proof.
  intros Hc Hm.
  pose proof (next_bytes_length sign_seedLength gA) as HA.
  pose proof (next_bytes_length sign_seedLength gB) as HB.
  destruct (base64_text_to_text
              (crypto_sign m (secretKey (crypto_sign_keypair (next_bytes sign_seedLength gA)))))
    as (t & Ht & Hd).
  destruct (box_by_contract impl Hc _ _ HA HB _ t g2 g3 Ht) as (e & Henc & Hdec).
  eexists _, e. unfold created, keys_of. cbn [publickey privatekey].
  split_and!; [by apply sign_by_contract | exact Henc | by rewrite Hdec, Hd|].
  by apply verify_by_contract.
Qed.

End letter_theorems.

(** ** The program is such an implementation *)

Lemma letter_by_contract_witness :
  exists signed e,
    program (CallSign (js "hi") (privatekey (created alice))) later
    = Ok (RString signed)
    /\ program (CallEncrypt signed (publickey (created bob)) (privatekey (created alice)))
         later
       = Ok (REnvelope e)
    /\ program (CallDecrypt (message e) (nonce e)
                  (publickey (created alice)) (privatekey (created bob))) later
       = Ok (RString signed)
    /\ program (CallVerify signed (publickey (created alice))) later
       = Ok (RString (decodeToText (byte_of_Z <$> js "hi"))).
Proof.
  apply (letter_by_contract program (js "hi") _ alice bob);
    [apply operation_conforms | vm_compute; reflexivity].
Defined.
