(* ===== verification/Wire.v ===== *)
(** * Wire: the texts that cross the trust boundary

    Keys, nonces, signed messages and ciphertexts leave and enter
    [src/saltshaker.js] as base64 text.  This file relates the text to the
    bytes it stands for: how long the text of a signed message and of an
    envelope is, from the sizes the primitives promise
    ([Nacl.sign_length], [Nacl.secretbox_length]), and which texts the
    operations that read one accept.  They accept more than the operations
    that write one produce: the decoder does not look at the bits of the
    last character that belong to no byte, so the text of an envelope can
    be changed ([Base64.tamper]) into one that is not the encoding of any
    byte string ([Typing.base64_text]) and that [decrypt], [decryptPSK] and
    [verify] treat as the original. *)

From Stdlib Require Import ZArith Lia List String.
From stdpp Require Import base tactics option list numbers.
From S2P Require Import Prelude JsPrims Decoder Utf8 Encoder Base64 Nacl NaclModel.
From S2P Require Import SaltShaker Loader Exports Typing.

(** The number of characters [encodeBase64] writes for [n] bytes. *)
Definition base64_length (n : nat) : nat := 4 * ((n + 2) / 3).

(** An envelope from A to B, made in state [later] on the model. *)
Definition dawn : envelope :=
  from_Ok no_envelope
    (encrypt (js "retreat at dawn") (publickey (created bob))
       (privatekey (created alice)) later).1.

(** Two calls that differ only in the text of their base64 arguments, not
    in the bytes the text stands for ([Base64.same_bytes]): the messages
    and the passphrases are the same. *)
Inductive alike : call -> call -> Prop :=
| alike_create_fresh : alike (CallCreate None) (CallCreate None)
| alike_create s s' :
    same_bytes s s' -> alike (CallCreate (Some s)) (CallCreate (Some s'))
| alike_sign msg k k' :
    same_bytes k k' -> alike (CallSign msg k) (CallSign msg k')
| alike_verify s s' k k' :
    same_bytes s s' -> same_bytes k k' -> alike (CallVerify s k) (CallVerify s' k')
| alike_encrypt msg p p' k k' :
    same_bytes p p' -> same_bytes k k' ->
    alike (CallEncrypt msg p k) (CallEncrypt msg p' k')
| alike_decrypt s s' n n' p p' k k' :
    same_bytes s s' -> same_bytes n n' -> same_bytes p p' -> same_bytes k k' ->
    alike (CallDecrypt s n p k) (CallDecrypt s' n' p' k')
| alike_encryptPSK msg key : alike (CallEncryptPSK msg key) (CallEncryptPSK msg key)
| alike_decryptPSK s s' key n n' :
    same_bytes s s' -> same_bytes n n' ->
    alike (CallDecryptPSK s key n) (CallDecryptPSK s' key n').

Section wire.
Context `{Primitives}.
Implicit Types (msg key pubkey privkey : jsstring) (g : rng) (e : envelope).

(** Two texts that no reader tells apart: given as signed message or as
    the message of an envelope, with any keys and nonce, they make
    [verify], [decrypt] and [decryptPSK] return or throw the same. *)
Definition read_alike (s s' : jsstring) : Prop :=
  (forall pubkey, verify s pubkey = verify s' pubkey)
  /\ (forall nonce pubkey privkey,
        decrypt s nonce pubkey privkey = decrypt s' nonce pubkey privkey)
  /\ (forall key nonce, decryptPSK s key nonce = decryptPSK s' key nonce).

(** What a signed message says to a reader without a key: the text of the
    bytes that follow the signature. *)
Definition enclosed (signedmsg : jsstring) : result jsstring :=
  sm ← decodeBase64 signedmsg;
  mret (_decoder (drop sign_signatureLength sm)).

(** ** What the operations that write text return *)

Lemma sign_Ok_inv msg privkey s :
  sign msg privkey = Ok s ->
  exists m sk, decodeUTF8 msg = Ok m /\ s = encodeBase64 (crypto_sign m sk).
Proof.
  unfold sign. intros Hs. returned.
  match goal with Hn : nacl_sign _ _ = Ok _ |- _ => apply nacl_sign_Ok in Hn as -> end.
  eauto.
Qed.

Lemma encrypt_Ok_inv msg pubkey privkey g e g' :
  encrypt msg pubkey privkey g = (Ok e, g') ->
  exists m k,
    decodeUTF8 msg = Ok m
    /\ e = Envelope (encodeBase64 (crypto_secretbox m (next_bytes box_nonceLength g) k))
           (encodeBase64 (next_bytes box_nonceLength g)).
Proof.
  rewrite encrypt_run. intros [= Hs _]. returned.
  match goal with Hn : nacl_box _ _ _ _ = Ok _ |- _ => apply nacl_box_Ok in Hn as [k ->] end.
  eauto.
Qed.

Lemma encryptPSK_Ok_inv msg key g e g' :
  encryptPSK msg key g = (Ok e, g') ->
  exists m,
    decodeUTF8 msg = Ok m
    /\ e = Envelope
             (encodeBase64 (crypto_secretbox m (next_bytes secretbox_nonceLength g)
                              (_encoder (_md5 key))))
             (encodeBase64 (next_bytes secretbox_nonceLength g)).
Proof.
  rewrite encryptPSK_run. intros [= Hs _]. returned.
  match goal with Hn : nacl_secretbox _ _ _ = Ok _ |- _ => apply nacl_secretbox_Ok in Hn as -> end.
  eauto.
Qed.

(** ** Sizes *)

Lemma sealed_length m nonce k :
  length (encodeBase64 (crypto_secretbox m nonce k))
  = base64_length (secretbox_overheadLength + length m).
Proof. by rewrite encodeBase64_length, secretbox_length. Qed.

Lemma nonce_text_length g :
  length (encodeBase64 (next_bytes secretbox_nonceLength g)) = 32%nat.
Proof. by rewrite encodeBase64_length, next_bytes_length. Qed.

Lemma base64_length_mono n n' : (n <= n')%nat -> (base64_length n <= base64_length n')%nat.
Proof.
  intros Hn. unfold base64_length. apply Nat.mul_le_mono_l, Nat.Div0.div_le_mono. lia.
Qed.

Lemma base64_length_triples n k :
  base64_length (k + 3 * n) = (base64_length k + 4 * n)%nat.
Proof.
  unfold base64_length. replace (k + 3 * n + 2)%nat with (k + 2 + n * 3)%nat by lia.
  rewrite Nat.div_add by lia. lia.
Qed.

(** The text of [overhead] bytes followed by the UTF-8 bytes of a
    message. *)
Lemma sealed_text_bound overhead msg m :
  wf_string msg -> decodeUTF8 msg = Ok m ->
  (base64_length (overhead + length m)
   <= base64_length overhead + 4 * length msg)%nat.
Proof.
  intros Hwf Hm. rewrite <- base64_length_triples. apply base64_length_mono.
  pose proof (decodeUTF8_length msg m Hwf Hm). lia.
Qed.

(** A signed message is the text of 64 bytes more than the message. *)
Lemma sign_size msg privkey s :
  wf_string msg -> sign msg privkey = Ok s ->
  exists m,
    decodeUTF8 msg = Ok m
    /\ length s = base64_length (sign_signatureLength + length m)
    /\ (length s <= 4 * length msg + 88)%nat.
Proof.
  intros Hwf (m & sk & Hm & ->)%sign_Ok_inv. exists m.
  rewrite encodeBase64_length, sign_length. split_and!; [done ..|].
  apply (sealed_text_bound sign_signatureLength msg m Hwf) in Hm.
  unfold base64_length in *. change ((sign_signatureLength + 2) / 3)%nat with 22%nat in Hm.
  lia.
Qed.

(** ** The signed message *)

(** [verify] returns the enclosed text or nothing. *)
Lemma verify_enclosed signedmsg pubkey out :
  verify signedmsg pubkey = Ok (Some out) -> enclosed signedmsg = Ok out.
Proof.
  unfold verify, enclosed. intros Hv. returned.
  match goal with
  | Hd : decodeBase64 signedmsg = Ok ?sm, Ho : nacl_sign_open ?sm ?pk = Ok ?o |- _ =>
      rewrite Hd; unfold nacl_sign_open in Ho; case_decide; [|discriminate];
      injection Ho as <-;
      destruct (crypto_sign_open sm pk) as [m|] eqn:Eo; [|discriminate];
      injection Hv as <-; by rewrite (sign_open_attached sm pk m Eo)
  end.
Qed.

(** C38: the signature is attached and hides nothing: the text [sign]
    returns encloses the message, less its surrogate code units, for any
    reader to decode, and that text is all [verify] ever returns for it,
    whatever the public key. *)
Theorem signed_message_format msg privkey signedmsg :
  wf_string msg -> sign msg privkey = Ok signedmsg ->
  enclosed signedmsg = Ok (strip_surrogates msg)
  /\ forall pubkey out,
       verify signedmsg pubkey = Ok (Some out) -> out = strip_surrogates msg.
Proof.
  intros Hwf (m & sk & Hm & ->)%sign_Ok_inv.
  assert (He : enclosed (encodeBase64 (crypto_sign m sk)) = Ok (strip_surrogates msg)).
  { unfold enclosed. rewrite decodeBase64_encodeBase64. cbn [mbind result_bind].
    rewrite sign_attached. decoder_ref. by rewrite (decode_ref_decodeUTF8 msg m Hwf Hm). }
  split; [exact He|]. intros pubkey out Hv%verify_enclosed. congruence.
Qed.

(** ** Texts the readers accept *)

(** [tamper] gives a text that no encoder writes. *)
Lemma tamper_not_canonical (b : list byte) :
  (length b mod 3 <> 0)%nat ->
  tamper (encodeBase64 b) <> encodeBase64 b
  /\ ~ base64_text (tamper (encodeBase64 b)).
Proof.
  intros Hb. pose proof (tamper_encodeBase64_ne b Hb) as Hne. split; [done|].
  unfold base64_text. by rewrite tamper_decodeBase64, decodeBase64_encodeBase64.
Qed.

(** The operations see a base64 argument through its decoding only: each
    of them is a morphism from [same_bytes] on these arguments to
    equality. *)
#[export] Instance create_proper :
  Proper (option_Forall2 same_bytes ==> eq) create.
Proof.
  intros _ _ [s s' Hs|]; [|reflexivity]. unfold create.
  cbn [string_of default from_option id].
  by rewrite (same_bytes_truthy s s' Hs), Hs.
Qed.

#[export] Instance sign_proper : Proper (eq ==> same_bytes ==> eq) sign.
Proof. intros msg _ <- k k' Hk. unfold sign. by rewrite Hk. Qed.

#[export] Instance verify_proper : Proper (same_bytes ==> same_bytes ==> eq) verify.
Proof. intros s s' Hs k k' Hk. unfold verify. by rewrite Hs, Hk. Qed.

#[export] Instance encrypt_proper :
  Proper (eq ==> same_bytes ==> same_bytes ==> eq) encrypt.
Proof. intros msg _ <- p p' Hp k k' Hk. unfold encrypt. by rewrite Hp, Hk. Qed.

#[export] Instance decrypt_proper :
  Proper (same_bytes ==> same_bytes ==> same_bytes ==> same_bytes ==> eq) decrypt.
Proof.
  intros s s' Hs n n' Hn p p' Hp k k' Hk. unfold decrypt. by rewrite Hs, Hn, Hp, Hk.
Qed.

#[export] Instance decryptPSK_proper :
  Proper (same_bytes ==> eq ==> same_bytes ==> eq) decryptPSK.
Proof. intros s s' Hs key _ <- n n' Hn. unfold decryptPSK. by rewrite Hs, Hn. Qed.

#[export] Instance alike_equivalence : Equivalence alike.
Proof.
  split.
  - intros [[s|]| | | | | |]; by constructor.
  - induction 1; by constructor.
  - intros c c' c'' Hc Hc'. destruct Hc; inversion_clear Hc'; constructor; by etrans.
Qed.

Lemma decoded_alike_read_alike (s s' : jsstring) : same_bytes s s' -> read_alike s s'.
Proof. intros Hs. split_and!; intros; by rewrite Hs. Qed.

Lemma tamper_read_alike (s : jsstring) : read_alike (tamper s) s.
Proof. apply decoded_alike_read_alike, tamper_same_bytes. Qed.

(** C20: the operations read their base64 arguments through the decoding
    only.  Two calls of the same function with the same message or
    passphrase, whose keys, nonce, signed message and ciphertext are
    different texts of the same bytes, return the same value or throw the
    same exception, and leave the random source in the same state. *)
Theorem operations_read_bytes c c' g : alike c c' -> operation c g = operation c' g.
Proof.
  intros [|s s' Hs|msg k k' Hk|s s' k k' Hs Hk|msg p p' k k' Hp Hk
         |s s' n n' p p' k k' Hs Hn Hp Hk|msg key|s s' key n n' Hs Hn];
    cbn [operation]; [reflexivity | | | | | | reflexivity |].
  - by rewrite (create_proper (Some s) (Some s')) by by constructor.
  - by rewrite Hk.
  - by rewrite Hs, Hk.
  - by rewrite Hp, Hk.
  - by rewrite Hs, Hn, Hp, Hk.
  - by rewrite Hs, Hn.
Qed.

(** The bytes of a sealed message do not fill the last group of the text
    unless the message has 2 bytes more than a multiple of 3. *)
Lemma sealed_padded m nonce k :
  (length m mod 3 <> 2)%nat -> (length (crypto_secretbox m nonce k) mod 3 <> 0)%nat.
Proof.
  rewrite secretbox_length. unfold secretbox_overheadLength. intros Hm.
  pose proof (Nat.div_mod_eq (length m) 3).
  pose proof (Nat.div_mod_eq (16 + length m) 3).
  pose proof (Nat.mod_upper_bound (length m) 3). lia.
Qed.

(** C32: the envelope [encrypt] returns has a message of
    [4 * ceil ((16 + n) / 3)] characters, [n] the number of UTF-8 bytes of
    the plaintext, which is at most [4 * length msg + 24], and a nonce of 32
    characters. *)
Theorem envelope_sizes msg pubkey privkey g e g' :
  wf_string msg -> encrypt msg pubkey privkey g = (Ok e, g') ->
  exists m,
    decodeUTF8 msg = Ok m
    /\ length (message e) = base64_length (secretbox_overheadLength + length m)
    /\ (length (message e) <= 4 * length msg + 24)%nat
    /\ length (nonce e) = 32%nat.
Proof.
  intros Hwf (m & k & Hm & ->)%encrypt_Ok_inv. exists m. cbn [message nonce].
  rewrite sealed_length. split_and!; [done | done | | apply nonce_text_length].
  apply (sealed_text_bound secretbox_overheadLength msg m Hwf) in Hm.
  unfold base64_length in *.
  change ((secretbox_overheadLength + 2) / 3)%nat with 6%nat in Hm. lia.
Qed.

(** C19: the text of an envelope is not bound to its bytes: when the
    plaintext does not have 2 bytes more than a multiple of 3, changing one
    character of the message [encrypt] returned gives a text that is not
    the encoding of any bytes and that [decrypt], like [verify] and
    [decryptPSK], treats as the original, whatever the keys and the
    nonce. *)
Theorem decrypt_accepts_tampered_text msg pubkey privkey g e g' m :
  decodeUTF8 msg = Ok m -> (length m mod 3 <> 2)%nat ->
  encrypt msg pubkey privkey g = (Ok e, g') ->
  tamper (message e) <> message e
  /\ ~ base64_text (tamper (message e))
  /\ read_alike (tamper (message e)) (message e).
Proof.
  intros Hm Hl (m' & k & Hm' & ->)%encrypt_Ok_inv. cbn [message nonce].
  assert (m' = m) as -> by congruence.
  destruct (tamper_not_canonical _ (sealed_padded m (next_bytes box_nonceLength g) k Hl)).
  split_and!; [done | done | apply tamper_read_alike].
Qed.

End wire.

(** ** On the model *)

Example dawn_tampered :
  tamper (message dawn) <> message dawn
  /\ decrypt (tamper (message dawn)) (nonce dawn)
       (publickey (created alice)) (privatekey (created bob))
     = Ok (js "retreat at dawn").
Proof. split; [decide_by_computation | vm_compute; reflexivity]. Qed.

Lemma envelope_sizes_witness :
  wf_string (js "retreat at dawn")
  /\ exists m,
       decodeUTF8 (js "retreat at dawn") = Ok m
       /\ length (message dawn) = base64_length (secretbox_overheadLength + length m)
       /\ (length (message dawn) <= 4 * length (js "retreat at dawn") + 24)%nat
       /\ length (nonce dawn) = 32%nat.
Proof.
  assert (Hwf : wf_string (js "retreat at dawn")) by decide_by_computation.
  assert (Hrun : encrypt (js "retreat at dawn") (publickey (created bob))
                   (privatekey (created alice)) later
                 = (Ok dawn, advance 24 later)) by (vm_compute; reflexivity).
  split; [exact Hwf | exact (envelope_sizes _ _ _ _ _ _ Hwf Hrun)].
Defined.

Lemma decrypt_accepts_tampered_text_witness :
  tamper (message dawn) <> message dawn
  /\ ~ base64_text (tamper (message dawn))
  /\ read_alike (tamper (message dawn)) (message dawn).
Proof.
  assert (Hm : decodeUTF8 (js "retreat at dawn")
               = Ok (byte_of_Z <$> js "retreat at dawn")) by (vm_compute; reflexivity).
  assert (Hl : (length (byte_of_Z <$> js "retreat at dawn") mod 3 <> 2)%nat)
    by (vm_compute; discriminate).
  assert (Hrun : encrypt (js "retreat at dawn") (publickey (created bob))
                   (privatekey (created alice)) later
                 = (Ok dawn, advance 24 later)) by (vm_compute; reflexivity).
  exact (decrypt_accepts_tampered_text _ _ _ _ _ _ _ Hm Hl Hrun).
Defined.

Lemma signed_message_format_witness :
  let s := from_Ok [] (sign astral_text (privatekey (created alice))) in
  wf_string astral_text
  /\ enclosed s = Ok (strip_surrogates astral_text)
  /\ forall pubkey out,
       verify s pubkey = Ok (Some out) -> out = strip_surrogates astral_text.
Proof.
  assert (Hwf : wf_string astral_text) by decide_by_computation.
  assert (Hs : sign astral_text (privatekey (created alice))
               = Ok (from_Ok [] (sign astral_text (privatekey (created alice)))))
    by (vm_compute; reflexivity).
  split; [exact Hwf | exact (signed_message_format _ _ _ Hwf Hs)].
Defined.

(** The envelope and the private key both given as texts no encoder
    writes. *)
Example dawn_tampered_key :
  tamper (privatekey (created bob)) <> privatekey (created bob)
  /\ operation (CallDecrypt (tamper (message dawn)) (nonce dawn)
                  (publickey (created alice)) (tamper (privatekey (created bob)))) later
     = (Ok (RString (js "retreat at dawn")), later).
Proof. split; [decide_by_computation | vm_compute; reflexivity]. Qed.

Lemma operations_read_bytes_witness :
  operation (CallDecrypt (tamper (message dawn)) (nonce dawn)
               (publickey (created alice)) (tamper (privatekey (created bob)))) later
  = operation (CallDecrypt (message dawn) (nonce dawn)
                 (publickey (created alice)) (privatekey (created bob))) later.
Proof.
  apply operations_read_bytes. constructor; decide_by_computation.
Defined.
