(* ===== verification/Client.v ===== *)
(** * Client: a program that uses the module

    What a program that includes [src/saltshaker.js] sees, from the
    evaluation of the file to the results of its calls: the file is
    evaluated ([Loader.load]), the program calls the functions through the
    object that received them ([Exports.invoke]), one call after the other
    on the same random source ([calls_through]), and each result is judged
    by the contract ([ApiSpec.allowed], through [Refinement.implements]).
    The theorems compose what the other files prove of each of these
    parts. *)

From Stdlib Require Import ZArith Lia List String.
From stdpp Require Import base tactics option list numbers strings gmap.
From S2P Require Import Prelude JsPrims Decoder Utf8 Encoder Base64 Nacl NaclModel.
From S2P Require Import SaltShaker Loader Exports Session ApiSpec Refinement.

(** Four calls of a program in Node.js: two inside the contract, then
    [sign] with an unpaired surrogate and [create] with the empty string. *)
Definition errand : list call :=
  [CallCreate None; CallEncryptPSK (js "hi") (js "k");
   CallSign [0xD800%Z] []; CallCreate (Some [])].

Section client.
Context `{Primitives}.
Implicit Types (g : globals) (h : heap) (T : value) (c : call) (r : rng).

(** The calls [cs] made through the object [T], in order; every call is
    made, whatever the calls before it returned or threw.  [None] when a
    property of [T] holds a function that is not the module's. *)
Fixpoint calls_through g h T (cs : list call) r
  : option (list (result retval) * rng) :=
  match cs with
  | [] => Some ([], r)
  | c :: cs =>
      run ← invoke g h T c;
      rest ← calls_through g h T cs (run r).2;
      Some ((run r).1 :: rest.1, rest.2)
  end.

(** The state of the random source when the call number [i] runs. *)
Definition position g (cs : list call) (i : nat) r : rng :=
  advance (offset g cs i) r.

(** The verdict of the contract on each result of a sequence of calls. *)
Definition verdicts g (cs : list call) r (outs : list (result retval)) : list bool :=
  imap (fun i co => bool_decide (implements (position g cs i r) co.1 co.2))
    (zip cs outs).

(** Calls through an object whose properties are the module's functions
    are a session of these functions. *)
Lemma calls_through_session g h T b cs r :
  (forall c, invoke g h T c = Some (run_export g b c)) ->
  calls_through g h T cs r = Some (session g b cs r).
Proof.
  intros Hi. revert r. induction cs as [|c cs IH]; intros r; [reflexivity|].
  cbn [calls_through session]. rewrite Hi. cbn [mbind option_bind].
  rewrite IH. cbn [mbind option_bind].
  destruct (run_export g b c r) as [o r1]. cbn [fst snd].
  by destruct (session g b cs r1).
Qed.

(** Through an object that received the functions, in an environment that
    has the libraries, every call is made at its position and its result
    is one the contract allows exactly when the call is in the domain of
    the contract. *)
Lemma installed_conforms g h h' t lm cs r :
  installed (VRef lm) exports (VRef t) h h' -> is_Some (h !! t) ->
  func_of h (VRef lm) = Some FMd5 ->
  g_nacl g = Loaded -> g_ed2curve g = Loaded ->
  exists outs,
    calls_through g h' (VRef t) cs r = Some (outs, position g cs (length cs) r)
    /\ forall i c, cs !! i = Some c ->
         exists out, outs !! i = Some out
           /\ (implements (position g cs i r) c out <-> in_contract c).
Proof.
  intros Hinst Ht Hf Hn He. exists (session g Md5Genuine cs r).1. split.
  - rewrite (calls_through_session g h' _ Md5Genuine).
    + unfold position. rewrite <- (session_state g Md5Genuine).
      by destruct (session g Md5Genuine cs r).
    + intros c. rewrite run_export_loaded by assumption.
      exact (invoke_after_installed g h h' t lm c Hinst Ht Hf Hn He).
  - intros i c Hc. eexists. split; [exact (session_lookup g _ cs r i c Hc)|].
    apply result_implements_iff. unfold position. by rewrite run_export_loaded.
Qed.

(** The contract, run on the results of a session, accepts exactly the
    calls of its domain. *)
Lemma verdicts_session g cs r :
  g_nacl g = Loaded -> g_ed2curve g = Loaded ->
  verdicts g cs r (session g Md5Genuine cs r).1
  = (fun c => bool_decide (in_contract c)) <$> cs.
Proof.
  intros Hn He. apply list_eq. intros i. unfold verdicts.
  rewrite list_lookup_imap, list_lookup_fmap, lookup_zip_with.
  destruct (cs !! i) as [c|] eqn:Hc; [|reflexivity]. cbn [mbind option_bind].
  rewrite (session_lookup g _ cs r i c Hc). cbn. f_equal.
  apply bool_decide_ext, result_implements_iff. unfold position.
  by rewrite run_export_loaded.
Qed.

(** C13: a program that evaluates the file where [module.exports] is an
    object, with the MD5 library, [nacl] and [ed2curve] present, and then
    makes any calls through that object: the evaluation returns, every
    call is made, the random source advances by what the kinds of the calls
    take, and the result of each call is one the contract allows, for the
    state of the source at which the call ran, exactly when the call is in
    the domain of the contract. *)
Theorem client_conforms g h m t lib lm cs r :
  g_module g = Some m -> get_prop h m "exports" = Ok (VRef t) ->
  is_Some (h !! t) ->
  g_md5 g = Some lib -> get_prop h lib "md5" = Ok (VRef lm) ->
  func_of h (VRef lm) = Some FMd5 ->
  g_nacl g = Loaded -> g_ed2curve g = Loaded ->
  (load g h).1 = Ok tt
  /\ exists outs,
       calls_through g (loaded g h) (VRef t) cs r
       = Some (outs, position g cs (length cs) r)
       /\ forall i c, cs !! i = Some c ->
            exists out, outs !! i = Some out
              /\ (implements (position g cs i r) c out <-> in_contract c).
Proof.
  intros Hm He Ht Hl Hmd5 Hf Hn Hc.
  destruct (load_module_installed g h m t lib _ Hm He Ht Hl Hmd5) as [Hload Hinst].
  split; [exact Hload | exact (installed_conforms g h _ t lm cs r Hinst Ht Hf Hn Hc)].
Qed.

(** The same in a browser, where the evaluation creates
    [self.SaltShaker]. *)
Lemma client_conforms_self g h v sl o lib lm cs r :
  module_test g h = (Ok v, h) -> js_truthy v = false ->
  g_self g = Some (VRef sl) -> h !! sl = Some o ->
  js_truthy (default VUndefined (props o !! "SaltShaker")) = false ->
  g_md5 g = Some lib -> get_prop h lib "md5" = Ok (VRef lm) ->
  func_of h (VRef lm) = Some FMd5 ->
  g_nacl g = Loaded -> g_ed2curve g = Loaded ->
  exists T outs,
    get_prop (loaded g h) (VRef sl) "SaltShaker" = Ok T
    /\ calls_through g (loaded g h) T cs r = Some (outs, position g cs (length cs) r)
    /\ forall i c, cs !! i = Some c ->
         exists out, outs !! i = Some out
           /\ (implements (position g cs i r) c out <-> in_contract c).
Proof.
  intros Hv Hfalse Hs Ho Ht Hl Hmd5 Hf Hn He.
  pose proof (fresh_lookup h) as Hfresh.
  destruct (load_self_installed g h v sl o lib _ Hv Hfalse Hs Ho Ht Hl Hmd5)
    as [_ Hinst].
  destruct (installed_conforms g _ _ _ lm cs r Hinst) as (outs & Hcalls & Houts);
    try assumption.
  - rewrite attach_new by assumption. eauto.
  - cbn in *. rewrite callable_attach; [exact Hf | assumption | assumption|].
    destruct (h !! lm); [eauto | discriminate].
  - exists (VRef (fresh (dom h))), outs. split_and!; [|done..].
    exact (load_self_stored g h v sl o lib _ Hv Hfalse Hs Ho Ht Hl Hmd5).
Qed.

End client.

(** ** On the model *)

Example errand_runs :
  exists ks e ks',
    calls_through node_globals (loaded node_globals node_heap) (VRef 1) errand zero_rng
    = Some ([Ok (RKeys ks); Ok (REnvelope e); Throw (URIError "URI malformed");
             Ok (RKeys ks')], advance 88 zero_rng)
    /\ ks = created zero_rng /\ ks' = created (advance 56 zero_rng).
Proof. eexists _, _, _. split_and!; vm_compute; reflexivity. Qed.

(** The contract, run on the results: it accepts the first two. *)
Example errand_verdicts :
  verdicts node_globals errand zero_rng
    (session node_globals Md5Genuine errand zero_rng).1
  = [true; true; false; false].
Proof. vm_compute. reflexivity. Qed.

Example errand_in_contract :
  Forall in_contract (take 2 errand)
  /\ Forall (fun c => ~ in_contract c) (drop 2 errand).
Proof. split; repeat constructor; decide_by_computation. Qed.

Lemma client_conforms_witness :
  (load node_globals node_heap).1 = Ok tt
  /\ exists outs,
       calls_through node_globals (loaded node_globals node_heap) (VRef 1) errand zero_rng
       = Some (outs, position node_globals errand (length errand) zero_rng)
       /\ forall i c, errand !! i = Some c ->
            exists out, outs !! i = Some out
              /\ (implements (position node_globals errand i zero_rng) c out
                  <-> in_contract c).
Proof.
  apply (client_conforms node_globals node_heap (VRef 0) 1 (VRef 10) 11);
    try (vm_compute; reflexivity).
  decide_by_computation.
Defined.
